(* ===== verification/_CoqProject ===== *)
-Q . S2P
Prelude.v
Json.v
GoStrings.v
NetAddr.v
Config.v
Outbound.v
Protocol.v
Preparation.v
Runtime.v
Events.v
Check.v
CheckLoop.v
CheckResult.v
Floats.v
Tls.v
TcpCheck.v
HttpCheck.v
Pinger.v
PingCheck.v
Commands.v
CommandLine.v
Plugin.v
Connection.v
Distributor.v
Scheduler.v
Gauge.v
Session.v
HostInfo.v
Participant.v
Stream.v
Process.v
Agent.v
AgentSafety.v
Server.v
ServerSafety.v
Endpoint.v
EndpointSafety.v
TwoPhase.v
Agreement.v
Delivery.v
Network.v
Dialogue.v
Listening.v
NetworkSafety.v
System.v
Reconnect.v
Witnesses.v
Races.v
EndpointWitnesses.v
ProbeWitnesses.v
