(* ===== verification/Prelude.v ===== *)
(** * The Rackspace monitoring poller

    A poller runs checks (ping, TCP, HTTP, plugins) in the private zones it is
    configured for, and posts their results to endpoints, which tell it in a
    two-phase exchange what to check.  This development models the program of
    src/ and proves what makes its parts right, and where they are not.

    ** The parts, and how they interact

    - _Foundations._ [Prelude]: the computations [go S A] of one goroutine over
      a state, which return or halt at a fault; loops, ranges over maps in any
      order, machine integers.  [Json]: documents with the decoding and
      encoding of encoding/json.  [GoStrings], [NetAddr]: the functions of
      strings and net that are called.  [Runtime]: contexts, timers and
      src/utils/timestamp.go.  [Floats]: binary64, from SpecFloat.
    - _Configuration_ (src/config): [Config].  _Messages_ (src/protocol):
      [Protocol], frames and messages with their codecs.
    - _Checks_ (src/check): [Check], construction and the common part;
      [CheckResult], metrics, states and what is posted; the runs in
      [PingCheck] over [Pinger], [TcpCheck], [HttpCheck], [Plugin], with [Tls];
      [CheckLoop], the timer of a scheduled check (runCheckTimerLoop);
      [Commands], the rounds of the commands verify and ping (src/commands).
    - _The program_ (src/poller.go, src/commands): [CommandLine], its log, its
      signals, its commands and its service.
    - _The poller_ (src/poller): [Preparation], the checks announced by an
      endpoint; [Scheduler], the table of checks of a zone ([Gauge]: what its
      gauges say of it); [Session], the handlers of a connection; [HostInfo],
      its handler of host information (src/hostinfo); [Stream], the connections, their coordinator and the
      goroutine of an address; [Connection], one connection, the wrapper of
      src/utils/smart_conn.go and the buffer of src/utils/io.go;
      [Distributor], StatsD; [Outbound], services, TLS roots
      (src/config/certs.go) and the metrics pusher; [Process], the process
      from Run to its end.
    - _The endpoint_ (src/endpoint): [Agent], what it keeps of a poller;
      [Server], the tracker of agents, the handling of a frame and the routing
      of metrics; [Endpoint], the process: its start, the connections it
      accepts, the goroutines of each.  [AgentSafety], [ServerSafety] and
      [EndpointSafety] prove when a turn of these panics and what stays true
      of their state.  [Events] (src/utils/events.go) is the registry of
      consumers that sessions and streams embed.
    - _Composition._ [Participant]: a session against the participant of a
      two-phase commit; [TwoPhase]: a whole transaction through session,
      stream and schedulers; [Agreement]: an agent of the endpoint and a
      session of the poller over a connection, for one transaction;
      [Network]: the same in any interleaving of their goroutines, proved from
      what the agent says ([Dialogue]) and what a session that hears a part of
      it does ([Listening]) in [NetworkSafety]; [System]: these with the stream
      and the schedulers behind the session, [Reconnect]: this over one
      connection after another; [Delivery]: a measurement on its way from a
      check to the router of the endpoint.  [Witnesses], [Races],
      [EndpointWitnesses], [ProbeWitnesses]: concrete runs on which the
      theorems are applied.

    A frame goes from an [agent] into the [Session], which validates and hands
    over a preparation through the class [ChecksReconciler] (of [Preparation]);
    [Stream] is its instance and passes it to the [Scheduler] of each zone,
    which makes the checks that [CheckLoop] runs.  A result goes from a run
    through [Stream] over the connection with the least latency (class
    [Connection] of [Stream], instance: a session) to [Server], which splits it
    into metrics.  [PingCheck] is proved against the class [Pinging], of which
    the ICMP pinger is the instance.

    ** State and operations

    The record of a component has the fields of its struct; a channel is the
    list of what it holds, a send on a full one halts at [Blocked]; a pointer
    is an option, [deref] of None is the fault [NilDeref], which ends the
    process.  A function of the source is a definition of the same name (with
    a prefix of the component where a name occurs twice).  A goroutine is one
    definition per turn of its loop; their interleavings are the relations
    [session_step], [sched_step], [net_step], [sys_step], [life_step] and the events of
    [Endpoint], of [Process] and of [CommandLine], over which invariants are proved by induction.  What comes from
    outside (the network, files, the clock, random numbers, regular
    expressions, certificates, parsers of URIs) is an argument or a script of
    what is read.  A range over a map takes an order from the class [MapRange],
    so theorems hold for every order.

    ** What the theorems show

    - _The exchange._ A transaction that an endpoint sends to an idle session is
      answered, committed and run by the schedulers (TwoPhase); the endpoint
      records as committed exactly what the poller runs (Agreement); in every
      interleaving, bundles announced over one another and expired timers
      included, what it has recorded are the checks of the last preparation
      handed over whose answer has reached it, and nothing the endpoint
      sends makes a session fault or block (NetworkSafety); what each scheduler
      runs are the preparations handed over, whole and in order, so that it comes
      to what the endpoint records (System); the same over any number of lost
      connections, except that a scheduler that comes late to a reset runs
      nothing (Reconnect), and both ways in which the two ends can be left apart
      (Races); a session refines the participant, and faults exactly on given
      frames (Participant); preparations are complete exactly when each declared
      check has a definition (Preparation).
    - _The schedulers._ The table after a reconciliation, which loops run, when
      a reconciliation returns, that a reset stops all (Scheduler), but leaves the
      gauges too high (Gauge); that runs of
      a check are spaced, never overlap and end with it (CheckLoop).
    - _The stream and the process._ Preparations reach every zone, the loss of
      the last connection stops all checks (Stream); when the process ends by
      itself and when a shutdown goes through (Process); when certificates are
      not verified (Outbound); which requests for host information are answered
      (HostInfo); which signals end which command (CommandLine).
    - _The runs._ A ping is answered by its own reply and every reception ends;
      a ping check ends and reports its counts and times; a TCP check closes
      what it opens, does not depend on how bytes arrive, and crashes exactly on
      given expressions; what an HTTP and a plugin check report, and that a
      printed metric is read back.
    - _The endpoint._ The measurements that a poller posts reach the router,
      each one once (Delivery); answers reach the agent they are for, metrics
      are split one by one (Server), checks are announced in blocks and files
      are loaded (Agent).  From its start on the endpoint stays well formed, it
      panics in four cases only, and the handler of a connection returns
      exactly when a frame that it refuses, or the last one, gets to it
      (EndpointSafety).
    - _Data._ Configurations, round trips of frames, matching of responses,
      heartbeats, the registry of events, StatsD calls, time-outs.

    Theorems that describe a defect say exactly when it occurs.

    ** Bounds and fuel

    Loops are structural: over the list of what is read, the responses, the
    queries, the iterations of a run.  [timer_loop] of CheckLoop takes the
    number of runs, and its theorem says how many are enough for it to return;
    [hex_digits] of Agent has 16 digits, enough for 64 bits.
    Integers have the width of the source and wrap by [to_u64] and [to_i64];
    binary64 has precision 53 and exponents up to 1024.  The buffer of a
    bufio reader has 4096 bytes, a line of a scanner less than 65536, as in
    Go's library.  The connection of [Network] loses nothing and keeps the
    order, and an agent there uses less than 2^63 identifiers ([ids_ample]).  In
    [System] a preparation goes to all schedulers in one step once each has
    room, and a connection stays registered.  In [Reconnect] there is one
    session at a time: one that has been replaced takes no more turns, and the
    loss of a connection tells all schedulers to reset once each has room.
    [pretty] prints integers of any size.

    ** Not modelled

    Logging, but for where it goes, and String methods that only it calls; the
    parsing of flags, which a library does; the text of JSON, documents being
    values of [json]; the registration of Prometheus collectors beyond the calls of counters and gauges;
    check.schedule.get, which nothing sends; the helpers of
    src/utils/collections.go, which nothing calls; test helpers and mocks.
    Third-party libraries (gopsutil, ICMP and TLS codecs, StatsD, the regular
    expressions) are arguments. *)
From stdpp Require Export base tactics gmap sets list strings pretty fin_maps.
From Stdlib Require Export Ascii ZArith Lia.

(** * Go values

    A pointer, interface or slice that may be nil is an [option].  A Go
    [string] is a byte string, so [String.string] is used as it is. *)

(** ** Computations that may fault

    [go S A] is a computation of type [A] over the state [S] of one goroutine.
    It either returns, or halts at a fault with the state reached so far: a
    nil dereference, an explicit panic, closing a closed channel, a negative
    capacity, an index out of range, or a channel operation on which the
    goroutine blocks. *)
Inductive fault :=
| NilDeref
| Panicked
| CloseOfClosed
| NegativeCap
| OutOfRange
| Blocked.

#[export] Instance fault_eq_dec : EqDecision fault.
Proof. solve_decision. Defined.

(** A Go [error] is the text it prints; nil is [None]. *)
Abbreviation error := string (only parsing).

Inductive outcome (S A : Type) : Type :=
| Ret (a : A) (s : S)
| Halt (f : fault) (s : S).
Arguments Ret {S A} a s.
Arguments Halt {S A} f s.

Definition go (S A : Type) : Type := S → outcome S A.

#[export] Instance go_ret (S : Type) : MRet (go S) := λ A a s, Ret a s.
#[export] Instance go_bind (S : Type) : MBind (go S) := λ A B k c s,
  match c s with
  | Ret a s' => k a s'
  | Halt f s' => Halt f s'
  end.

Section operations.
Context {S : Type}.

Definition get : go S S := λ s, Ret s s.
Definition gets {A} (f : S → A) : go S A := λ s, Ret (f s) s.
Definition modify (f : S → S) : go S unit := λ s, Ret tt (f s).
Definition halt {A} (f : fault) : go S A := λ s, Halt f s.

(** Dereferencing a pointer. *)
Definition deref {A} (p : option A) : go S A :=
  match p with Some a => mret a | None => halt NilDeref end.

(** [for _, x := range l { body }]. *)
Fixpoint for_each {A} (l : list A) (body : A → go S unit) : go S unit :=
  match l with
  | [] => mret ()
  | x :: l' => body x ;; for_each l' body
  end.

(** The same loop with a local variable [r] that the body updates. *)
Fixpoint for_fold {A R} (l : list A) (r : R) (body : R → A → go S R) : go S R :=
  match l with
  | [] => mret r
  | x :: l' => r' ← body r x; for_fold l' r' body
  end.

Definition when (b : bool) (c : go S unit) : go S unit := if b then c else mret ().

(** Run a computation on a part of the state. *)
Definition zoom {T A} (part : S → T) (put : T → S → S) (c : go T A) : go S A := λ s,
  match c (part s) with
  | Ret a t => Ret a (put t s)
  | Halt f t => Halt f (put t s)
  end.
End operations.

(** [defer]: [f] runs when [c] returns or panics. *)
Definition deferred {S A} (f : S → S) (c : go S A) : go S A := λ s,
  match c s with
  | Ret a s' => Ret a (f s')
  | Halt e s' => Halt e (f s')
  end.

(** Total correctness: [c] returns from [s], and the result satisfies [Q]. *)
Definition runs {S A} (c : go S A) (s : S) (Q : A → S → Prop) : Prop :=
  match c s with Ret a s' => Q a s' | Halt _ _ => False end.

Definition state_of {S A} (o : outcome S A) : S :=
  match o with Ret _ s => s | Halt _ s => s end.

Definition returns {S A} (o : outcome S A) : bool :=
  match o with Ret _ _ => true | Halt _ _ => false end.

Create HintDb golib.
Create Rewrite HintDb golib.

Section monad_laws.
Context {S : Type}.

Lemma bind_ret_l {A B} (a : A) (k : A → go S B) : (mret a ≫= k) = k a.
Proof. reflexivity. Qed.

Lemma bind_app {A B} (c : go S A) (k : A → go S B) s :
  (c ≫= k) s = match c s with Ret a s' => k a s' | Halt f s' => Halt f s' end.
Proof. reflexivity. Qed.

Lemma runs_ret {A} (c : go S A) s a s' Q :
  c s = Ret a s' → Q a s' → runs c s Q.
Proof. unfold runs. by intros ->. Qed.

Lemma runs_bind {A B} (c : go S A) (k : A → go S B) s Q :
  runs c s (λ a s', runs (k a) s' Q) → runs (c ≫= k) s Q.
Proof. unfold runs, mbind, go_bind. by destruct (c s). Qed.

Lemma runs_mono {A} (c : go S A) s (P Q : A → S → Prop) :
  runs c s P → (∀ a s', P a s' → Q a s') → runs c s Q.
Proof. unfold runs. destruct (c s); naive_solver. Qed.

(** The loop rule: an invariant over the elements not yet visited. *)
Lemma runs_for_each {A} (I : list A → S → Prop) (body : A → go S unit) l s :
  I l s →
  (∀ x l' s, I (x :: l') s → runs (body x) s (λ _ s', I l' s')) →
  runs (for_each l body) s (λ _ s', I [] s').
Proof.
  intros HI Hbody. revert s HI.
  induction l as [|x l IH]; intros s HI; [done|].
  apply runs_bind. eapply runs_mono; [by apply Hbody|]. naive_solver.
Qed.

Lemma runs_for_fold {A R} (I : list A → R → S → Prop) (body : R → A → go S R) l r s :
  I l r s →
  (∀ x l' r s, I (x :: l') r s → runs (body r x) s (λ r' s', I l' r' s')) →
  runs (for_fold l r body) s (λ r' s', I [] r' s').
Proof.
  intros HI Hbody. revert r s HI.
  induction l as [|x l IH]; intros r s HI; [done|].
  apply runs_bind. eapply runs_mono; [by apply Hbody|]. naive_solver.
Qed.

(** Partial correctness: [c] may wait for ever, but it does not panic. *)
Definition safe {A} (c : go S A) (s : S) (Q : A → S → Prop) : Prop :=
  match c s with Ret a s' => Q a s' | Halt f _ => f = Blocked end.

Lemma safe_ret {A} (a : A) s (Q : A → S → Prop) : Q a s → safe (mret a) s Q.
Proof. done. Qed.
Lemma safe_bind {A B} (c : go S A) (k : A → go S B) s Q :
  safe c s (λ a s', safe (k a) s' Q) → safe (c ≫= k) s Q.
Proof. unfold safe, mbind, go_bind. by destruct (c s). Qed.
Lemma safe_mono {A} (c : go S A) s (P Q : A → S → Prop) :
  safe c s P → (∀ a s', P a s' → Q a s') → safe c s Q.
Proof. unfold safe. destruct (c s); naive_solver. Qed.
Lemma safe_gets {A} (f : S → A) s (Q : A → S → Prop) : Q (f s) s → safe (gets f) s Q.
Proof. done. Qed.
Lemma safe_modify f s (Q : unit → S → Prop) : Q () (f s) → safe (modify f) s Q.
Proof. done. Qed.
Lemma safe_blocked {A} s (Q : A → S → Prop) : safe (halt Blocked) s Q.
Proof. done. Qed.
Lemma safe_runs {A} (c : go S A) s Q : runs c s Q → safe c s Q.
Proof. unfold runs, safe. by destruct (c s). Qed.

(** A computation that panics: it halts other than by waiting. *)
Definition panics {A} (o : outcome S A) : Prop :=
  match o with Ret _ _ => False | Halt f _ => f ≠ Blocked end.

Lemma safe_no_panic {A} (c : go S A) s Q : safe c s Q → ¬ panics (c s).
Proof. unfold safe, panics. destruct (c s); naive_solver. Qed.
Lemma no_panic_safe {A} (c : go S A) s : ¬ panics (c s) → safe c s (λ a s', c s = Ret a s').
Proof. unfold safe, panics. destruct (c s) as [|f ?]; [done|]. intros Hn. by destruct (decide (f = Blocked)). Qed.

(** An outcome that is a panic when [P] holds, and a return otherwise. *)
Definition reacts {A} (P : Prop) (o : outcome S A) : Prop :=
  (P ∧ panics o) ∨ (¬ P ∧ returns o = true).

Lemma reacts_iff {A} P (o : outcome S A) : reacts P o → panics o ↔ P.
Proof. intros [[]|[Hn Hr]]; [done|]. split; [|done]. by destruct o. Qed.
Lemma reacts_change {A} P P' (o : outcome S A) : (P ↔ P') → reacts P o → reacts P' o.
Proof. unfold reacts. tauto. Qed.
Lemma reacts_bind {A B} P (c : go S A) (k : A → go S B) s :
  reacts P (c s) → (∀ a s', ¬ P → c s = Ret a s' → returns (k a s') = true) → reacts P ((c ≫= k) s).
Proof.
  intros Hc Hk. unfold reacts. rewrite bind_app. destruct Hc as [[HP Hp]|[HP Hr]].
  - left. split; [done|]. by destruct (c s).
  - right. split; [done|]. destruct (c s); [by apply Hk|done].
Qed.
Lemma reacts_for_fold {A R} (P : A → Prop) (body : R → A → go S R) l r s :
  (∀ r x s, reacts (P x) (body r x s)) → reacts (Exists P l) (for_fold l r body s).
Proof.
  intros Hb. revert r s. induction l as [|x l IH]; intros r s.
  - right. split; [by intros ?%Exists_nil|done].
  - cbn [for_fold]. unfold reacts. rewrite bind_app, Exists_cons.
    destruct (Hb r x s) as [[HP Hp]|[HP Hr]].
    + left. split; [by left|]. by destruct (body r x s).
    + destruct (body r x s) as [r' s'|]; [|done]. destruct (IH r' s') as [[]|[]]; [left|right]; tauto.
Qed.

(** An invariant that holds whether or not the computation faults. *)
Definition keeps {A} (I : S → Prop) (c : go S A) : Prop := ∀ s, I s → I (state_of (c s)).

Lemma keeps_ret {A} I (a : A) : keeps I (mret a).
Proof. by intros s. Qed.
Lemma keeps_halt {A} I f : keeps I (@halt S A f).
Proof. by intros s. Qed.
Lemma keeps_gets {A} I (f : S → A) : keeps I (gets f).
Proof. by intros s. Qed.
Lemma keeps_deref {A} I (p : option A) : keeps I (deref p).
Proof. destruct p; by intros s. Qed.
Lemma keeps_modify I (f : S → S) : (∀ s, I s → I (f s)) → keeps I (modify f).
Proof. intros H s. apply H. Qed.
Lemma keeps_bind {A B} I (c : go S A) (k : A → go S B) :
  keeps I c → (∀ a, keeps I (k a)) → keeps I (c ≫= k).
Proof.
  intros Hc Hk s HI. rewrite bind_app. specialize (Hc s HI).
  destruct (c s); [by apply Hk|done].
Qed.
Lemma keeps_for_each {A} I (l : list A) body :
  (∀ x, x ∈ l → keeps I (body x)) → keeps I (for_each l body).
Proof.
  induction l as [|x l IH]; intros H; [apply keeps_ret|].
  apply keeps_bind; [apply H; by left|]. intros _. apply IH. intros y Hy. apply H. by right.
Qed.
Lemma keeps_for_fold {A R} I (l : list A) (r : R) body :
  (∀ r x, x ∈ l → keeps I (body r x)) → keeps I (for_fold l r body).
Proof.
  revert r. induction l as [|x l IH]; intros r H; [apply keeps_ret|].
  apply keeps_bind; [apply H; by left|]. intros r'. apply IH. intros r2 y Hy. apply H. by right.
Qed.

Lemma keeps_zoom {T A} (I : S → Prop) (part : S → T) put (c : go T A) :
  (∀ t s, I s → I (put t s)) → keeps I (zoom part put c).
Proof. intros H s HI. unfold zoom. destruct (c (part s)); by apply H. Qed.
Lemma keeps_when I b c : keeps I c → keeps I (when b c).
Proof. intros H. destruct b; [done|apply keeps_ret]. Qed.

Lemma for_each_app {A} (l1 l2 : list A) (body : A → go S unit) s :
  for_each (l1 ++ l2) body s = (for_each l1 body ;; for_each l2 body) s.
Proof.
  revert s. induction l1 as [|x l1 IH]; intros s; [done|].
  cbn. unfold mbind, go_bind. destruct (body x s) as [[] s'|]; [|done].
  by rewrite IH.
Qed.
End monad_laws.

(** Steps through a computation that does not panic. *)
Ltac safe_step :=
  match goal with
  | |- safe (mbind _ _) _ _ => apply safe_bind
  | |- safe (mret _) _ _ => apply safe_ret
  | |- safe (gets _) _ _ => apply safe_gets
  | |- safe (modify _) _ _ => apply safe_modify
  | |- safe (halt Blocked) _ _ => apply safe_blocked
  end.

(** ** Ranging over a map

    Go visits the entries of a map in an unspecified order.  A definition that
    ranges over a map takes that order as a parameter; every theorem holds for
    every order. *)
Class MapRange := {
  range : ∀ {K V : Type} `{Countable K}, gmap K V → list (K * V);
  range_perm : ∀ {K V : Type} `{Countable K} (m : gmap K V),
    range m ≡ₚ map_to_list m
}.

Definition some_order : MapRange :=
  {| range := λ K V _ _ m, map_to_list m;
     range_perm := λ K V _ _ m, Permutation_refl (map_to_list m) |}.

Section map_range.
Context `{MapRange}.
Context {K V : Type} `{Countable K}.

Lemma elem_of_range (m : gmap K V) k v : (k, v) ∈ range m ↔ m !! k = Some v.
Proof. by rewrite range_perm, elem_of_map_to_list. Qed.

Lemma NoDup_range (m : gmap K V) : NoDup (range m).*1.
Proof. rewrite range_perm. apply NoDup_fst_map_to_list. Qed.

Lemma length_range (m : gmap K V) : length (range m) = size m.
Proof. by rewrite range_perm, length_map_to_list. Qed.

Lemma list_to_map_range (m : gmap K V) : list_to_map (range m) = m.
Proof.
  etrans; [|apply list_to_map_to_list]. apply list_to_map_proper.
  - apply NoDup_range.
  - apply range_perm.
Qed.

Lemma range_empty : range (∅ : gmap K V) = [].
Proof. apply Permutation_nil_r. by rewrite range_perm, map_to_list_empty. Qed.
End map_range.

(** The same for a [map[K]struct{}], a set. *)
Section range_keys.
Context `{MapRange}.
Context {K : Type} `{Countable K}.

Definition range_keys (X : gset K) : list K := (range (gset_to_gmap () X)).*1.

Lemma elem_of_range_keys X k : k ∈ range_keys X ↔ k ∈ X.
Proof.
  unfold range_keys. rewrite list_elem_of_fmap. split.
  - intros ([? []] & -> & Hr). apply elem_of_range, lookup_gset_to_gmap_Some in Hr. tauto.
  - intros Hk. exists (k, ()). split; [done|].
    apply elem_of_range. by apply lookup_gset_to_gmap_Some.
Qed.
Lemma NoDup_range_keys X : NoDup (range_keys X).
Proof. apply NoDup_range. Qed.
End range_keys.

(** ** Machine-width integers

    An integer of width [w] is a [Z]; arithmetic wraps with these functions. *)
Definition wrap_unsigned (w z : Z) : Z := z mod 2 ^ w.
Definition wrap_signed (w z : Z) : Z := (z + 2 ^ (w - 1)) mod 2 ^ w - 2 ^ (w - 1).

Definition to_u64 (z : Z) : Z := wrap_unsigned 64 z.
Definition to_i64 (z : Z) : Z := wrap_signed 64 z.

Definition is_u64 (z : Z) : Prop := (0 ≤ z < 2 ^ 64)%Z.
Definition is_i64 (z : Z) : Prop := (- 2 ^ 63 ≤ z < 2 ^ 63)%Z.

Definition max_i64 : Z := (2 ^ 63 - 1)%Z.

#[export] Instance is_u64_dec z : Decision (is_u64 z).
Proof. unfold is_u64. apply _. Defined.
#[export] Instance is_i64_dec z : Decision (is_i64 z).
Proof. unfold is_i64. apply _. Defined.

Section machine_ints.
Local Open Scope Z_scope.

Lemma pow_64 : 2 ^ 64 = 18446744073709551616. Proof. reflexivity. Qed.
Lemma pow_63 : 2 ^ 63 = 9223372036854775808. Proof. reflexivity. Qed.

Lemma to_u64_range z : is_u64 (to_u64 z).
Proof. unfold is_u64, to_u64, wrap_unsigned. apply Z.mod_pos_bound. lia. Qed.

Lemma to_u64_id z : is_u64 z → to_u64 z = z.
Proof. unfold is_u64, to_u64, wrap_unsigned. apply Z.mod_small. Qed.

Lemma to_i64_range z : is_i64 (to_i64 z).
Proof.
  unfold is_i64, to_i64, wrap_signed. replace (64 - 1) with 63 by lia.
  pose proof (Z.mod_pos_bound (z + 2 ^ 63) (2 ^ 64)).
  rewrite pow_63, pow_64 in *. lia.
Qed.

Lemma to_i64_id z : is_i64 z → to_i64 z = z.
Proof.
  unfold is_i64, to_i64, wrap_signed. intros Hz.
  replace (64 - 1) with 63 by lia.
  rewrite pow_63, pow_64 in *. rewrite Z.mod_small; lia.
Qed.

(** Conversions between [int], [int64] and [uint64] keep the bits. *)
Lemma to_u64_to_i64 z : is_u64 z → to_u64 (to_i64 z) = z.
Proof.
  unfold is_u64, to_u64, to_i64, wrap_unsigned, wrap_signed. intros Hz.
  replace (64 - 1) with 63 by lia. rewrite pow_63, pow_64 in *.
  rewrite Zminus_mod_idemp_l.
  replace (z + 9223372036854775808 - 9223372036854775808) with z by lia.
  by apply Z.mod_small.
Qed.
End machine_ints.

#[export] Hint Resolve keeps_ret keeps_halt keeps_gets keeps_deref : golib.
#[export] Hint Resolve to_u64_range to_i64_range : golib.
#[export] Hint Rewrite to_u64_id to_i64_id using assumption : golib.

(** ** Byte strings *)
Section strings.
(** [strings.ToLower] and [strings.EqualFold] on ASCII letters. *)
Definition ascii_lower (c : ascii) : ascii :=
  let n := nat_of_ascii c in
  if decide (65 ≤ n ≤ 90) then ascii_of_nat (n + 32) else c.

Fixpoint to_lower (s : string) : string :=
  match s with
  | EmptyString => EmptyString
  | String c s' => String (ascii_lower c) (to_lower s')
  end.

Definition equal_fold (s t : string) : bool :=
  bool_decide (to_lower s = to_lower t).

(** [s\[:n\]]: the first [n] bytes. *)
Fixpoint str_take (n : nat) (s : string) : string :=
  match n, s with
  | S n', String c s' => String c (str_take n' s')
  | _, _ => EmptyString
  end.

Lemma str_take_length n s : String.length (str_take n s) = n `min` String.length s.
Proof. revert s. induction n; intros [|c s]; cbn; auto. Qed.

Lemma str_take_ge n s : String.length s ≤ n → str_take n s = s.
Proof.
  revert s. induction n as [|n IH]; intros [|c s]; cbn; intros; try done; [lia|].
  f_equal. apply IH. lia.
Qed.

Lemma str_take_prefix n s : ∃ rest, s = (str_take n s +:+ rest)%string.
Proof.
  revert s. induction n as [|n IH]; intros [|c s]; cbn; eauto.
  destruct (IH s) as [rest E]. exists rest. exact (f_equal (String c) E).
Qed.

Lemma str_length_app s t :
  String.length (s +:+ t)%string = String.length s + String.length t.
Proof. induction s as [|c s IH]; [done|]. exact (f_equal S IH). Qed.
End strings.

(** ** Tactics *)

(** Split the innermost scrutinee of the goal or of a hypothesis. *)
Ltac split_match :=
  match goal with
  | |- context [ match ?x with _ => _ end ] =>
      lazymatch x with
      | context [ match _ with _ => _ end ] => fail
      | _ => destruct x eqn:?
      end
  | H : context [ match ?x with _ => _ end ] |- _ =>
      lazymatch x with
      | context [ match _ with _ => _ end ] => fail
      | _ => destruct x eqn:?
      end
  end.

Ltac go_step := unfold mbind, mret, go_bind, go_ret, get, gets, modify, halt in *; cbn in *.

(** Proves that a computation keeps an invariant that none of its elementary
    operations touches. *)
Ltac keeps_auto :=
  repeat first
    [ apply keeps_ret | apply keeps_halt | apply keeps_gets | apply keeps_deref
    | apply keeps_modify; by intros | apply keeps_zoom; by intros
    | apply keeps_bind; [|intros ?] | apply keeps_when | case_match ].
