(* ===== verification/Json.v ===== *)
(** JSON values and the struct encoding and decoding of Go's [encoding/json],
    as far as the protocol uses it.

    A value of type [json] is a parsed document: a [json.RawMessage] that
    reached the program came out of a decoder, so it is well formed.  Decoding
    follows [json.Unmarshal] into an existing value: object members are visited
    in order, a key selects the field with that exact name, else the first one
    that is equal up to ASCII case; an unknown key is skipped; [null] leaves a
    plain value alone and clears a pointer, slice or map; a value of the wrong
    type leaves the field alone and is reported, but decoding goes on with the
    rest of the document.  Strings are taken to be valid UTF-8. *)
From S2P Require Export Prelude.

Inductive json :=
| JNull
| JBool (b : bool)
| JInt (z : Z)
| JFrac (literal : string)
| JStr (s : string)
| JArr (l : list json)
| JObj (members : list (string * json)).

(** A decoder receives the value already present, and gives back the value
    after decoding and whether no error was met. *)
Record codec (A : Type) := Codec {
  enc : A → json;
  dec : json → A → A * bool
}.
Arguments Codec {A}.
Arguments enc {A}.
Arguments dec {A}.

(** [json.Unmarshal(raw, &x)] *)
Definition Unmarshal {A} (c : codec A) (raw : json) (x : A) : A * bool := dec c raw x.

(** The round trip of a codec on the values that satisfy [P], starting from
    the zero value [z]. *)
Class RoundTrips {A} (c : codec A) (z : A) (P : A → Prop) :=
  round_trip : ∀ x, P x → dec c (enc c x) z = (x, true).

(** ** Scalars *)
Definition c_string : codec string := {|
  enc := JStr;
  dec := λ j old, match j with
    | JStr s => (s, true)
    | JNull => (old, true)
    | _ => (old, false)
    end
|}.

Definition c_bool : codec bool := {|
  enc := JBool;
  dec := λ j old, match j with
    | JBool b => (b, true)
    | JNull => (old, true)
    | _ => (old, false)
    end
|}.

(** An integer type whose values are those that satisfy [in_range]. *)
Definition c_integer (in_range : Z → bool) : codec Z := {|
  enc := JInt;
  dec := λ j old, match j with
    | JInt z => if in_range z then (z, true) else (old, false)
    | JNull => (old, true)
    | _ => (old, false)
    end
|}.
Definition c_int : codec Z := c_integer (λ z, bool_decide (is_i64 z)).
Definition c_uint64 : codec Z := c_integer (λ z, bool_decide (is_u64 z)).

(** [json.RawMessage] and [*json.RawMessage]. *)
Definition c_raw : codec (option json) := {|
  enc := λ r, default JNull r;
  dec := λ j _, (Some j, true)
|}.
Definition c_raw_ptr : codec (option json) := {|
  enc := λ r, default JNull r;
  dec := λ j _, match j with JNull => (None, true) | _ => (Some j, true) end
|}.

(** ** Pointers, slices and maps *)
Definition c_ptr {A} (c : codec A) (zero : A) : codec (option A) := {|
  enc := λ p, match p with Some a => enc c a | None => JNull end;
  dec := λ j old, match j with
    | JNull => (None, true)
    | _ => let '(a, ok) := dec c j (default zero old) in (Some a, ok)
    end
|}.

(** Decoding into a slice starts from a fresh one here: the program only
    decodes slices into zero values.  A nil slice is the empty list. *)
Definition c_slice {A} (c : codec A) (zero : A) : codec (list A) := {|
  enc := λ l, JArr (enc c <$> l);
  dec := λ j old, match j with
    | JArr js => let r := (λ j, dec c j zero) <$> js in (r.*1, forallb id r.*2)
    | JNull => ([], true)
    | _ => (old, false)
    end
|}.

(** A slice that the program leaves nil when it has no elements. *)
Definition c_slice_nil {A} (c : codec A) (zero : A) : codec (list A) := {|
  enc := λ l, match l with [] => JNull | _ => enc (c_slice c zero) l end;
  dec := dec (c_slice c zero)
|}.

(** A Go map with string keys; [None] is the nil map.  The encoder writes the
    entries in the order of [map_to_list], where Go sorts the keys: decoding
    does not depend on the order of distinct keys. *)
Definition dec_entry {A} (c : codec A) (zero : A)
    (acc : gmap string A * bool) (kv : string * json) : gmap string A * bool :=
  let '(a, ok) := dec c kv.2 zero in (<[kv.1 := a]> acc.1, acc.2 && ok).

Definition c_map {A} (c : codec A) (zero : A) : codec (option (gmap string A)) := {|
  enc := λ m, match m with
    | None => JNull
    | Some m => JObj (prod_map id (enc c) <$> map_to_list m)
    end;
  dec := λ j old, match j with
    | JObj kvs =>
        let '(m, ok) := foldl (dec_entry c zero) (default ∅ old, true) kvs in (Some m, ok)
    | JNull => (None, true)
    | _ => (old, false)
    end
|}.

(** ** Structs

    Beside encoding and decoding, a field has [f_copy], which copies the field
    of one value into another, and [f_fresh], which says that the field of the
    value decoded into is still the zero value. *)
Record field (T : Type) := Field {
  f_name : string;
  f_enc : T → option json;
  f_dec : json → T → T * bool;
  f_copy : T → T → T;
  f_fresh : T → Prop
}.
Arguments Field {T}.
Arguments f_name {T}.
Arguments f_enc {T}.
Arguments f_dec {T}.
Arguments f_copy {T}.
Arguments f_fresh {T}.

(** [empty] tells the values that an [omitempty] field leaves out. *)
Definition mk_field_omit {T A} (name : string) (c : codec A) (zero : A) (empty : A → bool)
    (get : T → A) (set : A → T → T) : field T := {|
  f_name := name;
  f_enc := λ t, if empty (get t) then None else Some (enc c (get t));
  f_dec := λ j t, let '(a, ok) := dec c j (get t) in (set a t, ok);
  f_copy := λ t t0, set (get t) t0;
  f_fresh := λ t0, get t0 = zero ∧ set zero t0 = t0
|}.

Definition mk_field {T A} (name : string) (c : codec A) (zero : A)
    (get : T → A) (set : A → T → T) : field T :=
  mk_field_omit name c zero (λ _, false) get set.

Fixpoint find_name {T} (p : string → bool) (fs : list (field T)) : option (field T) :=
  match fs with
  | [] => None
  | f :: fs' => if p (f_name f) then Some f else find_name p fs'
  end.

Definition find_field {T} (fs : list (field T)) (key : string) : option (field T) :=
  match find_name (λ n, bool_decide (n = key)) fs with
  | Some f => Some f
  | None => find_name (equal_fold key) fs
  end.

Definition dec_member {T} (fs : list (field T)) (acc : T * bool) (kv : string * json)
    : T * bool :=
  match find_field fs kv.1 with
  | Some f => let '(t, ok) := f_dec f kv.2 acc.1 in (t, acc.2 && ok)
  | None => acc
  end.

Definition c_struct {T} (fs : list (field T)) : codec T := {|
  enc := λ t, JObj (omap (λ f, (λ j, (f_name f, j)) <$> f_enc f t) fs);
  dec := λ j old, match j with
    | JObj kvs => foldl (dec_member fs) (old, true) kvs
    | JNull => (old, true)
    | _ => (old, false)
    end
|}.

(** ** Round trips *)
Section round_trips.
#[export] Instance c_string_rt z : RoundTrips c_string z (λ _, True).
Proof. by intros x _. Qed.
#[export] Instance c_bool_rt z : RoundTrips c_bool z (λ _, True).
Proof. by intros x _. Qed.
#[export] Instance c_int_rt z : RoundTrips c_int z is_i64.
Proof. intros x Hx. cbn. by rewrite bool_decide_true. Qed.
#[export] Instance c_uint64_rt z : RoundTrips c_uint64 z is_u64.
Proof. intros x Hx. cbn. by rewrite bool_decide_true. Qed.
#[export] Instance c_raw_rt z : RoundTrips c_raw z is_Some.
Proof. by intros ? [j ->]. Qed.
#[export] Instance c_raw_ptr_rt z : RoundTrips c_raw_ptr z (λ r, r ≠ Some JNull).
Proof. by intros [[]|] H. Qed.

(** A pointer round-trips unless its target encodes to [null]. *)
#[export] Instance c_ptr_rt {A} (c : codec A) zero P `{!RoundTrips c zero P} :
  RoundTrips (c_ptr c zero) None (λ p, ∀ a, p = Some a → P a ∧ enc c a ≠ JNull).
Proof.
  intros [a|] H; [|done]. destruct (H a eq_refl) as [Ha Hn].
  pose proof (round_trip a Ha) as E. revert E Hn. cbn.
  destruct (enc c a); intros E Hn; try done; by rewrite E.
Qed.

#[export] Instance c_slice_rt {A} (c : codec A) zero P z `{!RoundTrips c zero P} :
  RoundTrips (c_slice c zero) z (Forall P).
Proof.
  intros l Hl. cbn. f_equal.
  - induction Hl as [|x l Hx _ IH]; [done|]. cbn. rewrite (round_trip x Hx). cbn.
    by rewrite IH.
  - induction Hl as [|x l Hx _ IH]; [done|]. cbn. by rewrite (round_trip x Hx).
Qed.

#[export] Instance c_slice_nil_rt {A} (c : codec A) zero P z `{!RoundTrips c zero P} :
  RoundTrips (c_slice_nil c zero) z (Forall P).
Proof. intros [|x l] Hl; [done|]. exact (c_slice_rt c zero P z (x :: l) Hl). Qed.

Lemma dec_entries {A} (c : codec A) zero P `{!RoundTrips c zero P} l m :
  Forall P l.*2 → NoDup l.*1 →
  foldl (dec_entry c zero) (m, true) (prod_map id (enc c) <$> l)
    = (list_to_map l ∪ m, true).
Proof.
  revert m. induction l as [|[k v] l IH]; intros m HP HN; cbn in *.
  - by rewrite (left_id_L ∅ (∪)).
  - apply Forall_cons in HP as [Hv HP]. apply NoDup_cons in HN as [Hk HN].
    unfold dec_entry at 2. cbn. rewrite (round_trip v Hv). cbn.
    rewrite IH by done. f_equal.
    rewrite <- insert_union_l, <- insert_union_r; [done|].
    by apply not_elem_of_list_to_map_1.
Qed.

#[export] Instance c_map_rt {A} (c : codec A) zero P `{!RoundTrips c zero P} :
  RoundTrips (c_map c zero) None (λ m, ∀ m', m = Some m' → map_Forall (λ _ a, P a) m').
Proof.
  intros [m|] Hm; cbn; [|done]. specialize (Hm m eq_refl).
  rewrite (dec_entries c zero P).
  - rewrite list_to_map_to_list. by rewrite (right_id_L ∅ (∪)).
  - apply Forall_fmap, Forall_forall. intros [k v] Hkv.
    apply elem_of_map_to_list in Hkv. by apply (Hm k v).
  - apply NoDup_fst_map_to_list.
Qed.
End round_trips.

(** ** Round trips of structs *)
Section struct_round_trip.
Context {T : Type} (fs : list (field T)).

Definition field_ok (P : T → Prop) (f : field T) : Prop :=
  ∀ t t0, P t → f_fresh f t0 →
    match f_enc f t with
    | Some j => f_dec f j t0 = (f_copy f t t0, true)
    | None => f_copy f t t0 = t0
    end.

(** Copying the fields one after another gives the value back. *)
Fixpoint copies (gs : list (field T)) (t t0 : T) : Prop :=
  match gs with
  | [] => t0 = t
  | f :: gs' => f_fresh f t0 ∧ copies gs' t (f_copy f t t0)
  end.

Lemma find_name_exact gs f :
  f ∈ gs → NoDup (@f_name T <$> gs) →
  find_name (λ n, bool_decide (n = f_name f)) gs = Some f.
Proof.
  induction gs as [|g gs IH]; intros Hf HN; [by apply not_elem_of_nil in Hf|].
  cbn in *. apply NoDup_cons in HN as [Hg HN]. apply elem_of_cons in Hf as [->|Hf].
  - by rewrite bool_decide_true.
  - rewrite bool_decide_false; [by apply IH|].
    intros E. apply Hg. rewrite E. by apply list_elem_of_fmap_2.
Qed.

Lemma dec_members P gs t t0 :
  NoDup (@f_name T <$> fs) → gs ⊆ fs → Forall (field_ok P) gs → P t → copies gs t t0 →
  foldl (dec_member fs) (t0, true) (omap (λ f, (λ j, (f_name f, j)) <$> f_enc f t) gs)
    = (t, true).
Proof.
  intros HN. revert t0. induction gs as [|f gs IH]; intros t0 Hsub Hok HP Hc; cbn in *.
  - by subst.
  - apply Forall_cons in Hok as [Hf Hok]. destruct Hc as [Hfr Hc].
    specialize (Hf t t0 HP Hfr). specialize (IH (f_copy f t t0)).
    destruct (f_enc f t) as [j|]; cbn.
    + unfold dec_member at 2. cbn. unfold find_field.
      rewrite (find_name_exact fs f (Hsub f (list_elem_of_here f gs)) HN).
      rewrite Hf. cbn. apply IH; try done. intros x Hx. apply Hsub. by right.
    + rewrite Hf in IH. rewrite Hf in Hc. apply IH; try done.
      intros x Hx. apply Hsub. by right.
Qed.

Lemma struct_round_trip (P : T → Prop) (z : T) :
  NoDup (@f_name T <$> fs) → Forall (field_ok P) fs → (∀ t, P t → copies fs t z) →
  RoundTrips (c_struct fs) z P.
Proof. intros HN Hok Hc t HP. exact (dec_members P fs t z HN (λ _ H, H) Hok HP (Hc t HP)). Qed.

Lemma mk_field_omit_ok {A} name (c : codec A) zero empty (get : T → A) set P Q :
  RoundTrips c zero Q → (∀ t, P t → empty (get t) = false → Q (get t)) →
  (∀ a, empty a = true → a = zero) →
  field_ok P (mk_field_omit name c zero empty get set).
Proof.
  intros Hrt HQ He t t0 HP [Hz Hs]. cbn. destruct (empty (get t)) eqn:E.
  - by rewrite (He _ E).
  - rewrite Hz. by rewrite (Hrt (get t) (HQ t HP E)).
Qed.

Lemma mk_field_ok {A} name (c : codec A) zero (get : T → A) set P Q :
  RoundTrips c zero Q → (∀ t, P t → Q (get t)) →
  field_ok P (mk_field name c zero get set).
Proof. intros Hrt HQ. apply (mk_field_omit_ok _ _ _ _ _ _ _ Q); naive_solver. Qed.
End struct_round_trip.

(** Proves the round trip of a struct from the round trips of its fields. *)
Ltac field_side_condition :=
  cbn; intros;
  repeat match goal with H : _ ∧ _ |- _ => destruct H end;
  first [ done | by repeat split | by eauto ].

Ltac struct_fields :=
  repeat first
    [ apply Forall_nil; exact I
    | apply Forall_cons; split;
      [ eapply mk_field_ok; [apply _ | field_side_condition] |] ].

Ltac struct_rt :=
  apply struct_round_trip;
  [ refine (bool_decide_eq_true_1 _ _); vm_compute; reflexivity
  | struct_fields
  | let t := fresh "t" in intros t _; destruct t; cbn; repeat split; reflexivity ].

(** A property of the value that every field keeps is kept by decoding. *)
Lemma find_name_in {T} p (fs : list (field T)) f : find_name p fs = Some f → f ∈ fs.
Proof. induction fs as [|g fs IH]; cbn; [done|]. case_match; [intros [= ->]; by left|right; auto]. Qed.

Lemma struct_keeps {T} (P : T → Prop) (fs : list (field T)) j t :
  Forall (λ f, ∀ j t, P t → P (f_dec f j t).1) fs → P t → P (dec (c_struct fs) j t).1.
Proof.
  intros Hf Ht. destruct j as [| | | | | |kvs]; try done. cbn.
  assert (∀ acc, P acc.1 → P (foldl (dec_member fs) acc kvs).1) as H; [|by apply H].
  induction kvs as [|kv kvs IH]; intros acc Hacc; [done|]. apply IH.
  unfold dec_member. destruct (find_field fs kv.1) as [f|] eqn:E; [|done].
  assert (f ∈ fs) as Hin.
  { unfold find_field in E. destruct (find_name _ fs) eqn:E1 in E.
    - injection E as ->. by apply find_name_in in E1.
    - by apply find_name_in in E. }
  rewrite Forall_forall in Hf. specialize (Hf f Hin kv.2 acc.1 Hacc).
  by destruct (f_dec f kv.2 acc.1).
Qed.
