(* ===== verification/GoStrings.v ===== *)
(** The functions of Go's [strings] package the program calls, on byte strings.
    White space is the ASCII white space (tab, line feed, vertical tab, form
    feed, carriage return, blank); letters are the ASCII letters. *)
From S2P Require Export Prelude.

Abbreviation chars := (list ascii).
Definition to_chars : string → chars := String.list_ascii_of_string.
Definition of_chars : chars → string := String.string_of_list_ascii.

(** Zeros before a text, as [fmt] pads a number. *)
Fixpoint zeros (n : nat) (s : string) : string :=
  match n with O => s | S n' => String "0"%char (zeros n' s) end.

Lemma of_to_chars s : of_chars (to_chars s) = s.
Proof. apply String.string_of_list_ascii_of_string. Qed.
Lemma to_of_chars l : to_chars (of_chars l) = l.
Proof. apply String.list_ascii_of_string_of_list_ascii. Qed.
#[export] Hint Rewrite of_to_chars to_of_chars : golib.
Lemma to_chars_app s t : to_chars (s +:+ t) = to_chars s ++ to_chars t.
Proof. induction s as [|c s IH]; [done|]. cbn. by rewrite <- IH. Qed.
Lemma length_to_chars s : length (to_chars s) = String.length s.
Proof. induction s as [|c s IH]; [done|]. cbn. by rewrite IH. Qed.

Definition is_space (c : ascii) : bool :=
  let n := nat_of_ascii c in bool_decide (n = 32 ∨ 9 ≤ n ≤ 13).

(** [s\[n:\]] *)
Fixpoint str_drop (n : nat) (s : string) : string :=
  match n, s with
  | S n', String _ s' => str_drop n' s'
  | _, _ => s
  end.

Fixpoint drop_while (p : ascii → bool) (l : chars) : chars :=
  match l with
  | [] => []
  | c :: l' => if p c then drop_while p l' else l
  end.

Definition TrimSpace (s : string) : string :=
  of_chars (reverse (drop_while is_space (reverse (drop_while is_space (to_chars s))))).

(** [strings.Split(s, sep)] for a separator of one byte. *)
Fixpoint split_chars (sep : ascii → bool) (l : chars) : list chars :=
  match l with
  | [] => [[]]
  | c :: l' =>
      if sep c then [] :: split_chars sep l'
      else match split_chars sep l' with
           | w :: ws => (c :: w) :: ws
           | [] => [[c]]
           end
  end.

Definition Split (s : string) (sep : ascii) : list string :=
  of_chars <$> split_chars (λ c, bool_decide (c = sep)) (to_chars s).

Definition Fields (s : string) : list string :=
  of_chars <$> filter (λ w, w ≠ []) (split_chars is_space (to_chars s)).

(** [strings.Join] *)
Fixpoint Join (l : list string) (sep : string) : string :=
  match l with
  | [] => ""
  | [x] => x
  | x :: l' => (x +:+ sep +:+ Join l' sep)%string
  end.

Fixpoint Repeat (s : string) (n : nat) : string :=
  match n with O => "" | S n' => (s +:+ Repeat s n')%string end.

Fixpoint HasPrefix (s prefix : string) : bool :=
  match prefix, s with
  | EmptyString, _ => true
  | String p prefix', String c s' => bool_decide (p = c) && HasPrefix s' prefix'
  | String _ _, EmptyString => false
  end.

(** [net.JoinHostPort] *)
Definition JoinHostPort (host port : string) : string :=
  if existsb (Ascii.eqb ":") (to_chars host) then ("[" +:+ host +:+ "]:" +:+ port)%string
  else (host +:+ ":" +:+ port)%string.

(** [strings.LastIndex(s, c)] for one byte; [None] is -1. *)
Fixpoint LastIndex (s : string) (c : ascii) : option nat :=
  match s with
  | EmptyString => None
  | String d s' =>
      match LastIndex s' c with
      | Some i => Some (S i)
      | None => if bool_decide (d = c) then Some 0 else None
      end
  end.

Definition occurs (c : ascii) (s : string) : Prop := c ∈ to_chars s.

Section lemmas.
Lemma drop_while_suffix p l : ∃ pre, l = pre ++ drop_while p l.
Proof.
  induction l as [|c l [pre IH]]; cbn; [by exists []|].
  destruct (p c); [|by exists []]. exists (c :: pre). cbn. by f_equal.
Qed.

Lemma drop_while_head p l c l' : drop_while p l = c :: l' → p c = false.
Proof.
  induction l as [|d l IH]; cbn; [done|]. destruct (p d) eqn:E; naive_solver.
Qed.

(** [TrimSpace] removes a prefix and a suffix, and nothing else. *)
Lemma trim_space_infix s :
  ∃ pre post, to_chars s = pre ++ to_chars (TrimSpace s) ++ post.
Proof.
  unfold TrimSpace. rewrite to_of_chars.
  destruct (drop_while_suffix is_space (to_chars s)) as [pre E1].
  set (m := drop_while is_space (to_chars s)) in *.
  destruct (drop_while_suffix is_space (reverse m)) as [post E2].
  exists pre, (reverse post). rewrite E1 at 1. f_equal.
  apply (f_equal reverse) in E2. by rewrite reverse_involutive, reverse_app in E2.
Qed.

Lemma occurs_trim c s : occurs c (TrimSpace s) → occurs c s.
Proof.
  unfold occurs. destruct (trim_space_infix s) as (pre & post & ->).
  rewrite !elem_of_app. tauto.
Qed.

Lemma last_index_none s c : LastIndex s c = None ↔ ¬ occurs c s.
Proof.
  unfold occurs. induction s as [|d s IH]; cbn; [set_solver|].
  rewrite elem_of_cons. destruct (LastIndex s c).
  - split; [done|]. intros Hn. exfalso. apply Hn. right.
    destruct (decide (c ∈ to_chars s)) as [|Hc]; [done|]. by apply IH in Hc.
  - case_bool_decide as Hd; split; try done.
    + intros Hn. exfalso. apply Hn. by left.
    + intros _ [->|Hc]; [done|]. by apply IH.
Qed.

(** What follows the last occurrence does not hold the byte. *)
Lemma last_index_some s c i :
  LastIndex s c = Some i →
  ¬ occurs c (str_drop (S i) s) ∧
  s = (str_take i s +:+ String c (str_drop (S i) s))%string.
Proof.
  revert i. induction s as [|d s IH]; intros i; cbn [LastIndex]; [done|].
  destruct (LastIndex s c) as [j|] eqn:E.
  - intros [= <-]. destruct (IH j eq_refl) as [Hn Hs].
    split; [done|]. exact (f_equal (String d) Hs).
  - case_bool_decide; [|done]. intros [= <-]. subst.
    split; [|done]. cbn. by apply last_index_none.
Qed.

Lemma last_index_app pre c post :
  ¬ occurs c post → LastIndex (pre +:+ String c post) c = Some (String.length pre).
Proof.
  intros Hn%last_index_none. induction pre as [|d pre IH].
  - change (LastIndex (String c post) c = Some 0). cbn. rewrite Hn. by rewrite bool_decide_true.
  - change (LastIndex (String d (pre +:+ String c post)) c = Some (S (String.length pre))).
    cbn [LastIndex]. by rewrite IH.
Qed.

Lemma str_drop_app pre c post : str_drop (String.length pre + 1) (pre +:+ String c post) = post.
Proof. rewrite Nat.add_1_r. induction pre as [|d pre IH]; [done|exact IH]. Qed.

Lemma split_chars_nonempty sep l : split_chars sep l ≠ [].
Proof. destruct l as [|c l]; cbn; [done|]. destruct (sep c); [done|]. by destruct (split_chars sep l). Qed.

(** The fields hold no white space, and are not empty. *)
Lemma split_chars_no_sep sep l w :
  w ∈ split_chars sep l → Forall (λ c, sep c = false) w.
Proof.
  revert w. induction l as [|c l IH]; cbn; intros w.
  - intros ->%list_elem_of_singleton. constructor.
  - destruct (sep c) eqn:E.
    + intros [->|Hw]%elem_of_cons; [constructor|by apply IH].
    + destruct (split_chars sep l) as [|w' ws] eqn:Es; [by apply split_chars_nonempty in Es|].
      intros [->|Hw]%elem_of_cons.
      * constructor; [done|]. apply IH. by left.
      * apply IH. by right.
Qed.
End lemmas.
