(* ===== verification/NetAddr.v ===== *)
(** Component: addresses.  Splitting a host and a port, as Go's [net] does,
    undoes joining them; the text of a single code point, as [string(n)] gives
    it. *)
From S2P Require Export GoStrings.

(** ** [net.SplitHostPort] *)
Fixpoint index_of (c : ascii) (l : chars) : option nat :=
  match l with
  | [] => None
  | d :: l' => if bool_decide (d = c) then Some 0 else S <$> index_of c l'
  end.
Definition last_index_of (c : ascii) (l : chars) : option nat :=
  (λ i, length l - 1 - i) <$> index_of c (reverse l).

Inductive split_error := MissingPort | TooManyColons | MissingBracket | UnexpectedOpen | UnexpectedClose.
Definition split_why (e : split_error) : string :=
  match e with
  | MissingPort => "missing port in address"
  | TooManyColons => "too many colons in address"
  | MissingBracket => "missing ']' in address"
  | UnexpectedOpen => "unexpected '[' in address"
  | UnexpectedClose => "unexpected ']' in address"
  end.
Definition colon : ascii := ":".
Definition bracket_open : ascii := "[".
Definition bracket_close : ascii := "]".

Definition split_host_port (l : chars) : (chars * chars) + split_error :=
  match last_index_of colon l with
  | None => inr MissingPort
  | Some i =>
      let port := drop (i + 1) l in
      if bool_decide (head l = Some bracket_open) then
        match index_of bracket_close l with
        | None => inr MissingBracket
        | Some close =>
            if bool_decide (close + 1 = length l) then inr MissingPort
            else if bool_decide (close + 1 = i) then
              if bool_decide (bracket_open ∈ drop 1 l) then inr UnexpectedOpen
              else if bool_decide (bracket_close ∈ drop (close + 1) l) then inr UnexpectedClose
              else inl (drop 1 (take close l), port)
            else if bool_decide (l !! (close + 1) = Some colon) then inr TooManyColons
            else inr MissingPort
        end
      else if bool_decide (colon ∈ take i l) then inr TooManyColons
      else if bool_decide (bracket_open ∈ l) then inr UnexpectedOpen
      else if bool_decide (bracket_close ∈ l) then inr UnexpectedClose
      else inl (take i l, port)
  end.
Definition SplitHostPort (hostport : string) : (string * string) + error :=
  match split_host_port (to_chars hostport) with
  | inl (host, port) => inl (of_chars host, of_chars port)
  | inr why => inr ("address " +:+ hostport +:+ ": " +:+ split_why why)%string
  end.

(** ** Text of a code point

    [string(n)] of a 16-bit integer is the UTF-8 text of that code point; a
    surrogate gives the replacement character. *)
Definition byte (n : Z) : ascii := ascii_of_N (Z.to_N n).
Definition utf8 (r : Z) : chars :=
  (if bool_decide (r < 128) then [byte r]
   else if bool_decide (r < 2048) then [byte (192 + r / 64); byte (128 + r mod 64)]
   else if bool_decide (55296 ≤ r < 57344) then [byte 239; byte 191; byte 189]
   else [byte (224 + r / 4096); byte (128 + (r / 64) mod 64); byte (128 + r mod 64)])%Z.
Definition string_of_rune (r : Z) : string := of_chars (utf8 r).

(** ** Splitting undoes joining *)
Lemma index_of_app c l1 l2 : c ∉ l1 → index_of c (l1 ++ c :: l2) = Some (length l1).
Proof.
  induction l1 as [|d l1 IH]; intros Hc; cbn; [by rewrite bool_decide_true|].
  apply not_elem_of_cons in Hc as [Hd Hc]. by rewrite bool_decide_false, IH by (done || by intros ->).
Qed.
Lemma last_index_of_app c l1 l2 : c ∉ l2 → last_index_of c (l1 ++ c :: l2) = Some (length l1).
Proof.
  intros Hc. unfold last_index_of. rewrite reverse_app, reverse_cons, <- (assoc_L (++)).
  cbn [app]. rewrite index_of_app by (by rewrite elem_of_reverse). cbn.
  rewrite length_reverse, length_app. cbn. f_equal. lia.
Qed.

Lemma split_bracketed h p :
  bracket_open ∉ h → bracket_close ∉ h → colon ∉ p → bracket_close ∉ p → bracket_open ∉ p →
  split_host_port (bracket_open :: h ++ bracket_close :: colon :: p) = inl (h, p).
Proof.
  intros Ho Hc Hpc Hpx Hpo. unfold split_host_port.
  replace (bracket_open :: h ++ bracket_close :: colon :: p)
    with ((bracket_open :: h ++ [bracket_close]) ++ colon :: p) at 1
    by (cbn; by rewrite <- (assoc_L (++))).
  rewrite last_index_of_app by done. cbn [head].
  rewrite bool_decide_true by done. change (bracket_open :: h ++ ?x) with ((bracket_open :: h) ++ x).
  rewrite index_of_app by (by apply not_elem_of_cons). cbn [length]. rewrite !length_app. cbn [length].
  rewrite bool_decide_false by lia. rewrite bool_decide_true by lia.
  rewrite bool_decide_false
    by (cbn [app drop]; rewrite drop_0, elem_of_app, !elem_of_cons; naive_solver).
  replace (S (length h) + 1) with (length (bracket_open :: h ++ [bracket_close]))
    by (cbn; rewrite length_app; cbn; lia).
  replace (S (length h + 1) + 1) with (length (bracket_open :: h ++ [bracket_close]) + 1)
    by (cbn; rewrite length_app; cbn; lia).
  replace ((bracket_open :: h) ++ bracket_close :: colon :: p)
    with ((bracket_open :: h ++ [bracket_close]) ++ colon :: p) by (cbn; by rewrite <- (assoc_L (++))).
  rewrite drop_app_length, <- drop_drop, drop_app_length. cbn [drop].
  rewrite bool_decide_false by (rewrite elem_of_cons; naive_solver). do 2 f_equal.
  cbn. rewrite drop_0, <- (assoc_L (++)). by rewrite take_app_length.
Qed.

Lemma split_plain h p :
  colon ∉ h → bracket_open ∉ h → bracket_close ∉ h → colon ∉ p → bracket_open ∉ p → bracket_close ∉ p →
  split_host_port (h ++ colon :: p) = inl (h, p).
Proof.
  intros Hhc Ho Hc Hpc Hpo Hpx. unfold split_host_port. rewrite last_index_of_app by done.
  rewrite bool_decide_false.
  2:{ destruct h as [|c h]; [done|]. cbn. intros [= ->]. by apply Ho; left. }
  rewrite take_app_length, bool_decide_false by done.
  rewrite !bool_decide_false by (rewrite elem_of_app, elem_of_cons; naive_solver).
  by rewrite <- drop_drop, drop_app_length.
Qed.

(** Splitting an address that was joined gives back the host and the port,
    for every host without brackets, IPv6 or not, and every port without colon
    or brackets. *)
Theorem split_join host port :
  bracket_open ∉ to_chars host → bracket_close ∉ to_chars host →
  colon ∉ to_chars port → bracket_open ∉ to_chars port → bracket_close ∉ to_chars port →
  SplitHostPort (JoinHostPort host port) = inl (host, port).
Proof.
  intros Ho Hc Hpc Hpo Hpx. unfold SplitHostPort, JoinHostPort.
  destruct (existsb _ _) eqn:E.
  - rewrite !to_chars_app. change (to_chars "[") with [bracket_open].
    change (to_chars "]:") with [bracket_close; colon]. cbn [app].
    rewrite split_bracketed by done. by rewrite !of_to_chars.
  - rewrite !to_chars_app. change (to_chars ":") with [colon]. cbn [app].
    rewrite split_plain; [by rewrite !of_to_chars| |done..].
    intros Hin. rewrite <- not_true_iff_false, existsb_exists in E. apply E.
    exists colon. by rewrite <- list_elem_of_In.
Qed.

Lemma split_join_witness : SplitHostPort (JoinHostPort "2001:db8::1" "8080") = inl ("2001:db8::1", "8080").
Proof.
  apply split_join; cbn; intros H; repeat (apply elem_of_cons in H as [H|H]; [discriminate|]);
    by apply elem_of_nil in H.
Defined.

(** ** The text of a code point is not that of the number *)
Definition is_digit (c : ascii) : bool := let n := nat_of_ascii c in bool_decide (48 ≤ n ≤ 57).

Lemma pretty_digits n s :
  forallb is_digit (to_chars s) = true → forallb is_digit (to_chars (pretty_N_go n s)) = true.
Proof.
  revert s. induction (N.lt_wf_0 n) as [n _ IH]; intros s Hs.
  destruct (decide (0 < n)%N) as [Hn|Hn].
  - rewrite pretty_N_go_step by done. apply IH; [by apply N.div_lt|].
    cbn. rewrite Hs, andb_true_r.
    assert (n `mod` 10 < 10)%N by (by apply N.mod_upper_bound).
    unfold pretty_N_char. repeat case_match; done.
  - replace n with 0%N by lia. by rewrite pretty_N_go_0.
Qed.

Lemma pretty_Z_digits (z : Z) : (0 ≤ z)%Z → forallb is_digit (to_chars (pretty z)) = true.
Proof.
  destruct z as [|p|p]; [done|intros _|lia].
  change (pretty (Z.pos p)) with (pretty_N_go (N.pos p) ""). by apply pretty_digits.
Qed.

Lemma rune_not_digits r : (128 ≤ r < 65536)%Z → forallb is_digit (utf8 r) = false.
Proof.
  intros Hr. apply not_true_iff_false. unfold utf8. rewrite bool_decide_false by lia.
  assert (∀ n l, (128 ≤ n < 256)%Z → forallb is_digit (byte n :: l) ≠ true) as Hb.
  { intros n l Hn. cbn. rewrite andb_true_iff. intros [Hd%bool_decide_eq_true _].
    unfold byte, nat_of_ascii in Hd. rewrite N_ascii_embedding in Hd by lia. lia. }
  pose proof (Z.div_le_mono r 2047 64). pose proof (Z.div_pos r 64).
  pose proof (Z.div_le_mono r 65535 4096). pose proof (Z.div_pos r 4096).
  repeat case_bool_decide; apply Hb; change (2047 / 64)%Z with 31%Z in *;
    change (65535 / 4096)%Z with 15%Z in *; lia.
Qed.

Lemma rune_not_number r : (0 ≤ r < 65536)%Z → string_of_rune r ≠ pretty r.
Proof.
  intros Hr E. destruct (decide (r < 128)%Z) as [Hs|Hs].
  - assert (Forall (λ n, string_of_rune (Z.of_nat n) ≠ pretty (Z.of_nat n)) (seq 0 128)) as Hall
      by (refine (bool_decide_unpack _ _); vm_compute; done).
    rewrite Forall_forall in Hall. apply (Hall (Z.to_nat r)); [apply elem_of_seq; lia|].
    by rewrite Z2Nat.id by lia.
  - pose proof (rune_not_digits r ltac:(lia)) as Hn. unfold string_of_rune in E.
    rewrite <- (to_of_chars (utf8 r)), E, pretty_Z_digits in Hn by lia. done.
Qed.

Lemma string_app_inj (s t u : string) : (s +:+ t = s +:+ u)%string → t = u.
Proof. induction s as [|c s IH]; [done|]. intros [= E]. by apply IH. Qed.

Lemma join_port_differs host p q : p ≠ q → JoinHostPort host p ≠ JoinHostPort host q.
Proof.
  intros Hpq. unfold JoinHostPort. destruct (existsb _ _).
  - intros E%string_app_inj. by repeat apply string_app_inj in E.
  - intros E. by repeat apply string_app_inj in E.
Qed.
