(* ===== verification/Config.v ===== *)
(** Component: poller configuration (src/config/config.go, src/config/constants.go).

    [Config] is the record of settings; [DefineConfigEntries] gives the table of
    recognised settings, [ParseFields] applies one line of the file,
    [LoadFromFile] the whole file.  Durations are nanoseconds.  The environment,
    [net/url]'s parser and the error wrapping of github.com/pkg/errors are
    parameters; a [URL] is identified by its text. *)
From S2P Require Export GoStrings.

Abbreviation Duration := Z (only parsing).
Definition Second : Duration := 1000000000.
Definition Millisecond : Duration := 1000000.
Definition Hour : Duration := (3600 * Second)%Z.

Abbreviation URL := string (only parsing).

Definition DefaultTimeoutRead : Duration := (10 * Second)%Z.
Definition DefaultTimeoutWrite : Duration := (10 * Second)%Z.
Definition DefaultTimeoutPrepareEnd : Duration := (60 * Second)%Z.
Definition DefaultTimeoutAuth : Duration := (30 * Second)%Z.
Definition DefaultAgentId : string := "-poller-".
Definition DefaultReconnectMinBackoff : Duration := (25 * Second)%Z.
Definition DefaultReconnectMaxBackoff : Duration := (180 * Second)%Z.
Definition DefaultReconnectFactorBackoff : Z := 2.
Definition DefaultMaxConnectionAge : Duration := (2 * 24 * Hour)%Z.
Definition DefaultMaxConnectionAgeJitter : Duration := (1 * 24 * Hour)%Z.

Definition ErrorNoZones : error := "No zones are defined".
Definition ErrorNoToken : error := "No token is defined".

Record Feature := { feat_Name : string; feat_Disabled : bool }.

Record Config := {
  UseSrv : bool;
  UseStaging : bool;
  SrvQueries : list string;
  Addresses : list string;
  ProxyUrl : option URL;
  AgentId : string;
  AgentName : string;
  Features : list Feature;
  Guid : string;
  BundleVersion : string;
  ProcessVersion : string;
  Token : string;
  SnetRegion : string;
  ZoneIds : list string;
  ReconnectMinBackoff : Duration;
  ReconnectMaxBackoff : Duration;
  ReconnectFactorBackoff : Z;
  TimeoutRead : Duration;
  TimeoutWrite : Duration;
  TimeoutAuth : Duration;
  TimeoutPrepareEnd : Duration;
  MaxProxyConnectionAge : Duration;
  MaxProxyConnectionAgeJitter : Duration;
  PrometheusUri : string;
  StatsdEndpoint : string
}.

(** The assignments to single fields that the code makes. *)
Definition set_UseSrv (x : bool) (c : Config) : Config :=
  {| UseSrv := x; UseStaging := UseStaging c; SrvQueries := SrvQueries c; Addresses :=
     Addresses c; ProxyUrl := ProxyUrl c; AgentId := AgentId c; AgentName := AgentName
     c; Features := Features c; Guid := Guid c; BundleVersion := BundleVersion c;
     ProcessVersion := ProcessVersion c; Token := Token c; SnetRegion := SnetRegion c;
     ZoneIds := ZoneIds c; ReconnectMinBackoff := ReconnectMinBackoff c;
     ReconnectMaxBackoff := ReconnectMaxBackoff c; ReconnectFactorBackoff :=
     ReconnectFactorBackoff c; TimeoutRead := TimeoutRead c; TimeoutWrite :=
     TimeoutWrite c; TimeoutAuth := TimeoutAuth c; TimeoutPrepareEnd :=
     TimeoutPrepareEnd c; MaxProxyConnectionAge := MaxProxyConnectionAge c;
     MaxProxyConnectionAgeJitter := MaxProxyConnectionAgeJitter c; PrometheusUri :=
     PrometheusUri c; StatsdEndpoint := StatsdEndpoint c |}.
Definition set_SrvQueries (x : list string) (c : Config) : Config :=
  {| UseSrv := UseSrv c; UseStaging := UseStaging c; SrvQueries := x; Addresses :=
     Addresses c; ProxyUrl := ProxyUrl c; AgentId := AgentId c; AgentName := AgentName
     c; Features := Features c; Guid := Guid c; BundleVersion := BundleVersion c;
     ProcessVersion := ProcessVersion c; Token := Token c; SnetRegion := SnetRegion c;
     ZoneIds := ZoneIds c; ReconnectMinBackoff := ReconnectMinBackoff c;
     ReconnectMaxBackoff := ReconnectMaxBackoff c; ReconnectFactorBackoff :=
     ReconnectFactorBackoff c; TimeoutRead := TimeoutRead c; TimeoutWrite :=
     TimeoutWrite c; TimeoutAuth := TimeoutAuth c; TimeoutPrepareEnd :=
     TimeoutPrepareEnd c; MaxProxyConnectionAge := MaxProxyConnectionAge c;
     MaxProxyConnectionAgeJitter := MaxProxyConnectionAgeJitter c; PrometheusUri :=
     PrometheusUri c; StatsdEndpoint := StatsdEndpoint c |}.
Definition set_Addresses (x : list string) (c : Config) : Config :=
  {| UseSrv := UseSrv c; UseStaging := UseStaging c; SrvQueries := SrvQueries c;
     Addresses := x; ProxyUrl := ProxyUrl c; AgentId := AgentId c; AgentName :=
     AgentName c; Features := Features c; Guid := Guid c; BundleVersion :=
     BundleVersion c; ProcessVersion := ProcessVersion c; Token := Token c; SnetRegion
     := SnetRegion c; ZoneIds := ZoneIds c; ReconnectMinBackoff := ReconnectMinBackoff
     c; ReconnectMaxBackoff := ReconnectMaxBackoff c; ReconnectFactorBackoff :=
     ReconnectFactorBackoff c; TimeoutRead := TimeoutRead c; TimeoutWrite :=
     TimeoutWrite c; TimeoutAuth := TimeoutAuth c; TimeoutPrepareEnd :=
     TimeoutPrepareEnd c; MaxProxyConnectionAge := MaxProxyConnectionAge c;
     MaxProxyConnectionAgeJitter := MaxProxyConnectionAgeJitter c; PrometheusUri :=
     PrometheusUri c; StatsdEndpoint := StatsdEndpoint c |}.
Definition set_ProxyUrl (x : option URL) (c : Config) : Config :=
  {| UseSrv := UseSrv c; UseStaging := UseStaging c; SrvQueries := SrvQueries c;
     Addresses := Addresses c; ProxyUrl := x; AgentId := AgentId c; AgentName :=
     AgentName c; Features := Features c; Guid := Guid c; BundleVersion :=
     BundleVersion c; ProcessVersion := ProcessVersion c; Token := Token c; SnetRegion
     := SnetRegion c; ZoneIds := ZoneIds c; ReconnectMinBackoff := ReconnectMinBackoff
     c; ReconnectMaxBackoff := ReconnectMaxBackoff c; ReconnectFactorBackoff :=
     ReconnectFactorBackoff c; TimeoutRead := TimeoutRead c; TimeoutWrite :=
     TimeoutWrite c; TimeoutAuth := TimeoutAuth c; TimeoutPrepareEnd :=
     TimeoutPrepareEnd c; MaxProxyConnectionAge := MaxProxyConnectionAge c;
     MaxProxyConnectionAgeJitter := MaxProxyConnectionAgeJitter c; PrometheusUri :=
     PrometheusUri c; StatsdEndpoint := StatsdEndpoint c |}.
Definition set_AgentId (x : string) (c : Config) : Config :=
  {| UseSrv := UseSrv c; UseStaging := UseStaging c; SrvQueries := SrvQueries c;
     Addresses := Addresses c; ProxyUrl := ProxyUrl c; AgentId := x; AgentName :=
     AgentName c; Features := Features c; Guid := Guid c; BundleVersion :=
     BundleVersion c; ProcessVersion := ProcessVersion c; Token := Token c; SnetRegion
     := SnetRegion c; ZoneIds := ZoneIds c; ReconnectMinBackoff := ReconnectMinBackoff
     c; ReconnectMaxBackoff := ReconnectMaxBackoff c; ReconnectFactorBackoff :=
     ReconnectFactorBackoff c; TimeoutRead := TimeoutRead c; TimeoutWrite :=
     TimeoutWrite c; TimeoutAuth := TimeoutAuth c; TimeoutPrepareEnd :=
     TimeoutPrepareEnd c; MaxProxyConnectionAge := MaxProxyConnectionAge c;
     MaxProxyConnectionAgeJitter := MaxProxyConnectionAgeJitter c; PrometheusUri :=
     PrometheusUri c; StatsdEndpoint := StatsdEndpoint c |}.
Definition set_Guid (x : string) (c : Config) : Config :=
  {| UseSrv := UseSrv c; UseStaging := UseStaging c; SrvQueries := SrvQueries c;
     Addresses := Addresses c; ProxyUrl := ProxyUrl c; AgentId := AgentId c; AgentName
     := AgentName c; Features := Features c; Guid := x; BundleVersion := BundleVersion
     c; ProcessVersion := ProcessVersion c; Token := Token c; SnetRegion := SnetRegion
     c; ZoneIds := ZoneIds c; ReconnectMinBackoff := ReconnectMinBackoff c;
     ReconnectMaxBackoff := ReconnectMaxBackoff c; ReconnectFactorBackoff :=
     ReconnectFactorBackoff c; TimeoutRead := TimeoutRead c; TimeoutWrite :=
     TimeoutWrite c; TimeoutAuth := TimeoutAuth c; TimeoutPrepareEnd :=
     TimeoutPrepareEnd c; MaxProxyConnectionAge := MaxProxyConnectionAge c;
     MaxProxyConnectionAgeJitter := MaxProxyConnectionAgeJitter c; PrometheusUri :=
     PrometheusUri c; StatsdEndpoint := StatsdEndpoint c |}.
Definition set_Token (x : string) (c : Config) : Config :=
  {| UseSrv := UseSrv c; UseStaging := UseStaging c; SrvQueries := SrvQueries c;
     Addresses := Addresses c; ProxyUrl := ProxyUrl c; AgentId := AgentId c; AgentName
     := AgentName c; Features := Features c; Guid := Guid c; BundleVersion :=
     BundleVersion c; ProcessVersion := ProcessVersion c; Token := x; SnetRegion :=
     SnetRegion c; ZoneIds := ZoneIds c; ReconnectMinBackoff := ReconnectMinBackoff c;
     ReconnectMaxBackoff := ReconnectMaxBackoff c; ReconnectFactorBackoff :=
     ReconnectFactorBackoff c; TimeoutRead := TimeoutRead c; TimeoutWrite :=
     TimeoutWrite c; TimeoutAuth := TimeoutAuth c; TimeoutPrepareEnd :=
     TimeoutPrepareEnd c; MaxProxyConnectionAge := MaxProxyConnectionAge c;
     MaxProxyConnectionAgeJitter := MaxProxyConnectionAgeJitter c; PrometheusUri :=
     PrometheusUri c; StatsdEndpoint := StatsdEndpoint c |}.
Definition set_SnetRegion (x : string) (c : Config) : Config :=
  {| UseSrv := UseSrv c; UseStaging := UseStaging c; SrvQueries := SrvQueries c;
     Addresses := Addresses c; ProxyUrl := ProxyUrl c; AgentId := AgentId c; AgentName
     := AgentName c; Features := Features c; Guid := Guid c; BundleVersion :=
     BundleVersion c; ProcessVersion := ProcessVersion c; Token := Token c; SnetRegion
     := x; ZoneIds := ZoneIds c; ReconnectMinBackoff := ReconnectMinBackoff c;
     ReconnectMaxBackoff := ReconnectMaxBackoff c; ReconnectFactorBackoff :=
     ReconnectFactorBackoff c; TimeoutRead := TimeoutRead c; TimeoutWrite :=
     TimeoutWrite c; TimeoutAuth := TimeoutAuth c; TimeoutPrepareEnd :=
     TimeoutPrepareEnd c; MaxProxyConnectionAge := MaxProxyConnectionAge c;
     MaxProxyConnectionAgeJitter := MaxProxyConnectionAgeJitter c; PrometheusUri :=
     PrometheusUri c; StatsdEndpoint := StatsdEndpoint c |}.
Definition set_ZoneIds (x : list string) (c : Config) : Config :=
  {| UseSrv := UseSrv c; UseStaging := UseStaging c; SrvQueries := SrvQueries c;
     Addresses := Addresses c; ProxyUrl := ProxyUrl c; AgentId := AgentId c; AgentName
     := AgentName c; Features := Features c; Guid := Guid c; BundleVersion :=
     BundleVersion c; ProcessVersion := ProcessVersion c; Token := Token c; SnetRegion
     := SnetRegion c; ZoneIds := x; ReconnectMinBackoff := ReconnectMinBackoff c;
     ReconnectMaxBackoff := ReconnectMaxBackoff c; ReconnectFactorBackoff :=
     ReconnectFactorBackoff c; TimeoutRead := TimeoutRead c; TimeoutWrite :=
     TimeoutWrite c; TimeoutAuth := TimeoutAuth c; TimeoutPrepareEnd :=
     TimeoutPrepareEnd c; MaxProxyConnectionAge := MaxProxyConnectionAge c;
     MaxProxyConnectionAgeJitter := MaxProxyConnectionAgeJitter c; PrometheusUri :=
     PrometheusUri c; StatsdEndpoint := StatsdEndpoint c |}.
Definition set_PrometheusUri (x : string) (c : Config) : Config :=
  {| UseSrv := UseSrv c; UseStaging := UseStaging c; SrvQueries := SrvQueries c;
     Addresses := Addresses c; ProxyUrl := ProxyUrl c; AgentId := AgentId c; AgentName
     := AgentName c; Features := Features c; Guid := Guid c; BundleVersion :=
     BundleVersion c; ProcessVersion := ProcessVersion c; Token := Token c; SnetRegion
     := SnetRegion c; ZoneIds := ZoneIds c; ReconnectMinBackoff := ReconnectMinBackoff
     c; ReconnectMaxBackoff := ReconnectMaxBackoff c; ReconnectFactorBackoff :=
     ReconnectFactorBackoff c; TimeoutRead := TimeoutRead c; TimeoutWrite :=
     TimeoutWrite c; TimeoutAuth := TimeoutAuth c; TimeoutPrepareEnd :=
     TimeoutPrepareEnd c; MaxProxyConnectionAge := MaxProxyConnectionAge c;
     MaxProxyConnectionAgeJitter := MaxProxyConnectionAgeJitter c; PrometheusUri := x;
     StatsdEndpoint := StatsdEndpoint c |}.
Definition set_StatsdEndpoint (x : string) (c : Config) : Config :=
  {| UseSrv := UseSrv c; UseStaging := UseStaging c; SrvQueries := SrvQueries c;
     Addresses := Addresses c; ProxyUrl := ProxyUrl c; AgentId := AgentId c; AgentName
     := AgentName c; Features := Features c; Guid := Guid c; BundleVersion :=
     BundleVersion c; ProcessVersion := ProcessVersion c; Token := Token c; SnetRegion
     := SnetRegion c; ZoneIds := ZoneIds c; ReconnectMinBackoff := ReconnectMinBackoff
     c; ReconnectMaxBackoff := ReconnectMaxBackoff c; ReconnectFactorBackoff :=
     ReconnectFactorBackoff c; TimeoutRead := TimeoutRead c; TimeoutWrite :=
     TimeoutWrite c; TimeoutAuth := TimeoutAuth c; TimeoutPrepareEnd :=
     TimeoutPrepareEnd c; MaxProxyConnectionAge := MaxProxyConnectionAge c;
     MaxProxyConnectionAgeJitter := MaxProxyConnectionAgeJitter c; PrometheusUri :=
     PrometheusUri c; StatsdEndpoint := x |}.

(** ** Constants (src/config/constants.go) *)
Definition DefaultProdSrvEndpoints : list string := [
  "_monitoringagent._tcp.dfw1.prod.monitoring.api.rackspacecloud.com";
  "_monitoringagent._tcp.ord1.prod.monitoring.api.rackspacecloud.com";
  "_monitoringagent._tcp.lon3.prod.monitoring.api.rackspacecloud.com"].
Definition DefaultStagingSrvEndpoints : list string := [
  "_monitoringagent._tcp.dfw1.stage.monitoring.api.rackspacecloud.com";
  "_monitoringagent._tcp.ord1.stage.monitoring.api.rackspacecloud.com";
  "_monitoringagent._tcp.lon3.stage.monitoring.api.rackspacecloud.com"].
Definition ValidSnetRegions : list string := ["dfw"; "ord"; "lon"; "syd"; "hkg"; "iad"].

(** A template with one hole, [{{.SnetRegion}}], between two texts. *)
Record srv_template := { tpl_before : string; tpl_after : string }.
Definition Execute (t : srv_template) (cfg : Config) : string :=
  (tpl_before t +:+ SnetRegion cfg +:+ tpl_after t)%string.

Definition SnetMonitoringTemplateSrvQueries : list srv_template := [
  {| tpl_before := "_monitoringagent._tcp.snet-";
     tpl_after := "-region0.prod.monitoring.api.rackspacecloud.com" |};
  {| tpl_before := "_monitoringagent._tcp.snet-";
     tpl_after := "-region1.prod.monitoring.api.rackspacecloud.com" |};
  {| tpl_before := "_monitoringagent._tcp.snet-";
     tpl_after := "-region2.prod.monitoring.api.rackspacecloud.com" |}].
Definition SnetMonitoringTemplateSrvQueriesStaging : list srv_template := [
  {| tpl_before := "_monitoringagent._tcp.snet-";
     tpl_after := "-region0.stage.monitoring.api.rackspacecloud.com" |};
  {| tpl_before := "_monitoringagent._tcp.snet-";
     tpl_after := "-region1.stage.monitoring.api.rackspacecloud.com" |};
  {| tpl_before := "_monitoringagent._tcp.snet-";
     tpl_after := "-region2.stage.monitoring.api.rackspacecloud.com" |}].

Definition EnvStaging : string := "STAGING".
Definition EnvDevCA : string := "DEV_CA".
Definition EnvCleartext : string := "CLEARTEXT".
Definition EnabledEnvOpt : string := "1".

(** ** Operations *)
Definition NewConfig (getenv : string → string) (Version guid : string) (useStaging : bool)
    (features : list Feature) : Config :=
  let agentId := getenv "AGENT_ID" in
  {| UseSrv := true; UseStaging := useStaging;
     SrvQueries := if useStaging then DefaultStagingSrvEndpoints else DefaultProdSrvEndpoints;
     Addresses := []; ProxyUrl := None;
     AgentId := if decide (agentId = "") then DefaultAgentId else agentId;
     AgentName := "remote_poller"; Features := features; Guid := guid;
     BundleVersion := Version; ProcessVersion := Version; Token := getenv "AGENT_TOKEN";
     SnetRegion := ""; ZoneIds := [];
     ReconnectMinBackoff := DefaultReconnectMinBackoff;
     ReconnectMaxBackoff := DefaultReconnectMaxBackoff;
     ReconnectFactorBackoff := DefaultReconnectFactorBackoff;
     TimeoutRead := DefaultTimeoutRead; TimeoutWrite := DefaultTimeoutWrite;
     TimeoutAuth := DefaultTimeoutAuth; TimeoutPrepareEnd := DefaultTimeoutPrepareEnd;
     MaxProxyConnectionAge := DefaultMaxConnectionAge;
     MaxProxyConnectionAgeJitter := DefaultMaxConnectionAgeJitter;
     PrometheusUri := ""; StatsdEndpoint := "" |}.

(** [interface{}] holding a pointer to a field: which type it points to, and
    the assignment through it. *)
Inductive value_ptr :=
| StringPtr (set : string → Config → Config)
| StringsPtr (set : list string → Config → Config)
| URLPtr (set : option URL → Config → Config)
| OtherPtr.

Record configEntry := {
  ce_Name : string;
  ce_ValuePtr : value_ptr;
  ce_Tweak : option (Config → Config);
  ce_Allowed : list string;
  ce_Sensitive : bool
}.

Definition DefineConfigEntries : list configEntry := [
  {| ce_Name := "monitoring_id"; ce_ValuePtr := StringPtr set_AgentId;
     ce_Tweak := None; ce_Allowed := []; ce_Sensitive := false |};
  {| ce_Name := "monitoring_token"; ce_ValuePtr := StringPtr set_Token;
     ce_Tweak := None; ce_Allowed := []; ce_Sensitive := true |};
  {| ce_Name := "monitoring_private_zones"; ce_ValuePtr := StringsPtr set_ZoneIds;
     ce_Tweak := None; ce_Allowed := []; ce_Sensitive := false |};
  {| ce_Name := "monitoring_endpoints"; ce_ValuePtr := StringsPtr set_Addresses;
     ce_Tweak := Some (set_UseSrv false); ce_Allowed := []; ce_Sensitive := false |};
  {| ce_Name := "monitoring_snet_region"; ce_ValuePtr := StringPtr set_SnetRegion;
     ce_Tweak := None; ce_Allowed := ValidSnetRegions; ce_Sensitive := false |};
  {| ce_Name := "monitoring_proxy_url"; ce_ValuePtr := URLPtr set_ProxyUrl;
     ce_Tweak := None; ce_Allowed := []; ce_Sensitive := false |};
  {| ce_Name := "prometheus_uri"; ce_ValuePtr := StringPtr set_PrometheusUri;
     ce_Tweak := None; ce_Allowed := []; ce_Sensitive := false |};
  {| ce_Name := "statsd_endpoint"; ce_ValuePtr := StringPtr set_StatsdEndpoint;
     ce_Tweak := None; ce_Allowed := []; ce_Sensitive := false |}].

(** [%v] of a slice of strings. *)
Definition fmt_strings (l : list string) : string := ("[" +:+ Join l " " +:+ "]")%string.

(** What [ApplyMask] is given: the value of a field. *)
Inductive conf_value := VString (s : string) | VStrings (l : list string).

Definition ApplyMask (entry : configEntry) (data : conf_value) : conf_value :=
  if ce_Sensitive entry then
    match data with
    | VStrings _ => VString (Repeat "*" 10)
    | VString s => VString (Repeat "*" (String.length s))
    end
  else data.

(** [None] is a nil error. *)
Definition IsAllowed (e : configEntry) (actualValue : string) : option error :=
  match ce_Allowed e with
  | [] => None
  | allowed =>
      if decide (actualValue ∈ allowed) then None
      else Some ("The value '" +:+ actualValue +:+ "' is not allowed. Exepcted "
                 +:+ fmt_strings allowed)%string
  end.

Fixpoint first_disallowed (e : configEntry) (parts : list string) : option error :=
  match parts with
  | [] => None
  | v :: parts' =>
      match IsAllowed e v with Some err => Some err | None => first_disallowed e parts' end
  end.

Section parse.
(** [url.ParseRequestURI], and [errors.WithMessage] of github.com/pkg/errors. *)
Variable ParseRequestURI : string → URL + error.
Variable WithMessage : error → string → error.

Definition disallowed (entry : configEntry) (err : error) : error :=
  ("Disallowed value in " +:+ ce_Name entry +:+ " : " +:+ err)%string.

(** The body of the loop for an entry with the name of the line. *)
Definition apply_entry (entry : configEntry) (value : string) (cfg : Config)
    : Config + error :=
  let tweaked c := inl (match ce_Tweak entry with Some f => f c | None => c end) in
  match ce_ValuePtr entry with
  | StringPtr set =>
      match IsAllowed entry value with
      | Some err => inr (disallowed entry err)
      | None => tweaked (set value cfg)
      end
  | StringsPtr set =>
      let parts := TrimSpace <$> Split value "," in
      match first_disallowed entry parts with
      | Some err => inr (disallowed entry err)
      | None => tweaked (set parts cfg)
      end
  | URLPtr set =>
      match ParseRequestURI value with
      | inr err => inr (WithMessage err (ce_Name entry +:+ " is not a valid URL")%string)
      | inl parsed => tweaked (set (Some parsed) cfg)
      end
  | OtherPtr => inr ("Unsupported config entry type for " +:+ ce_Name entry)%string
  end.

Fixpoint parse_entries (configEntries : list configEntry) (name value : string)
    (cfg : Config) : Config + error :=
  match configEntries with
  | [] => inl cfg
  | entry :: rest =>
      if decide (ce_Name entry = name) then
        match apply_entry entry value cfg with
        | inl cfg' => parse_entries rest name value cfg'
        | inr err => inr err
        end
      else parse_entries rest name value cfg
  end.

Definition ParseFields (configEntries : list configEntry) (fields : list string)
    (cfg : Config) : Config + error :=
  match fields with
  | name :: value :: _ => parse_entries configEntries name value cfg
  | _ => inr ("Invalid fields length: " +:+ fmt_strings fields)%string
  end.

Definition processSnetSrvTemplates (templates : list srv_template) (cfg : Config) : Config :=
  set_SrvQueries ((λ t, Execute t cfg) <$> templates) cfg.

Definition PostProcess (cfg : Config) : Config :=
  if decide (SnetRegion cfg = "") then cfg
  else if negb (UseStaging cfg)
  then processSnetSrvTemplates SnetMonitoringTemplateSrvQueries cfg
  else processSnetSrvTemplates SnetMonitoringTemplateSrvQueriesStaging cfg.

(** A line that starts with [#] or that is blank is skipped. *)
Definition skipped (line : string) : bool :=
  HasPrefix line "#" || bool_decide (TrimSpace line = "").

Fixpoint load_lines (lines : list string) (cfg : Config) : Config + error :=
  match lines with
  | [] => inl cfg
  | line :: lines' =>
      if skipped line then load_lines lines' cfg
      else match ParseFields DefineConfigEntries (Fields line) cfg with
           | inl cfg' => load_lines lines' cfg'
           | inr err => inr err
           end
  end.

(** [file] is what [os.Open] and the scanner give: the lines of the file, or
    the error of opening it. *)
Definition LoadFromFile (file : list string + error) (cfg : Config) : Config + error :=
  match file with
  | inr err => inr err
  | inl lines =>
      match load_lines lines cfg with
      | inl cfg' => inl (PostProcess cfg')
      | inr err => inr err
      end
  end.
End parse.

Definition Validate (cfg : Config) : option error :=
  if decide (length (ZoneIds cfg) = 0) then Some ErrorNoZones
  else if decide (String.length (Token cfg) = 0) then Some ErrorNoToken
  else None.

Definition SetPrivateZones (zones : list string) (cfg : Config) : Config := set_ZoneIds zones cfg.

(** [now] is the reading of the clock. *)
Definition ComputeReadDeadline (cfg : Config) (now offset : Z) : Z :=
  (now + to_i64 (offset + TimeoutRead cfg))%Z.
Definition ComputeWriteDeadline (cfg : Config) (now offset : Z) : Z :=
  (now + to_i64 (offset + TimeoutWrite cfg))%Z.

Definition IsUsingStaging (getenv : string → string) : bool :=
  bool_decide (getenv EnvStaging = EnabledEnvOpt).
Definition IsUsingCleartext (getenv : string → string) : bool :=
  bool_decide (getenv EnvCleartext = EnabledEnvOpt).

(** ** Properties *)

(** The settings of a file: the first two fields of the lines not skipped. *)
Definition setting (line : string) : option (string * string) :=
  if skipped line then None
  else match Fields line with name :: value :: _ => Some (name, value) | _ => None end.
Definition settings (lines : list string) : list (string * string) := omap setting lines.

(** The value of the last setting of a key. *)
Definition last_value (key : string) (l : list (string * string)) : option string :=
  last (omap (λ kv, if decide (kv.1 = key) then Some kv.2 else None) l).

Lemma last_value_snoc key l name value :
  last_value key (l ++ [(name, value)]) = if decide (name = key) then Some value else last_value key l.
Proof.
  unfold last_value. rewrite omap_app, last_app. cbn. by destruct (decide (name = key)).
Qed.

Definition parts_of (value : string) : list string := TrimSpace <$> Split value ",".

Lemma parts_of_not_nil value : parts_of value ≠ [].
Proof.
  unfold parts_of, Split. destruct (to_chars value) as [|c l]; cbn; [done|].
  case_bool_decide; [done|]. by destruct (split_chars _ l).
Qed.

Section load.
Variable ParseRequestURI : string → URL + error.
Variable WithMessage : error → string → error.

(** The fields that no setting names, nor follow from one. *)
Definition unnamed (c : Config) :=
  (UseStaging c, AgentName c, Features c, Guid c, BundleVersion c, ProcessVersion c,
   ReconnectMinBackoff c, ReconnectMaxBackoff c, ReconnectFactorBackoff c,
   TimeoutRead c, TimeoutWrite c, TimeoutAuth c, TimeoutPrepareEnd c,
   MaxProxyConnectionAge c, MaxProxyConnectionAgeJitter c).

(** [cfg] is [cfg0] with the settings [l] applied. *)
Record configured (l : list (string * string)) (cfg0 cfg : Config) : Prop := {
  cf_AgentId : AgentId cfg = default (AgentId cfg0) (last_value "monitoring_id" l);
  cf_Token : Token cfg = default (Token cfg0) (last_value "monitoring_token" l);
  cf_ZoneIds : ZoneIds cfg =
    default (ZoneIds cfg0) (parts_of <$> last_value "monitoring_private_zones" l);
  cf_Addresses : Addresses cfg =
    default (Addresses cfg0) (parts_of <$> last_value "monitoring_endpoints" l);
  cf_UseSrv : UseSrv cfg = match last_value "monitoring_endpoints" l with
                           | Some _ => false | None => UseSrv cfg0 end;
  cf_SnetRegion : match last_value "monitoring_snet_region" l with
                  | Some v => SnetRegion cfg = v ∧ v ∈ ValidSnetRegions
                  | None => SnetRegion cfg = SnetRegion cfg0 end;
  cf_PrometheusUri : PrometheusUri cfg = default (PrometheusUri cfg0) (last_value "prometheus_uri" l);
  cf_StatsdEndpoint : StatsdEndpoint cfg =
    default (StatsdEndpoint cfg0) (last_value "statsd_endpoint" l);
  cf_ProxyUrl : match last_value "monitoring_proxy_url" l with
                | Some v => ∃ url, ParseRequestURI v = inl url ∧ ProxyUrl cfg = Some url
                | None => ProxyUrl cfg = ProxyUrl cfg0 end;
  cf_rest : SrvQueries cfg = SrvQueries cfg0 ∧ unnamed cfg = unnamed cfg0
}.

Lemma first_disallowed_none e parts : ce_Allowed e = [] → first_disallowed e parts = None.
Proof. intros He. induction parts as [|v vs IH]; [done|]. cbn. unfold IsAllowed. by rewrite He. Qed.

Lemma allowed_value e v : IsAllowed e v = None → ce_Allowed e = [] ∨ v ∈ ce_Allowed e.
Proof.
  unfold IsAllowed. destruct (ce_Allowed e); [by left|]. destruct (decide _); [by right|done].
Qed.

Lemma configured_refl cfg : configured [] cfg cfg.
Proof. by repeat split. Qed.

Lemma parse_entries_cases es name value cfg cfg' :
  NoDup (ce_Name <$> es) →
  parse_entries ParseRequestURI WithMessage es name value cfg = inl cfg' →
  (∃ e, e ∈ es ∧ ce_Name e = name ∧ apply_entry ParseRequestURI WithMessage e value cfg = inl cfg')
  ∨ cfg' = cfg ∧ name ∉ ce_Name <$> es.
Proof.
  revert cfg. induction es as [|e es IH]; intros cfg HN; cbn.
  - intros [= <-]. right. split; [done|]. apply not_elem_of_nil.
  - cbn in HN. apply NoDup_cons in HN as [Hn HN]. destruct (decide (ce_Name e = name)) as [<-|Hne].
    + destruct (apply_entry _ _ e value cfg) as [cfg1|err] eqn:E; [|done].
      intros [(e' & He' & En & _)|[-> _]]%IH; [..|done].
      * destruct Hn. rewrite <- En. by apply list_elem_of_fmap_2.
      * left. exists e. split_and!; [by left|done..].
    + intros [(e' & He' & En & E)|[-> Hno]]%IH; [..|done].
      * left. exists e'. split_and!; [by right|done..].
      * right. split; [done|]. by apply not_elem_of_cons.
Qed.

Lemma default_names : NoDup (ce_Name <$> DefineConfigEntries).
Proof. refine (bool_decide_eq_true_1 _ _). vm_compute. reflexivity. Qed.

(** The settings but the last say the same of another key. *)
Lemma last_value_other key l name value :
  name ≠ key → last_value key (l ++ [(name, value)]) = last_value key l.
Proof. intros. by rewrite last_value_snoc, decide_False. Qed.
Lemma last_value_same key l value : last_value key (l ++ [(key, value)]) = Some value.
Proof. by rewrite last_value_snoc, decide_True. Qed.

Lemma parse_configured l cfg0 cfg cfg' name value rest :
  configured l cfg0 cfg →
  ParseFields ParseRequestURI WithMessage DefineConfigEntries (name :: value :: rest) cfg = inl cfg' →
  configured (l ++ [(name, value)]) cfg0 cfg'.
Proof.
  intros [H1 H2 H3 H4 H5 H6 H7 H8 Hp H9].
  intros [(e & He & <- & E)|[-> Hno]]%(parse_entries_cases _ _ _ _ _ default_names).
  - unfold DefineConfigEntries in He.
    repeat (apply elem_of_cons in He as [->|He]); [..|by apply elem_of_nil in He];
      unfold apply_entry in E; cbn [ce_ValuePtr ce_Tweak ce_Name] in *;
      rewrite ?first_disallowed_none in E by done;
      try (destruct (IsAllowed _ value) eqn:Ea; [done|apply allowed_value in Ea; cbn in Ea]);
      try destruct (ParseRequestURI value) eqn:Eu; simplify_eq; split;
      rewrite ?last_value_same, ?last_value_other by done; cbn; naive_solver.
  - assert (∀ key, key ∈ ce_Name <$> DefineConfigEntries →
      last_value key (l ++ [(name, value)]) = last_value key l) as Hk.
    { intros key Hin. apply last_value_other. by intros ->. }
    split; rewrite ?Hk by (cbn; set_solver); auto.
Qed.

Lemma load_configured lines l cfg0 cfg cfg' :
  configured l cfg0 cfg → load_lines ParseRequestURI WithMessage lines cfg = inl cfg' →
  configured (l ++ settings lines) cfg0 cfg'.
Proof.
  revert l cfg. induction lines as [|line lines IH]; intros l cfg Hl; cbn.
  - intros [= <-]. by rewrite app_nil_r.
  - unfold setting at 1. destruct (skipped line); [by apply IH|].
    destruct (ParseFields _ _ _ (Fields line) cfg) as [cfg1|err] eqn:E; [|done].
    destruct (Fields line) as [|name [|value rest]]; [done..|].
    intros Hload. rewrite (cons_middle _ l), (assoc_L (++)).
    apply (IH _ cfg1); [|done]. by eapply parse_configured.
Qed.

(** The queries of a region, for production or staging. *)
Definition region_queries (cfg : Config) : list string :=
  (λ t, Execute t cfg) <$>
    (if UseStaging cfg then SnetMonitoringTemplateSrvQueriesStaging
     else SnetMonitoringTemplateSrvQueries).

(** C36: a configuration file that loads.  Each of the eight fields that a
    setting names has the value of its last setting, a list being split at the
    commas and trimmed and the URL of the proxy parsed, or else that of the
    configuration that was loaded into; so have all other fields, but two:
    endpoints, and they alone, turn the use of SRV queries off, and the list of
    addresses is then not empty; a region is one of the valid ones, and replaces
    the SRV queries by those of its templates, for production or for staging. *)
Theorem load_spec file cfg0 cfg :
  SnetRegion cfg0 = "" → LoadFromFile ParseRequestURI WithMessage (inl file) cfg0 = inl cfg →
  let l := settings file in
  AgentId cfg = default (AgentId cfg0) (last_value "monitoring_id" l)
  ∧ Token cfg = default (Token cfg0) (last_value "monitoring_token" l)
  ∧ ZoneIds cfg = default (ZoneIds cfg0) (parts_of <$> last_value "monitoring_private_zones" l)
  ∧ PrometheusUri cfg = default (PrometheusUri cfg0) (last_value "prometheus_uri" l)
  ∧ StatsdEndpoint cfg = default (StatsdEndpoint cfg0) (last_value "statsd_endpoint" l)
  ∧ match last_value "monitoring_endpoints" l with
    | Some value => UseSrv cfg = false ∧ Addresses cfg = parts_of value ∧ Addresses cfg ≠ []
    | None => UseSrv cfg = UseSrv cfg0 ∧ Addresses cfg = Addresses cfg0
    end
  ∧ match last_value "monitoring_snet_region" l with
    | Some value => SnetRegion cfg = value ∧ value ∈ ValidSnetRegions
                    ∧ SrvQueries cfg = region_queries cfg
    | None => SnetRegion cfg = "" ∧ SrvQueries cfg = SrvQueries cfg0
    end
  ∧ match last_value "monitoring_proxy_url" l with
    | Some value => ∃ url, ParseRequestURI value = inl url ∧ ProxyUrl cfg = Some url
    | None => ProxyUrl cfg = ProxyUrl cfg0
    end
  ∧ unnamed cfg = unnamed cfg0.
Proof.
  intros H0 Hload l. unfold LoadFromFile in Hload.
  destruct (load_lines _ _ file cfg0) as [cfg1|err] eqn:E; [|done]. injection Hload as <-.
  apply (load_configured file [] cfg0) in E; [|apply configured_refl].
  rewrite app_nil_l in E. fold l in E.
  destruct E as [H1 H2 H3 H4 H5 H6 H7 H8 Hp [H9 H10]].
  unfold PostProcess, processSnetSrvTemplates, region_queries.
  assert (match last_value "monitoring_endpoints" l with
    | Some value => UseSrv cfg1 = false ∧ Addresses cfg1 = parts_of value ∧ Addresses cfg1 ≠ []
    | None => UseSrv cfg1 = UseSrv cfg0 ∧ Addresses cfg1 = Addresses cfg0 end) as Hends.
  { destruct (last_value "monitoring_endpoints" l) as [v|]; [|done]. cbn in H4.
    split_and!; [done..|]. rewrite H4. apply parts_of_not_nil. }
  destruct (last_value "monitoring_snet_region" l) as [v|].
  - destruct H6 as [Hv Hin].
    rewrite decide_False by (rewrite Hv; by intros ->; revert Hin; vm_compute; set_solver).
    destruct (UseStaging cfg1) eqn:Es; cbn; split_and!; try done; cbn; by rewrite ?Es.
  - rewrite decide_True by congruence. split_and!; try done. congruence.
Qed.
End load.
