(* ===== verification/Outbound.v ===== *)
(** Component: what the poller reaches out to.  The endpoints found by SRV
    records and the TLS configuration of a connection
    (src/poller/connection_stream.go), the root certificates it trusts
    (src/config/certs.go) and the pusher of its own metrics
    (src/poller/metrics.go).  The resolver, the file of certificates, the
    parsing of PEM and of URIs are arguments. *)
From S2P Require Export NetAddr Config.

(** ** Services *)
Record net_SRV := { Target : string; srv_Port : Z }.

(** [connectBySrv]: the address that [runHostConnection] is called with, or
    nothing when the goroutine ends. *)
Definition connectBySrv (LookupSRV : string → list net_SRV + error) (qry : string)
    : option string :=
  match LookupSRV qry with
  | inr _ => None
  | inl [] => None
  | inl (addr :: _) => Some (JoinHostPort (Target addr) (pretty (srv_Port addr)))
  end.

(** ** TLS

    [AppendCertsFromPEM] is the pool of the certificates of a text, when there
    is one at least; a nil pool is [None]. *)
Section tls.
Context {CertPool : Type} (AppendCertsFromPEM : string → option CertPool).
Context (productionCAPems staginCAPems : string).
Context (ReadFile : string → string + error) (getenv : string → string).

Definition loadFromString (certPems : string) : option CertPool := AppendCertsFromPEM certPems.
Definition LoadProductionCAs : option CertPool := loadFromString productionCAPems.
Definition LoadStagingCAs : option CertPool := loadFromString staginCAPems.
Definition LoadDevelopmentCAs (pemFilename : string) : option CertPool :=
  match ReadFile pemFilename with
  | inr _ => None
  | inl content => AppendCertsFromPEM content
  end.

Definition LoadRootCAs (insecure useStaging : bool) : option CertPool :=
  if insecure then None
  else
    let devCAPath := getenv EnvDevCA in
    if useStaging then LoadStagingCAs
    else if bool_decide (devCAPath ≠ "") then LoadDevelopmentCAs devCAPath
    else LoadProductionCAs.

Record tls_Config := {
  InsecureSkipVerify : bool; tls_ServerName : string; RootCAs : option CertPool
}.

Definition buildTLSConfig (rootCAs : option CertPool) (addr : string) : option tls_Config :=
  let host := match SplitHostPort addr with inl hp => hp.1 | inr _ => "" end in
  if negb (IsUsingCleartext getenv) then
    Some {| InsecureSkipVerify := bool_decide (rootCAs = None); tls_ServerName := host;
            RootCAs := rootCAs |}
  else None.

(** The roots that [Run] gives to the stream (src/poller/entry.go). *)
Definition poller_rootCAs (insecure : bool) : option CertPool :=
  if negb (IsUsingCleartext getenv) then LoadRootCAs insecure (IsUsingStaging getenv) else None.
End tls.
Arguments tls_Config : clear implicits.

(** ** The metrics of the poller

    [url_Parse] of the URI of the gateway; [host] is the name of the machine,
    when it has one.  The state is the list of the pushes made. *)
Record gateway_uri := { g_Scheme : string; g_Hostname : string; g_Port : string }.
Record push := { push_job : string; push_groupings : gmap string string; push_gateway : string }.

Definition defaultPrometheusPushGatewayPort : string := "9091".
Definition prometheusService : string := "prometheus".
Definition prometheusProto : string := "tcp".

Section metrics.
Context (url_Parse : string → gateway_uri + error).
Context (LookupSRV : string → string → string → list net_SRV + error).
Context (Hostname : string + error).

(** The gateway, or nothing when the pusher gives up.  The error of the URI is
    logged, and the nil URI used. *)
Definition promPushGateway (cfg : Config) : go (list push) (option string) :=
  gatewayUri ← match url_Parse (PrometheusUri cfg) with inl u => mret u | inr _ => halt NilDeref end;
  if bool_decide (g_Scheme gatewayUri = "srv") then
    mret match LookupSRV prometheusService prometheusProto (g_Hostname gatewayUri) with
         | inr _ => None
         | inl [] => None
         | inl (addr :: _) => Some (JoinHostPort (Target addr) (string_of_rune (srv_Port addr)))
         end
  else if bool_decide (g_Scheme gatewayUri = "tcp") then
    let port := if bool_decide (g_Port gatewayUri = "") then defaultPrometheusPushGatewayPort
                else g_Port gatewayUri in
    mret (Some (JoinHostPort (g_Hostname gatewayUri) port))
  else mret None.

Definition groupings (cfg : Config) : gmap string string :=
  let m : gmap string string := {[ "instance" := Guid cfg ]} in
  let m := match Hostname with inl hostname => <["hostname" := hostname]> m | inr _ => m end in
  if bool_decide (AgentId cfg ≠ "") then <["agentId" := AgentId cfg]> m else m.

Definition pushPrometheusMetrics (cfg : Config) (gateway : string) (m : gmap string string)
    : go (list push) unit :=
  modify (λ l, l ++ [{| push_job := AgentName cfg; push_groupings := m; push_gateway := gateway |}]).

(** The loop over the events of its [select]: the ticks, until the context is
    done. *)
Inductive pusher_event := Tick | CtxDone.
Fixpoint pusher_loop (cfg : Config) (gateway : string) (m : gmap string string)
    (events : list pusher_event) : go (list push) unit :=
  match events with
  | [] => halt Blocked
  | CtxDone :: _ => mret ()
  | Tick :: events' => pushPrometheusMetrics cfg gateway m;; pusher_loop cfg gateway m events'
  end.

Definition runPrometheusMetricsPusher (cfg : Config) (events : list pusher_event)
    : go (list push) unit :=
  gateway ← promPushGateway cfg;
  match gateway with
  | None => mret ()
  | Some gateway => pusher_loop cfg gateway (groupings cfg) events
  end.

(** After the initial sleep. *)
Definition runMetricsPusher (cfg : Config) (events : list pusher_event) : go (list push) unit :=
  when (bool_decide (PrometheusUri cfg ≠ "")) (runPrometheusMetricsPusher cfg events).
End metrics.

(** ** Properties *)
Section tls_properties.
Context {CertPool : Type} (AppendCertsFromPEM : string → option CertPool).
Context (productionCAPems staginCAPems : string).
Context (ReadFile : string → string + error) (getenv : string → string).

(** The file named by the environment gives certificates. *)
Definition development_pool : Prop :=
  ∃ content pool, ReadFile (getenv EnvDevCA) = inl content ∧ AppendCertsFromPEM content = Some pool.

(** C21: when the certificate of an endpoint is not verified.  Unless the poller
    uses clear text, the name verified is the host of the address, and the
    verification is skipped exactly when that is asked for, or when a file of
    certificates is named, outside of staging, that cannot be read or has none:
    a bad file turns the verification off instead of failing. *)
Theorem verification_skipped_iff insecure host port c :
  is_Some (AppendCertsFromPEM productionCAPems) → is_Some (AppendCertsFromPEM staginCAPems) →
  bracket_open ∉ to_chars host → bracket_close ∉ to_chars host →
  colon ∉ to_chars port → bracket_open ∉ to_chars port → bracket_close ∉ to_chars port →
  buildTLSConfig getenv
    (poller_rootCAs AppendCertsFromPEM productionCAPems staginCAPems ReadFile getenv insecure)
    (JoinHostPort host port) = Some c →
  tls_ServerName c = host
  ∧ (InsecureSkipVerify c = true ↔
       insecure = true ∨ (IsUsingStaging getenv = false ∧ getenv EnvDevCA ≠ "" ∧ ¬ development_pool)).
Proof.
  intros [prod Hp] [stag Hs] ????? E. unfold buildTLSConfig in E. rewrite split_join in E by done.
  unfold poller_rootCAs in E. destruct (IsUsingCleartext getenv); [done|]. injection E as <-.
  split; [done|]. cbn [InsecureSkipVerify negb]. rewrite bool_decide_eq_true.
  unfold LoadRootCAs, LoadStagingCAs, LoadProductionCAs, LoadDevelopmentCAs, loadFromString, development_pool.
  destruct insecure; [by split; [left|]|]. destruct (IsUsingStaging getenv); [naive_solver|].
  case_bool_decide as Hdev; [|naive_solver].
  destruct (ReadFile (getenv EnvDevCA)) as [content|err]; [|naive_solver].
  destruct (AppendCertsFromPEM content) eqn:Ec; naive_solver.
Qed.
End tls_properties.

Section metrics_properties.
Context (url_Parse : string → gateway_uri + error).
Context (LookupSRV : string → string → string → list net_SRV + error).
Context (Hostname : string + error).

(** How often the pusher pushes before the context is done. *)
Fixpoint ticks (events : list pusher_event) : nat :=
  match events with Tick :: events' => S (ticks events') | _ => 0 end.

Lemma pusher_loop_pushes cfg gateway m events pushes :
  state_of (pusher_loop cfg gateway m events pushes) =
    pushes ++ replicate (ticks events)
      {| push_job := AgentName cfg; push_groupings := m; push_gateway := gateway |}.
Proof.
  revert pushes. induction events as [|[] events IH]; intros pushes; cbn; [by rewrite app_nil_r| |by rewrite app_nil_r].
  unfold pushPrometheusMetrics, mbind, go_bind, modify. rewrite IH. cbn. by rewrite <- (assoc_L (++)).
Qed.

(** Where the poller's own metrics go.  Nowhere without a URI; a URI that
    does not parse ends the process; through SRV records they never go to the
    port of the record, whose number is taken for a code point; otherwise each
    tick pushes them to the host and port of the URI, 9091 by default. *)
Theorem pusher_goes_to cfg events pushes :
  let run := runMetricsPusher url_Parse LookupSRV Hostname cfg events pushes in
  let pushed gateway := state_of run = pushes ++ replicate (ticks events)
    {| push_job := AgentName cfg; push_groupings := groupings Hostname cfg; push_gateway := gateway |} in
  if bool_decide (PrometheusUri cfg = "") then run = Ret () pushes
  else
    match url_Parse (PrometheusUri cfg) with
    | inr _ => run = Halt NilDeref pushes
    | inl u =>
        if bool_decide (g_Scheme u = "srv") then
          match LookupSRV "prometheus" "tcp" (g_Hostname u) with
          | inl (addr :: _) => (0 ≤ srv_Port addr < 65536)%Z →
              ∃ gateway, pushed gateway ∧ gateway ≠ JoinHostPort (Target addr) (pretty (srv_Port addr))
          | _ => run = Ret () pushes
          end
        else if bool_decide (g_Scheme u = "tcp") then
          pushed (JoinHostPort (g_Hostname u) (if bool_decide (g_Port u = "") then "9091" else g_Port u))
        else run = Ret () pushes
    end.
Proof.
  cbv zeta. unfold runMetricsPusher. case_bool_decide as Hu.
  { by rewrite bool_decide_false by naive_solver. }
  rewrite bool_decide_true by done. unfold when, runPrometheusMetricsPusher, promPushGateway.
  rewrite !bind_app. destruct (url_Parse _) as [u|err]; [|done].
  cbn [mret go_ret].
  case_bool_decide; [|case_bool_decide; [apply pusher_loop_pushes|done]].
  unfold prometheusService, prometheusProto.
  destruct (LookupSRV _ _ _) as [[|addr rest]|err]; [done| |done]. intros Hport.
  eexists. split; [apply pusher_loop_pushes|]. by apply join_port_differs, rune_not_number.
Qed.
End metrics_properties.

(** A file of certificates that is not there turns the verification off. *)
Lemma verification_skipped_iff_witness :
  let pem s := if bool_decide (s = "") then None else Some s in
  let getenv name := if bool_decide (name = EnvDevCA) then "/ca.pem" else "" in
  ∃ c, buildTLSConfig getenv (poller_rootCAs pem "prod" "stage" (λ _, inr "missing") getenv false)
         (JoinHostPort "localhost" "50041") = Some c
       ∧ tls_ServerName c = "localhost" ∧ InsecureSkipVerify c = true.
Proof.
  cbv zeta. eexists. split; [reflexivity|].
  match goal with |- tls_ServerName ?c = _ ∧ _ =>
    destruct (verification_skipped_iff (λ s, if bool_decide (s = "") then None else Some s) "prod" "stage"
      (λ _, inr "missing") (λ name, if bool_decide (name = EnvDevCA) then "/ca.pem" else "")
      false "localhost" "50041" c) as [H1 H2]
  end.
  - by eexists.
  - by eexists.
  - by refine (bool_decide_unpack _ _); vm_compute.
  - by refine (bool_decide_unpack _ _); vm_compute.
  - by refine (bool_decide_unpack _ _); vm_compute.
  - by refine (bool_decide_unpack _ _); vm_compute.
  - by refine (bool_decide_unpack _ _); vm_compute.
  - reflexivity.
  - split; [exact H1|]. apply H2. right. split_and!; [done|done|].
    intros (content & pool & Hread & _). discriminate.
Defined.
