(* ===== verification/Protocol.v ===== *)
(** Component: frames and messages (src/protocol/frame.go, methods.go,
    messages.go, src/protocol/check/check.go).

    A frame is the record [FrameMsg]; the request and response types of
    messages.go that embed it are records that hold a [FrameMsg] and their own
    payload.  [json.RawMessage] is [option json], [None] for nil. *)
From S2P Require Export Json Config.

(** ** Methods (src/protocol/methods.go) *)
Definition MethodEmpty : string := "".
Definition MethodHandshakeHello : string := "handshake.hello".
Definition MethodCheckScheduleGet : string := "check_schedule.get".
Definition MethodPollerRegister : string := "poller.register".
Definition MethodHeartbeatPost : string := "heartbeat.post".
Definition MethodCheckMetricsPostMulti : string := "check_metrics.post_multi".
Definition MethodHostInfoGet : string := "host_info.get".
Definition MethodPollerPrepare : string := "poller.prepare".
Definition MethodPollerPrepareBlock : string := "poller.prepare.block".
Definition MethodPollerPrepareEnd : string := "poller.prepare.end".
Definition MethodPollerCommit : string := "poller.commit".
Definition MethodCheckTest : string := "check.test".

Definition Version : string := "1".
Definition ProtocolVersion : string := "1".

(** ** Frames (src/protocol/frame.go) *)
Record Error := { Code : Z; Message : string }.

Record FrameMsgCommon := {
  f_Version : string;
  f_Id : Z;
  f_Target : string;
  f_Source : string;
  f_Method : string;
  f_Error : option Error
}.

Record FrameMsg := {
  Common : FrameMsgCommon;
  RawParams : option json;
  RawResult : option json
}.

Definition zero_common : FrameMsgCommon :=
  {| f_Version := ""; f_Id := 0; f_Target := ""; f_Source := ""; f_Method := ""; f_Error := None |}.
Definition zero_frame : FrameMsg :=
  {| Common := zero_common; RawParams := None; RawResult := None |}.

Definition NewFinishedFrame : FrameMsg := zero_frame.

Definition IsFinished (f : FrameMsg) : bool :=
  let c := Common f in
  bool_decide (f_Version c = "") && bool_decide (f_Id c = 0%Z) && bool_decide (f_Target c = "")
  && bool_decide (f_Source c = "") && bool_decide (f_Method c = "").

Definition SetResponseFrameMsg (source : FrameMsgCommon) (f : FrameMsgCommon) : FrameMsgCommon :=
  {| f_Version := f_Version source; f_Id := f_Id source; f_Target := f_Target source;
     f_Source := f_Source source; f_Method := f_Method f; f_Error := f_Error source |}.

(** The [FrameMsg] method, which also copies the raw parts. *)
Definition SetFromFrameMsg (source : FrameMsg) (f : FrameMsg) : FrameMsg :=
  {| Common :=
       {| f_Version := f_Version (Common source); f_Id := f_Id (Common source);
          f_Target := f_Target (Common source); f_Source := f_Source (Common source);
          f_Method := f_Method (Common source); f_Error := f_Error (Common source) |};
     RawParams := RawParams source; RawResult := RawResult source |}.

Definition SetRawId (id : Z) (c : FrameMsgCommon) : FrameMsgCommon :=
  {| f_Version := f_Version c; f_Id := id; f_Target := f_Target c; f_Source := f_Source c;
     f_Method := f_Method c; f_Error := f_Error c |}.
Definition SetTarget (t : string) (c : FrameMsgCommon) : FrameMsgCommon :=
  {| f_Version := f_Version c; f_Id := f_Id c; f_Target := t; f_Source := f_Source c;
     f_Method := f_Method c; f_Error := f_Error c |}.
Definition SetSource (src : string) (c : FrameMsgCommon) : FrameMsgCommon :=
  {| f_Version := f_Version c; f_Id := f_Id c; f_Target := f_Target c; f_Source := src;
     f_Method := f_Method c; f_Error := f_Error c |}.

(** [SetId]: the counter is incremented atomically and its new value is the
    identifier. *)
Definition SetId (seq : Z) (c : FrameMsgCommon) : Z * FrameMsgCommon :=
  let seq' := to_u64 (seq + 1) in (seq', SetRawId seq' c).

(** ** Check definitions (src/protocol/check/check.go) *)
Record CheckHeader := {
  ch_Id : string;
  ch_CheckType : string;
  ch_Period : Z;
  ch_Timeout : Z;
  ch_EntityId : string;
  ch_ZoneId : string;
  ch_Disabled : bool;
  ch_IpAddresses : option (gmap string string);
  ch_TargetAlias : option string;
  ch_TargetHostname : option string;
  ch_TargetResolver : string
}.

Record CheckIn := { Header : CheckHeader; RawDetails : option json }.

Definition zero_header : CheckHeader :=
  {| ch_Id := ""; ch_CheckType := ""; ch_Period := 0; ch_Timeout := 0; ch_EntityId := "";
     ch_ZoneId := ""; ch_Disabled := false; ch_IpAddresses := None; ch_TargetAlias := None;
     ch_TargetHostname := None; ch_TargetResolver := "" |}.
Definition zero_checkin : CheckIn := {| Header := zero_header; RawDetails := None |}.

Definition ResolverIPV4 : string := "IPv4".
Definition ResolverIPV6 : string := "IPv6".

(** The JSON form of a [CheckIn]: the members of the embedded header, then
    [details]. *)
Section checkin_json.
Let hd (g : CheckHeader → CheckHeader) (c : CheckIn) : CheckIn :=
  {| Header := g (Header c); RawDetails := RawDetails c |}.

Definition checkin_fields : list (field CheckIn) := [
  mk_field "id" c_string "" (λ c, ch_Id (Header c)) (λ x, hd (λ h,
    Build_CheckHeader x (ch_CheckType h) (ch_Period h) (ch_Timeout h) (ch_EntityId h)
      (ch_ZoneId h) (ch_Disabled h) (ch_IpAddresses h) (ch_TargetAlias h)
      (ch_TargetHostname h) (ch_TargetResolver h)));
  mk_field "type" c_string "" (λ c, ch_CheckType (Header c)) (λ x, hd (λ h,
    Build_CheckHeader (ch_Id h) x (ch_Period h) (ch_Timeout h) (ch_EntityId h)
      (ch_ZoneId h) (ch_Disabled h) (ch_IpAddresses h) (ch_TargetAlias h)
      (ch_TargetHostname h) (ch_TargetResolver h)));
  mk_field "period" c_uint64 0%Z (λ c, ch_Period (Header c)) (λ x, hd (λ h,
    Build_CheckHeader (ch_Id h) (ch_CheckType h) x (ch_Timeout h) (ch_EntityId h)
      (ch_ZoneId h) (ch_Disabled h) (ch_IpAddresses h) (ch_TargetAlias h)
      (ch_TargetHostname h) (ch_TargetResolver h)));
  mk_field "timeout" c_uint64 0%Z (λ c, ch_Timeout (Header c)) (λ x, hd (λ h,
    Build_CheckHeader (ch_Id h) (ch_CheckType h) (ch_Period h) x (ch_EntityId h)
      (ch_ZoneId h) (ch_Disabled h) (ch_IpAddresses h) (ch_TargetAlias h)
      (ch_TargetHostname h) (ch_TargetResolver h)));
  mk_field "entity_id" c_string "" (λ c, ch_EntityId (Header c)) (λ x, hd (λ h,
    Build_CheckHeader (ch_Id h) (ch_CheckType h) (ch_Period h) (ch_Timeout h) x
      (ch_ZoneId h) (ch_Disabled h) (ch_IpAddresses h) (ch_TargetAlias h)
      (ch_TargetHostname h) (ch_TargetResolver h)));
  mk_field "zone_id" c_string "" (λ c, ch_ZoneId (Header c)) (λ x, hd (λ h,
    Build_CheckHeader (ch_Id h) (ch_CheckType h) (ch_Period h) (ch_Timeout h) (ch_EntityId h)
      x (ch_Disabled h) (ch_IpAddresses h) (ch_TargetAlias h)
      (ch_TargetHostname h) (ch_TargetResolver h)));
  mk_field "disabled" c_bool false (λ c, ch_Disabled (Header c)) (λ x, hd (λ h,
    Build_CheckHeader (ch_Id h) (ch_CheckType h) (ch_Period h) (ch_Timeout h) (ch_EntityId h)
      (ch_ZoneId h) x (ch_IpAddresses h) (ch_TargetAlias h)
      (ch_TargetHostname h) (ch_TargetResolver h)));
  mk_field "ip_addresses" (c_map c_string "") None (λ c, ch_IpAddresses (Header c)) (λ x, hd (λ h,
    Build_CheckHeader (ch_Id h) (ch_CheckType h) (ch_Period h) (ch_Timeout h) (ch_EntityId h)
      (ch_ZoneId h) (ch_Disabled h) x (ch_TargetAlias h)
      (ch_TargetHostname h) (ch_TargetResolver h)));
  mk_field "target_alias" (c_ptr c_string "") None (λ c, ch_TargetAlias (Header c)) (λ x, hd (λ h,
    Build_CheckHeader (ch_Id h) (ch_CheckType h) (ch_Period h) (ch_Timeout h) (ch_EntityId h)
      (ch_ZoneId h) (ch_Disabled h) (ch_IpAddresses h) x
      (ch_TargetHostname h) (ch_TargetResolver h)));
  mk_field "target_hostname" (c_ptr c_string "") None (λ c, ch_TargetHostname (Header c)) (λ x, hd (λ h,
    Build_CheckHeader (ch_Id h) (ch_CheckType h) (ch_Period h) (ch_Timeout h) (ch_EntityId h)
      (ch_ZoneId h) (ch_Disabled h) (ch_IpAddresses h) (ch_TargetAlias h)
      x (ch_TargetResolver h)));
  mk_field "target_resolver" c_string "" (λ c, ch_TargetResolver (Header c)) (λ x, hd (λ h,
    Build_CheckHeader (ch_Id h) (ch_CheckType h) (ch_Period h) (ch_Timeout h) (ch_EntityId h)
      (ch_ZoneId h) (ch_Disabled h) (ch_IpAddresses h) (ch_TargetAlias h)
      (ch_TargetHostname h) x));
  mk_field "details" c_raw_ptr None RawDetails (λ x c, {| Header := Header c; RawDetails := x |})
].
End checkin_json.

Definition c_checkin : codec CheckIn := c_struct checkin_fields.

(** A check definition whose numbers fit their type, and whose details are not
    the literal [null]. *)
Definition checkin_ok (c : CheckIn) : Prop :=
  is_u64 (ch_Period (Header c)) ∧ is_u64 (ch_Timeout (Header c)) ∧ RawDetails c ≠ Some JNull.

#[export] Instance c_checkin_rt : RoundTrips c_checkin zero_checkin checkin_ok.
Proof.
  apply struct_round_trip.
  - refine (bool_decide_eq_true_1 _ _). vm_compute. reflexivity.
  - unfold checkin_ok. struct_fields.
  - intros [[] d] _. cbn. repeat split; reflexivity.
Qed.

(** Decoding keeps the numbers of a definition in their type. *)
Lemma checkin_decoded j c : checkin_ok c → checkin_ok (dec c_checkin j c).1.
Proof.
  apply struct_keeps. unfold checkin_fields, checkin_ok.
  repeat (apply Forall_cons; split); [..|done]; intros v [[] d] (Hp & Ht & Hd); cbn in *.
  all: try (repeat case_match; simplify_eq; cbn; done).
  all: destruct v; cbn; repeat case_bool_decide; cbn; done.
Qed.

(** ** Messages (src/protocol/messages.go) *)

(** [if frame.GetRaw...() != nil { json.Unmarshal(raw, &x) }] with the error
    dropped. *)
Definition decode_raw {A} (c : codec A) (zero : A) (raw : option json) : A :=
  match raw with
  | Some j => (Unmarshal c j zero).1
  | None => zero
  end.

Lemma decode_raw_rt {A} (c : codec A) zero P `{!RoundTrips c zero P} x :
  P x → decode_raw c zero (Some (enc c x)) = x.
Proof. intros Hx. cbn. unfold Unmarshal. by rewrite (round_trip x Hx). Qed.

(** *** Handshake *)
Record HandshakeParameters := {
  hp_Token : string;
  hp_AgentId : string;
  hp_AgentName : string;
  hp_ProcessVersion : string;
  hp_BundleVersion : string;
  hp_ZoneIds : list string;
  hp_Features : list Feature
}.
Definition zero_feature : Feature := {| feat_Name := ""; feat_Disabled := false |}.
Definition zero_handshake_params : HandshakeParameters := Build_HandshakeParameters "" "" "" "" "" [] [].

Definition c_feature : codec Feature := c_struct [
  mk_field "name" c_string "" feat_Name (λ x f, Build_Feature x (feat_Disabled f));
  mk_field "disabled" c_bool false feat_Disabled (λ x f, Build_Feature (feat_Name f) x)].

Definition c_handshake_params : codec HandshakeParameters := c_struct [
  mk_field "token" c_string "" hp_Token (λ x p, Build_HandshakeParameters x (hp_AgentId p)
    (hp_AgentName p) (hp_ProcessVersion p) (hp_BundleVersion p) (hp_ZoneIds p) (hp_Features p));
  mk_field "agent_id" c_string "" hp_AgentId (λ x p, Build_HandshakeParameters (hp_Token p) x
    (hp_AgentName p) (hp_ProcessVersion p) (hp_BundleVersion p) (hp_ZoneIds p) (hp_Features p));
  mk_field "agent_name" c_string "" hp_AgentName (λ x p, Build_HandshakeParameters (hp_Token p)
    (hp_AgentId p) x (hp_ProcessVersion p) (hp_BundleVersion p) (hp_ZoneIds p) (hp_Features p));
  mk_field "process_version" c_string "" hp_ProcessVersion (λ x p, Build_HandshakeParameters
    (hp_Token p) (hp_AgentId p) (hp_AgentName p) x (hp_BundleVersion p) (hp_ZoneIds p) (hp_Features p));
  mk_field "bundle_version" c_string "" hp_BundleVersion (λ x p, Build_HandshakeParameters
    (hp_Token p) (hp_AgentId p) (hp_AgentName p) (hp_ProcessVersion p) x (hp_ZoneIds p) (hp_Features p));
  mk_field "zone_ids" (c_slice_nil c_string "") [] hp_ZoneIds (λ x p, Build_HandshakeParameters
    (hp_Token p) (hp_AgentId p) (hp_AgentName p) (hp_ProcessVersion p) (hp_BundleVersion p) x
    (hp_Features p));
  mk_field "features" (c_slice c_feature zero_feature) [] hp_Features (λ x p,
    Build_HandshakeParameters (hp_Token p) (hp_AgentId p) (hp_AgentName p) (hp_ProcessVersion p)
    (hp_BundleVersion p) (hp_ZoneIds p) x)].

Record HandshakeRequest := { hreq_Frame : FrameMsg; hreq_Params : HandshakeParameters }.

Definition NewHandshakeRequest (cfg : Config) : HandshakeRequest := {|
  hreq_Frame := {|
    Common := {| f_Version := Version; f_Id := 0; f_Target := ""; f_Source := "";
                 f_Method := MethodHandshakeHello; f_Error := None |};
    RawParams := None; RawResult := None |};
  hreq_Params := {|
    hp_Token := Token cfg; hp_AgentId := AgentId cfg; hp_AgentName := AgentName cfg;
    hp_ProcessVersion := ProcessVersion cfg; hp_BundleVersion := BundleVersion cfg;
    hp_ZoneIds := ZoneIds cfg; hp_Features := Features cfg |}
|}.

Record HandshakeResult := {
  HeartbeatInterval : Z;
  hr_EntityId : string;
  hr_Channel : string
}.
Definition zero_handshake_result : HandshakeResult := Build_HandshakeResult 0 "" "".
Definition c_handshake_result : codec HandshakeResult := c_struct [
  mk_field "heartbeat_interval" c_uint64 0%Z HeartbeatInterval
    (λ x r, Build_HandshakeResult x (hr_EntityId r) (hr_Channel r));
  mk_field "entity_id" c_string "" hr_EntityId
    (λ x r, Build_HandshakeResult (HeartbeatInterval r) x (hr_Channel r));
  mk_field "channel" c_string "" hr_Channel
    (λ x r, Build_HandshakeResult (HeartbeatInterval r) (hr_EntityId r) x)].

Record HandshakeResponse := { hresp_Frame : FrameMsg; hresp_Result : HandshakeResult }.

Definition DecodeHandshakeResponse (frame : FrameMsg) : HandshakeResponse := {|
  hresp_Frame := SetFromFrameMsg frame zero_frame;
  hresp_Result := decode_raw c_handshake_result zero_handshake_result (RawResult frame)
|}.

(** *** Heartbeat *)
Record HeartbeatParameters := { hbp_Timestamp : Z }.
Record HeartbeatResult := { hbr_Timestamp : Z }.
Definition c_heartbeat_params : codec HeartbeatParameters := c_struct [
  mk_field "timestamp" c_int 0%Z hbp_Timestamp (λ x _, Build_HeartbeatParameters x)].
Definition c_heartbeat_result : codec HeartbeatResult := c_struct [
  mk_field "timestamp" c_int 0%Z hbr_Timestamp (λ x _, Build_HeartbeatResult x)].

Record HeartbeatRequest := { hbreq_Frame : FrameMsg; hbreq_Params : HeartbeatParameters }.
Record HeartbeatResponse := { hbresp_Frame : FrameMsg; hbresp_Result : HeartbeatResult }.

(** [now] is the reading of [utils.NowTimestampMillis]. *)
Definition NewHeartbeatRequest (now : Z) : HeartbeatRequest := {|
  hbreq_Frame := {|
    Common := {| f_Version := Version; f_Id := 0; f_Target := ""; f_Source := "";
                 f_Method := MethodHeartbeatPost; f_Error := None |};
    RawParams := None; RawResult := None |};
  hbreq_Params := {| hbp_Timestamp := now |}
|}.

Definition DecodeHeartbeatResponse (frame : FrameMsg) : HeartbeatResponse := {|
  hbresp_Frame := SetFromFrameMsg frame zero_frame;
  hbresp_Result := decode_raw c_heartbeat_result {| hbr_Timestamp := 0 |} (RawResult frame)
|}.

(** *** Metrics post *)
Record MetricTVU := { tvu_Type : string; tvu_Value : string; tvu_Unit : string }.
Definition c_metric_tvu : codec MetricTVU := c_struct [
  mk_field "t" c_string "" tvu_Type (λ x m, Build_MetricTVU x (tvu_Value m) (tvu_Unit m));
  mk_field "v" c_string "" tvu_Value (λ x m, Build_MetricTVU (tvu_Type m) x (tvu_Unit m));
  mk_field "u" c_string "" tvu_Unit (λ x m, Build_MetricTVU (tvu_Type m) (tvu_Value m) x)].

(** [\[\]map\[string\]*MetricTVU] *)
Abbreviation MetricWrap := (list (option (gmap string (option MetricTVU)))) (only parsing).

Record MetricsPostContent := {
  mpc_EntityId : string;
  mpc_CheckId : string;
  mpc_CheckType : string;
  mpc_Metrics : list MetricWrap;
  mpc_MinCheckPeriod : Z;
  mpc_State : string;
  mpc_Status : string;
  mpc_Timestamp : Z
}.

Definition c_metric_wrap : codec MetricWrap :=
  c_slice (c_map (c_ptr c_metric_tvu (Build_MetricTVU "" "" "")) None) None.

Definition c_metrics_post_content : codec MetricsPostContent := c_struct [
  mk_field "entity_id" c_string "" mpc_EntityId (λ x c, Build_MetricsPostContent x (mpc_CheckId c)
    (mpc_CheckType c) (mpc_Metrics c) (mpc_MinCheckPeriod c) (mpc_State c) (mpc_Status c) (mpc_Timestamp c));
  mk_field "check_id" c_string "" mpc_CheckId (λ x c, Build_MetricsPostContent (mpc_EntityId c) x
    (mpc_CheckType c) (mpc_Metrics c) (mpc_MinCheckPeriod c) (mpc_State c) (mpc_Status c) (mpc_Timestamp c));
  mk_field "check_type" c_string "" mpc_CheckType (λ x c, Build_MetricsPostContent (mpc_EntityId c)
    (mpc_CheckId c) x (mpc_Metrics c) (mpc_MinCheckPeriod c) (mpc_State c) (mpc_Status c) (mpc_Timestamp c));
  mk_field "metrics" (c_slice_nil c_metric_wrap []) [] mpc_Metrics (λ x c, Build_MetricsPostContent
    (mpc_EntityId c) (mpc_CheckId c) (mpc_CheckType c) x (mpc_MinCheckPeriod c) (mpc_State c)
    (mpc_Status c) (mpc_Timestamp c));
  mk_field "min_check_period" c_uint64 0%Z mpc_MinCheckPeriod (λ x c, Build_MetricsPostContent
    (mpc_EntityId c) (mpc_CheckId c) (mpc_CheckType c) (mpc_Metrics c) x (mpc_State c) (mpc_Status c)
    (mpc_Timestamp c));
  mk_field "state" c_string "" mpc_State (λ x c, Build_MetricsPostContent (mpc_EntityId c)
    (mpc_CheckId c) (mpc_CheckType c) (mpc_Metrics c) (mpc_MinCheckPeriod c) x (mpc_Status c)
    (mpc_Timestamp c));
  mk_field "status" c_string "" mpc_Status (λ x c, Build_MetricsPostContent (mpc_EntityId c)
    (mpc_CheckId c) (mpc_CheckType c) (mpc_Metrics c) (mpc_MinCheckPeriod c) (mpc_State c) x
    (mpc_Timestamp c));
  mk_field "timestamp" c_int 0%Z mpc_Timestamp (λ x c, Build_MetricsPostContent (mpc_EntityId c)
    (mpc_CheckId c) (mpc_CheckType c) (mpc_Metrics c) (mpc_MinCheckPeriod c) (mpc_State c)
    (mpc_Status c) x)].

Record MetricsPostRequest := { mpr_Frame : FrameMsg; mpr_Params : MetricsPostContent }.

(** *** Poller prepare (start, block, end) and commit *)
Definition PrepareActionStart : string := "start".
Definition PrepareActionRestart : string := "restart".
Definition PrepareActionContinue : string := "continue".
Definition PrepareDirectivePrepare : string := "prepare".
Definition PrepareDirectiveAbort : string := "abort".
Definition PrepareResultStatusPrepared : string := "prepared".
Definition PrepareResultStatusAborted : string := "aborted".
Definition PrepareResultStatusFailed : string := "failed".
Definition PrepareResultStatusIgnored : string := "ignored".
Definition PrepareResultStatusCommitted : string := "committed".

Record PollerPrepareManifest := {
  man_Action : string;
  man_Id : string;
  man_CheckType : string;
  man_EntityId : string;
  man_ZoneId : string
}.
Definition zero_manifest : PollerPrepareManifest := Build_PollerPrepareManifest "" "" "" "" "".
Definition c_manifest : codec PollerPrepareManifest := c_struct [
  mk_field "action" c_string "" man_Action (λ x m, Build_PollerPrepareManifest x (man_Id m)
    (man_CheckType m) (man_EntityId m) (man_ZoneId m));
  mk_field "check_id" c_string "" man_Id (λ x m, Build_PollerPrepareManifest (man_Action m) x
    (man_CheckType m) (man_EntityId m) (man_ZoneId m));
  mk_field "type" c_string "" man_CheckType (λ x m, Build_PollerPrepareManifest (man_Action m)
    (man_Id m) x (man_EntityId m) (man_ZoneId m));
  mk_field "entity_id" c_string "" man_EntityId (λ x m, Build_PollerPrepareManifest (man_Action m)
    (man_Id m) (man_CheckType m) x (man_ZoneId m));
  mk_field "zone_id" c_string "" man_ZoneId (λ x m, Build_PollerPrepareManifest (man_Action m)
    (man_Id m) (man_CheckType m) (man_EntityId m) x)].

Record PollerPrepareStartParams := {
  pps_ZoneId : string; pps_Version : Z; pps_Manifest : list PollerPrepareManifest
}.
Definition c_prepare_start : codec PollerPrepareStartParams := c_struct [
  mk_field "zone_id" c_string "" pps_ZoneId
    (λ x p, Build_PollerPrepareStartParams x (pps_Version p) (pps_Manifest p));
  mk_field "version" c_int 0%Z pps_Version
    (λ x p, Build_PollerPrepareStartParams (pps_ZoneId p) x (pps_Manifest p));
  mk_field "manifest" (c_slice c_manifest zero_manifest) [] pps_Manifest
    (λ x p, Build_PollerPrepareStartParams (pps_ZoneId p) (pps_Version p) x)].

(** [Block \[\]*check.CheckIn] *)
Record PollerPrepareBlockParams := {
  ppb_ZoneId : string; ppb_Version : Z; ppb_Block : list (option CheckIn)
}.
Definition c_prepare_block : codec PollerPrepareBlockParams := c_struct [
  mk_field "zone_id" c_string "" ppb_ZoneId
    (λ x p, Build_PollerPrepareBlockParams x (ppb_Version p) (ppb_Block p));
  mk_field "version" c_int 0%Z ppb_Version
    (λ x p, Build_PollerPrepareBlockParams (ppb_ZoneId p) x (ppb_Block p));
  mk_field "block" (c_slice (c_ptr c_checkin zero_checkin) None) [] ppb_Block
    (λ x p, Build_PollerPrepareBlockParams (ppb_ZoneId p) (ppb_Version p) x)].

Record PollerPrepareEndParams := {
  ppe_ZoneId : string; ppe_Version : Z; ppe_Directive : string
}.
Definition c_prepare_end : codec PollerPrepareEndParams := c_struct [
  mk_field "zone_id" c_string "" ppe_ZoneId
    (λ x p, Build_PollerPrepareEndParams x (ppe_Version p) (ppe_Directive p));
  mk_field "version" c_int 0%Z ppe_Version
    (λ x p, Build_PollerPrepareEndParams (ppe_ZoneId p) x (ppe_Directive p));
  mk_field "directive" c_string "" ppe_Directive
    (λ x p, Build_PollerPrepareEndParams (ppe_ZoneId p) (ppe_Version p) x)].

Record PollerCommitParams := { pcp_ZoneId : string; pcp_Version : Z }.
Definition c_commit : codec PollerCommitParams := c_struct [
  mk_field "zone_id" c_string "" pcp_ZoneId (λ x p, Build_PollerCommitParams x (pcp_Version p));
  mk_field "version" c_int 0%Z pcp_Version (λ x p, Build_PollerCommitParams (pcp_ZoneId p) x)].

(** The result of a prepare and the result of a commit have the same members. *)
Record PollerPrepareResult := {
  ppr_ZoneId : string; ppr_Version : Z; ppr_Status : string; ppr_Details : string
}.
Definition c_prepare_result : codec PollerPrepareResult := c_struct [
  mk_field "zone_id" c_string "" ppr_ZoneId (λ x r, Build_PollerPrepareResult x (ppr_Version r)
    (ppr_Status r) (ppr_Details r));
  mk_field "version" c_int 0%Z ppr_Version (λ x r, Build_PollerPrepareResult (ppr_ZoneId r) x
    (ppr_Status r) (ppr_Details r));
  mk_field "status" c_string "" ppr_Status (λ x r, Build_PollerPrepareResult (ppr_ZoneId r)
    (ppr_Version r) x (ppr_Details r));
  mk_field "details" c_string "" ppr_Details (λ x r, Build_PollerPrepareResult (ppr_ZoneId r)
    (ppr_Version r) (ppr_Status r) x)].

Record PollerCommitResult := {
  pcr_ZoneId : string; pcr_Version : Z; pcr_Status : string; pcr_Details : string
}.
Definition c_commit_result : codec PollerCommitResult := c_struct [
  mk_field "zone_id" c_string "" pcr_ZoneId (λ x r, Build_PollerCommitResult x (pcr_Version r)
    (pcr_Status r) (pcr_Details r));
  mk_field "version" c_int 0%Z pcr_Version (λ x r, Build_PollerCommitResult (pcr_ZoneId r) x
    (pcr_Status r) (pcr_Details r));
  mk_field "status" c_string "" pcr_Status (λ x r, Build_PollerCommitResult (pcr_ZoneId r)
    (pcr_Version r) x (pcr_Details r));
  mk_field "details" c_string "" pcr_Details (λ x r, Build_PollerCommitResult (pcr_ZoneId r)
    (pcr_Version r) (pcr_Status r) x)].

(** The zero value a document is decoded into. *)
Definition zero_prepare_start := Build_PollerPrepareStartParams "" 0 [].
Definition zero_prepare_block := Build_PollerPrepareBlockParams "" 0 [].
Definition zero_prepare_end := Build_PollerPrepareEndParams "" 0 "".
Definition zero_commit := Build_PollerCommitParams "" 0.
Definition zero_prepare_result := Build_PollerPrepareResult "" 0 "" "".
Definition zero_commit_result := Build_PollerCommitResult "" 0 "" "".

(** [interface PollerPrepareRequest], as the two values its methods return;
    a nil pointer behind the interface is [None]. *)
Record PollerPrepareRequest := { GetPreparationZoneId : string; GetPreparationVersion : Z }.

Record PollerPrepareStartRequest := { start_Frame : FrameMsg; start_Params : PollerPrepareStartParams }.
Record PollerPrepareBlockRequest := { block_Frame : FrameMsg; block_Params : PollerPrepareBlockParams }.
Record PollerPrepareEndRequest := { end_Frame : FrameMsg; end_Params : PollerPrepareEndParams }.
Record PollerCommitRequest := { commit_Frame : FrameMsg; commit_Params : PollerCommitParams }.

Definition start_request (r : PollerPrepareStartRequest) : PollerPrepareRequest :=
  {| GetPreparationZoneId := pps_ZoneId (start_Params r);
     GetPreparationVersion := pps_Version (start_Params r) |}.
Definition end_request (r : PollerPrepareEndRequest) : PollerPrepareRequest :=
  {| GetPreparationZoneId := ppe_ZoneId (end_Params r);
     GetPreparationVersion := ppe_Version (end_Params r) |}.

Definition DecodePollerPrepareStartRequest (frame : FrameMsg) : PollerPrepareStartRequest := {|
  start_Frame := SetFromFrameMsg frame zero_frame;
  start_Params := decode_raw c_prepare_start zero_prepare_start (RawParams frame) |}.
Definition DecodePollerPrepareBlockRequest (frame : FrameMsg) : PollerPrepareBlockRequest := {|
  block_Frame := SetFromFrameMsg frame zero_frame;
  block_Params := decode_raw c_prepare_block zero_prepare_block (RawParams frame) |}.
Definition DecodePollerPrepareEndRequest (frame : FrameMsg) : PollerPrepareEndRequest := {|
  end_Frame := SetFromFrameMsg frame zero_frame;
  end_Params := decode_raw c_prepare_end zero_prepare_end (RawParams frame) |}.
Definition DecodePollerCommitRequest (frame : FrameMsg) : PollerCommitRequest := {|
  commit_Frame := SetFromFrameMsg frame zero_frame;
  commit_Params := decode_raw c_commit zero_commit (RawParams frame) |}.

(** The response constructors.  Marshalling these records of strings and
    integers does not fail, so the nil result of the code is not reached; a nil
    [source] is a nil dereference in [SetResponseFrameMsg]. *)
Definition response_with {S} (source : option FrameMsg) (result : json) : go S FrameMsg :=
  src ← deref source;
  mret {| Common := SetResponseFrameMsg (Common src) zero_common;
          RawParams := None; RawResult := Some result |}.

Definition NewPollerPrepareResponse {S} (source : option FrameMsg) (result : PollerPrepareResult)
    : go S FrameMsg := response_with source (enc c_prepare_result result).
Definition NewPollerPrepareCommitResponse {S} (source : option FrameMsg) (result : PollerCommitResult)
    : go S FrameMsg := response_with source (enc c_commit_result result).
Definition NewPollerCheckTestResponse {S} (source : option FrameMsg) (result : MetricsPostContent)
    : go S FrameMsg := response_with source (enc c_metrics_post_content result).

Definition NewErrorResponse {S} (source : option FrameMsg) (code : Z) (message : string)
    : go S FrameMsg :=
  src ← deref source;
  let c := SetResponseFrameMsg (Common src) zero_common in
  mret {| Common := {| f_Version := f_Version c; f_Id := f_Id c; f_Target := f_Target c;
                       f_Source := f_Source c; f_Method := f_Method c;
                       f_Error := Some {| Code := code; Message := message |} |};
          RawParams := None; RawResult := None |}.

(** *** Check test *)
Record PollerCheckTestParams := { CheckParamsRaw : string; CheckParams : option CheckIn }.
Record PollerCheckTestRequest := { test_Frame : FrameMsg; test_Params : PollerCheckTestParams }.

(** [Parse] is the text-to-document step of [json.Unmarshal] on the embedded
    string; the field [CheckParams] is not a member of the document. *)
Definition DecodePollerCheckTestRequest (Parse : string → option json) (frame : FrameMsg)
    : PollerCheckTestRequest + error :=
  let fields := [mk_field "checkParams" c_string "" CheckParamsRaw
                   (λ x p, Build_PollerCheckTestParams x (CheckParams p))] in
  let wrap p := {| test_Frame := SetFromFrameMsg frame zero_frame; test_Params := p |} in
  match RawParams frame with
  | None => inl (wrap {| CheckParamsRaw := ""; CheckParams := None |})
  | Some raw =>
      match Unmarshal (c_struct fields) raw {| CheckParamsRaw := ""; CheckParams := None |} with
      | (_, false) => inr "Unmarshaling raw parameters"
      | (p, true) =>
          match Parse (CheckParamsRaw p) with
          | None => inr "Unmarshaling embedded checkParams"
          | Some doc =>
              match Unmarshal (c_ptr c_checkin zero_checkin) doc None with
              | (_, false) => inr "Unmarshaling embedded checkParams"
              | (ch, true) =>
                  inl (wrap {| CheckParamsRaw := CheckParamsRaw p; CheckParams := ch |})
              end
          end
      end
  end.

(** *** Host info *)
Record HostInfoResponse := { hi_Common : FrameMsgCommon; hi_Result : json }.

(** ** The frames a session sends

    [interface Frame] over the types that the poller sends. *)
Inductive Frame :=
| FMsg (m : FrameMsg)
| FHandshake (r : HandshakeRequest)
| FHeartbeat (r : HeartbeatRequest)
| FMetricsPost (r : MetricsPostRequest)
| FHostInfo (r : HostInfoResponse).

Definition frame_common (f : Frame) : FrameMsgCommon :=
  match f with
  | FMsg m => Common m
  | FHandshake r => Common (hreq_Frame r)
  | FHeartbeat r => Common (hbreq_Frame r)
  | FMetricsPost r => Common (mpr_Frame r)
  | FHostInfo r => hi_Common r
  end.

Definition on_msg (g : FrameMsgCommon → FrameMsgCommon) (m : FrameMsg) : FrameMsg :=
  {| Common := g (Common m); RawParams := RawParams m; RawResult := RawResult m |}.

Definition on_common (g : FrameMsgCommon → FrameMsgCommon) (f : Frame) : Frame :=
  match f with
  | FMsg m => FMsg (on_msg g m)
  | FHandshake r => FHandshake {| hreq_Frame := on_msg g (hreq_Frame r); hreq_Params := hreq_Params r |}
  | FHeartbeat r => FHeartbeat {| hbreq_Frame := on_msg g (hbreq_Frame r); hbreq_Params := hbreq_Params r |}
  | FMetricsPost r => FMetricsPost {| mpr_Frame := on_msg g (mpr_Frame r); mpr_Params := mpr_Params r |}
  | FHostInfo r => FHostInfo {| hi_Common := g (hi_Common r); hi_Result := hi_Result r |}
  end.

Definition GetId (f : Frame) : Z := f_Id (frame_common f).
Definition GetMethod (f : Frame) : string := f_Method (frame_common f).

Lemma frame_common_on g f : frame_common (on_common g f) = g (frame_common f).
Proof. by destruct f. Qed.
#[export] Hint Rewrite frame_common_on : golib.

(** ** Encoding *)
Definition c_error : codec Error := c_struct [
  mk_field "code" c_uint64 0%Z Code (λ x e, Build_Error x (Message e));
  mk_field "message" c_string "" Message (λ x e, Build_Error (Code e) x)].

Section frame_json.
Let cm (g : FrameMsgCommon → FrameMsgCommon) : FrameMsg → FrameMsg := on_msg g.

Definition frame_fields : list (field FrameMsg) := [
  mk_field "v" c_string "" (λ m, f_Version (Common m)) (λ x, cm (λ c,
    Build_FrameMsgCommon x (f_Id c) (f_Target c) (f_Source c) (f_Method c) (f_Error c)));
  mk_field "id" c_uint64 0%Z (λ m, f_Id (Common m)) (λ x, cm (λ c,
    Build_FrameMsgCommon (f_Version c) x (f_Target c) (f_Source c) (f_Method c) (f_Error c)));
  mk_field "target" c_string "" (λ m, f_Target (Common m)) (λ x, cm (λ c,
    Build_FrameMsgCommon (f_Version c) (f_Id c) x (f_Source c) (f_Method c) (f_Error c)));
  mk_field "source" c_string "" (λ m, f_Source (Common m)) (λ x, cm (λ c,
    Build_FrameMsgCommon (f_Version c) (f_Id c) (f_Target c) x (f_Method c) (f_Error c)));
  mk_field_omit "method" c_string "" (λ s, bool_decide (s = "")) (λ m, f_Method (Common m))
    (λ x, cm (λ c, Build_FrameMsgCommon (f_Version c) (f_Id c) (f_Target c) (f_Source c) x
      (f_Error c)));
  mk_field_omit "error" (c_ptr c_error (Build_Error 0 "")) None
    (λ e, match e with None => true | Some _ => false end) (λ m, f_Error (Common m))
    (λ x, cm (λ c, Build_FrameMsgCommon (f_Version c) (f_Id c) (f_Target c) (f_Source c)
      (f_Method c) x));
  mk_field_omit "params" c_raw None (λ r, match r with None => true | Some _ => false end)
    RawParams (λ x m, Build_FrameMsg (Common m) x (RawResult m));
  mk_field_omit "result" c_raw None (λ r, match r with None => true | Some _ => false end)
    RawResult (λ x m, Build_FrameMsg (Common m) (RawParams m) x)].
End frame_json.

Definition c_frame : codec FrameMsg := c_struct frame_fields.

Definition add_member (j : json) (name : string) (v : json) : json :=
  match j with JObj ms => JObj (ms ++ [(name, v)]) | _ => j end.

(** A request type with its own [params] hides the raw [params] of the frame it
    embeds; so does [result] of a [HostInfoResponse]. *)
Definition encode_request (m : FrameMsg) (params : json) : json :=
  add_member (enc c_frame {| Common := Common m; RawParams := None; RawResult := RawResult m |})
    "params" params.

Definition Encode (f : Frame) : json :=
  match f with
  | FMsg m => enc c_frame m
  | FHandshake r => encode_request (hreq_Frame r) (enc c_handshake_params (hreq_Params r))
  | FHeartbeat r => encode_request (hbreq_Frame r) (enc c_heartbeat_params (hbreq_Params r))
  | FMetricsPost r => encode_request (mpr_Frame r) (enc c_metrics_post_content (mpr_Params r))
  | FHostInfo r =>
      add_member (enc c_frame {| Common := hi_Common r; RawParams := None; RawResult := None |})
        "result" (hi_Result r)
  end.

(** The [FrameMsg] that the far end decodes from an encoded frame. *)
Definition wire (f : Frame) : FrameMsg :=
  match f with
  | FMsg m => m
  | FHandshake r =>
      {| Common := Common (hreq_Frame r);
         RawParams := Some (enc c_handshake_params (hreq_Params r));
         RawResult := RawResult (hreq_Frame r) |}
  | FHeartbeat r =>
      {| Common := Common (hbreq_Frame r);
         RawParams := Some (enc c_heartbeat_params (hbreq_Params r));
         RawResult := RawResult (hbreq_Frame r) |}
  | FMetricsPost r =>
      {| Common := Common (mpr_Frame r);
         RawParams := Some (enc c_metrics_post_content (mpr_Params r));
         RawResult := RawResult (mpr_Frame r) |}
  | FHostInfo r =>
      {| Common := hi_Common r; RawParams := None; RawResult := Some (hi_Result r) |}
  end.

(** Identifiers and error codes are 64-bit. *)
Definition common_ok (c : FrameMsgCommon) : Prop :=
  is_u64 (f_Id c) ∧ ∀ e, f_Error c = Some e → is_u64 (Code e).

Section round_trips.
#[export] Instance c_error_rt : RoundTrips c_error (Build_Error 0 "") (λ e, is_u64 (Code e)).
Proof. struct_rt. Qed.

#[export] Instance c_frame_rt : RoundTrips c_frame zero_frame (λ m, common_ok (Common m)).
Proof.
  apply struct_round_trip.
  - refine (bool_decide_eq_true_1 _ _). vm_compute. reflexivity.
  - unfold frame_fields, common_ok. struct_fields.
    all: repeat (apply Forall_cons; split; [eapply mk_field_omit_ok; [apply _|..]|]).
    all: cbn; try done.
    + intros s Hs. by apply bool_decide_eq_true_1 in Hs.
    + intros t [_ Ht] _ e He. split; [by apply Ht|done].
    + by intros [].
    + by intros [? [] ?].
    + by intros [].
    + by intros [? ? []].
    + by intros [].
  - intros [[] p r] _. cbn. repeat split; reflexivity.
Qed.

Lemma encode_request_rt m params :
  common_ok (Common m) →
  dec c_frame (encode_request m params) zero_frame
    = ({| Common := Common m; RawParams := Some params; RawResult := RawResult m |}, true).
Proof.
  intros Hm.
  pose proof (round_trip (c := c_frame) {| Common := Common m; RawParams := None;
    RawResult := RawResult m |} Hm) as E.
  unfold encode_request, c_frame, c_struct, add_member, enc, dec in *.
  rewrite foldl_app. rewrite E. reflexivity.
Qed.

#[export] Instance c_manifest_rt : RoundTrips c_manifest zero_manifest (λ _, True).
Proof. struct_rt. Qed.
#[export] Instance c_prepare_start_rt :
  RoundTrips c_prepare_start zero_prepare_start (λ p, is_i64 (pps_Version p)).
Proof.
  apply struct_round_trip.
  - refine (bool_decide_eq_true_1 _ _). vm_compute. reflexivity.
  - struct_fields. apply Forall_cons. split; [|done]. eapply mk_field_ok; [apply _|].
    intros t _. by apply Forall_true.
  - intros [] _. cbn. repeat split; reflexivity.
Qed.

#[export] Instance c_prepare_block_rt :
  RoundTrips c_prepare_block zero_prepare_block (λ p, is_i64 (ppb_Version p) ∧
    Forall (λ c, ∀ c', c = Some c' → checkin_ok c') (ppb_Block p)).
Proof.
  apply struct_round_trip.
  - refine (bool_decide_eq_true_1 _ _). vm_compute. reflexivity.
  - struct_fields. apply Forall_cons. split; [|done]. eapply mk_field_ok; [apply _|].
    intros t [_ Ht]. cbn. eapply Forall_impl; [exact Ht|]. intros c Hc a Ha. split; [by apply Hc|done].
  - intros [] _. cbn. repeat split; reflexivity.
Qed.
#[export] Instance c_prepare_end_rt :
  RoundTrips c_prepare_end zero_prepare_end (λ p, is_i64 (ppe_Version p)).
Proof. struct_rt. Qed.
#[export] Instance c_commit_rt : RoundTrips c_commit zero_commit (λ p, is_i64 (pcp_Version p)).
Proof. struct_rt. Qed.
#[export] Instance c_prepare_result_rt :
  RoundTrips c_prepare_result zero_prepare_result (λ r, is_i64 (ppr_Version r)).
Proof. struct_rt. Qed.
#[export] Instance c_commit_result_rt :
  RoundTrips c_commit_result zero_commit_result (λ r, is_i64 (pcr_Version r)).
Proof. struct_rt. Qed.
#[export] Instance c_handshake_result_rt :
  RoundTrips c_handshake_result zero_handshake_result (λ r, is_u64 (HeartbeatInterval r)).
Proof. struct_rt. Qed.
#[export] Instance c_metric_tvu_rt : RoundTrips c_metric_tvu (Build_MetricTVU "" "" "") (λ _, True).
Proof. struct_rt. Qed.
#[export] Instance c_metric_wrap_rt z : RoundTrips c_metric_wrap z (λ _, True).
Proof.
  intros wrap _. apply (c_slice_rt _ _ _ z wrap). apply Forall_forall. intros m _ m' _ k e _ tvu _. done.
Qed.
#[export] Instance c_metrics_post_content_rt :
  RoundTrips c_metrics_post_content (Build_MetricsPostContent "" "" "" [] 0 "" "" 0)
    (λ c, is_u64 (mpc_MinCheckPeriod c) ∧ is_i64 (mpc_Timestamp c)).
Proof.
  apply struct_round_trip.
  - refine (bool_decide_eq_true_1 _ _). vm_compute. reflexivity.
  - struct_fields. apply Forall_cons. split.
    { eapply mk_field_ok; [apply _|]. intros t _. by apply Forall_true. }
    struct_fields.
  - intros [] _. cbn. repeat split; reflexivity.
Qed.
#[export] Instance c_heartbeat_result_rt :
  RoundTrips c_heartbeat_result (Build_HeartbeatResult 0) (λ r, is_i64 (hbr_Timestamp r)).
Proof. struct_rt. Qed.
End round_trips.

(** C37: what the far end decodes from an encoded frame.  Of every frame the
    poller sends whose identifier and error code are 64-bit numbers, decoding
    into an empty frame the document that [Encode] makes succeeds and gives the
    version, the identifier, the target, the source, the method and the error
    of the frame, and its parameters or its result as raw documents. *)
Theorem encode_decode f :
  common_ok (frame_common f) → Unmarshal c_frame (Encode f) zero_frame = (wire f, true).
Proof.
  intros Hf. unfold Unmarshal. destruct f as [m|r|r|r|r]; cbn [Encode wire frame_common] in *.
  - by apply (round_trip m).
  - by rewrite encode_request_rt.
  - by rewrite encode_request_rt.
  - by rewrite encode_request_rt.
  - pose proof (round_trip (c := c_frame)
      {| Common := hi_Common r; RawParams := None; RawResult := None |} Hf) as E.
    unfold c_frame, c_struct, add_member, enc, dec in *. rewrite foldl_app. by rewrite E.
Qed.
