(* ===== verification/Preparation.v ===== *)
(** Component: the preparation of a set of checks
    (src/poller/checks_preparation.go).

    A [ChecksPreparation] collects what one [poller.prepare] sequence declares
    and defines.  [Actions] holds pointers in the code; a preparation owns its
    entries and replaces their contents in place, so values model them. *)
From S2P Require Export Protocol.

(** [ActionType] and its constants. *)
Inductive ActionType :=
| ActionTypeUnknown
| ActionTypeStart
| ActionTypeRestart
| ActionTypeContinue.

#[export] Instance ActionType_eq_dec : EqDecision ActionType.
Proof. solve_decision. Defined.

Record ActionableCheck := {
  ac_CheckIn : CheckIn;
  ac_Action : ActionType;
  ac_Populated : bool
}.
Definition ac_Id (ac : ActionableCheck) : string := ch_Id (Header (ac_CheckIn ac)).
Definition ac_CheckType (ac : ActionableCheck) : string := ch_CheckType (Header (ac_CheckIn ac)).

(** [&ActionableCheck{}] *)
Definition zero_actionable : ActionableCheck :=
  {| ac_CheckIn := zero_checkin; ac_Action := ActionTypeUnknown; ac_Populated := false |}.

Record ChecksPreparation := {
  cp_ZoneId : string;
  cp_Version : Z;
  cp_Actions : gmap string ActionableCheck
}.

Definition set_Actions (a : gmap string ActionableCheck) (cp : ChecksPreparation)
    : ChecksPreparation :=
  {| cp_ZoneId := cp_ZoneId cp; cp_Version := cp_Version cp; cp_Actions := a |}.

Definition mapToActionType (actionStr : string) : ActionType :=
  if decide (actionStr = PrepareActionStart) then ActionTypeStart
  else if decide (actionStr = PrepareActionRestart) then ActionTypeRestart
  else if decide (actionStr = PrepareActionContinue) then ActionTypeContinue
  else ActionTypeUnknown.

Definition doesCheckPreparationNeedPopulating (action : string) : bool :=
  bool_decide (action ≠ PrepareActionContinue).

(** The entry made for one line of the manifest. *)
Definition manifest_entry (m : PollerPrepareManifest) : ActionableCheck := {|
  ac_Action := mapToActionType (man_Action m);
  ac_Populated := negb (doesCheckPreparationNeedPopulating (man_Action m));
  ac_CheckIn := {|
    Header := {| ch_Id := man_Id m; ch_CheckType := man_CheckType m; ch_Period := 0;
                 ch_Timeout := 0; ch_EntityId := man_EntityId m; ch_ZoneId := man_ZoneId m;
                 ch_Disabled := false; ch_IpAddresses := None; ch_TargetAlias := None;
                 ch_TargetHostname := None; ch_TargetResolver := "" |};
    RawDetails := None |}
|}.

Fixpoint add_manifest (manifest : list PollerPrepareManifest)
    (actions : gmap string ActionableCheck) : gmap string ActionableCheck + error :=
  match manifest with
  | [] => inl actions
  | m :: rest =>
      if decide (mapToActionType (man_Action m) = ActionTypeUnknown) then
        inr ("Unsupported action in manifest: action=" +:+ man_Action m +:+ ", check="
             +:+ man_Id m)%string
      else add_manifest rest (<[man_Id m := manifest_entry m]> actions)
  end.

Definition NewChecksPreparation (zoneId : string) (version : Z)
    (manifest : list PollerPrepareManifest) : ChecksPreparation + error :=
  match add_manifest manifest ∅ with
  | inl actions => inl {| cp_ZoneId := zoneId; cp_Version := version; cp_Actions := actions |}
  | inr err => inr err
  end.

(** The receiver of these three is a pointer that may be nil. *)
Definition VersionApplies (cp : option ChecksPreparation) (version : Z) : bool :=
  match cp with Some cp => bool_decide (cp_Version cp = version) | None => false end.
Definition IsNewer (cp : option ChecksPreparation) (version : Z) : bool :=
  match cp with Some cp => bool_decide (cp_Version cp < version)%Z | None => true end.
Definition IsOlder (cp : option ChecksPreparation) (version : Z) : bool :=
  match cp with Some cp => bool_decide (version < cp_Version cp)%Z | None => false end.

Definition add_definition (ch : CheckIn) (cp : ChecksPreparation) : ChecksPreparation :=
  let id := ch_Id (Header ch) in
  match cp_Actions cp !! id with
  | None => set_Actions (<[id := zero_actionable]> (cp_Actions cp)) cp
  | Some actionable =>
      set_Actions (<[id := {| ac_CheckIn := ch; ac_Action := ac_Action actionable;
                              ac_Populated := true |}]> (cp_Actions cp)) cp
  end.

(** [block] holds pointers decoded from the message: a [null] in it is a nil
    dereference. *)
Definition AddDefinitions (block : list (option CheckIn)) : go ChecksPreparation unit :=
  for_each block (λ p, ch ← deref p; modify (add_definition ch)).

Definition action_error (checkId : string) (ac : ActionableCheck) : option error :=
  if decide (ac_Action ac = ActionTypeUnknown) then
    Some ("Check defined but not declared in manifest. check=" +:+ ac_Id ac)%string
  else if negb (ac_Populated ac) then
    Some ("Check declared in manifest but not defined. check=" +:+ checkId)%string
  else None.

Fixpoint first_error {A} (p : A → option error) (l : list A) : option error :=
  match l with
  | [] => None
  | x :: l' => match p x with Some e => Some e | None => first_error p l' end
  end.

Section ranging.
Context `{MapRange}.

Definition GetActionableChecks (cp : ChecksPreparation) : list ActionableCheck :=
  (range (cp_Actions cp)).*2.

Definition ValidatePreparation (cp : ChecksPreparation) (version : Z) : option error :=
  if negb (VersionApplies (Some cp) version) then Some "Wrong version"
  else first_error (λ kv, action_error kv.1 kv.2) (range (cp_Actions cp)).
End ranging.

(** As a [PollerPrepareRequest]. *)
Definition preparation_request (cp : ChecksPreparation) : PollerPrepareRequest :=
  {| GetPreparationZoneId := cp_ZoneId cp; GetPreparationVersion := cp_Version cp |}.

(** ** Lemmas *)

Lemma first_error_none {A} (p : A → option error) l :
  first_error p l = None ↔ ∀ x, x ∈ l → p x = None.
Proof.
  induction l as [|x l IH]; cbn; [set_solver|].
  destruct (p x) eqn:E.
  - split; [done|]. intros H. rewrite (H x) in E by set_solver. done.
  - rewrite IH. set_solver.
Qed.

Lemma first_error_some {A} (p : A → option error) l e :
  first_error p l = Some e → ∃ x, x ∈ l ∧ p x = Some e.
Proof.
  induction l as [|x l IH]; cbn; [done|]. destruct (p x) eqn:E; set_solver.
Qed.

(** The last line of the manifest for an id. *)
Definition declared (man : list PollerPrepareManifest) (id : string)
    : option PollerPrepareManifest :=
  last (filter (λ m, man_Id m = id) man).

Definition supported (m : PollerPrepareManifest) : Prop :=
  mapToActionType (man_Action m) ≠ ActionTypeUnknown.
#[export] Instance supported_dec m : Decision (supported m).
Proof. unfold supported. apply _. Defined.

(** The last definition of an id among the definitions received. *)
Definition defined (chs : list CheckIn) (id : string) : option CheckIn :=
  last (filter (λ c, ch_Id (Header c) = id) chs).

Lemma last_filter_cons {A} (P : A → Prop) `{∀ x, Decision (P x)} x l :
  last (filter P (x :: l)) =
    match last (filter P l) with
    | Some y => Some y
    | None => if decide (P x) then Some x else None
    end.
Proof.
  rewrite filter_cons. destruct (decide (P x)); [|by destruct (last _)].
  rewrite last_cons. done.
Qed.

Lemma last_filter_some {A} (P : A → Prop) `{∀ x, Decision (P x)} l x :
  last (filter P l) = Some x → x ∈ l ∧ P x.
Proof. intros Hl%last_Some_elem_of. apply list_elem_of_filter in Hl. tauto. Qed.

Lemma last_filter_none {A} (P : A → Prop) `{∀ x, Decision (P x)} l :
  last (filter P l) = None ↔ ∀ x, x ∈ l → ¬ P x.
Proof.
  rewrite last_None. split.
  - intros E x Hx HP. assert (x ∈ filter P l) as Hf by (by apply list_elem_of_filter).
    rewrite E in Hf. by apply not_elem_of_nil in Hf.
  - intros Hno. apply elem_of_nil_inv. intros x [HP Hx]%list_elem_of_filter. by eapply Hno.
Qed.

Lemma last_filter_is_some {A} (P : A → Prop) `{∀ x, Decision (P x)} l x :
  x ∈ l → P x → is_Some (last (filter P l)).
Proof.
  intros Hx HP. destruct (last (filter P l)) eqn:E; [by eexists|].
  by destruct (proj1 (last_filter_none P l) E x Hx).
Qed.

Lemma add_manifest_ok man actions :
  Forall supported man →
  ∃ actions', add_manifest man actions = inl actions' ∧
    ∀ id, actions' !! id = match declared man id with
                           | Some m => Some (manifest_entry m)
                           | None => actions !! id
                           end.
Proof.
  revert actions. induction man as [|m man IH]; intros actions Hs; cbn.
  - by eexists.
  - apply Forall_cons in Hs as [Hm Hs]. rewrite decide_False by done.
    destruct (IH (<[man_Id m := manifest_entry m]> actions) Hs) as (a & -> & Ha).
    eexists. split; [done|]. intros id. rewrite Ha. unfold declared.
    rewrite last_filter_cons. destruct (last (filter _ man)); [done|].
    destruct (decide (man_Id m = id)) as [<-|Hne].
    + by rewrite lookup_insert_eq.
    + by rewrite lookup_insert_ne.
Qed.

Lemma add_manifest_err man actions :
  ¬ Forall supported man →
  ∃ m, m ∈ man ∧ ¬ supported m ∧ add_manifest man actions = inr
    ("Unsupported action in manifest: action=" +:+ man_Action m +:+ ", check=" +:+ man_Id m)%string.
Proof.
  revert actions. induction man as [|m man IH]; intros actions Hs; cbn.
  - by destruct Hs.
  - case_decide as Hm.
    + exists m. split_and!; [by left| |done]. by intros Hn.
    + destruct (IH (<[man_Id m := manifest_entry m]> actions)) as (m' & Hin & Hns & E).
      { intros Hall. by apply Hs, Forall_cons. }
      exists m'. split_and!; [by right|done|done].
Qed.

(** Adding definitions one after another. *)
Definition add_definitions (defs : list CheckIn) (cp : ChecksPreparation) : ChecksPreparation :=
  foldl (λ cp ch, add_definition ch cp) cp defs.

Lemma AddDefinitions_ok defs cp :
  AddDefinitions (Some <$> defs) cp = Ret () (add_definitions defs cp).
Proof.
  unfold AddDefinitions. revert cp. induction defs as [|ch defs IH]; intros cp; [done|].
  cbn. unfold mbind, go_bind. cbn. by rewrite IH.
Qed.

Lemma AddDefinitions_nil defs rest cp :
  AddDefinitions ((Some <$> defs) ++ None :: rest) cp = Halt NilDeref (add_definitions defs cp).
Proof.
  unfold AddDefinitions. rewrite for_each_app, bind_app.
  change (for_each (Some <$> defs) _ cp) with (AddDefinitions (Some <$> defs) cp).
  by rewrite AddDefinitions_ok.
Qed.

#[export] Instance nil_in_block_dec (block : list (option CheckIn)) : Decision (None ∈ block).
Proof.
  induction block as [|[c|] block IH].
  - right. apply not_elem_of_nil.
  - destruct IH as [Hin|Hn]; [left; by right|right]. by intros [?|?]%elem_of_cons.
  - left. by left.
Defined.

(** A block is free of nil pointers, or stops at the first one. *)
Lemma block_no_nil (block : list (option CheckIn)) :
  None ∉ block → block = Some <$> omap id block.
Proof.
  induction block as [|[c|] block IH]; intros Hn; cbn; [done| |].
  - f_equal. apply IH. intros Hin. apply Hn. by right.
  - destruct Hn. by left.
Qed.

Lemma block_of_definitions (defs : list CheckIn) : omap id (Some <$> defs) = defs.
Proof. induction defs as [|c defs IH]; [done|]. cbn. by rewrite IH. Qed.

Lemma block_nil (block : list (option CheckIn)) :
  None ∈ block → ∃ defs rest, block = (Some <$> defs) ++ None :: rest.
Proof.
  induction block as [|[c|] block IH]; intros Hn; [by apply not_elem_of_nil in Hn| |].
  - apply elem_of_cons in Hn as [?|Hn]; [done|]. destruct (IH Hn) as (defs & rest & ->).
    by exists (c :: defs), rest.
  - by exists [], block.
Qed.

(** The entry of an id after the definitions have been added. *)
Definition populated_entry (c : CheckIn) (ac : ActionableCheck) : ActionableCheck :=
  {| ac_CheckIn := c; ac_Action := ac_Action ac; ac_Populated := true |}.

Lemma add_definitions_lookup defs cp id ac :
  cp_Actions cp !! id = Some ac →
  cp_Actions (add_definitions defs cp) !! id =
    Some (match defined defs id with Some c => populated_entry c ac | None => ac end).
Proof.
  unfold defined, add_definitions. revert ac cp.
  induction defs as [|ch defs IH]; intros ac cp Hac; [done|]. cbn [foldl].
  rewrite last_filter_cons. destruct (decide (ch_Id (Header ch) = id)) as [<-|Hne].
  - rewrite (IH (populated_entry ch ac)); [by destruct (last _)|].
    unfold add_definition. rewrite Hac. apply lookup_insert_eq.
  - rewrite (IH ac); [by destruct (last _)|]. unfold add_definition.
    destruct (cp_Actions cp !! ch_Id (Header ch)); cbn; by rewrite lookup_insert_ne.
Qed.

Lemma add_definitions_undeclared defs cp id :
  cp_Actions cp !! id = None →
  match defined defs id with
  | None => cp_Actions (add_definitions defs cp) !! id = None
  | Some _ => ∃ ac, cp_Actions (add_definitions defs cp) !! id = Some ac
                    ∧ ac_Action ac = ActionTypeUnknown
  end.
Proof.
  unfold defined. revert cp.
  induction defs as [|ch defs IH]; intros cp Hno; [done|].
  rewrite last_filter_cons. destruct (decide (ch_Id (Header ch) = id)) as [<-|Hne].
  - assert (cp_Actions (add_definition ch cp) !! ch_Id (Header ch) = Some zero_actionable) as E.
    { unfold add_definition. rewrite Hno. cbn. apply lookup_insert_eq. }
    apply (add_definitions_lookup defs) in E. unfold add_definitions, defined in *.
    cbn [foldl]. rewrite E. by destruct (last _); eexists.
  - assert (cp_Actions (add_definition ch cp) !! id = None) as E.
    { unfold add_definition. destruct (cp_Actions cp !! ch_Id (Header ch)); cbn;
        by rewrite lookup_insert_ne. }
    apply IH in E. by destruct (last _).
Qed.

Lemma add_definitions_header defs cp :
  cp_ZoneId (add_definitions defs cp) = cp_ZoneId cp
  ∧ cp_Version (add_definitions defs cp) = cp_Version cp.
Proof.
  unfold add_definitions. revert cp.
  induction defs as [|ch defs IH]; intros cp; [done|]. cbn [foldl].
  destruct (IH (add_definition ch cp)) as [-> ->]. unfold add_definition. by destruct (_ !! _).
Qed.

Lemma validate_none_iff `{MapRange} cp version :
  ValidatePreparation cp version = None ↔
    cp_Version cp = version ∧ map_Forall (λ id ac, action_error id ac = None) (cp_Actions cp).
Proof.
  unfold ValidatePreparation, VersionApplies. case_bool_decide as Hv; cbn; [|naive_solver].
  rewrite first_error_none. split.
  - intros Hall. split; [done|]. intros id ac Hac. apply (Hall (id, ac)). by apply elem_of_range.
  - intros [_ Hall] [id ac] Hac%elem_of_range. by apply Hall.
Qed.

Lemma action_error_none id ac :
  action_error id ac = None ↔ ac_Action ac ≠ ActionTypeUnknown ∧ ac_Populated ac = true.
Proof.
  unfold action_error. case_decide; [naive_solver|]. destruct (ac_Populated ac); naive_solver.
Qed.

Lemma new_preparation_ok zone version man cp :
  NewChecksPreparation zone version man = inl cp →
  Forall supported man ∧ cp_ZoneId cp = zone ∧ cp_Version cp = version
  ∧ ∀ id, cp_Actions cp !! id = manifest_entry <$> declared man id.
Proof.
  unfold NewChecksPreparation. intros E.
  destruct (decide (Forall supported man)) as [Hs|Hs].
  - destruct (add_manifest_ok man ∅ Hs) as (a & Ea & Ha). rewrite Ea in E.
    injection E as <-. by split_and!.
  - destruct (add_manifest_err man ∅ Hs) as (m & _ & _ & Em). by rewrite Em in E.
Qed.

Lemma prepared_cases `{MapRange} zone version man cp defs v :
  NewChecksPreparation zone version man = inl cp →
  ValidatePreparation (add_definitions defs cp) v = None ↔
    v = version
    ∧ (∀ c, c ∈ defs → is_Some (declared man (ch_Id (Header c))))
    ∧ (∀ id m, declared man id = Some m → man_Action m ≠ PrepareActionContinue →
         is_Some (defined defs id)).
Proof.
  intros (Hs & _ & Hv & Ha)%new_preparation_ok.
  destruct (add_definitions_header defs cp) as [_ Hv'].
  rewrite validate_none_iff, Hv', Hv. unfold map_Forall. setoid_rewrite action_error_none.
  split.
  - intros [<- Hall]. split_and!; [done| |].
    + intros c Hc. destruct (declared man (ch_Id (Header c))) eqn:E; [done|].
      pose proof (add_definitions_undeclared defs cp (ch_Id (Header c))) as Hu.
      rewrite Ha, E in Hu. specialize (Hu eq_refl).
      destruct (defined defs (ch_Id (Header c))) eqn:Ed.
      * destruct Hu as (ac & Hac & Hbad). by destruct (Hall _ _ Hac).
      * unfold defined in Ed. rewrite last_filter_none in Ed. by destruct (Ed c).
    + intros id m Hm Hact. destruct (defined defs id) eqn:Ed; [done|].
      destruct (Hall id (manifest_entry m)) as [_ Hp].
      { erewrite add_definitions_lookup by (by rewrite Ha, Hm). by rewrite Ed. }
      cbn in Hp. unfold doesCheckPreparationNeedPopulating in Hp.
      by rewrite bool_decide_true in Hp.
  - intros (-> & Hdecl & Hdef). split; [done|]. intros id ac Hac.
    destruct (declared man id) as [m|] eqn:Hm.
    + erewrite add_definitions_lookup in Hac by (by rewrite Ha, Hm).
      assert (supported m) as Hsup.
      { unfold declared in Hm. apply last_filter_some in Hm as [Hin _].
        by eapply Forall_forall in Hs. }
      destruct (defined defs id) eqn:Ed; simplify_eq/=; [done|]. split; [done|].
      unfold doesCheckPreparationNeedPopulating. case_bool_decide as Hc; [|done].
      destruct (Hdef id m Hm Hc) as [? ?]; congruence.
    + pose proof (add_definitions_undeclared defs cp id) as Hu.
      rewrite Ha, Hm in Hu. specialize (Hu eq_refl).
      destruct (defined defs id) as [c|] eqn:Ed.
      * apply last_filter_some in Ed as [Hin <-]. destruct (Hdecl c Hin). congruence.
      * congruence.
Qed.

Lemma new_preparation_started man zone version :
  Forall supported man → ∃ cp, NewChecksPreparation zone version man = inl cp.
Proof.
  intros Hs. destruct (add_manifest_ok man ∅ Hs) as (a & Ea & _). unfold NewChecksPreparation.
  rewrite Ea. by eexists.
Qed.

(** ** Properties *)

(** A preparation is started exactly when every line of the manifest has a
    known action.  It then has one entry per id of the manifest, made from the
    last line for that id; otherwise the error names a line at fault. *)
Theorem new_preparation_spec zone version man :
  match NewChecksPreparation zone version man with
  | inl cp => Forall supported man ∧ cp_ZoneId cp = zone ∧ cp_Version cp = version
      ∧ ∀ id, cp_Actions cp !! id = manifest_entry <$> declared man id
  | inr err => ∃ m, m ∈ man ∧ ¬ supported m ∧ err =
      ("Unsupported action in manifest: action=" +:+ man_Action m +:+ ", check="
       +:+ man_Id m)%string
  end.
Proof.
  destruct (NewChecksPreparation zone version man) as [cp|err] eqn:E.
  - by apply new_preparation_ok.
  - unfold NewChecksPreparation in E. destruct (decide (Forall supported man)) as [Hs|Hs].
    + destruct (add_manifest_ok man ∅ Hs) as (a & Ea & _). by rewrite Ea in E.
    + destruct (add_manifest_err man ∅ Hs) as (m & Hin & Hns & Em).
      rewrite Em in E. injection E as <-. by exists m.
Qed.

(** C39: when a preparation is complete.  After a manifest and the definitions
    of any number of blocks, the validation for a version succeeds if and only
    if it is the version of the preparation, every definition received belongs
    to a line of the manifest, and every check of the manifest that is to be
    started or restarted has been defined. *)
Theorem prepared_iff `{MapRange} zone version man cp defs v :
  NewChecksPreparation zone version man = inl cp →
  ValidatePreparation (add_definitions defs cp) v = None ↔
    v = version
    ∧ (∀ c, c ∈ defs → is_Some (declared man (ch_Id (Header c))))
    ∧ (∀ id m, declared man id = Some m → man_Action m ≠ PrepareActionContinue →
         is_Some (defined defs id)).
Proof. apply prepared_cases. Qed.

(** A small preparation: one check to start and one that continues. *)
Definition example_manifest : list PollerPrepareManifest := [
  {| man_Action := "start"; man_EntityId := "enA"; man_Id := "chA"; man_CheckType := "remote.ping";
     man_ZoneId := "pzA" |};
  {| man_Action := "continue"; man_EntityId := "enA"; man_Id := "chB";
     man_CheckType := "remote.tcp"; man_ZoneId := "pzA" |}].

Definition example_definition : CheckIn := {|
  Header := {| ch_Id := "chA"; ch_CheckType := "remote.ping"; ch_Period := 30; ch_Timeout := 10;
               ch_EntityId := "enA"; ch_ZoneId := "pzA"; ch_Disabled := false;
               ch_IpAddresses := None; ch_TargetAlias := None; ch_TargetHostname := Some "h";
               ch_TargetResolver := "IPv4" |};
  RawDetails := Some (JObj [("count", JInt 5)]) |}.

Lemma prepared_iff_witness :
  ∃ cp, NewChecksPreparation "pzA" 5 example_manifest = inl cp
    ∧ (let _ := some_order in ValidatePreparation (add_definitions [example_definition] cp) 5)
        = None.
Proof.
  eexists. split; [reflexivity|]. cbn zeta.
  apply (prepared_iff (H := some_order) "pzA" 5 example_manifest _ [example_definition] 5 eq_refl).
  split_and!; [done| |].
  - intros c ->%list_elem_of_singleton. by eexists.
  - intros id m [Hm <-]%last_filter_some Hact. unfold example_manifest in Hm.
    apply elem_of_cons in Hm as [->|Hm%list_elem_of_singleton]; [by eexists|by subst].
Defined.

(** ** The interface [ChecksReconciler] (src/poller/poller.go)

    What a session uses: validating a preparation, and handing over one that
    is committed.  The laws state what it relies on: validation looks at
    nothing but which checks are to be restarted and which continue, and the
    hand-over of a preparation returns while the receiver has room. *)
Definition plan (cp : ChecksPreparation) (id : string) (action : ActionType) : Prop :=
  ∃ key ac, cp_Actions cp !! key = Some ac ∧ ac_Id ac = id ∧ ac_Action ac = action.

Definition same_plan (cp cp' : ChecksPreparation) : Prop :=
  ∀ id action, action ≠ ActionTypeUnknown → plan cp id action ↔ plan cp' id action.

Class ChecksReconciler (R : Type) := {
  ValidateChecks : ChecksPreparation → R → option error;
  ReconcileChecks : ChecksPreparation → go R unit;
  has_room : R → bool;
  reconcile_room : ∀ cp r, has_room r = true → returns (ReconcileChecks cp r) = true;
  validate_plan : ∀ r, Proper (same_plan ==> iff) (λ cp, ValidateChecks cp r = None)
}.

#[export] Instance same_plan_equivalence : Equivalence same_plan.
Proof.
  split.
  - by intros cp id action.
  - intros cp cp' H id action Ha. symmetry. by apply H.
  - intros cp1 cp2 cp3 H1 H2 id action Ha. by rewrite (H1 id action Ha), (H2 id action Ha).
Qed.

(** Definitions do not change the plan of a preparation whose entries are filed
    under their ids. *)
Definition filed (cp : ChecksPreparation) : Prop :=
  ∀ key ac, cp_Actions cp !! key = Some ac → ac_Action ac ≠ ActionTypeUnknown → ac_Id ac = key.

Lemma last_filter_id defs id c : defined defs id = Some c → ch_Id (Header c) = id.
Proof. intros H. by apply last_filter_some in H as [_ H]. Qed.

Lemma add_definitions_entry defs cp key ac :
  filed cp → ac_Action ac ≠ ActionTypeUnknown →
  cp_Actions (add_definitions defs cp) !! key = Some ac →
  ∃ ac0, cp_Actions cp !! key = Some ac0 ∧ ac_Id ac = key ∧ ac_Action ac = ac_Action ac0.
Proof.
  intros Hf Hk Hac. destruct (cp_Actions cp !! key) as [ac0|] eqn:E.
  - rewrite (add_definitions_lookup defs cp key ac0 E) in Hac. exists ac0.
    destruct (defined defs key) as [c|] eqn:Ed; injection Hac as <-.
    + split_and!; [done|by apply (last_filter_id defs)|done].
    + split_and!; [done|by apply (Hf key)|done].
  - pose proof (add_definitions_undeclared defs cp key E) as Hu.
    destruct (defined defs key); [|congruence]. destruct Hu as (ac' & Hac' & Hno). congruence.
Qed.

Lemma add_definitions_filed defs cp : filed cp → filed (add_definitions defs cp).
Proof.
  intros Hf key ac Hac Hk.
  destruct (add_definitions_entry defs cp key ac Hf Hk Hac) as (ac0 & _ & H & _). exact H.
Qed.

Lemma add_definitions_plan defs cp : filed cp → same_plan cp (add_definitions defs cp).
Proof.
  intros Hf id action Ha. split.
  - intros (key & ac & Hac & <- & <-). pose proof (Hf _ _ Hac Ha) as E.
    exists key. eexists. split; [by apply add_definitions_lookup|].
    destruct (defined defs key) as [c|] eqn:Ed; [|done].
    apply last_filter_id in Ed. by rewrite E.
  - intros (key & ac & Hac & <- & <-).
    destruct (add_definitions_entry defs cp key ac Hf Ha Hac) as (ac0 & H0 & H1 & H2).
    exists key, ac0. split_and!; [done| |done]. rewrite H1. apply (Hf key); [done|congruence].
Qed.

Lemma new_preparation_filed zone version man cp :
  NewChecksPreparation zone version man = inl cp → filed cp.
Proof.
  intros (_ & _ & _ & Ha)%new_preparation_ok key ac Hac _. rewrite Ha in Hac.
  destruct (declared man key) as [m|] eqn:E; [|done]. injection Hac as <-.
  by apply last_filter_some in E as [_ <-].
Qed.
