(* ===== verification/Runtime.v ===== *)
(** The parts of Go's standard library that the components share: cancelable
    contexts ([context]) and timers ([time], the semantics before Go 1.23,
    where stopping a timer does not empty its channel), with the clock
    arithmetic of src/utils/timestamp.go. *)
From S2P Require Export Config.

(** ** Contexts

    A context is the path of the identities of its ancestors, its own first;
    [context.Background()] is the empty path.  Canceling a context is recorded
    by its identity, and a context is done when an identity on its path has
    been canceled. *)
Abbreviation Context := (list nat) (only parsing).
Definition Background : Context := [].

Record Contexts := {
  ctx_next : nat;
  ctx_canceled : gset nat
}.

Definition WithCancel (parent : Context) : go Contexts Context := λ s,
  Ret (ctx_next s :: parent)
      {| ctx_next := S (ctx_next s); ctx_canceled := ctx_canceled s |}.

Definition cancel_in (c : Context) (s : Contexts) : Contexts := {|
  ctx_next := ctx_next s;
  ctx_canceled := match c with [] => ctx_canceled s | i :: _ => {[i]} ∪ ctx_canceled s end
|}.
Definition cancel_context (c : Context) : go Contexts unit := modify (cancel_in c).

Definition is_done (s : Contexts) (c : Context) : bool :=
  existsb (λ i, bool_decide (i ∈ ctx_canceled s)) c.

(** A context only mentions identities already given out. *)
Definition live_ids (s : Contexts) (c : Context) : Prop := Forall (λ i, i < ctx_next s) c.

Lemma is_done_true s c : is_done s c = true ↔ ∃ i, i ∈ c ∧ i ∈ ctx_canceled s.
Proof.
  unfold is_done. rewrite existsb_exists. split.
  - intros (i & Hi & Hc%bool_decide_eq_true_1). exists i. by rewrite list_elem_of_In.
  - intros (i & Hi & Hc). exists i. rewrite list_elem_of_In in Hi. split; [done|].
    by apply bool_decide_eq_true_2.
Qed.

Lemma is_done_false s c : is_done s c = false ↔ ∀ i, i ∈ c → i ∉ ctx_canceled s.
Proof.
  rewrite <- not_true_iff_false, is_done_true. split; [intros H i Hi Hc; by eauto|].
  intros H (i & Hi & Hc). by eapply H.
Qed.

(** ** Timers *)
Inductive Timer :=
| Armed (d : Duration)
| Stopped
| Fired.

#[export] Instance Timer_eq_dec : EqDecision Timer.
Proof. solve_decision. Defined.

(** [t.Stop()] *)
Definition timer_stop (t : Timer) : bool * Timer :=
  match t with
  | Armed _ => (true, Stopped)
  | Stopped => (false, Stopped)
  | Fired => (false, Fired)
  end.

(** [<-t.C]: an armed timer fires in the end; on the channel of a stopped one
    the goroutine waits for ever. *)
Definition timer_receive {S} (t : Timer) : go S Timer :=
  match t with
  | Armed _ | Fired => mret Stopped
  | Stopped => halt Blocked
  end.

(** [t.Reset(d)] *)
Definition timer_reset (d : Duration) (_ : Timer) : Timer := Armed d.

(** [ChannelOfTimer]: whether a receive from that channel can proceed. *)
Definition ChannelOfTimer (timer : option Timer) : bool :=
  match timer with
  | None => false
  | Some Fired => true
  | Some _ => false
  end.

(** ** Timestamps *)

(** [NowTimestampMillis], given the clock in nanoseconds since the epoch. *)
Definition NowTimestampMillis (unixNano : Z) : Z := (Z.quot unixNano 1000000).

Record TimeLatencyTracking := {
  PollerSendTimestamp : Z;
  PollerRecvTimestamp : Z;
  ServerRecvTimestamp : Z;
  ServerRespTimestamp : Z
}.
Definition zero_tracking : TimeLatencyTracking :=
  {| PollerSendTimestamp := 0; PollerRecvTimestamp := 0; ServerRecvTimestamp := 0;
     ServerRespTimestamp := 0 |}.

Definition ComputeSkew (tt : TimeLatencyTracking) : Z * Z + error :=
  if bool_decide (PollerSendTimestamp tt = 0%Z) || bool_decide (PollerRecvTimestamp tt = 0%Z)
     || bool_decide (ServerRecvTimestamp tt = 0%Z) || bool_decide (ServerRespTimestamp tt = 0%Z)
  then inr "Unable to compute with any unset timestamp"
  else
    let T1 := PollerSendTimestamp tt in
    let T2 := ServerRecvTimestamp tt in
    let T3 := ServerRespTimestamp tt in
    let T4 := PollerRecvTimestamp tt in
    let offset := Z.quot (to_i64 (to_i64 (T2 - T1) + to_i64 (T3 - T4))) 2 in
    let latency := to_i64 (to_i64 (T4 - T1) + to_i64 (T3 - T2)) in
    inl (offset, latency).

(** The conversions [float64(i)] (round to nearest, ties to even) and
    [int64(f)] of a float that holds an integer (amd64 gives the smallest
    value out of range). *)
Definition round_to (e m : Z) : Z :=
  let q := Z.shiftr m e in
  let r := (m - Z.shiftl q e)%Z in
  let half := Z.shiftl 1 (e - 1) in
  let up := bool_decide (half < r)%Z || (bool_decide (r = half) && Z.odd q) in
  Z.shiftl (if up then q + 1 else q)%Z e.
Definition float64_of_int64 (z : Z) : Z :=
  let m := Z.abs z in
  if bool_decide (m < 2 ^ 53)%Z then z
  else (Z.sgn z * round_to (Z.log2 m - 52) m)%Z.
Definition int64_of_float64 (f : Z) : Z :=
  if bool_decide (is_i64 f) then f else (- 2 ^ 63)%Z.

Definition MinOfDurations (a b : Duration) : Duration :=
  int64_of_float64 (Z.min (float64_of_int64 a) (float64_of_int64 b)).

(** ** Properties *)

Lemma int64_div_2 z : is_i64 z → is_i64 (Z.quot z 2).
Proof. unfold is_i64. intros. pose proof (Z.quot_rem z 2). pose proof (Z.rem_bound_abs z 2). lia. Qed.

Lemma compute_skew_bound t1 theta d1 p d2 :
  let T2 := (t1 + d1 + theta)%Z in
  let T3 := (T2 + p)%Z in
  let T4 := (T3 - theta + d2)%Z in
  (0 < t1 < 2 ^ 60)%Z → (Z.abs theta < 2 ^ 60)%Z →
  (0 ≤ d1 < 2 ^ 60)%Z → (0 ≤ p < 2 ^ 60)%Z → (0 ≤ d2 < 2 ^ 60)%Z →
  T2 ≠ 0%Z → T3 ≠ 0%Z →
  ∃ offset,
    ComputeSkew {| PollerSendTimestamp := t1; ServerRecvTimestamp := T2;
                   ServerRespTimestamp := T3; PollerRecvTimestamp := T4 |}
      = inl (offset, d1 + d2 + 2 * p)%Z
    ∧ (2 * Z.abs (offset - theta) ≤ d1 + d2 + 1)%Z.
Proof.
  intros T2 T3 T4 H1 Hth Hd1 Hp Hd2 HT2 HT3. unfold ComputeSkew. cbn.
  rewrite !bool_decide_false by (subst T2 T3 T4; lia). cbn.
  rewrite (to_i64_id (T2 - t1)), (to_i64_id (T3 - T4)), (to_i64_id (T4 - t1)),
    (to_i64_id (T3 - T2)) by (unfold is_i64; subst T2 T3 T4; lia).
  rewrite !to_i64_id by (unfold is_i64; subst T2 T3 T4; lia).
  set (n := (T2 - t1 + (T3 - T4))%Z).
  exists (Z.quot n 2). split.
  { replace (T4 - t1 + (T3 - T2))%Z with (d1 + d2 + 2 * p)%Z by (subst T2 T3 T4; lia). done. }
  pose proof (Z.quot_rem n 2). pose proof (Z.rem_bound_abs n 2).
  subst n T2 T3 T4. lia.
Qed.

(** NTP.  When the poller's clock and the server's differ by [theta], the
    request takes [d1], the server answers after [p] and the answer takes [d2],
    the offset computed is off by at most half the travel time [d1 + d2] (plus
    the rounding of the integer division), and the latency computed is the
    travel time plus twice [p]: it is the travel time exactly when the server's
    two timestamps are equal, as they are in the session's heartbeats. *)
Theorem compute_skew_ntp t1 theta d1 p d2 :
  let T2 := (t1 + d1 + theta)%Z in
  let T3 := (T2 + p)%Z in
  let T4 := (T3 - theta + d2)%Z in
  (0 < t1 < 2 ^ 60)%Z → (Z.abs theta < 2 ^ 60)%Z →
  (0 ≤ d1 < 2 ^ 60)%Z → (0 ≤ p < 2 ^ 60)%Z → (0 ≤ d2 < 2 ^ 60)%Z →
  T2 ≠ 0%Z → T3 ≠ 0%Z →
  ∃ offset,
    ComputeSkew {| PollerSendTimestamp := t1; ServerRecvTimestamp := T2;
                   ServerRespTimestamp := T3; PollerRecvTimestamp := T4 |}
      = inl (offset, d1 + d2 + 2 * p)%Z
    ∧ (2 * Z.abs (offset - theta) ≤ d1 + d2 + 1)%Z.
Proof. intros. by apply compute_skew_bound. Qed.

Lemma compute_skew_ntp_witness :
  ∃ offset,
    ComputeSkew {| PollerSendTimestamp := 1000; ServerRecvTimestamp := 1530;
                   ServerRespTimestamp := 1535; PollerRecvTimestamp := 1055 |}
      = inl (offset, 60)%Z
    ∧ (2 * Z.abs (offset - 500) ≤ 51)%Z.
Proof. apply (compute_skew_ntp 1000 500 30 5 20); lia. Defined.

Lemma min_of_durations_exact a b :
  (Z.abs a < 2 ^ 53)%Z → (Z.abs b < 2 ^ 53)%Z → MinOfDurations a b = Z.min a b.
Proof.
  intros Ha Hb. unfold MinOfDurations, float64_of_int64, int64_of_float64.
  rewrite !(bool_decide_true (Z.abs _ < _)%Z) by done.
  rewrite bool_decide_true; [done|]. unfold is_i64. lia.
Qed.
