(* ===== verification/Events.v ===== *)
(** Component: event sources and consumers (src/utils/events.go).

    A registry keeps a Go slice of consumers, and removing one rewrites the
    array behind the slice in place, which an emission in progress still
    reads.  The arrays are therefore modelled, with the slice as a reference
    and a length. *)
From S2P Require Export Prelude.

Section events.
Context {Consumer Event : Type} `{!EqDecision Consumer}.

(** The arrays allocated so far, each as the elements up to its capacity, and
    the slice [consumers]. *)
Record EventConsumerRegistry := {
  arrays : list (list (option Consumer));
  slice_array : nat;
  slice_len : nat
}.

Record BasicEvent := { eventType : string; target : Event }.
Definition NewEvent (t : string) (x : Event) : BasicEvent := {| eventType := t; target := x |}.
Definition event_String (evt : BasicEvent) : string := ("[type=" +:+ eventType evt +:+ "]")%string.

(** The nil slice: an array without elements. *)
Definition new_registry : EventConsumerRegistry :=
  {| arrays := [[]]; slice_array := 0; slice_len := 0 |}.

Definition array_of (r : EventConsumerRegistry) (i : nat) : list (option Consumer) :=
  default [] (arrays r !! i).

(** What the slice holds. *)
Definition consumers (r : EventConsumerRegistry) : list (option Consumer) :=
  take (slice_len r) (array_of r (slice_array r)).

Definition contains (c : Consumer) (r : EventConsumerRegistry) : bool :=
  bool_decide (Some c ∈ consumers r).

(** [append(s, x)] for a slice given by its array and length: in place when the
    array has room, else into a new array, whose spare capacity [grow] the
    runtime chooses. *)
Context (grow : nat → nat).

Definition append_to (arr len : nat) (x : Consumer) (r : EventConsumerRegistry)
    : EventConsumerRegistry * (nat * nat) :=
  let a := array_of r arr in
  if bool_decide (len < length a) then
    ({| arrays := <[arr := <[len := Some x]> a]> (arrays r); slice_array := slice_array r;
        slice_len := slice_len r |}, (arr, S len))
  else
    ({| arrays := arrays r ++ [take len a ++ Some x :: replicate (grow len) None];
        slice_array := slice_array r; slice_len := slice_len r |},
     (length (arrays r), S len)).

Definition set_slice (s : nat * nat) (r : EventConsumerRegistry) : EventConsumerRegistry :=
  {| arrays := arrays r; slice_array := s.1; slice_len := s.2 |}.

Definition RegisterEventConsumer (c : Consumer) (r : EventConsumerRegistry) : EventConsumerRegistry :=
  if contains c r then r
  else let '(r, s) := append_to (slice_array r) (slice_len r) c r in set_slice s r.

(** The loop of [DeregisterEventConsumer]: it reads the old slice while it
    appends to [trimmed], which shares the array. *)
Definition trim_step (arr : nat) (c : Consumer) (acc : EventConsumerRegistry * (nat * nat)) (i : nat)
    : EventConsumerRegistry * (nat * nat) :=
  let '(r, (t, len)) := acc in
  match array_of r arr !! i with
  | Some (Some x) => if decide (x = c) then acc else append_to t len x r
  | _ => acc
  end.

Definition DeregisterEventConsumer (c : Consumer) (r : EventConsumerRegistry) : EventConsumerRegistry :=
  if contains c r then
    let '(r', trimmed) :=
      foldl (trim_step (slice_array r) c) (r, (slice_array r, 0)) (seq 0 (slice_len r)) in
    set_slice trimmed r'
  else r.

(** What a handler does: it may change the registrations, and return an error. *)
Inductive registration_call := Register (c : Consumer) | Deregister (c : Consumer).
Definition call (x : registration_call) (r : EventConsumerRegistry) : EventConsumerRegistry :=
  match x with
  | Register c => RegisterEventConsumer c r
  | Deregister c => DeregisterEventConsumer c r
  end.

Context (HandleEvent : Consumer → BasicEvent → list registration_call * option string).

(** The loop of [EmitEvent] from index [i] over a slice of length [len]; the
    list is the consumers called, in order. *)
Fixpoint emit_from (arr i n : nat) (evt : BasicEvent) (r : EventConsumerRegistry)
    : EventConsumerRegistry * list Consumer * option string :=
  match n with
  | O => (r, [], None)
  | S n' =>
      match array_of r arr !! i with
      | Some (Some c) =>
          let '(calls, err) := HandleEvent c evt in
          let r := foldl (λ r x, call x r) r calls in
          match err with
          | Some e => (r, [c], Some e)
          | None =>
              let '(r, called, err) := emit_from arr (S i) n' evt r in (r, c :: called, err)
          end
      | _ => (r, [], None)
      end
  end.
Definition EmitEvent (evt : BasicEvent) (r : EventConsumerRegistry)
    : EventConsumerRegistry * list Consumer * option string :=
  emit_from (slice_array r) 0 (slice_len r) evt r.

(** ** The abstract registry: a list of distinct consumers *)
Record represents (r : EventConsumerRegistry) (l : list Consumer) : Prop := {
  rep_array : slice_array r < length (arrays r);
  rep_len : slice_len r = length l;
  rep_prefix : take (length l) (array_of r (slice_array r)) = Some <$> l;
  rep_distinct : NoDup l
}.

Lemma new_registry_represents : represents new_registry [].
Proof. split; try done; [cbn; lia|constructor]. Qed.

Lemma represents_contains r l c : represents r l → contains c r = bool_decide (c ∈ l).
Proof.
  intros [_ Hlen Hpre _]. unfold contains, consumers. rewrite Hlen, Hpre.
  apply bool_decide_ext. split.
  - by intros (x & [= ->] & ?)%list_elem_of_fmap.
  - apply list_elem_of_fmap_2.
Qed.

Lemma array_of_app r arr a :
  arr < length (arrays r) →
  array_of {| arrays := arrays r ++ [a]; slice_array := slice_array r; slice_len := slice_len r |} arr
    = array_of r arr.
Proof. intros H. unfold array_of. cbn. by rewrite lookup_app_l. Qed.

Lemma array_prefix_length r l :
  represents r l → length l ≤ length (array_of r (slice_array r)).
Proof.
  intros [_ _ Hpre _]. apply (f_equal length) in Hpre.
  rewrite length_take, length_fmap in Hpre. lia.
Qed.

Lemma register_represents r l c :
  represents r l →
  represents (RegisterEventConsumer c r) (if bool_decide (c ∈ l) then l else l ++ [c]).
Proof.
  intros Hr. unfold RegisterEventConsumer. rewrite (represents_contains r l c Hr).
  case_bool_decide as Hc; [done|]. pose proof (array_prefix_length r l Hr) as Hcap.
  destruct Hr as [Ha Hlen Hpre Hnd].
  assert (NoDup (l ++ [c])) as Hnd'.
  { apply NoDup_app. split_and!; [done| |apply NoDup_singleton].
    by intros x Hx ->%list_elem_of_singleton. }
  unfold append_to. rewrite Hlen. case_bool_decide as Hroom; cbn.
  - split; cbn; [by rewrite length_insert| | |done]; [rewrite length_app; cbn; lia|].
    unfold array_of. cbn. rewrite list_lookup_insert_eq by done. cbn.
    fold (array_of r (slice_array r)). rewrite length_app, fmap_app, Nat.add_1_r. cbn.
    rewrite (take_S_r _ _ (Some c)) by (apply list_lookup_insert_eq; done).
    by rewrite take_insert_ge, Hpre by lia.
  - split; cbn; [rewrite length_app; cbn; lia|rewrite length_app; cbn; lia| |done].
    unfold array_of at 1. cbn. rewrite list_lookup_middle by done. cbn.
    rewrite Hpre, length_app, fmap_app. cbn.
    rewrite take_app_ge by (rewrite length_fmap; lia). rewrite length_fmap.
    by replace (length l + 1 - length l) with 1 by lia.
Qed.

(** The loop of the removal, after [i] elements of [l] have been read. *)
Record trimmed (c : Consumer) (l : list Consumer) (r : EventConsumerRegistry) (i : nat)
    (acc : EventConsumerRegistry * (nat * nat)) : Prop := {
  tr_arrays : length (arrays acc.1) = length (arrays r);
  tr_slice : acc.2 = (slice_array r, length (filter (λ x, x ≠ c) (take i l)));
  tr_kept : take (length (filter (λ x, x ≠ c) (take i l))) (array_of acc.1 (slice_array r))
    = Some <$> filter (λ x, x ≠ c) (take i l);
  tr_rest : drop (length (filter (λ x, x ≠ c) (take i l))) (array_of acc.1 (slice_array r))
    = drop (length (filter (λ x, x ≠ c) (take i l))) (array_of r (slice_array r));
  tr_size : length (array_of acc.1 (slice_array r)) = length (array_of r (slice_array r))
}.

Lemma represents_lookup r l i x :
  represents r l → l !! i = Some x → array_of r (slice_array r) !! i = Some (Some x).
Proof.
  intros [_ _ Hpre _] Hi. pose proof (lookup_lt_Some _ _ _ Hi).
  rewrite <- (lookup_take_lt _ (length l)) by done. by rewrite Hpre, list_lookup_fmap, Hi.
Qed.

Lemma trim_step_trimmed c l r i acc x :
  represents r l → l !! i = Some x → trimmed c l r i acc →
  trimmed c l r (S i) (trim_step (slice_array r) c acc i).
Proof.
  intros Hr Hi [Harr Hs Hkept Hrest Hsize]. pose proof (represents_lookup r l i x Hr Hi) as Hx.
  pose proof (array_prefix_length r l Hr) as Hcap. pose proof (lookup_lt_Some _ _ _ Hi) as Hil.
  destruct acc as [r' [t' len]]. cbn [fst snd] in *. injection Hs as -> ->.
  set (kept := filter (λ x, x ≠ c) (take i l)) in *.
  assert (length kept ≤ i) as Hk.
  { subst kept. etrans; [apply length_filter|]. rewrite length_take. lia. }
  assert (array_of r' (slice_array r) !! i = Some (Some x)) as Hread.
  { rewrite <- Hx. replace i with (length kept + (i - length kept)) by lia.
    by rewrite <- !lookup_drop, Hrest. }
  unfold trim_step. rewrite Hread.
  assert (filter (λ x, x ≠ c) (take (S i) l) = kept ++ (if decide (x = c) then [] else [x])) as Hf.
  { rewrite (take_S_r _ _ x Hi), filter_app. f_equal. cbn. by repeat case_decide. }
  destruct (decide (x = c)) as [->|Hne].
  - rewrite app_nil_r in Hf. split; cbn [fst snd]; rewrite ?Hf; try done.
  - unfold append_to. rewrite bool_decide_true by lia.
    destruct Hr as [Ha _ _ _]. assert (slice_array r < length (arrays r')) as Ha' by lia.
    assert (∀ a, array_of {| arrays := <[slice_array r := a]> (arrays r');
      slice_array := slice_array r'; slice_len := slice_len r' |} (slice_array r) = a) as Hnew.
    { intros a. unfold array_of. cbn. by rewrite list_lookup_insert_eq. }
    split; cbn [fst snd]; rewrite ?Hnew, ?Hf, ?length_app; cbn [length].
    + cbn [arrays]. by rewrite length_insert.
    + by rewrite Nat.add_1_r.
    + rewrite Nat.add_1_r, (take_S_r _ _ (Some x)) by (apply list_lookup_insert_eq; lia).
      by rewrite take_insert_ge, Hkept, fmap_app by lia.
    + rewrite drop_insert_lt by lia. rewrite <- !(drop_drop _ 1 (length kept)). by rewrite Hrest.
    + by rewrite length_insert.
Qed.

Lemma trim_loop c l r n :
  represents r l → n ≤ length l →
  trimmed c l r n (foldl (trim_step (slice_array r) c) (r, (slice_array r, 0)) (seq 0 n)).
Proof.
  intros Hr. induction n as [|n IH]; intros Hn.
  - by split.
  - rewrite seq_S, foldl_app. cbn. destruct (lookup_lt_is_Some_2 l n) as [x Hx]; [lia|].
    eapply trim_step_trimmed; [done|done|]. apply IH. lia.
Qed.

Lemma filter_absent c (l : list Consumer) : c ∉ l → filter (λ x, x ≠ c) l = l.
Proof.
  induction l as [|x l IH]; [done|]. intros [Hx Hl]%not_elem_of_cons.
  by rewrite filter_cons_True, IH by congruence.
Qed.

Lemma deregister_represents r l c :
  represents r l → represents (DeregisterEventConsumer c r) (filter (λ x, x ≠ c) l).
Proof.
  intros Hr. unfold DeregisterEventConsumer. rewrite (represents_contains r l c Hr).
  case_bool_decide as Hc.
  - rewrite (rep_len r l Hr). pose proof (trim_loop c l r (length l) Hr (Nat.le_refl _)) as Ht.
    destruct (foldl _ _ _) as [r' s]. destruct Ht as [H1 H2 H3 H4 H5]. cbn [fst snd] in *.
    rewrite firstn_all in *. subst s. unfold set_slice. cbn. destruct Hr as [Ha _ _ Hnd].
    split; cbn; [by rewrite H1|done|exact H3|by apply NoDup_filter].
  - by rewrite filter_absent.
Qed.

(** ** Emission *)

(** The consumers called and the error, for handlers that leave the
    registrations alone. *)
Fixpoint notify (l : list Consumer) (evt : BasicEvent) : list Consumer * option string :=
  match l with
  | [] => ([], None)
  | c :: l' =>
      match (HandleEvent c evt).2 with
      | Some e => ([c], Some e)
      | None => let '(called, err) := notify l' evt in (c :: called, err)
      end
  end.

Lemma emit_from_notify r l evt i :
  represents r l → (∀ c, c ∈ l → (HandleEvent c evt).1 = []) → i ≤ length l →
  emit_from (slice_array r) i (length l - i) evt r
    = (r, (notify (drop i l) evt).1, (notify (drop i l) evt).2).
Proof.
  intros Hr Hno. remember (length l - i) as n eqn:En. revert i En.
  induction n as [|n IH]; intros i En Hi.
  - by rewrite drop_ge by lia.
  - destruct (lookup_lt_is_Some_2 l i) as [x Hx]; [lia|]. cbn [emit_from].
    rewrite (represents_lookup r l i x Hr Hx). rewrite (drop_S l x i Hx). cbn [notify].
    specialize (Hno x (list_elem_of_lookup_2 _ _ _ Hx)).
    destruct (HandleEvent x evt) as [calls err]. cbn in Hno. subst calls. cbn [foldl snd].
    destruct err as [e|]; [done|]. rewrite (IH (S i)) by lia. by destruct (notify (drop (S i) l) evt).
Qed.

(** ** Properties *)

(** The registrations on lists. *)
Definition call_list (l : list Consumer) (x : registration_call) : list Consumer :=
  match x with
  | Register c => if bool_decide (c ∈ l) then l else l ++ [c]
  | Deregister c => filter (λ y, y ≠ c) l
  end.

Lemma calls_represent r l calls :
  represents r l → represents (foldl (λ r x, call x r) r calls) (foldl call_list l calls).
Proof.
  revert r l. induction calls as [|[c|c] calls IH]; intros r l Hr; [done|..]; cbn; apply IH.
  - by apply register_represents.
  - by apply deregister_represents.
Qed.

(** Outside of an emission a registry is a list of distinct consumers in the
    order of their registration, whatever the runtime's growth of arrays:
    registering appends an absent consumer, removing filters one out. *)
Theorem registry_is_a_list calls :
  consumers (foldl (λ r x, call x r) new_registry calls) = Some <$> foldl call_list [] calls
  ∧ NoDup (foldl call_list [] calls).
Proof.
  destruct (calls_represent _ _ calls new_registry_represents) as [_ Hlen Hpre Hnd].
  split; [|done]. unfold consumers. by rewrite Hlen, Hpre.
Qed.

(** An event goes to the consumers in the order of their registration, up
    to the first error, when the handlers leave the registrations alone. *)
Theorem emit_in_order calls evt :
  let r := foldl (λ r x, call x r) new_registry calls in
  let l := foldl call_list [] calls in
  (∀ c, c ∈ l → (HandleEvent c evt).1 = []) →
  EmitEvent evt r = (r, (notify l evt).1, (notify l evt).2).
Proof.
  intros r l Hno. pose proof (calls_represent _ _ calls new_registry_represents) as Hr.
  pose proof (emit_from_notify r l evt 0 Hr Hno (Nat.le_0_l _)) as E.
  rewrite Nat.sub_0_r, drop_0 in E. unfold EmitEvent. by rewrite (rep_len r l Hr).
Qed.

Lemma emit_from_reads arr i evt r (l : list Consumer) :
  (∀ k x, l !! k = Some x → array_of r arr !! (i + k) = Some (Some x)) →
  (∀ c, c ∈ l → HandleEvent c evt = ([], None)) →
  emit_from arr i (length l) evt r = (r, l, None).
Proof.
  revert i. induction l as [|x l IH]; intros i Hread Hquiet; [done|]. cbn.
  pose proof (Hread 0 x eq_refl) as H0. rewrite Nat.add_0_r in H0. rewrite H0.
  rewrite Hquiet by by left. cbn. rewrite IH; [done| |].
  - intros k y Hk. rewrite Nat.add_succ_comm. by apply Hread.
  - intros c Hc. apply Hquiet. by right.
Qed.

Lemma last_lookup (x d : Consumer) l : (x :: l) !! length l = Some (List.last (x :: l) d).
Proof.
  revert x. induction l as [|z l IH]; intros x; [done|].
  change ((z :: l) !! length l = Some (List.last (z :: l) d)). apply IH.
Qed.

Lemma emit_from_step arr i n evt r c calls :
  array_of r arr !! i = Some (Some c) → HandleEvent c evt = (calls, None) →
  emit_from arr i (S n) evt r =
    let '(r, called, err) := emit_from arr (S i) n evt (foldl (λ r x, call x r) r calls) in
    (r, c :: called, err).
Proof. intros Hc Hh. cbn. by rewrite Hc, Hh. Qed.

(** A handler that removes itself makes the emission skip a consumer.  When
    the first consumer [c] removes itself while it handles the event and the
    others do nothing, the next one, [x], loses its turn: those after it are
    called, and then the last of the slice, which with three consumers or more
    has been called already. *)
Theorem self_removal_skips calls evt c x l :
  foldl call_list [] calls = c :: x :: l →
  HandleEvent c evt = ([Deregister c], None) →
  (∀ y, y ∈ x :: l → HandleEvent y evt = ([], None)) →
  (EmitEvent evt (foldl (λ r x, call x r) new_registry calls)).1.2
    = c :: l ++ [List.last (x :: l) x].
Proof.
  intros El Hc Hquiet. set (r := foldl _ _ _).
  pose proof (calls_represent _ _ calls new_registry_represents) as Hr. fold r in Hr. rewrite El in Hr.
  set (r' := DeregisterEventConsumer c r).
  pose proof (NoDup_cons_1_1 _ _ (rep_distinct _ _ Hr)) as Hcx.
  assert (∀ k y, (l ++ [List.last (x :: l) x]) !! k = Some y →
    array_of r' (slice_array r) !! (1 + k) = Some (Some y)) as Hread.
  { subst r'. unfold DeregisterEventConsumer.
    rewrite (represents_contains _ _ c Hr), bool_decide_true by by left.
    rewrite (rep_len _ _ Hr).
    pose proof (trim_loop c _ r _ Hr (Nat.le_refl _)) as Ht.
    destruct (foldl (trim_step _ _) _ _) as [r2 s]. destruct Ht as [_ _ H3 H4 _]. cbn [fst] in *.
    rewrite firstn_all, filter_cons_False, filter_absent in H3, H4 by (try done; by intros ?).
    intros k y Hk. change (array_of (set_slice s r2) (slice_array r)) with (array_of r2 (slice_array r)).
    apply lookup_app_Some in Hk as [Hk|[Hk Hy]].
    - pose proof (lookup_lt_Some _ _ _ Hk) as Hlt.
      rewrite <- (lookup_take_lt _ (length (x :: l))) by (cbn; lia).
      rewrite H3, list_lookup_fmap. change ((x :: l) !! (1 + k)) with (l !! k). by rewrite Hk.
    - apply list_lookup_singleton_Some in Hy as [Ek <-].
      assert (k = length l) as -> by lia.
      replace (1 + length l) with (length (x :: l) + 0) by (cbn; lia).
      rewrite <- lookup_drop, H4, lookup_drop.
      apply (represents_lookup _ _ _ _ Hr). cbn. rewrite Nat.add_0_r.
      apply last_lookup. }
  unfold EmitEvent. rewrite (rep_len _ _ Hr). cbn [length].
  rewrite (emit_from_step _ 0 _ evt r c [Deregister c] (represents_lookup _ _ 0 c Hr eq_refl) Hc).
  cbn [foldl call]. fold r'. replace (S (length l)) with (length (l ++ [List.last (x :: l) x]))
    by (rewrite length_app; cbn; lia).
  rewrite (emit_from_reads _ 1 evt r' _ Hread); [done|].
  intros y [Hy|Hy%list_elem_of_singleton]%elem_of_app; apply Hquiet; [by right|].
  subst y. apply (list_elem_of_lookup_2 _ (length l)), last_lookup.
Qed.
End events.
