(* ===== verification/Check.v ===== *)
(** Component: checks, as the scheduler and the session see them
    (src/check/check.go, src/check/unmarshal.go, the constructors of
    src/check/check_{ping,tcp,http,plugin}.go and the details of
    src/protocol/check/). *)
From S2P Require Export Runtime Protocol.

(** ** Details, per type of check *)
Record TCPCheckDetails := {
  BannerMatch : string; BodyMatch : string; Port : Z; SendBody : string; UseSSL : bool
}.
Definition c_tcp_details : codec TCPCheckDetails := c_struct [
  mk_field "banner_match" c_string "" BannerMatch
    (λ x d, Build_TCPCheckDetails x (BodyMatch d) (Port d) (SendBody d) (UseSSL d));
  mk_field "body_match" c_string "" BodyMatch
    (λ x d, Build_TCPCheckDetails (BannerMatch d) x (Port d) (SendBody d) (UseSSL d));
  mk_field "port" c_uint64 0%Z Port
    (λ x d, Build_TCPCheckDetails (BannerMatch d) (BodyMatch d) x (SendBody d) (UseSSL d));
  mk_field "send_body" c_string "" SendBody
    (λ x d, Build_TCPCheckDetails (BannerMatch d) (BodyMatch d) (Port d) x (UseSSL d));
  mk_field "ssl" c_bool false UseSSL
    (λ x d, Build_TCPCheckDetails (BannerMatch d) (BodyMatch d) (Port d) (SendBody d) x)].
Definition zero_tcp_details : TCPCheckDetails := Build_TCPCheckDetails "" "" 0 "" false.

Record HTTPCheckDetails := {
  AuthPassword : string; AuthUser : string; Body : string;
  BodyMatches : option (gmap string string); FollowRedirects : bool;
  Headers : option (gmap string string); IncludeBody : bool; Method : string; Url : string
}.
Definition c_http_details : codec HTTPCheckDetails := c_struct [
  mk_field "auth_password" c_string "" AuthPassword (λ x d, Build_HTTPCheckDetails x (AuthUser d)
    (Body d) (BodyMatches d) (FollowRedirects d) (Headers d) (IncludeBody d) (Method d) (Url d));
  mk_field "auth_user" c_string "" AuthUser (λ x d, Build_HTTPCheckDetails (AuthPassword d) x
    (Body d) (BodyMatches d) (FollowRedirects d) (Headers d) (IncludeBody d) (Method d) (Url d));
  mk_field "body" c_string "" Body (λ x d, Build_HTTPCheckDetails (AuthPassword d) (AuthUser d)
    x (BodyMatches d) (FollowRedirects d) (Headers d) (IncludeBody d) (Method d) (Url d));
  mk_field "body_matches" (c_map c_string "") None BodyMatches (λ x d, Build_HTTPCheckDetails
    (AuthPassword d) (AuthUser d) (Body d) x (FollowRedirects d) (Headers d) (IncludeBody d)
    (Method d) (Url d));
  mk_field "follow_redirects" c_bool false FollowRedirects (λ x d, Build_HTTPCheckDetails
    (AuthPassword d) (AuthUser d) (Body d) (BodyMatches d) x (Headers d) (IncludeBody d)
    (Method d) (Url d));
  mk_field "headers" (c_map c_string "") None Headers (λ x d, Build_HTTPCheckDetails
    (AuthPassword d) (AuthUser d) (Body d) (BodyMatches d) (FollowRedirects d) x (IncludeBody d)
    (Method d) (Url d));
  mk_field "include_body" c_bool false IncludeBody (λ x d, Build_HTTPCheckDetails
    (AuthPassword d) (AuthUser d) (Body d) (BodyMatches d) (FollowRedirects d) (Headers d) x
    (Method d) (Url d));
  mk_field "method" c_string "" Method (λ x d, Build_HTTPCheckDetails (AuthPassword d)
    (AuthUser d) (Body d) (BodyMatches d) (FollowRedirects d) (Headers d) (IncludeBody d) x
    (Url d));
  mk_field "url" c_string "" Url (λ x d, Build_HTTPCheckDetails (AuthPassword d) (AuthUser d)
    (Body d) (BodyMatches d) (FollowRedirects d) (Headers d) (IncludeBody d) (Method d) x)].
Definition zero_http_details : HTTPCheckDetails :=
  Build_HTTPCheckDetails "" "" "" None false None false "" "".

Record PingCheckDetails := { Count : Z }.
Definition c_uint8 : codec Z := c_integer (λ z, bool_decide (0 ≤ z < 256)%Z).
Definition c_ping_details : codec PingCheckDetails :=
  c_struct [mk_field "count" c_uint8 0%Z Count (λ x _, Build_PingCheckDetails x)].
Definition zero_ping_details : PingCheckDetails := Build_PingCheckDetails 0.

Record PluginCheckDetails := { File : string; Args : list string; pd_Timeout : Z }.
Definition c_plugin_details : codec PluginCheckDetails := c_struct [
  mk_field "file" c_string "" File (λ x d, Build_PluginCheckDetails x (Args d) (pd_Timeout d));
  mk_field "args" (c_slice c_string "") [] Args
    (λ x d, Build_PluginCheckDetails (File d) x (pd_Timeout d));
  mk_field "timeout" c_int 0%Z pd_Timeout (λ x d, Build_PluginCheckDetails (File d) (Args d) x)].
Definition zero_plugin_details : PluginCheckDetails := Build_PluginCheckDetails "" [] 0.

(** ** [Base] and [Check] *)
Record Base := { base_CheckIn : CheckIn; base_context : Context }.

Inductive Check :=
| TCPCheck (b : Base) (d : TCPCheckDetails)
| HTTPCheck (b : Base) (d : HTTPCheckDetails)
| PingCheck (b : Base) (d : PingCheckDetails)
| PluginCheck (b : Base) (d : PluginCheckDetails).

Definition base_of (ch : Check) : Base :=
  match ch with
  | TCPCheck b _ | HTTPCheck b _ | PingCheck b _ | PluginCheck b _ => b
  end.
Definition on_base (f : Base → Base) (ch : Check) : Check :=
  match ch with
  | TCPCheck b d => TCPCheck (f b) d
  | HTTPCheck b d => HTTPCheck (f b) d
  | PingCheck b d => PingCheck (f b) d
  | PluginCheck b d => PluginCheck (f b) d
  end.

Definition on_header (f : CheckHeader → CheckHeader) (b : Base) : Base := {|
  base_CheckIn := {| Header := f (Header (base_CheckIn b));
                     RawDetails := RawDetails (base_CheckIn b) |};
  base_context := base_context b
|}.

Definition header_of (ch : Check) : CheckHeader := Header (base_CheckIn (base_of ch)).

Definition GetID (ch : Check) : string := ch_Id (header_of ch).
Definition GetEntityID (ch : Check) : string := ch_EntityId (header_of ch).
Definition GetZoneID (ch : Check) : string := ch_ZoneId (header_of ch).
Definition GetCheckType (ch : Check) : string := ch_CheckType (header_of ch).
Definition GetPeriod (ch : Check) : Z := ch_Period (header_of ch).
Definition GetTimeout (ch : Check) : Z := ch_Timeout (header_of ch).
Definition IsDisabled (ch : Check) : bool := ch_Disabled (header_of ch).
Definition GetCheckIn (ch : Check) : CheckIn := base_CheckIn (base_of ch).
Definition GetLogPrefix (ch : Check) : string := (GetID ch +:+ ":" +:+ GetCheckType ch)%string.
Definition check_String (ch : Check) : string :=
  ("[id:" +:+ GetID ch +:+ ", type:" +:+ GetCheckType ch +:+ "]")%string.

Definition SetID (id : string) : Check → Check :=
  on_base (on_header (λ h, {|
    ch_Id := id; ch_CheckType := ch_CheckType h; ch_Period := ch_Period h;
    ch_Timeout := ch_Timeout h; ch_EntityId := ch_EntityId h; ch_ZoneId := ch_ZoneId h;
    ch_Disabled := ch_Disabled h; ch_IpAddresses := ch_IpAddresses h;
    ch_TargetAlias := ch_TargetAlias h; ch_TargetHostname := ch_TargetHostname h;
    ch_TargetResolver := ch_TargetResolver h |})).
Definition SetPeriod (period : Z) : Check → Check :=
  on_base (on_header (λ h, {|
    ch_Id := ch_Id h; ch_CheckType := ch_CheckType h; ch_Period := period;
    ch_Timeout := ch_Timeout h; ch_EntityId := ch_EntityId h; ch_ZoneId := ch_ZoneId h;
    ch_Disabled := ch_Disabled h; ch_IpAddresses := ch_IpAddresses h;
    ch_TargetAlias := ch_TargetAlias h; ch_TargetHostname := ch_TargetHostname h;
    ch_TargetResolver := ch_TargetResolver h |})).
(** "not currently implemented" *)
Definition SetTimeout (timeout : Z) (ch : Check) : Check := ch.

Definition ErrInvalidTargetIP : error := "Invalid Target IP".

Definition GetTargetIP (h : CheckHeader) : string + error :=
  match ch_TargetAlias h with
  | Some alias =>
      match default ∅ (ch_IpAddresses h) !! alias with
      | Some ip => inl ip
      | None => inr ErrInvalidTargetIP
      end
  | None =>
      match ch_TargetHostname h with
      | Some hostname =>
          if bool_decide (hostname = "") then inr ErrInvalidTargetIP else inl hostname
      | None => inr ErrInvalidTargetIP
      end
  end.

Definition WaitPeriodTimeMeasurement : Duration := Second.

(** [time.Duration(u)] of a [uint64] keeps its bits. *)
Definition GetTimeoutDuration (ch : Check) : Duration := to_i64 (to_i64 (GetTimeout ch) * Second).
Definition GetWaitPeriod (ch : Check) : Duration :=
  to_i64 (to_i64 (GetPeriod ch) * WaitPeriodTimeMeasurement).

Definition Cancel (ch : Check) : go Contexts unit := cancel_context (base_context (base_of ch)).
Definition Done (s : Contexts) (ch : Check) : bool := is_done s (base_context (base_of ch)).

(** ** Construction

    An error is either one that [json.Unmarshal] reports for the details, or
    an unknown type. *)
Inductive check_error :=
| BadDetails
| InvalidCheckType (checkType : string).

(** The common body of [NewTCPCheck], [NewHTTPCheck], [NewPingCheck] and
    [NewPluginCheck]: the details are read through a pointer that may be nil. *)
Definition unmarshal_details {S D} (c : codec D) (zero : D) (mk : Base → D → Check) (base : Base)
    : go S (Check + check_error) :=
  raw ← deref (RawDetails (base_CheckIn base));
  let '(details, ok) := Unmarshal c raw zero in
  mret (if ok : bool then inl (mk base details) else inr BadDetails).

Definition NewTCPCheck {S} : Base → go S (Check + check_error) :=
  unmarshal_details c_tcp_details zero_tcp_details TCPCheck.
Definition NewHTTPCheck {S} : Base → go S (Check + check_error) :=
  unmarshal_details c_http_details zero_http_details HTTPCheck.
Definition NewPingCheck {S} : Base → go S (Check + check_error) :=
  unmarshal_details c_ping_details zero_ping_details PingCheck.
Definition NewPluginCheck {S} : Base → go S (Check + check_error) :=
  unmarshal_details c_plugin_details zero_plugin_details PluginCheck.

Definition resolveCheckType {S} (checkBase : Base) : go S (Check + check_error) :=
  let checkType := ch_CheckType (Header (base_CheckIn checkBase)) in
  if bool_decide (checkType = "remote.tcp") then NewTCPCheck checkBase
  else if bool_decide (checkType = "remote.http") then NewHTTPCheck checkBase
  else if bool_decide (checkType = "remote.ping") then NewPingCheck checkBase
  else if bool_decide (checkType = "agent.plugin") then NewPluginCheck checkBase
  else mret (inr (InvalidCheckType checkType)).

Definition NewCheckParsed (parentContext : Context) (checkIn : CheckIn)
    : go Contexts (Check + check_error) :=
  ctx ← WithCancel parentContext;
  resolveCheckType {| base_CheckIn := checkIn; base_context := ctx |}.

(** The document is decoded through a pointer to the [Base], which the
    document [null] clears. *)
Definition NewCheck (parentContext : Context) (rawParams : json)
    : go Contexts (Check + check_error) :=
  ctx ← WithCancel parentContext;
  let '(p, ok) := Unmarshal (c_ptr c_checkin zero_checkin) rawParams (Some zero_checkin) in
  if ok : bool then
    checkIn ← deref p;
    resolveCheckType {| base_CheckIn := checkIn; base_context := ctx |}
  else mret (inr BadDetails).

(** [ReadFile] reads the file; [Parse] is the document of its text, when it has
    one. *)
Definition ReadCheckFromFile (ReadFile : string → string + error) (Parse : string → option json)
    (filename : string) : go Contexts (Check + (check_error + error)) :=
  match ReadFile filename with
  | inr err => mret (inr (inr err))
  | inl jsonContent =>
      match Parse jsonContent with
      | Some raw =>
          r ← NewCheck Background raw;
          mret match r with inl ch => inl ch | inr err => inr (inl err) end
      | None => WithCancel Background;; mret (inr (inl BadDetails))
      end
  end.

(** The network that the function of [NewCustomDialContext] dials. *)
Definition NewCustomDialContext (rType : string) : string :=
  if bool_decide (rType = ResolverIPV4) then "tcp4"
  else if bool_decide (rType = ResolverIPV6) then "tcp6"
  else "tcp".

(** ** Properties *)

(** The types of check the poller knows, and whether details are accepted. *)
Definition details_decoder (checkType : string) : option (json → bool) :=
  if bool_decide (checkType = "remote.tcp") then
    Some (λ raw, (Unmarshal c_tcp_details raw zero_tcp_details).2)
  else if bool_decide (checkType = "remote.http") then
    Some (λ raw, (Unmarshal c_http_details raw zero_http_details).2)
  else if bool_decide (checkType = "remote.ping") then
    Some (λ raw, (Unmarshal c_ping_details raw zero_ping_details).2)
  else if bool_decide (checkType = "agent.plugin") then
    Some (λ raw, (Unmarshal c_plugin_details raw zero_plugin_details).2)
  else None.

(** What a definition leads to: a check, an error or a fault. *)
Inductive initiation :=
| Initiated
| Refused (e : check_error)
| Crashed.

Definition initiation_of (ci : CheckIn) : initiation :=
  match details_decoder (ch_CheckType (Header ci)), RawDetails ci with
  | None, _ => Refused (InvalidCheckType (ch_CheckType (Header ci)))
  | Some _, None => Crashed
  | Some ok, Some raw => if ok raw : bool then Initiated else Refused BadDetails
  end.

Definition allocated (s : Contexts) : Contexts :=
  {| ctx_next := S (ctx_next s); ctx_canceled := ctx_canceled s |}.

Lemma unmarshal_details_cases {S D} (c : codec D) zero mk base (s : S) :
  (∀ b d, base_of (mk b d) = b) →
  unmarshal_details c zero mk base s =
    match RawDetails (base_CheckIn base) with
    | None => Halt NilDeref s
    | Some raw =>
        let '(details, ok) := Unmarshal c raw zero in
        Ret (if ok : bool then inl (mk base details) else inr BadDetails) s
    end.
Proof.
  intros _. unfold unmarshal_details. rewrite bind_app.
  destruct (RawDetails (base_CheckIn base)) as [raw|]; [|done].
  cbn. by destruct (Unmarshal c raw zero).
Qed.

Lemma resolve_cases {S} (base : Base) (s : S) :
  match initiation_of (base_CheckIn base) with
  | Initiated => ∃ ch, resolveCheckType base s = Ret (inl ch) s ∧ base_of ch = base
  | Refused e => resolveCheckType base s = Ret (inr e) s
  | Crashed => resolveCheckType base s = Halt NilDeref s
  end.
Proof.
  unfold initiation_of, details_decoder, resolveCheckType, NewTCPCheck, NewHTTPCheck,
    NewPingCheck, NewPluginCheck.
  repeat case_bool_decide; try done; rewrite unmarshal_details_cases by done;
    destruct (RawDetails (base_CheckIn base)) as [raw|]; try done;
    destruct (Unmarshal _ raw _) as [d []]; cbn; eauto.
Qed.

Lemma new_check_parsed_cases parent ci s :
  match initiation_of ci with
  | Initiated => ∃ ch, NewCheckParsed parent ci s = Ret (inl ch) (allocated s)
      ∧ GetCheckIn ch = ci ∧ base_context (base_of ch) = ctx_next s :: parent
  | Refused e => NewCheckParsed parent ci s = Ret (inr e) (allocated s)
  | Crashed => NewCheckParsed parent ci s = Halt NilDeref (allocated s)
  end.
Proof.
  unfold NewCheckParsed. rewrite bind_app. cbn.
  pose proof (resolve_cases {| base_CheckIn := ci; base_context := ctx_next s :: parent |}
    (allocated s)) as H.
  cbn in H. destruct (initiation_of ci); [|done|done].
  destruct H as (ch & E & Hb). exists ch. unfold GetCheckIn. by rewrite Hb.
Qed.

(** Building a check from a definition.  The check, when there is one,
    carries the definition unchanged, under a new context below the given one;
    an unknown type or details that do not decode are errors; a known type
    without details is a nil dereference.  In every case the context has been
    allocated, and nothing has been canceled. *)
Theorem new_check_parsed_spec parent ci s :
  match initiation_of ci with
  | Initiated => ∃ ch, NewCheckParsed parent ci s = Ret (inl ch) (allocated s)
      ∧ GetCheckIn ch = ci ∧ base_context (base_of ch) = ctx_next s :: parent
  | Refused e => NewCheckParsed parent ci s = Ret (inr e) (allocated s)
  | Crashed => NewCheckParsed parent ci s = Halt NilDeref (allocated s)
  end.
Proof. apply new_check_parsed_cases. Qed.

(** The address of a check.  With a target alias, the address filed under
    it and nothing else; without one, a non-empty target hostname; an error in
    all the other cases. *)
Theorem get_target_ip_iff h ip :
  GetTargetIP h = inl ip ↔
    (∃ alias m, ch_TargetAlias h = Some alias ∧ ch_IpAddresses h = Some m ∧ m !! alias = Some ip)
    ∨ (ch_TargetAlias h = None ∧ ch_TargetHostname h = Some ip ∧ ip ≠ "").
Proof.
  unfold GetTargetIP. destruct (ch_TargetAlias h) as [alias|].
  - destruct (ch_IpAddresses h) as [m|]; cbn.
    + destruct (m !! alias) eqn:E; naive_solver.
    + rewrite lookup_empty. naive_solver.
  - destruct (ch_TargetHostname h) as [hn|]; [|naive_solver].
    case_bool_decide; naive_solver.
Qed.

(** A timeout, taken for seconds as the comment of the conversion says (that of
    the field says milliseconds), is converted exactly if and only if it is
    at most 9223372036 (292 years in nanoseconds); a larger one wraps. *)
Theorem timeout_duration_exact_iff ch :
  is_u64 (GetTimeout ch) →
  GetTimeoutDuration ch = (GetTimeout ch * Second)%Z ↔ (GetTimeout ch ≤ 9223372036)%Z.
Proof.
  unfold GetTimeoutDuration, Second. intros Hu. split.
  - intros E. pose proof (to_i64_range (to_i64 (GetTimeout ch) * 1000000000)) as Hr.
    rewrite E in Hr. unfold is_i64 in Hr. lia.
  - intros Hle. unfold is_u64 in Hu. rewrite (to_i64_id (GetTimeout ch)) by (unfold is_i64; lia).
    apply to_i64_id. unfold is_i64. lia.
Qed.

Definition example_ping (timeout : Z) : Check := PingCheck {|
  base_CheckIn := {| Header := {| ch_Id := "chA"; ch_CheckType := "remote.ping"; ch_Period := 30;
                       ch_Timeout := timeout; ch_EntityId := "enA"; ch_ZoneId := "pzA";
                       ch_Disabled := false; ch_IpAddresses := None; ch_TargetAlias := None;
                       ch_TargetHostname := None; ch_TargetResolver := "" |};
                     RawDetails := Some (JObj [("count", JInt 5)]) |};
  base_context := [0%nat] |} {| Count := 5 |}.

Lemma timeout_duration_exact_iff_witness :
  GetTimeoutDuration (example_ping 30) = (30 * Second)%Z ↔ (30 ≤ 9223372036)%Z.
Proof.
  apply (timeout_duration_exact_iff (example_ping 30)).
  split; [done|reflexivity].
Defined.
