(* ===== verification/CheckLoop.v ===== *)
(** Component: the goroutine of a scheduled check (runCheckTimerLoop of
    src/poller/scheduler.go) in time.  Times are in nanoseconds; what the
    environment decides is the random number, when the context of the check
    is done, how long each run takes, and what [select] picks when both of its
    channels are ready. *)
From S2P Require Export Check.

Definition CheckSpreadInMilliseconds : Z := 30000.

Record loop_env := {
  le_rand : Z;                 (** [rand.Intn(CheckSpreadInMilliseconds)] *)
  le_done : option Z;          (** when the context is done *)
  le_took : nat → Z;           (** the time of the k-th run *)
  le_pick_timer : nat → bool   (** the choice of the k-th [select] *)
}.

Definition jitter (e : loop_env) : Z := (le_rand e + 1)%Z.

(** The k-th [select], entered at [now] with a timer for [period]: the time at
    which the run starts, or the time at which the loop sees that it is done. *)
Definition loop_select (e : loop_env) (period now : Z) (k : nat) : Z + Z :=
  let fires := (now + Z.max 0 period)%Z in
  match le_done e with
  | None => inl fires
  | Some c =>
      let c := Z.max now c in
      if bool_decide (fires < c)%Z then inl fires
      else if bool_decide (c < fires)%Z then inr c
      else if le_pick_timer e k then inl fires else inr c
  end.

(** At most [n] runs from [now] on: when they start, and when the loop returns
    if it has. *)
Fixpoint timer_loop (e : loop_env) (period : Duration) (n : nat) (now : Z) (k : nat)
    : list Z * option Z :=
  match n with
  | O => ([], None)
  | S n' =>
      match loop_select e period now k with
      | inr c => ([], Some c)
      | inl start =>
          let '(starts, returned) := timer_loop e period n' (start + le_took e k)%Z (S k) in
          (start :: starts, returned)
      end
  end.

Definition runCheckTimerLoop (e : loop_env) (ch : Check) (n : nat) (now : Z) : list Z * option Z :=
  timer_loop e (GetWaitPeriod ch) n (now + jitter e * Millisecond)%Z 0.

(** ** Properties *)

(** What the environment may do. *)
Record loop_env_ok (e : loop_env) : Prop := {
  ok_rand : (0 ≤ le_rand e < CheckSpreadInMilliseconds)%Z;
  ok_took : ∀ k, (0 ≤ le_took e k)%Z
}.

Section loop.
Context (e : loop_env) (period : Duration) (Henv : loop_env_ok e) (Hperiod : (0 < period)%Z).

(** Each run starts a period after the end of the one before. *)
Fixpoint spaced (now : Z) (k : nat) (starts : list Z) : Prop :=
  match starts with
  | [] => True
  | start :: starts' => start = (now + period)%Z ∧ spaced (start + le_took e k)%Z (S k) starts'
  end.

Lemma select_cases now k :
  match loop_select e period now k with
  | inl start => start = (now + period)%Z ∧ ∀ c, le_done e = Some c → (start ≤ c)%Z
  | inr c => ∃ c0, le_done e = Some c0 ∧ c = Z.max now c0 ∧ (c0 ≤ now + period)%Z
  end.
Proof.
  unfold loop_select. destruct (le_done e) as [c|]; [|split; [lia|done]].
  repeat case_bool_decide; try destruct (le_pick_timer e k).
  all: first [eexists; split_and!; [done|lia..]|split; [lia|intros ? [= <-]; lia]].
Qed.

Lemma loop_spaced n now k : spaced now k (timer_loop e period n now k).1.
Proof.
  revert now k. induction n as [|n IH]; intros now k; cbn; [done|].
  pose proof (select_cases now k) as Hs. destruct (loop_select e period now k) as [start|c]; [|done].
  specialize (IH (start + le_took e k)%Z (S k)). destruct (timer_loop _ _ _ _ _). by destruct Hs.
Qed.

Lemma loop_before_done n now k c :
  le_done e = Some c → Forall (λ start, (start ≤ c)%Z) (timer_loop e period n now k).1.
Proof.
  intros Hc. revert now k. induction n as [|n IH]; intros now k; cbn; [constructor|].
  pose proof (select_cases now k) as Hs. destruct (loop_select e period now k) as [start|d]; [|constructor].
  specialize (IH (start + le_took e k)%Z (S k)). destruct (timer_loop _ _ _ _ _).
  constructor; [by apply Hs|done].
Qed.

(** When the last run ends, or the loop starts. *)
Fixpoint idle_from (now : Z) (k : nat) (starts : list Z) : Z :=
  match starts with
  | [] => now
  | start :: starts' => idle_from (start + le_took e k)%Z (S k) starts'
  end.

Lemma loop_returns n now k c :
  le_done e = Some c → 0 < n → (c - now < Z.of_nat n * period)%Z →
  (timer_loop e period n now k).2 = Some (Z.max c (idle_from now k (timer_loop e period n now k).1)).
Proof.
  intros Hc. pose proof (ok_took e Henv) as Htook.
  revert now k. induction n as [|n IH]; intros now k Hpos Hn; [lia|]. cbn.
  pose proof (select_cases now k) as Hs. destruct (loop_select e period now k) as [start|d].
  - destruct Hs as [-> Hle]. specialize (Hle c Hc). specialize (Htook k).
    specialize (IH (now + period + le_took e k)%Z (S k)).
    destruct (timer_loop _ _ _ _ _). cbn in *. apply IH; nia.
  - destruct Hs as (c0 & Hc0 & -> & _). rewrite Hc in Hc0. injection Hc0 as <-. cbn. f_equal. lia.
Qed.

Lemma spaced_first now k starts start :
  spaced now k starts → start ∈ starts → (now + period ≤ start)%Z.
Proof.
  pose proof (ok_took e Henv) as Htook. revert now k.
  induction starts as [|s starts IH]; intros now k Hs Hin; [by apply elem_of_nil in Hin|].
  destruct Hs as [-> Hs]. apply elem_of_cons in Hin as [->|Hin]; [lia|].
  specialize (IH _ _ Hs Hin). specialize (Htook k). lia.
Qed.
End loop.

(** C17: the timer of a check with a positive period.  The first run starts a
    period after a jitter of at most thirty seconds, each other one a period
    after the end of the one before, so that runs of a check never overlap;
    none starts after its context is done, and then the loop returns, at once
    or at the end of the run that goes on. *)
Theorem check_loop_spec e ch n now :
  loop_env_ok e → (0 < GetWaitPeriod ch)%Z →
  let period := GetWaitPeriod ch in
  let begin := (now + jitter e * Millisecond)%Z in
  let starts := (runCheckTimerLoop e ch n now).1 in
  (now < begin ≤ now + 30 * Second)%Z
  ∧ spaced e period begin 0 starts
  ∧ ∀ c, le_done e = Some c →
      Forall (λ start, start ≤ c)%Z starts
      ∧ (0 < n → (c - begin < Z.of_nat n * period)%Z →
         (runCheckTimerLoop e ch n now).2 = Some (Z.max c (idle_from e begin 0 starts))).
Proof.
  intros Henv Hp. cbv zeta. split.
  { destruct (ok_rand e Henv). unfold jitter, CheckSpreadInMilliseconds, Millisecond, Second in *. lia. }
  split; [by apply loop_spaced|]. intros c Hc.
  split; [by apply loop_before_done|]. by apply loop_returns.
Qed.
