(* ===== verification/CheckResult.v ===== *)
(** Component: the results of checks and the metrics they carry
    (src/protocol/metric/metric.go, src/check/checkresult.go,
    src/check/checkresult_metrics.go, src/utils/status.go). *)
From S2P Require Export Check GoStrings.

(** ** Metrics

    The value of a metric is an [interface{}]: [nil] or a value with its
    dynamic type.  A [float64] is given by its text in the format [%v], which
    determines it. *)
Inductive int_type := Int | Int32 | Int64 | Uint64.

Inductive value :=
| VNil
| VString (s : string)
| VBool (b : bool)
| VInteger (t : int_type) (z : Z)
| VFloat64 (text : string).

#[export] Instance int_type_eq_dec : EqDecision int_type.
Proof. solve_decision. Defined.
#[export] Instance value_eq_dec : EqDecision value.
Proof. solve_decision. Defined.

(** [fmt.Sprintf("%v", v)] *)
Definition Sprint (v : value) : string :=
  match v with
  | VNil => "<nil>"
  | VString s => s
  | VBool true => "true"
  | VBool false => "false"
  | VInteger _ z => pretty z
  | VFloat64 text => text
  end.

Definition MetricString : Z := 0.
Definition MetricBool : Z := 1.
Definition MetricNumber : Z := 2.
Definition MetricFloat : Z := 3.

Record Metric := {
  m_Type : Z; m_TypeString : string; m_Dimension : string; m_Name : string; m_Unit : string;
  m_Value : value
}.

Definition UnitToString (unit : Z) : string :=
  if bool_decide (unit = MetricString) then "string"
  else if bool_decide (unit = MetricBool) then "bool"
  else if bool_decide (unit = MetricNumber) then "int64"
  else if bool_decide (unit = MetricFloat) then "double"
  else "undefined".

Definition NewMetric (name metricDimension : string) (internalMetricType : Z) (v : value)
    (unit : string) : Metric := {|
  m_Type := internalMetricType;
  m_TypeString := UnitToString internalMetricType;
  m_Dimension := if bool_decide (metricDimension = "") then "none" else metricDimension;
  m_Name := name;
  m_Value := v;
  m_Unit := unit
|}.

Definition ToString (m : Metric) : string + error :=
  if bool_decide (m_Type m ≠ MetricString) then inr "Invalid coercion to String"
  else match m_Value m with
       | VNil => inl ""
       | VString s => inl s
       | _ => inr "Invalid coercion to String"
       end.

(** The common body of [ToUint64], [ToInt64] and [ToInt32]. *)
Definition to_number (t : int_type) (err : error) (m : Metric) : Z + error :=
  if bool_decide (m_Type m ≠ MetricNumber) then inr err
  else match m_Value m with
       | VInteger t' z => if bool_decide (t' = t) then inl z else inr err
       | _ => inr err
       end.
Definition ToUint64 : Metric → Z + error := to_number Uint64 "Invalid coercion to Uint64".
Definition ToInt64 : Metric → Z + error := to_number Int64 "Invalid coercion to int64".
Definition ToInt32 : Metric → Z + error := to_number Int32 "Invalid coercion to int32".

(** ** States *)
Definition StateAvailable : string := "available".
Definition StateUnavailable : string := "unavailable".
Definition StatusSuccess : string := "success".
Definition StatusUnknownError : string := "unknown error".
Definition DefaultStatusLimit : nat := 256.
Definition DefaultStateLimit : nat := 256.

Record States := { State : string; Status : string }.
Definition states_String (s : States) : string :=
  ("{state=" +:+ State s +:+ ", status=" +:+ Status s +:+ "}")%string.

Definition put_State (x : string) (st : States) : States := {| State := x; Status := Status st |}.
Definition put_Status (x : string) (st : States) : States := {| State := State st; Status := x |}.

Definition states_SetStateAvailable : States → States := put_State StateAvailable.
Definition states_SetStateUnavailable : States → States := put_State StateUnavailable.
Definition SetStatusUnknown : States → States := put_Status StatusUnknownError.
Definition SetStatusSuccess : States → States := put_Status StatusSuccess.

Definition crop (limit : nat) (s : string) : string :=
  if (limit <? String.length s)%nat then str_take limit s else s.
Definition SetState (state : string) : States → States := put_State (crop DefaultStateLimit state).
Definition SetStatus (status : string) : States → States :=
  put_Status (crop DefaultStatusLimit status).

Definition SetStatusFromError (err : error) : States → States :=
  put_Status (match LastIndex err ":" with
              | Some pos => TrimSpace (str_drop (pos + 1) err)
              | None => err
              end).

(** ** Results

    The metrics of a result are the ones [NewMetric] makes, never nil. *)
Definition Result : Type := gmap string Metric.

Definition AddMetric (m : Metric) (cr : Result) : Result := <[m_Name m := m]> cr.
Definition AddMetrics (metrics : list Metric) (cr : Result) : Result :=
  foldl (λ cr m, AddMetric m cr) cr metrics.
Definition NewResult (metrics : list Metric) : Result := AddMetrics metrics ∅.
Definition GetMetric (name : string) (cr : Result) : option Metric := cr !! name.

Record ResultSet := {
  rs_States : States;
  rs_Check : Check;
  rs_Metrics : list Result;
  rs_Available : bool
}.

Definition on_states (f : States → States) (crs : ResultSet) : ResultSet :=
  {| rs_States := f (rs_States crs); rs_Check := rs_Check crs; rs_Metrics := rs_Metrics crs;
     rs_Available := rs_Available crs |}.
Definition put_Available (b : bool) (crs : ResultSet) : ResultSet :=
  {| rs_States := rs_States crs; rs_Check := rs_Check crs; rs_Metrics := rs_Metrics crs;
     rs_Available := b |}.
Definition put_Metrics (l : list Result) (crs : ResultSet) : ResultSet :=
  {| rs_States := rs_States crs; rs_Check := rs_Check crs; rs_Metrics := l;
     rs_Available := rs_Available crs |}.

Definition SetStateAvailable (crs : ResultSet) : ResultSet :=
  on_states states_SetStateAvailable (put_Available true crs).
Definition SetStateUnavailable (crs : ResultSet) : ResultSet :=
  on_states states_SetStateUnavailable (put_Available false crs).
Definition ClearMetrics : ResultSet → ResultSet := put_Metrics [].
Definition Add (cr : Result) (crs : ResultSet) : ResultSet :=
  put_Metrics (rs_Metrics crs ++ [cr]) crs.
Definition Length (crs : ResultSet) : nat := length (rs_Metrics crs).

Definition Get {S} (crs : ResultSet) (idx : Z) : go S Result :=
  if bool_decide (Z.of_nat (Length crs) ≤ idx)%Z then halt Panicked
  else if bool_decide (idx < 0)%Z then halt OutOfRange
  else match rs_Metrics crs !! Z.to_nat idx with
       | Some cr => mret cr
       | None => halt OutOfRange
       end.

Definition NewResultSet (ch : Check) (cr : option Result) : ResultSet :=
  let crs := {| rs_States := {| State := ""; Status := "" |}; rs_Check := ch; rs_Metrics := [];
                rs_Available := false |} in
  let crs := on_states SetStatusUnknown (SetStateUnavailable crs) in
  match cr with Some cr => Add cr crs | None => crs end.

(** ** The content of a metrics post *)
Definition tvu_of (m : Metric) : MetricTVU :=
  {| tvu_Type := m_TypeString m; tvu_Value := Sprint (m_Value m); tvu_Unit := m_Unit m |}.

Definition ConvertToMetricResults (cr : Result) : MetricWrap :=
  [None; Some ((λ m, Some (tvu_of m)) <$> cr)].

(** [now] is the value of [utils.NowTimestampMillis()]. *)
Definition PopulateMetricsPostContent {S} (now clockOffset : Z) (crs : ResultSet)
    : go S MetricsPostContent :=
  metrics ← for_fold (seq 0 (Length crs)) [] (λ acc i,
    cr ← Get crs (Z.of_nat i);
    mret (acc ++ [ConvertToMetricResults cr]));
  mret {|
    mpc_EntityId := GetEntityID (rs_Check crs);
    mpc_CheckId := GetID (rs_Check crs);
    mpc_CheckType := GetCheckType (rs_Check crs);
    mpc_Metrics := metrics;
    mpc_MinCheckPeriod := to_u64 (GetPeriod (rs_Check crs) * 1000);
    mpc_State := State (rs_States crs);
    mpc_Status := Status (rs_States crs);
    mpc_Timestamp := to_i64 (now + clockOffset)
  |}.

Definition NewMetricsPostRequest {S} (now : Z) (crs : ResultSet) (clockOffset : Z)
    : go S MetricsPostRequest :=
  content ← PopulateMetricsPostContent now clockOffset crs;
  mret {| mpr_Frame := {|
            Common := {| f_Version := "1"; f_Id := 0; f_Target := ""; f_Source := "";
                         f_Method := MethodCheckMetricsPostMulti; f_Error := None |};
            RawParams := None; RawResult := None |};
          mpr_Params := content |}.

(** ** Status lines (src/utils/status.go) *)
Definition StatusLine : Type := list string.
Definition NewStatusLine : StatusLine := [].
Definition sl_Add (key : string) (v : value) (sl : StatusLine) : StatusLine :=
  sl ++ [(key +:+ "=" +:+ Sprint v)%string].
Definition AddOption (key : string) (sl : StatusLine) : StatusLine := sl ++ [key].
Definition sl_String (sl : StatusLine) : string := Join sl ",".

(** ** Properties *)

Lemma crop_length limit s : String.length (crop limit s) ≤ limit.
Proof.
  unfold crop. destruct (Nat.ltb_spec limit (String.length s)); [|lia].
  rewrite str_take_length. lia.
Qed.

(** A state or a status that is set has at most 256 bytes; it is the one
    given when that one fits, else its first 256 bytes. *)
Theorem set_state_status_bounded st state status :
  String.length (State (SetState state st)) ≤ DefaultStateLimit
  ∧ String.length (Status (SetStatus status st)) ≤ DefaultStatusLimit
  ∧ State (SetState state st) =
      (if decide (String.length state ≤ DefaultStateLimit)%nat then state
       else str_take DefaultStateLimit state)
  ∧ Status (SetStatus status st) =
      (if decide (String.length status ≤ DefaultStatusLimit)%nat then status
       else str_take DefaultStatusLimit status)
  ∧ Status (SetState state st) = Status st ∧ State (SetStatus status st) = State st.
Proof.
  unfold SetState, SetStatus. split_and!; try done; cbn; try apply crop_length;
    unfold crop, DefaultStateLimit, DefaultStatusLimit;
    match goal with |- context [(256 <? ?n)%nat] => destruct (Nat.ltb_spec 256 n) end;
    case_decide; lia || done.
Qed.

(** The status made of an error.  Without a colon it is the whole text,
    whatever its length; with one it is the text after the last colon, without
    the space around it. *)
Theorem status_from_error_spec err st :
  (¬ occurs ":" err → Status (SetStatusFromError err st) = err)
  ∧ (∀ pre post, err = (pre +:+ ":" +:+ post)%string → ¬ occurs ":" post →
       Status (SetStatusFromError err st) = TrimSpace post
       ∧ ¬ occurs ":" (Status (SetStatusFromError err st))).
Proof.
  unfold SetStatusFromError. cbn. split.
  - intros Hn%last_index_none. by rewrite Hn.
  - intros pre post -> Hn. change (pre +:+ ":" +:+ post)%string with (pre +:+ String ":" post)%string.
    rewrite last_index_app, str_drop_app by done. split; [done|].
    intros Ho. apply Hn. by apply occurs_trim.
Qed.

Lemma status_from_error_spec_witness :
  Status (SetStatusFromError "write ip6: sendto: no route" {| State := ""; Status := "" |})
    = "no route"
  ∧ Status (SetStatusFromError (Repeat "x" 300) {| State := ""; Status := "" |}) = Repeat "x" 300.
Proof.
  split.
  - assert (¬ occurs ":" " no route") as Hn by (apply last_index_none; reflexivity).
    apply (proj2 (status_from_error_spec _ _) "write ip6: sendto" " no route" eq_refl Hn).
  - apply (status_from_error_spec (Repeat "x" 300)). apply last_index_none. vm_compute. reflexivity.
Defined.

(** The metric a result holds under a name is the last one added under it. *)
Theorem new_result_last_wins metrics name :
  GetMetric name (NewResult metrics) = last (filter (λ m, m_Name m = name) metrics).
Proof.
  unfold GetMetric, NewResult, AddMetrics, AddMetric.
  induction metrics as [|m metrics IH] using rev_ind; [done|].
  rewrite foldl_snoc, filter_app, last_app, <- IH. rewrite filter_cons.
  case_decide as E; cbn.
  - subst. apply (lookup_insert_eq (M := gmap string)).
  - by apply (lookup_insert_ne (M := gmap string)).
Qed.

Lemma get_in_range {S} crs i cr (s : S) :
  rs_Metrics crs !! i = Some cr → Get crs (Z.of_nat i) s = Ret cr s.
Proof.
  intros E. pose proof (lookup_lt_Some _ _ _ E). unfold Get, Length.
  rewrite !bool_decide_false by lia. by rewrite Nat2Z.id, E.
Qed.

Lemma convert_loop {S} crs l1 l2 (s : S) :
  rs_Metrics crs = l1 ++ l2 →
  for_fold (seq (length l1) (length l2)) (ConvertToMetricResults <$> l1) (λ acc i,
    cr ← Get crs (Z.of_nat i); mret (acc ++ [ConvertToMetricResults cr])) s
  = Ret (ConvertToMetricResults <$> l1 ++ l2) s.
Proof.
  revert l1. induction l2 as [|cr l2 IH]; intros l1 E; cbn.
  - by rewrite app_nil_r.
  - rewrite bind_app, bind_app, (get_in_range _ _ cr).
    2:{ rewrite E. by apply list_lookup_middle. }
    cbn. specialize (IH (l1 ++ [cr])). rewrite length_app, Nat.add_1_r, fmap_app in IH.
    cbn in IH. rewrite IH; rewrite <- app_assoc; done.
Qed.

Lemma populate_always {S} now offset crs (s : S) :
  ∃ content, PopulateMetricsPostContent now offset crs s = Ret content s.
Proof.
  eexists. unfold PopulateMetricsPostContent. rewrite bind_app.
  pose proof (convert_loop crs [] (rs_Metrics crs) s eq_refl) as E. cbn in E.
  unfold Length. rewrite E. reflexivity.
Qed.

(** What a post says. *)
Lemma populate_content {S} now offset crs (s : S) :
  ∃ content, PopulateMetricsPostContent now offset crs s = Ret content s
    ∧ mpc_Metrics content = ConvertToMetricResults <$> rs_Metrics crs
    ∧ mpc_EntityId content = GetEntityID (rs_Check crs)
    ∧ mpc_CheckId content = GetID (rs_Check crs)
    ∧ mpc_CheckType content = GetCheckType (rs_Check crs)
    ∧ is_u64 (mpc_MinCheckPeriod content) ∧ is_i64 (mpc_Timestamp content).
Proof.
  eexists. split.
  - unfold PopulateMetricsPostContent. rewrite bind_app.
    pose proof (convert_loop crs [] (rs_Metrics crs) s eq_refl) as E. cbn in E.
    unfold Length. rewrite E. reflexivity.
  - cbn. split_and!; try done; [apply to_u64_range|apply to_i64_range].
Qed.

(** The content of a metrics post is always produced: one entry per
    result, in order; the identity of the check; its period in milliseconds
    when that fits 64 bits; the poller's time moved by the clock offset. *)
Theorem populate_spec {S} now offset crs (s : S) :
  ∃ content, PopulateMetricsPostContent now offset crs s = Ret content s
    ∧ mpc_Metrics content = ConvertToMetricResults <$> rs_Metrics crs
    ∧ mpc_EntityId content = GetEntityID (rs_Check crs)
    ∧ mpc_CheckId content = GetID (rs_Check crs)
    ∧ mpc_CheckType content = GetCheckType (rs_Check crs)
    ∧ mpc_State content = State (rs_States crs) ∧ mpc_Status content = Status (rs_States crs)
    ∧ is_u64 (mpc_MinCheckPeriod content)
    ∧ (is_u64 (GetPeriod (rs_Check crs) * 1000) →
       mpc_MinCheckPeriod content = GetPeriod (rs_Check crs) * 1000)%Z
    ∧ (is_i64 (now + offset) → mpc_Timestamp content = now + offset)%Z.
Proof.
  eexists. split.
  - unfold PopulateMetricsPostContent. rewrite bind_app.
    pose proof (convert_loop crs [] (rs_Metrics crs) s eq_refl) as E. cbn in E.
    unfold Length. rewrite E. reflexivity.
  - cbn. split_and!; try done.
    + apply to_u64_range.
    + apply to_u64_id.
    + apply to_i64_id.
Qed.
