(* ===== verification/Floats.v ===== *)
(** IEEE 754 binary64 arithmetic, as the program uses it
    (src/utils/timestamp.go, src/protocol/metric/metric.go): the [SpecFloat]
    model of the Standard Library at precision 53 and exponent bound 1024, with
    the two functions that divide integers as floats. *)
From Stdlib Require Export SpecFloat.
From S2P Require Export CheckResult.

Abbreviation float64 := spec_float (only parsing).

(** [float64(z)]: round to nearest, ties to even. *)
Definition float64_of_Z (z : Z) : float64 := binary_normalize 53 1024 z 0 false.
(** [f / g] *)
Definition float64_div (f g : float64) : float64 := SFdiv 53 1024 f g.
Definition float64_leb (f g : float64) : bool := SFleb f g.
Definition float64_ltb (f g : float64) : bool := SFltb f g.

Definition ScaleFractionalDuration (duration targetUnits : Duration) : float64 :=
  float64_div (float64_of_Z duration) (float64_of_Z targetUnits).

(** The text of a float in the format [%v], which a metric carries, is made by
    [FormatFloat]. *)
Section metrics.
Context (FormatFloat : float64 → string).

Definition UnitPercent : string := "PERCENT".
Definition UnitSeconds : string := "SECONDS".
Definition UnitMilliseconds : string := "MILLISECONDS".

(** The quotient [float64(100*portion) / float64(total)] *)
Definition percent (portion total : Z) : float64 :=
  float64_div (float64_of_Z (to_i64 (100 * portion))) (float64_of_Z total).

Definition NewPercentMetricFromInt (name metricDimension : string) (portion total : Z) : Metric := {|
  m_Type := MetricFloat;
  m_TypeString := UnitToString MetricFloat;
  m_Dimension := if bool_decide (metricDimension = "") then "none" else metricDimension;
  m_Name := name;
  m_Value := VFloat64 (FormatFloat (percent portion total));
  m_Unit := UnitPercent
|}.
End metrics.

(** ** Percentages *)
#[export] Instance spec_float_eq_dec : EqDecision spec_float.
Proof. solve_decision. Defined.

Lemma percents_exact :
  Forall (λ total, percent (Z.of_nat total) (Z.of_nat total) = float64_of_Z 100
    ∧ percent 0 (Z.of_nat total) = float64_of_Z 0) (seq 1 255).
Proof. refine (bool_decide_eq_true_1 _ _). vm_compute. reflexivity. Qed.

(** All of up to 255 is exactly 100 percent, and none of it exactly 0. *)
Lemma percent_exact total :
  (0 < total ≤ 255)%Z → percent total total = float64_of_Z 100 ∧ percent 0 total = float64_of_Z 0.
Proof.
  intros Ht. pose proof percents_exact as Hall. rewrite Forall_forall in Hall.
  specialize (Hall (Z.to_nat total)). rewrite Z2Nat.id in Hall by lia. apply Hall.
  apply elem_of_seq. lia.
Qed.
