(* ===== verification/Tls.v ===== *)
(** Component: the metrics about TLS connections (src/check/check.go,
    [AddTLSMetrics]) and the text of distinguished names (src/utils/certs.go).
    Certificates and connections are given by what the code reads of them; the
    verification of a chain is an argument. *)
From S2P Require Export CheckResult.

(** ** Distinguished names *)

(** An attribute: its type, as text, and its value when that is a string.  The
    text of the method value [i.Type.String], which is formatted with [%s] when
    it is not, is an argument. *)
Record attribute := { at_Type : string; at_Value : option string }.

Definition oid : gmap string string := list_to_map [
  ("2.5.4.3", "CN"); ("2.5.4.4", "SN"); ("2.5.4.5", "serialNumber"); ("2.5.4.6", "C");
  ("2.5.4.7", "L"); ("2.5.4.8", "ST"); ("2.5.4.9", "streetAddress"); ("2.5.4.10", "O");
  ("2.5.4.11", "OU"); ("2.5.4.12", "title"); ("2.5.4.17", "postalCode"); ("2.5.4.42", "GN");
  ("2.5.4.43", "initials"); ("2.5.4.44", "generationQualifier"); ("2.5.4.46", "dnQualifier");
  ("2.5.4.65", "pseudonym"); ("0.9.2342.19200300.100.1.25", "DC");
  ("1.2.840.113549.1.9.1", "emailAddress"); ("0.9.2342.19200300.100.1.1", "userid")].

Definition attribute_text (method_value : string) (i : attribute) : string :=
  match at_Value i with
  | Some v =>
      match oid !! at_Type i with
      | Some name => (name +:+ "=" +:+ v)%string
      | None => (at_Type i +:+ "=" +:+ v)%string
      end
  | None => (method_value +:+ "=")%string
  end.

(** [namespace] is the sequence of sets [ToRDNSequence] gives. *)
Definition GetDNFromCert (method_value : string) (namespace : list (list attribute)) (sep : string)
    : string :=
  (sep +:+ Join (attribute_text method_value <$> concat namespace) sep)%string.

(** ** Certificates and connections *)
Inductive public_key := RSA (bits : Z) | DSA (bits : Z) | ECDSA (bits : Z) | OtherKey.
Record certificate := {
  PublicKey : public_key;
  SignatureAlgorithm : string;
  Issuer : list (list attribute);
  Subject : list (list attribute);
  DNSNames : list string;
  NotBefore : Z;
  NotAfter : Z
}.
Record ConnectionState := {
  Version : Z;
  CipherSuite : Z;
  ServerName : string;
  PeerCertificates : list certificate
}.

(** The constants of [crypto/tls] that the code names. *)
Definition tls_versions : list (Z * string) :=
  [(768, "ssl3"); (769, "tls1.0"); (770, "tls1.1"); (771, "tls1.2")]%Z.
Definition tls_cipher_suites : list (Z * string) := [
  (5, "TLS_RSA_WITH_RC4_128_SHA");
  (10, "TLS_RSA_WITH_3DES_EDE_CBC_SHA");
  (47, "TLS_RSA_WITH_AES_128_CBC_SHA");
  (53, "TLS_RSA_WITH_AES_256_CBC_SHA");
  (156, "TLS_RSA_WITH_AES_128_GCM_SHA256");
  (157, "TLS_RSA_WITH_AES_256_GCM_SHA384");
  (49159, "TLS_ECDHE_ECDSA_WITH_RC4_128_SHA");
  (49161, "TLS_ECDHE_ECDSA_WITH_AES_128_CBC_SHA");
  (49162, "TLS_ECDHE_ECDSA_WITH_AES_256_CBC_SHA");
  (49169, "TLS_ECDHE_RSA_WITH_RC4_128_SHA");
  (49170, "TLS_ECDHE_RSA_WITH_3DES_EDE_CBC_SHA");
  (49171, "TLS_ECDHE_RSA_WITH_AES_128_CBC_SHA");
  (49172, "TLS_ECDHE_RSA_WITH_AES_256_CBC_SHA");
  (49199, "TLS_ECDHE_RSA_WITH_AES_128_GCM_SHA256");
  (49195, "TLS_ECDHE_ECDSA_WITH_AES_128_GCM_SHA256");
  (49200, "TLS_ECDHE_RSA_WITH_AES_256_GCM_SHA384");
  (49196, "TLS_ECDHE_ECDSA_WITH_AES_256_GCM_SHA384")]%Z.

(** A switch over constants, with the default "-". *)
Definition name_in (table : list (Z * string)) (x : Z) : string :=
  match find (λ kv, bool_decide (kv.1 = x)) table with
  | Some kv => kv.2
  | None => "-"
  end.

Definition key_metrics (k : public_key) : list Metric :=
  let bits v := NewMetric "cert_bits" "" MetricNumber v "" in
  let type t := NewMetric "cert_type" "" MetricString (VString t) "" in
  match k with
  | RSA n => [bits (VInteger Int n); type "rsa"]
  | DSA n => [bits (VInteger Int n); type "dsa"]
  | ECDSA n => [bits (VInteger Int n); type "ecdsa"]
  | OtherKey => [bits (VString "0"); type "-"]
  end.

(** [Verify host leaf intermediates] is the error of [cert.Verify], [now] the
    clock in seconds.  The first result is [Verified]. *)
Definition AddTLSMetrics
    (Verify : string → certificate → list certificate → option error) (method_value : string)
    (now : Z) (cr : Result) (state : ConnectionState) : bool * Result :=
  match PeerCertificates state with
  | [] => (false, cr)
  | cert :: intermediates =>
      let err := Verify (ServerName state) cert intermediates in
      let text name s := NewMetric name "" MetricString (VString s) "" in
      let number name z := NewMetric name "" MetricNumber (VInteger Int64 z) "" in
      (bool_decide (err = None),
       AddMetrics (
         match err with Some err => [text "cert_error" err] | None => [] end
         ++ key_metrics (PublicKey cert)
         ++ [text "cert_sig_algo" (to_lower (SignatureAlgorithm cert));
             text "ssl_session_version" (name_in tls_versions (Version state));
             text "ssl_session_cipher" (name_in tls_cipher_suites (CipherSuite state));
             text "cert_issuer" (GetDNFromCert method_value (Issuer cert) "/");
             text "cert_subject" (GetDNFromCert method_value (Subject cert) "/");
             text "cert_subject_alternate_names" (Join (DNSNames cert) ", ");
             number "cert_start" (NotBefore cert);
             number "cert_end" (NotAfter cert);
             number "cert_end_in" (to_i64 (NotAfter cert - now))]) cr)
  end.

(** ** Properties *)
Lemma add_metrics_lookup metrics cr name :
  AddMetrics metrics cr !! name =
    match last (filter (λ m, m_Name m = name) metrics) with Some m => Some m | None => cr !! name end.
Proof.
  unfold AddMetrics, AddMetric. induction metrics as [|m metrics IH] using rev_ind; [done|].
  rewrite foldl_snoc, filter_app, last_app, filter_cons, filter_nil. case_decide as E; cbn.
  - subst. apply (lookup_insert_eq (M := gmap string)).
  - rewrite <- IH. by apply (lookup_insert_ne (M := gmap string)).
Qed.

Lemma add_metric_ne m cr name : m_Name m ≠ name → AddMetric m cr !! name = cr !! name.
Proof. intros Hn. by apply (lookup_insert_ne (M := gmap string)). Qed.

Definition tls_metric_names : list string := ["cert_error"; "cert_bits"; "cert_type"; "cert_sig_algo";
  "ssl_session_version"; "ssl_session_cipher"; "cert_issuer"; "cert_subject";
  "cert_subject_alternate_names"; "cert_start"; "cert_end"; "cert_end_in"].

Lemma tls_metrics_other Verify mv now cr state name :
  name ∉ tls_metric_names → (AddTLSMetrics Verify mv now cr state).2 !! name = cr !! name.
Proof.
  intros Hn. unfold AddTLSMetrics. destruct (PeerCertificates state) as [|cert rest]; [done|].
  unfold tls_metric_names in Hn. rewrite !not_elem_of_cons in Hn. cbn [snd].
  rewrite add_metrics_lookup. replace (filter _ _) with (@nil Metric); [done|]. symmetry.
  destruct (Verify _ _ _), (PublicKey cert); cbn [app key_metrics];
    repeat (rewrite filter_cons_False by (cbn; naive_solver)); done.
Qed.

(** The metrics of a TLS connection.  A connection without certificates of
    the peer gives none and is not verified.  Otherwise it is verified exactly
    when the chain is, the error is a metric exactly when it is not, the
    remaining time is that of the end of the certificate, and the metrics of
    other names stay as they were. *)
Theorem tls_metrics_spec Verify mv now cr state :
  let '(verified, cr') := AddTLSMetrics Verify mv now cr state in
  match PeerCertificates state with
  | [] => verified = false ∧ cr' = cr
  | cert :: intermediates =>
      let err := Verify (ServerName state) cert intermediates in
      (verified = true ↔ err = None)
      ∧ m_Value <$> cr' !! "cert_error" =
          match err with Some e => Some (VString e) | None => m_Value <$> cr !! "cert_error" end
      ∧ m_Value <$> cr' !! "cert_end" = Some (VInteger Int64 (NotAfter cert))
      ∧ m_Value <$> cr' !! "cert_end_in" = Some (VInteger Int64 (to_i64 (NotAfter cert - now)))
      ∧ ∀ name, name ∉ tls_metric_names → cr' !! name = cr !! name
  end.
Proof.
  pose proof (tls_metrics_other Verify mv now cr state) as Hother. revert Hother.
  unfold AddTLSMetrics. destruct (PeerCertificates state) as [|cert rest]; [done|].
  cbv zeta. cbn [snd]. intros Hother. split_and!; [apply bool_decide_eq_true|..|done].
  all: rewrite add_metrics_lookup; by destruct (Verify _ _ _), (PublicKey cert).
Qed.
