(* ===== verification/TcpCheck.v ===== *)
(** Component: the run of a TCP check (src/check/check_tcp.go), with the
    reading of a connection through [bufio] and [io.LimitReader].  The network
    and regular expressions are arguments. *)
From S2P Require Export Tls Floats.

(** ** Reading a connection

    What a connection delivers: the pieces in which its bytes arrive, and how
    it ends: the end of the stream ([None]) or an error, such as a deadline. *)
Record incoming := { in_pieces : list chars; in_end : option error }.
Definition EOF : error := "EOF".

Definition newline : ascii := ascii_of_nat 10.
Definition bufio_size : nat := 4096.

(** The bytes before the first newline. *)
Fixpoint up_to_newline (l : chars) : option chars :=
  match l with
  | [] => None
  | c :: l' => if bool_decide (c = newline) then Some [] else cons c <$> up_to_newline l'
  end.

Definition drop_cr (line : chars) : chars :=
  match reverse line with
  | c :: l => if bool_decide (c = ascii_of_nat 13) then reverse l else line
  | [] => line
  end.

(** [bufio.NewReader(conn).ReadLine()] with [buf] read so far: the line, or the
    error when nothing has been read, and the pieces not read.  What is in the
    buffer after the line is lost. *)
Fixpoint read_line (buf : chars) (pieces : list chars) (ending : option error)
    : (chars + error) * list chars :=
  match pieces with
  | [] => (if bool_decide (buf = []) then inr (default EOF ending) else inl buf, [])
  | piece :: rest =>
      let free := bufio_size - length buf in
      let buf := buf ++ take free piece in
      let rest' := if bool_decide (length piece ≤ free) then rest else drop free piece :: rest in
      match up_to_newline buf with
      | Some line => (inl (drop_cr line), rest')
      | None =>
          if bool_decide (bufio_size ≤ length buf) then
            (inl (if bool_decide (last buf = Some (ascii_of_nat 13)) then take (bufio_size - 1) buf
                  else buf), rest')
          else read_line buf rest ending
      end
  end.
Definition readLine (conn : incoming) : (chars + error) * incoming :=
  let '(r, pieces) := read_line [] (in_pieces conn) (in_end conn) in
  (r, {| in_pieces := pieces; in_end := in_end conn |}).

(** [ioutil.ReadAll(io.LimitReader(conn, n))] *)
Fixpoint read_all (n : nat) (pieces : list chars) (ending : option error) : chars + error :=
  match pieces with
  | [] => match n, ending with S _, Some err => inr err | _, _ => inl [] end
  | piece :: rest =>
      if bool_decide (n ≤ length piece) then inl (take n piece)
      else
        match read_all (n - length piece) rest ending with
        | inl body => inl (piece ++ body)
        | inr err => inr err
        end
  end.
(** [(ch *Base) readLimit] *)
Definition readLimit (conn : incoming) (limit : Z) : chars + error :=
  read_all (Z.to_nat (limit + 1)) (in_pieces conn) (in_end conn).

Definition MaxTCPBannerLength : nat := 80.
Definition MaxTCPBodyLength : Z := 1024.

(** [(ch *TCPCheck) GenerateAddress] *)
Definition GenerateAddress (h : CheckHeader) (d : TCPCheckDetails) : string + error :=
  match GetTargetIP h with
  | inr err => inr err
  | inl ip => inl (JoinHostPort ip (pretty (Port d)))
  end.

(** ** Dialing *)

(** What the network does: the dial fails, or the connection is there and the
    handshake of TLS, when there is one, succeeds with a state, fails, or does
    not end before the time-out. *)
Inductive handshake := Shaken (st : ConnectionState) | HandshakeFails (err : error) | HandshakeLate (err : error).
Record tcp_conn := { tc_handshake : handshake; tc_write : option error; tc_in : incoming }.

(** [net.Dialer], its deadline an instant in nanoseconds, none when zero. *)
Record Dialer := { dl_Timeout : Duration; dl_Deadline : option Z }.

(** [time.Time.Sub] saturates. *)
Definition time_Sub (t u : Z) : Duration := (Z.max (- 2 ^ 63) (Z.min (2 ^ 63 - 1) (t - u)))%Z.

Definition calculateTimeout (dialer : Dialer) (now : Z) : Duration :=
  let timeout := dl_Timeout dialer in
  match dl_Deadline dialer with
  | Some deadline =>
      let deadlineTimeout := time_Sub deadline now in
      if bool_decide (timeout = 0%Z) || bool_decide (deadlineTimeout < timeout)%Z
      then deadlineTimeout else timeout
  | None => timeout
  end.

(** The state of a run is the number of open connections of the process. *)
Definition opened : nat → nat := S.
Definition closed : nat → nat := pred.

(** Without a time-out nothing ends the wait for a handshake that is late. *)
Definition dialContextWithDialer (timeout : Duration) (dialed : tcp_conn + error) (tls : bool)
    : go nat (tcp_conn + error) :=
  match dialed with
  | inr err => mret (inr err)
  | inl rawConn =>
      modify opened;;
      if tls then
        match tc_handshake rawConn with
        | Shaken _ => mret (inl rawConn)
        | HandshakeFails err => modify closed;; mret (inr err)
        | HandshakeLate err => if bool_decide (timeout = 0%Z) then halt Blocked else mret (inr err)
        end
      else mret (inl rawConn)
  end.

Section run.
Context {Regexp : Type} (Compile : string → Regexp + error).
Context (FindSubmatch : Regexp → string → option (list string)).
Context (Verify : string → certificate → list certificate → option error) (method_value : string).
(** [dial network address timeout], without one when it is zero *)
Context (dial : string → string → Duration → tcp_conn + error).

(** The times at which a run reads the clock, in milliseconds, and the clock in
    seconds when the certificates are looked at. *)
Record tcp_clock := {
  starttime : Z; connectEndTime : Z; firstbytetime : Z; bodybytetime : Z; endtime : Z; tls_now : Z
}.

Definition millis (name : string) (a b : Z) : Metric :=
  NewMetric name "" MetricNumber (VInteger Int64 (to_i64 (a - b))) UnitMilliseconds.

Definition fail_with (err : error) (crs : ResultSet) : ResultSet :=
  SetStateUnavailable (on_states (SetStatusFromError err) crs).

Definition put_result (cr : Result) (crs : ResultSet) : ResultSet := put_Metrics [cr] crs.

(** [m\[0\]] *)
Definition first_match (m : list string) : go nat string :=
  match m with x :: _ => mret x | [] => halt OutOfRange end.

(** The banner: the metrics it adds. *)
Definition banner_metrics (d : TCPCheckDetails) (clock : tcp_clock) (line : chars)
    : go nat (list Metric) :=
  let line := of_chars (take MaxTCPBannerLength line) in
  let text s := NewMetric "banner_match" "" MetricString (VString s) "" in
  matched ←
    match Compile (BannerMatch d) with
    | inr _ => mret []
    | inl re =>
        match FindSubmatch re line with
        | Some m => s ← first_match m; mret [text s]
        | None => mret [text ""]
        end
    end;
  mret (matched ++ [millis "tt_firstbyte" (firstbytetime clock) (starttime clock)]).

(** The body: the method is called on the expression when [Compile] has
    failed, that is on nil. *)
Definition body_metrics (d : TCPCheckDetails) (clock : tcp_clock) (body : chars)
    : go nat (list Metric) :=
  match Compile (BodyMatch d) with
  | inr _ => halt NilDeref
  | inl _ => mret [millis "tt_body" (bodybytetime clock) (starttime clock)]
  end.

Definition tcp_network (resolver : string) : string :=
  if bool_decide (resolver = ResolverIPV4) then "tcp4"
  else if bool_decide (resolver = ResolverIPV6) then "tcp6" else "tcp".

(** The line for the banner, when one is asked for, and what is left to read. *)
Definition banner_read (d : TCPCheckDetails) (conn : tcp_conn) : (option chars + error) * incoming :=
  if bool_decide (BannerMatch d = "") then (inl None, tc_in conn)
  else
    let '(r, rest) := readLine (tc_in conn) in
    (match r with inl line => inl (Some line) | inr err => inr err end, rest).
Definition body_read (d : TCPCheckDetails) (rest : incoming) : option chars + error :=
  if bool_decide (BodyMatch d = "") then inl None
  else match readLimit rest MaxTCPBodyLength with inl body => inl (Some body) | inr err => inr err end.
Definition send_body (d : TCPCheckDetails) (conn : tcp_conn) : option error :=
  if bool_decide (SendBody d = "") then None else tc_write conn.

(** From the sending of the body on, with the result filled so far. *)
Definition tcp_exchange (d : TCPCheckDetails) (clock : tcp_clock) (conn : tcp_conn) (cr : Result)
    (crs : ResultSet) : go nat ResultSet :=
  match send_body d conn with
  | Some err => mret (put_result cr (fail_with err crs))
  | None =>
      let '(banner, rest) := banner_read d conn in
      match banner with
      | inr err => mret (put_result cr (fail_with err crs))
      | inl banner =>
          metrics ← match banner with Some line => banner_metrics d clock line | None => mret [] end;
          let cr := AddMetrics metrics cr in
          match body_read d rest with
          | inr err => mret (put_result cr (fail_with err crs))
          | inl body =>
              metrics ← match body with Some body => body_metrics d clock body | None => mret [] end;
              let cr := AddMetrics metrics cr in
              let cr := AddMetric (millis "duration" (endtime clock) (starttime clock)) cr in
              let cr :=
                if UseSSL d then
                  match tc_handshake conn with
                  | Shaken st => (AddTLSMetrics Verify method_value (tls_now clock) cr st).2
                  | _ => cr
                  end
                else cr in
              mret (on_states SetStatusSuccess (SetStateAvailable (put_result cr crs)))
          end
      end
  end.

Definition tcp_Run (clock : tcp_clock) (b : Base) (d : TCPCheckDetails) : go nat ResultSet :=
  let ch := TCPCheck b d in
  let crs := NewResultSet ch (Some (NewResult [])) in
  let addr := match GenerateAddress (header_of ch) d with inl addr => addr | inr _ => "" end in
  let nd := {| dl_Timeout := GetTimeoutDuration ch; dl_Deadline := None |} in
  let timeout := calculateTimeout nd (starttime clock * 1000000) in
  r ← dialContextWithDialer timeout
        (dial (tcp_network (ch_TargetResolver (header_of ch))) addr timeout) (UseSSL d);
  match r with
  | inr err => mret (fail_with err crs)
  | inl conn =>
      deferred closed (
        let cr := NewResult [millis "tt_connect" (connectEndTime clock) (starttime clock)] in
        tcp_exchange d clock conn cr crs)
  end.
End run.

(** ** Reads do not depend on the pieces *)
Lemma up_to_newline_some line rest :
  newline ∉ line → up_to_newline (line ++ newline :: rest) = Some line.
Proof.
  induction line as [|c line IH]; intros Hn; cbn; [done|].
  apply not_elem_of_cons in Hn as [Hc Hn]. by rewrite bool_decide_false, IH by (done || by intros ->).
Qed.
Lemma up_to_newline_none l : newline ∉ l → up_to_newline l = None.
Proof.
  induction l as [|c l IH]; intros Hn; cbn; [done|].
  apply not_elem_of_cons in Hn as [Hc Hn]. by rewrite bool_decide_false, IH by (done || by intros ->).
Qed.

Lemma read_line_spec pieces buf ending line rest :
  newline ∉ line → length line < bufio_size → buf ++ concat pieces = line ++ newline :: rest →
  newline ∉ buf → (read_line buf pieces ending).1 = inl (drop_cr line).
Proof.
  intros Hline Hlen. revert buf. induction pieces as [|piece pieces IH]; intros buf E Hbuf.
  { cbn in E. rewrite app_nil_r in E. subst. exfalso. apply Hbuf, elem_of_app. right. left. }
  cbn [concat] in E. rewrite (assoc_L (++)) in E. cbn [read_line].
  set (buf' := buf ++ take (bufio_size - length buf) piece).
  assert (∃ tl, buf' ++ tl = line ++ newline :: rest) as [tl Etl].
  { exists (drop (bufio_size - length buf) piece ++ concat pieces). unfold buf'.
    rewrite <- E, <- !(assoc_L (++)), (assoc_L (++) (take _ _)). by rewrite take_drop. }
  destruct (decide (newline ∈ buf')) as [Hin|Hout].
  - assert (∃ tl', buf' = line ++ newline :: tl') as [tl' ->].
    { apply app_eq_inv in Etl as [(k & E1 & E2)|(k & E1 & E2)].
      - destruct k as [|c k]; cbn in E2; [|injection E2 as <- E2].
        + rewrite app_nil_r in E1. rewrite E1 in Hin. done.
        + by exists k.
      - exfalso. apply Hline. rewrite E1. apply elem_of_app. by left. }
    by rewrite up_to_newline_some.
  - rewrite up_to_newline_none by done.
    assert (length buf' < bufio_size) as Hshort.
    { apply app_eq_inv in Etl as [(k & E1 & E2)|(k & E1 & E2)].
      - destruct k as [|c k]; cbn in E2; [rewrite app_nil_r in E1; by subst|].
        injection E2 as <- E2. exfalso. apply Hout. rewrite E1. apply elem_of_app. right. left.
      - rewrite E1, length_app in Hlen. lia. }
    rewrite bool_decide_false by lia. unfold buf' in *. rewrite length_app, length_take in Hshort.
    rewrite take_ge in * by lia. by apply IH.
Qed.

Lemma read_all_spec n pieces ending :
  read_all n pieces ending =
    if bool_decide (n ≤ length (concat pieces)) then inl (take n (concat pieces))
    else match ending with None => inl (concat pieces) | Some err => inr err end.
Proof.
  revert n. induction pieces as [|piece pieces IH]; intros n; cbn [read_all concat].
  - destruct n; [done|]. by rewrite bool_decide_false by (cbn; lia).
  - rewrite length_app. case_bool_decide as H1.
    + rewrite bool_decide_true by lia. by rewrite take_app_le.
    + rewrite IH. case_bool_decide as H2.
      * rewrite bool_decide_true by lia. rewrite take_app_ge by lia. done.
      * rewrite bool_decide_false by lia. by destruct ending.
Qed.

(** What a read with a limit makes of the bytes that a connection delivers. *)
Definition limited (limit : Z) (bytes : chars) (ending : option error) : chars + error :=
  if bool_decide (limit < Z.of_nat (length bytes))%Z then inl (take (Z.to_nat (limit + 1)) bytes)
  else match ending with None => inl bytes | Some err => inr err end.

Lemma read_limit_spec conn limit :
  (0 ≤ limit)%Z → readLimit conn limit = limited limit (concat (in_pieces conn)) (in_end conn).
Proof.
  intros Hlimit. unfold readLimit, limited. rewrite read_all_spec. erewrite bool_decide_ext; [done|]. lia.
Qed.

(** The line ends in the piece that is read first, with [more] after it. *)
Lemma read_line_first line more rest ending :
  newline ∉ line → length (line ++ newline :: more) ≤ bufio_size →
  (read_line [] ((line ++ newline :: more) :: rest) ending).2 = rest.
Proof.
  intros Hl Hlen. cbn [read_line length app]. rewrite Nat.sub_0_r, take_ge, bool_decide_true by done.
  by rewrite up_to_newline_some.
Qed.

(** C29: what a check reads of a connection.  Read on their own, the banner is the
    text before the first newline of what arrives, without the carriage
    return, when it fits the buffer, and the body is all that arrives, cut to
    one byte more than the limit, the read failing only when the connection
    fails before that: neither depends on the pieces in which the bytes arrive.
    But the body read after a banner does: what has come in the same piece as
    the line is lost with the buffer of the line, so the same bytes give a body
    of nothing in one piece, and of all that follows the line in two. *)
Theorem reads_of_a_connection conn line rest limit :
  newline ∉ line → length line < bufio_size → concat (in_pieces conn) = line ++ newline :: rest →
  (0 ≤ limit)%Z →
  (readLine conn).1 = inl (drop_cr line)
  ∧ readLimit conn limit = limited limit (concat (in_pieces conn)) (in_end conn)
  ∧ (length (line ++ newline :: rest) ≤ bufio_size →
     let delivered pieces := {| in_pieces := pieces; in_end := in_end conn |} in
     readLimit (readLine (delivered [line ++ newline :: rest])).2 limit = limited limit [] (in_end conn)
     ∧ readLimit (readLine (delivered [line ++ [newline]; rest])).2 limit
         = limited limit rest (in_end conn)).
Proof.
  intros Hl Hlen E Hlimit. split_and!.
  - unfold readLine. destruct (read_line _ _ _) as [r pieces] eqn:Hr.
    rewrite <- (read_line_spec (in_pieces conn) [] (in_end conn) line rest); [by rewrite Hr|done..|].
    by apply not_elem_of_nil.
  - by apply read_limit_spec.
  - intros Hfit delivered. rewrite !read_limit_spec by done. unfold readLine. cbn [in_pieces in_end delivered].
    pose proof (read_line_first line rest [] (in_end conn) Hl Hfit) as H1.
    pose proof (read_line_first line [] [rest] (in_end conn) Hl) as H2.
    rewrite !length_app in *. cbn [length] in *. specialize (H2 ltac:(lia)).
    destruct (read_line [] [line ++ newline :: rest] _) as [r1 p1].
    destruct (read_line [] [line ++ [newline]; rest] _) as [r2 p2]. cbn in H1, H2 |- *. subst.
    split; [done|]. cbn. by rewrite app_nil_r.
Qed.

Lemma reads_of_a_connection_witness :
  (readLine {| in_pieces := [to_chars "22"; to_chars "0 ok" ++ [newline]; to_chars "x"]; in_end := None |}).1
    = inl (to_chars "220 ok").
Proof.
  apply (reads_of_a_connection _ (to_chars "220 ok") (to_chars "x") 10); [|vm_compute; lia|done|done].
  vm_compute. intros H. repeat (apply elem_of_cons in H as [H|H]; [discriminate|]). by apply elem_of_nil in H.
Defined.

(** ** The run *)
Section run_lemmas.
Context {Regexp : Type} (Compile : string → Regexp + error).
Context (FindSubmatch : Regexp → string → option (list string)).
Context (Verify : string → certificate → list certificate → option error) (method_value : string).
Context (dial : string → string → Duration → tcp_conn + error).
(** A match has at least the text of the whole expression. *)
Hypothesis FindSubmatch_whole : ∀ re s m, FindSubmatch re s = Some m → m ≠ [].

(** The exchange gets to the expression for the body. *)
Definition gets_to_body (d : TCPCheckDetails) (conn : tcp_conn) : Prop :=
  send_body d conn = None ∧ ∃ banner rest body,
    banner_read d conn = (inl banner, rest) ∧ body_read d rest = inl (Some body).

Lemma banner_metrics_runs d clock line n :
  ∃ metrics, banner_metrics Compile FindSubmatch d clock line n = Ret metrics n
    ∧ Forall (λ m, m_Name m ∈ ["banner_match"; "tt_firstbyte"]) metrics.
Proof.
  unfold banner_metrics. destruct (Compile _) as [re|]; [|eexists; split; [reflexivity|]; repeat constructor].
  destruct (FindSubmatch re _) as [[|x m]|] eqn:E; [by apply FindSubmatch_whole in E| |].
  all: eexists; (split; [reflexivity|]); repeat constructor.
Qed.

Lemma exchange_crashes_iff d clock conn cr crs n :
  returns (tcp_exchange Compile FindSubmatch Verify method_value d clock conn cr crs n) = false ↔
  gets_to_body d conn ∧ ∃ err, Compile (BodyMatch d) = inr err.
Proof.
  unfold tcp_exchange, gets_to_body. destruct (send_body d conn) as [err|];
    [split; [done|naive_solver]|].
  destruct (banner_read d conn) as [[banner|err] rest];
    [|split; [done|naive_solver]].
  rewrite bind_app. set (m := match banner with Some line => _ | None => _ end).
  assert (∃ metrics, m n = Ret metrics n) as [metrics ->].
  { destruct banner as [line|]; [|by eexists].
    destruct (banner_metrics_runs d clock line n) as (metrics & E & _). by exists metrics. }
  destruct (body_read d rest) as [[body|]|err] eqn:Hbody;
    [|split; [done|intros [(_ & b' & r' & body' & [= <- <-] & E) _]; congruence]..].
  rewrite bind_app. unfold body_metrics. destruct (Compile (BodyMatch d)) as [re|err]; cbn;
      [split; [done|by intros [_ [? ?]]]|].
  split; [|done]. intros _. split; [|by eexists]. split; [done|]. by exists banner, rest, body.
Qed.

(** The connection a dial makes. *)
Definition connected (d : TCPCheckDetails) (dialed : tcp_conn + error) (conn : tcp_conn) : Prop :=
  dialed = inl conn ∧ (UseSSL d = true → ∃ st, tc_handshake conn = Shaken st).

(** The dial waits for ever. *)
Definition handshake_hangs (d : TCPCheckDetails) (timeout : Duration) (dialed : tcp_conn + error) : Prop :=
  timeout = 0%Z ∧ UseSSL d = true ∧ ∃ conn err, dialed = inl conn ∧ tc_handshake conn = HandshakeLate err.

Lemma dial_cases d timeout dialed n :
  let after := match dialed with
    | inl conn => match tc_handshake conn with HandshakeLate _ => S n | _ => n end
    | inr _ => n end in
  (∃ conn, connected d dialed conn ∧ ¬ handshake_hangs d timeout dialed
     ∧ dialContextWithDialer timeout dialed (UseSSL d) n = Ret (inl conn) (S n))
  ∨ ((∀ conn, ¬ connected d dialed conn)
     ∧ ((¬ handshake_hangs d timeout dialed
         ∧ ∃ err, dialContextWithDialer timeout dialed (UseSSL d) n = Ret (inr err) after)
        ∨ (handshake_hangs d timeout dialed
           ∧ dialContextWithDialer timeout dialed (UseSSL d) n = Halt Blocked after))).
Proof.
  unfold connected, handshake_hangs, dialContextWithDialer. destruct dialed as [conn|err].
  2:{ right. split; [by intros conn [? _]|]. left.
      split; [intros (_ & _ & c & e & ? & _); done|by eexists]. }
  rewrite bind_app. destruct (UseSSL d); [|left; exists conn; split; [done|]; split; [by intros (_ & ? & _)|done]].
  destruct (tc_handshake conn) as [st|err|err] eqn:Hs.
  { left. exists conn. split; [split; [done|by exists st]|].
    split; [intros (_ & _ & c & e & [= <-] & ?); congruence|done]. }
  all: right; split; [intros conn' [[= <-] H]; destruct (H eq_refl) as [st Hst]; congruence|].
  - left. split; [intros (_ & _ & c & e & [= <-] & ?); congruence|by eexists].
  - case_bool_decide as Ht; [right|left].
    + split; [|done]. split; [done|]. split; [done|]. by exists conn, err.
    + split; [by intros [? _]|by eexists].
Qed.

Lemma exchange_fault d clock conn cr crs n f m :
  tcp_exchange Compile FindSubmatch Verify method_value d clock conn cr crs n = Halt f m → f = NilDeref.
Proof.
  unfold tcp_exchange. destruct (send_body d conn); [done|].
  destruct (banner_read d conn) as [[banner|err] rest]; [|done]. rewrite bind_app.
  set (k := match banner with Some line => _ | None => _ end).
  assert (∃ metrics, k n = Ret metrics n) as [metrics ->].
  { destruct banner as [line|]; [|by eexists].
    destruct (banner_metrics_runs d clock line n) as (metrics & E & _). by exists metrics. }
  destruct (body_read d rest) as [[body|]|err]; [|done..]. rewrite bind_app. unfold body_metrics.
  destruct (Compile (BodyMatch d)); [done|]. by intros [= <- _].
Qed.

(** C27: a TCP check ends the poller exactly when its expression for the body is
    not a regular expression and the exchange gets to it: the code calls the
    nil expression in the branch where the compilation failed.  With a regular
    expression the branch is not taken, and no match is ever reported.  The
    run waits for ever in the dial exactly when the check has no time-out and
    the handshake does not end, and otherwise it returns. *)
Theorem tcp_run_crashes_iff clock b d n :
  let timeout := GetTimeoutDuration (TCPCheck b d) in
  let dialed := dial (tcp_network (ch_TargetResolver (header_of (TCPCheck b d))))
    (match GenerateAddress (header_of (TCPCheck b d)) d with inl addr => addr | inr _ => "" end)
    timeout in
  let crashes := ∃ conn err, connected d dialed conn ∧ gets_to_body d conn ∧ Compile (BodyMatch d) = inr err in
  match tcp_Run Compile FindSubmatch Verify method_value dial clock b d n with
  | Ret _ _ => ¬ crashes ∧ ¬ handshake_hangs d timeout dialed
  | Halt f _ => f = NilDeref ∧ crashes ∨ f = Blocked ∧ handshake_hangs d timeout dialed
  end.
Proof.
  intros timeout dialed crashes. unfold tcp_Run. cbn [calculateTimeout dl_Timeout dl_Deadline].
  fold timeout dialed. rewrite bind_app.
  destruct (dial_cases d timeout dialed n) as [(conn & Hc & Hh & ->)|(Hno & [[Hh [err ->]]|[Hh ->]])].
  2:{ split; [|done]. intros (conn & err' & Hc & _). by apply Hno in Hc. }
  2:{ by right. }
  assert (crashes ↔ gets_to_body d conn ∧ ∃ err, Compile (BodyMatch d) = inr err) as Hcr.
  { split; [|intros [Hb [err Hr]]; by exists conn, err].
    intros (conn' & err & [Hc' _] & Hb & Hr). destruct Hc as [Hc _].
    assert (conn' = conn) as -> by congruence. by eauto. }
  pose proof (exchange_crashes_iff d clock conn
    (NewResult [millis "tt_connect" (connectEndTime clock) (starttime clock)])
    (NewResultSet (TCPCheck b d) (Some (NewResult []))) (S n)) as Hex.
  unfold deferred. destruct (tcp_exchange _ _ _ _ _ _ _ _ _ _) as [x m|f m] eqn:E; cbn in Hex |- *.
  - split; [|done]. intros Hx%Hcr%Hex. done.
  - left. split; [by eapply exchange_fault|]. by apply Hcr, Hex.
Qed.

Lemma exchange_keeps d clock conn cr crs n :
  state_of (tcp_exchange Compile FindSubmatch Verify method_value d clock conn cr crs n) = n.
Proof.
  unfold tcp_exchange. destruct (send_body d conn); [done|].
  destruct (banner_read d conn) as [[[line|]|] rest]; [| |done].
  - destruct (banner_metrics_runs d clock line n) as (metrics & E & _). rewrite bind_app, E.
    destruct (body_read d rest) as [[body|]|]; [|done..]. rewrite bind_app. unfold body_metrics.
    by destruct (Compile (BodyMatch d)).
  - rewrite bind_app. cbn. destruct (body_read d rest) as [[body|]|]; [|done..].
    rewrite bind_app. unfold body_metrics. by destruct (Compile (BodyMatch d)).
Qed.

(** C28: a TCP check closes what it opens, whatever happens, but for one case: a
    handshake of TLS that does not end in time leaves its connection open. *)
Theorem tcp_run_connections clock b d n :
  let dialed := dial (tcp_network (ch_TargetResolver (header_of (TCPCheck b d))))
    (match GenerateAddress (header_of (TCPCheck b d)) d with inl addr => addr | inr _ => "" end)
    (GetTimeoutDuration (TCPCheck b d)) in
  state_of (tcp_Run Compile FindSubmatch Verify method_value dial clock b d n) =
    match dialed with
    | inl conn =>
        match tc_handshake conn with
        | HandshakeLate _ => if UseSSL d then S n else n
        | _ => n
        end
    | inr _ => n
    end.
Proof.
  intros dialed. unfold tcp_Run. cbn [calculateTimeout dl_Timeout dl_Deadline]. fold dialed.
  rewrite bind_app.
  destruct (dial_cases d (GetTimeoutDuration (TCPCheck b d)) dialed n)
    as [(conn & [-> Hssl] & _ & ->)|(Hno & [[_ [err ->]]|[_ ->]])].
  2,3: cbn [state_of mret go_ret]; destruct dialed as [conn|]; [|done];
    destruct (UseSSL d) eqn:Hs; [by destruct (tc_handshake conn)|]; exfalso;
    apply (Hno conn); (split; [done|congruence]).
  unfold deferred. set (x := tcp_exchange _ _ _ _ _ _ _ _ _ _).
  assert (state_of x = S n) as Hx by apply exchange_keeps.
  transitivity n; [destruct x; cbn in *; by subst|].
  destruct (UseSSL d); [destruct (Hssl eq_refl) as [st ->]; done|by destruct (tc_handshake conn)].
Qed.
End run_lemmas.
