(* ===== verification/HttpCheck.v ===== *)
(** Component: the run of an HTTP check (src/check/check_http.go).  Parsing and
    printing of addresses, regular expressions, and the HTTP client are
    arguments. *)
From S2P Require Export TcpCheck NetAddr.

Definition Contains (s sub : string) : bool :=
  existsb (λ i, HasPrefix (str_drop i s) sub) (seq 0 (S (String.length s))).

(** ** Requests and responses *)
Record url := { u_Scheme : string; u_Host : string; u_rest : string }.
Record http_request := {
  r_Method : string; r_URL : string; r_Host : string; r_Header : list (string * string);
  r_BasicAuth : option (string * string); r_ServerName : string; r_Network : string;
  r_FollowRedirects : bool
}.
Inductive trace_event := ConnectDone (at_ms : Z) | GotFirstResponseByte (at_ms : Z).
Record http_response := {
  h_StatusCode : Z; h_Body : incoming; h_TLS : option ConnectionState
}.
(** What comes of a request: events of the trace, and a response or an error. *)
Record http_outcome := { h_trace : list trace_event; h_response : option http_response }.

Definition MaxHTTPResponseBodyLength : Z := 512 * 1024.
Definition UserAgent : string :=
  "Rackspace Monitoring Poller/1.0 (https://monitoring.api.rackspacecloud.com/)".
Definition http_DefaultPort : string := "80".
Definition DefaultSecurePort : string := "443".

Definition ascii_upper (c : ascii) : ascii :=
  let n := nat_of_ascii c in if decide (97 ≤ n ≤ 122) then ascii_of_nat (n - 32) else c.
Definition ToUpper (s : string) : string := of_chars (ascii_upper <$> to_chars s).

(** The host and the port of the URL, with the defaults. *)
Definition host_and_port (parsed : url) : (string * string) + error :=
  match SplitHostPort (u_Host parsed) with
  | inl hp => inl hp
  | inr err =>
      if Contains err "missing port in address" then
        inl (u_Host parsed,
             if bool_decide (u_Scheme parsed = "http") then http_DefaultPort else DefaultSecurePort)
      else inr err
  end.

(** [int(math.Floor(float64(code) / 100.0))] *)
Definition floor_float (f : float64) : Z :=
  match f with
  | S754_finite sign m e =>
      let m := if sign then Z.neg m else Z.pos m in
      if bool_decide (0 ≤ e)%Z then Z.shiftl m e else (m / 2 ^ (- e))%Z
  | _ => 0%Z
  end.
Definition code_family (code : Z) : Z :=
  floor_float (float64_div (float64_of_Z code) (float64_of_Z 100)).

Section run.
Context `{MapRange}.
Context (url_Parse : string → url + error) (url_String : url → string).
Context (NewRequest : string → string → option error) (Do : http_request → Duration → http_outcome).
Context {Regexp : Type} (Compile : string → Regexp + error).
Context (FindSubmatch : Regexp → string → option (list string)).
Context (Verify : string → certificate → list certificate → option error) (method_value : string).

Record http_clock := { http_start : Z; http_end : Z; http_tls_now : Z }.

Definition trace_metric (start : Z) (ev : trace_event) : Metric :=
  let ms name t := NewMetric name "" MetricNumber (VInteger Int64 (to_i64 (t - start))) "milliseconds" in
  match ev with
  | ConnectDone t => ms "tt_connect" t
  | GotFirstResponseByte t => ms "tt_firstbyte" t
  end.

Definition string_metric (name s unit : string) : Metric := NewMetric name "" MetricString (VString s) unit.

(** The expression for the body: the metric, or the error of the expression. *)
Definition body_match (d : HTTPCheckDetails) (body : string) : go nat (option Metric + error) :=
  if bool_decide (Body d = "") then mret (inl None)
  else
    match Compile (Body d) with
    | inr err => mret (inr err)
    | inl re =>
        match FindSubmatch re body with
        | Some m => s ← first_match m; mret (inl (Some (string_metric "body_match" s "string")))
        | None => mret (inl (Some (string_metric "body_match" "" "string")))
        end
    end.

(** [string(m\[1\])] of a match, and the empty string without one. *)
Definition first_group (m : option (list string)) : go nat string :=
  match m with
  | Some (_ :: s :: _) => mret s
  | Some _ => halt OutOfRange
  | None => mret ""
  end.

(** The loop over [BodyMatches]: the metrics so far, and the error that ends it. *)
Fixpoint body_matches (entries : list (string * string)) (body : string) (cr : Result)
    : go nat (Result * option error) :=
  match entries with
  | [] => mret (cr, None)
  | (key, regex) :: entries' =>
      match Compile regex with
      | inr err => mret (cr, Some err)
      | inl re =>
          s ← first_group (FindSubmatch re body);
          body_matches entries' body (AddMetric (string_metric ("body_match_" +:+ key)%string s "") cr)
      end
  end.

Definition code_metrics (code : Z) : list Metric :=
  let flag name n :=
    NewMetric name "" MetricNumber (VInteger Int (if bool_decide (code_family code = n) then 1 else 0)) "" in
  [flag "code_100" 1%Z; flag "code_200" 2%Z; flag "code_300" 3%Z; flag "code_400" 4%Z;
   flag "code_500" 5%Z].

Definition truncated (body : chars) : Z :=
  if bool_decide (MaxHTTPResponseBodyLength < Z.of_nat (length body))%Z then 1%Z else 0%Z.

Definition response_metrics (code duration : Z) (body : chars) (include : bool) : list Metric :=
  code_metrics code ++
  [string_metric "code" (pretty code) "";
   NewMetric "duration" "" MetricNumber (VInteger Int64 duration) "milliseconds";
   NewMetric "bytes" "" MetricNumber (VInteger Int (Z.of_nat (length body))) "bytes";
   NewMetric "truncated" "" MetricNumber (VInteger Int64 (truncated body)) "bool"]
  ++ (if include then [string_metric "body" (of_chars body) ""] else []).

Definition status_of (code duration : Z) (body : chars) (sl : StatusLine) : StatusLine :=
  sl_Add "truncated" (VInteger Int64 (truncated body))
    (sl_Add "bytes" (VInteger Int (Z.of_nat (length body)))
      (sl_Add "duration" (VInteger Int64 duration) (sl_Add "code" (VInteger Int code) sl))).

(** From the response on. *)
Definition handle_response (d : HTTPCheckDetails) (clock : http_clock) (resp : http_response)
    (cr : Result) (crs : ResultSet) : go nat ResultSet :=
  match readLimit (h_Body resp) MaxHTTPResponseBodyLength with
  | inr err => mret (put_result cr (fail_with err crs))
  | inl body =>
      let duration := to_i64 (http_end clock - http_start clock) in
      matched ← body_match d (of_chars body);
      match matched with
      | inr err => mret (put_result cr (fail_with err crs))
      | inl m =>
          let cr := match m with Some m => AddMetric m cr | None => cr end in
          '(cr, err) ← body_matches (range (default ∅ (BodyMatches d))) (of_chars body) cr;
          match err with
          | Some err => mret (put_result cr (fail_with err crs))
          | None =>
              let cr := AddMetrics (response_metrics (h_StatusCode resp) duration body (IncludeBody d)) cr in
              let '(sl, cr) :=
                match h_TLS resp with
                | Some st =>
                    let '(verified, cr) := AddTLSMetrics Verify method_value (http_tls_now clock) cr st in
                    (if verified : bool then NewStatusLine else AddOption "sslerror" NewStatusLine, cr)
                | None => (NewStatusLine, cr)
                end in
              mret (on_states (SetStatus (sl_String (status_of (h_StatusCode resp) duration body sl)))
                      (SetStateAvailable (put_result cr crs)))
          end
      end
  end.

(** The request, once the host and the port are known. *)
Definition request_of (h : CheckHeader) (d : HTTPCheckDetails) (parsed : url) (host port : string)
    : http_request :=
  let ip := match GetTargetIP h with inl ip => ip | inr _ => "" end in
  let ip := if bool_decide (ip = "") then host else ip in
  {| r_Method := ToUpper (Method d);
     r_URL := url_String {| u_Scheme := u_Scheme parsed; u_Host := JoinHostPort ip port;
                            u_rest := u_rest parsed |};
     r_Host := host;
     r_Header := ("User-Agent", UserAgent) :: range (default ∅ (Headers d));
     r_BasicAuth := if bool_decide (AuthUser d ≠ "" ∧ AuthPassword d ≠ "")
                    then Some (AuthUser d, AuthPassword d) else None;
     r_ServerName := host;
     r_Network := NewCustomDialContext (ch_TargetResolver h);
     r_FollowRedirects := FollowRedirects d |}.

Definition http_Run (clock : http_clock) (b : Base) (d : HTTPCheckDetails)
    : go nat (ResultSet + error) :=
  let ch := HTTPCheck b d in
  let crs := NewResultSet ch (Some (NewResult [])) in
  match url_Parse (Url d) with
  | inr err => mret (inr err)
  | inl parsed =>
      match host_and_port parsed with
      | inr err => mret (inr err)
      | inl (host, port) =>
          let req := request_of (header_of ch) d parsed host port in
          match NewRequest (r_Method req) (r_URL req) with
          | Some err => mret (inl (fail_with err crs))
          | None =>
              let o := Do req (GetTimeoutDuration ch) in
              let cr := NewResult (trace_metric (http_start clock) <$> h_trace o) in
              match h_response o with
              | None =>
                  mret (inl (put_result cr
                    (SetStateUnavailable (on_states (SetStatus "connection refused") crs))))
              | Some resp =>
                  modify opened;;
                  crs ← deferred closed (handle_response d clock resp cr crs);
                  mret (inl crs)
              end
          end
      end
  end.
End run.

(** ** Status codes *)
Lemma code_families :
  Forall (λ code, code_family (Z.of_nat code) = (Z.of_nat code / 100)%Z) (seq 0 1000).
Proof. refine (bool_decide_eq_true_1 _ _). vm_compute. reflexivity. Qed.

(** The float arithmetic is exact on the codes of three digits. *)
Lemma code_family_div code : (0 ≤ code < 1000)%Z → code_family code = (code / 100)%Z.
Proof.
  intros Hc. pose proof code_families as Hall. rewrite Forall_forall in Hall.
  rewrite <- (Z2Nat.id code) at 1 2 by lia. apply Hall. apply elem_of_seq. lia.
Qed.

Section run_lemmas.
Context `{MapRange}.
Context {Regexp : Type} (Compile : string → Regexp + error).
Context (FindSubmatch : Regexp → string → option (list string)).
Context (Verify : string → certificate → list certificate → option error) (method_value : string).
Hypothesis FindSubmatch_whole : ∀ re s m, FindSubmatch re s = Some m → m ≠ [].

Lemma body_match_runs d body n :
  ∃ r, body_match Compile FindSubmatch d body n = Ret r n
    ∧ match r with
      | inl m => (Body d = "" ∨ ∃ re, Compile (Body d) = inl re)
          ∧ ∀ m', m = Some m' → m_Name m' = "body_match"
      | inr _ => ¬ (Body d = "" ∨ ∃ re, Compile (Body d) = inl re)
      end.
Proof.
  unfold body_match. case_bool_decide as Hb.
  { eexists. split; [done|]. split; [by left|done]. }
  destruct (Compile _) as [re|err].
  2:{ eexists. split; [done|]. by intros [?|[re ?]]. }
  destruct (FindSubmatch re body) as [[|x m]|] eqn:E; [by apply FindSubmatch_whole in E|..];
    (eexists; split; [reflexivity|]; split; [right; by eexists|by intros m' [= <-]]).
Qed.

(** An expression that matches without a group. *)
Definition groupless (body : string) (kv : string * string) : Prop :=
  ∃ re x, Compile kv.2 = inl re ∧ FindSubmatch re body = Some [x].
Definition compiles (kv : string * string) : Prop := ∃ re, Compile kv.2 = inl re.

Lemma body_matches_crashes entries body cr n :
  Forall compiles entries →
  returns (body_matches Compile FindSubmatch entries body cr n) = false ↔ Exists (groupless body) entries.
Proof.
  intros Hc. revert cr. induction Hc as [|[key regex] entries [re Hre] Hc IH]; intros cr; cbn [body_matches].
  - split; [done|]. by intros ?%Exists_nil.
  - cbn [snd] in Hre. rewrite Hre, Exists_cons.
    assert (groupless body (key, regex) ↔ ∃ x, FindSubmatch re body = Some [x]) as ->.
    { unfold groupless. cbn [snd]. split; [|intros [x Hx]; by exists re, x].
      intros (re' & x & Hre' & Hx). rewrite Hre in Hre'. injection Hre' as <-. by exists x. }
    destruct (FindSubmatch re body) as [[|x [|y m]]|] eqn:E; [by apply FindSubmatch_whole in E|..].
    + split; [|done]. intros _. left. by exists x.
    + rewrite bind_app. cbn. rewrite IH. split; [by right|]. intros [[x' [=]]|]; done.
    + rewrite bind_app. cbn. rewrite IH. split; [by right|]. intros [[x' [=]]|]; done.
Qed.

(** The loop only adds metrics named after its keys, or stops at an expression. *)
Lemma body_matches_other entries body cr n cr' err n' name :
  body_matches Compile FindSubmatch entries body cr n = Ret (cr', err) n' →
  (∀ key, name ≠ ("body_match_" +:+ key)%string) → cr' !! name = cr !! name ∧ n' = n.
Proof.
  intros E Hname. revert cr E. induction entries as [|[key regex] entries IH]; intros cr; cbn [body_matches].
  { by intros [= <- _ <-]. }
  destruct (Compile regex) as [re|]; [|by intros [= <- _ <-]].
  rewrite bind_app. destruct (first_group (FindSubmatch re body) n) as [s n1|] eqn:Es; [|done].
  assert (n1 = n) as -> by (destruct (FindSubmatch re body) as [[|? [|? ?]]|]; by inversion Es).
  intros (-> & ->)%IH. split; [|done]. apply add_metric_ne.
  intros Hx. by apply (Hname key).
Qed.

(** The body that a response gives to the expressions. *)
Definition expressions_on (d : HTTPCheckDetails) (resp : http_response) (body : chars) : Prop :=
  readLimit (h_Body resp) MaxHTTPResponseBodyLength = inl body
  ∧ (Body d = "" ∨ ∃ re, Compile (Body d) = inl re).


Lemma body_matches_errs entries body cr n cr' err n' :
  body_matches Compile FindSubmatch entries body cr n = Ret (cr', err) n' →
  n' = n ∧ (err = None ↔ Forall compiles entries).
Proof.
  revert cr. induction entries as [|[key regex] entries IH]; intros cr; cbn [body_matches].
  { by intros [= _ <- <-]. }
  rewrite Forall_cons. destruct (Compile regex) as [re|err0] eqn:Hre.
  - rewrite bind_app. destruct (first_group (FindSubmatch re body) n) as [s n1|] eqn:Es; [|done].
    assert (n1 = n) as -> by (destruct (FindSubmatch re body) as [[|? [|? ?]]|]; by inversion Es).
    intros [-> ->]%IH. split; [done|]. split; [intros Hall; split; [by exists re|done]|tauto].
  - intros [= _ <- <-]. split; [done|]. split; [done|]. intros [[re Hre'] _]. cbn in Hre'. congruence.
Qed.

(** The certificates of the response do not verify. *)
Definition unverified (resp : http_response) : bool :=
  match h_TLS resp with
  | None => false
  | Some st =>
      match PeerCertificates st with
      | [] => true
      | cert :: intermediates => bool_decide (Verify (ServerName st) cert intermediates ≠ None)
      end
  end.

(** What an available HTTP check says of a response. *)
Definition http_reported (d : HTTPCheckDetails) (clock : http_clock) (resp : http_response)
    (crs : ResultSet) : Prop :=
  ∃ body cr, rs_Metrics crs = [cr] ∧ expressions_on d resp body
    ∧ (Z.of_nat (length body) ≤ MaxHTTPResponseBodyLength + 1)%Z
    ∧ Forall (λ '(name, n), m_Value <$> cr !! name
        = Some (VInteger Int (if bool_decide (100 * n ≤ h_StatusCode resp < 100 * n + 100) then 1 else 0)))%Z
        [("code_100", 1); ("code_200", 2); ("code_300", 3); ("code_400", 4); ("code_500", 5)]%Z
    ∧ m_Value <$> cr !! "code" = Some (VString (pretty (h_StatusCode resp)))
    ∧ m_Value <$> cr !! "duration" = Some (VInteger Int64 (to_i64 (http_end clock - http_start clock)))
    ∧ m_Value <$> cr !! "bytes" = Some (VInteger Int (Z.of_nat (length body)))
    ∧ m_Value <$> cr !! "truncated" = Some (VInteger Int64
        (if bool_decide (512 * 1024 < Z.of_nat (length body))%Z then 1 else 0))
    ∧ State (rs_States crs) = StateAvailable
    ∧ Status (rs_States crs) = crop 256 (Join ((if unverified resp then ["sslerror"] else []) ++
        ["code=" +:+ pretty (h_StatusCode resp);
         "duration=" +:+ pretty (to_i64 (http_end clock - http_start clock));
         "bytes=" +:+ pretty (Z.of_nat (length body));
         "truncated=" +:+ (if bool_decide (512 * 1024 < Z.of_nat (length body))%Z then "1" else "0")]) ",")%string.

(** The status line, spelled out. *)
Lemma status_spelled code duration body sl :
  sl_String (status_of code duration body sl) = Join (sl ++
    ["code=" +:+ pretty code; "duration=" +:+ pretty duration;
     "bytes=" +:+ pretty (Z.of_nat (length body));
     "truncated=" +:+ (if bool_decide (512 * 1024 < Z.of_nat (length body))%Z then "1" else "0")]) ",".
Proof.
  unfold sl_String, status_of, sl_Add, truncated, MaxHTTPResponseBodyLength.
  rewrite <- !(assoc_L (++)). by case_bool_decide.
Qed.

Lemma code_flag_value code n :
  (0 ≤ code < 1000)%Z → bool_decide (code_family code = n) = bool_decide (100 * n ≤ code < 100 * n + 100)%Z.
Proof.
  intros Hc. rewrite code_family_div by done. apply bool_decide_ext.
  pose proof (Z.div_mod code 100). pose proof (Z.mod_pos_bound code 100). lia.
Qed.

Lemma response_metrics_values code duration body include cr :
  (0 ≤ code < 1000)%Z →
  let cr' := AddMetrics (response_metrics code duration body include) cr in
  Forall (λ '(name, n), m_Value <$> cr' !! name
      = Some (VInteger Int (if bool_decide (100 * n ≤ code < 100 * n + 100) then 1 else 0)))%Z
      [("code_100", 1); ("code_200", 2); ("code_300", 3); ("code_400", 4); ("code_500", 5)]%Z
  ∧ m_Value <$> cr' !! "code" = Some (VString (pretty code))
  ∧ m_Value <$> cr' !! "duration" = Some (VInteger Int64 duration)
  ∧ m_Value <$> cr' !! "bytes" = Some (VInteger Int (Z.of_nat (length body)))
  ∧ m_Value <$> cr' !! "truncated" = Some (VInteger Int64 (truncated body)).
Proof.
  intros Hc cr'. unfold cr', response_metrics. split_and!.
  - repeat constructor; rewrite <- code_flag_value, add_metrics_lookup by done; by destruct include.
  - rewrite add_metrics_lookup. by destruct include.
  - rewrite add_metrics_lookup. by destruct include.
  - rewrite add_metrics_lookup. by destruct include.
  - rewrite add_metrics_lookup. by destruct include.
Qed.

(** The code metrics survive those of TLS. *)
Lemma reported_through clock d resp cr crs body n crs' n' :
  (0 ≤ h_StatusCode resp < 1000)%Z → expressions_on d resp body →
  (let duration := to_i64 (http_end clock - http_start clock) in
   let cr := AddMetrics (response_metrics (h_StatusCode resp) duration body (IncludeBody d)) cr in
   let '(sl, cr) :=
     match h_TLS resp with
     | Some st =>
         let '(verified, cr) := AddTLSMetrics Verify method_value (http_tls_now clock) cr st in
         (if verified : bool then NewStatusLine else AddOption "sslerror" NewStatusLine, cr)
     | None => (NewStatusLine, cr)
     end in
   mret (on_states (SetStatus (sl_String (status_of (h_StatusCode resp) duration body sl)))
     (SetStateAvailable (put_result cr crs))) : go nat ResultSet) n = Ret crs' n' →
  n' = n ∧ rs_Available crs' = true ∧ http_reported d clock resp crs'.
Proof.
  intros Hc He E. cbv zeta in E.
  pose proof (response_metrics_values (h_StatusCode resp)
    (to_i64 (http_end clock - http_start clock)) body (IncludeBody d) cr Hc) as (Hcodes & Hcode & Hdur & Hbytes & Htr).
  assert (Z.of_nat (length body) ≤ MaxHTTPResponseBodyLength + 1)%Z as Hlen.
  { destruct He as [Hread _]. unfold readLimit in Hread. rewrite read_all_spec in Hread.
    unfold MaxHTTPResponseBodyLength in *. case_bool_decide.
    - injection Hread as <-. rewrite length_take. lia.
    - destruct (in_end _); [done|]. injection Hread as <-. lia. }
  set (cr1 := AddMetrics _ cr) in *.
  destruct (h_TLS resp) as [st|] eqn:Htls; [|injection E as <- <-; split_and!; [done..|]; exists body, cr1;
    rewrite <- status_spelled; unfold unverified; by rewrite Htls].
  pose proof (λ name, tls_metrics_other Verify method_value (http_tls_now clock) cr1 st name) as Hother.
  assert (unverified resp = negb (AddTLSMetrics Verify method_value (http_tls_now clock) cr1 st).1) as Hver.
  { unfold unverified, AddTLSMetrics. rewrite Htls. destruct (PeerCertificates st) as [|cert rest]; [done|].
    cbn [fst]. by destruct (Verify _ _ _). }
  destruct (AddTLSMetrics _ _ _ cr1 st) as [verified cr2]. injection E as <- <-. cbn [fst snd] in Hother, Hver.
  split; [done|]. split; [done|]. exists body, cr2.
  split; [done|]. split; [done|]. split; [done|].
  rewrite !Forall_cons in Hcodes |- *. cbv beta iota in Hcodes |- *.
  rewrite !Hother by (refine (bool_decide_unpack _ _); vm_compute; done).
  split; [destruct Hcodes as (? & ? & ? & ? & ? & _); split_and!; [done..|constructor]|].
  rewrite <- status_spelled. split_and!; [done..|]. rewrite Hver. by destruct verified.
Qed.

(** C30: what an HTTP check says of a response.  When the handling of a response
    returns, the check is available exactly when the body could be read and
    all its expressions are regular; then exactly the family of the status code
    is 1, the code and the duration are reported, the size is that of the body
    read, which is at most one byte above the limit, truncated says whether it
    is above; and the status, cut to 256 bytes, is the list of the code, the
    duration, the size and that flag, after a mark when the certificates did not
    verify. *)
Theorem http_report_spec d clock resp cr crs n crs' n' :
  handle_response Compile FindSubmatch Verify method_value d clock resp cr crs n = Ret crs' n' →
  (0 ≤ h_StatusCode resp < 1000)%Z → rs_Available crs = false →
  n' = n
  ∧ (rs_Available crs' = true ↔ ∃ body, expressions_on d resp body
       ∧ ∀ key regex, default ∅ (BodyMatches d) !! key = Some regex → ∃ re, Compile regex = inl re)
  ∧ (rs_Available crs' = true → http_reported d clock resp crs').
Proof.
  intros E Hc Hun. unfold handle_response in E.
  destruct (readLimit _ _) as [body|err] eqn:Hread.
  2:{ injection E as <- <-. split_and!; try done. split; [done|]. intros (body & [Hr _] & _). congruence. }
  rewrite bind_app in E. destruct (body_match_runs d (of_chars body) n) as (r & Er & Hr). rewrite Er in E.
  destruct r as [m|err].
  2:{ injection E as <- <-. split_and!; try done. split; [done|]. by intros (body' & [_ ?] & _). }
  destruct Hr as [Hbody _]. rewrite bind_app in E.
  set (cr1 := match m with Some m => _ | None => _ end) in E.
  destruct (body_matches _ _ _ _ _ _) as [[cr2 err] n2|] eqn:Em in E; [|done].
  apply body_matches_errs in Em as [-> Herr].
  assert (Forall compiles (range (default ∅ (BodyMatches d))) ↔ ∀ key regex,
    default ∅ (BodyMatches d) !! key = Some regex → ∃ re, Compile regex = inl re) as Hall.
  { rewrite Forall_forall. split.
    - intros Hf key regex Hk. by apply (Hf (key, regex)), elem_of_range.
    - intros Hf [key regex] Hin%elem_of_range. by eapply Hf. }
  destruct err as [err|].
  { injection E as <- <-. split_and!; try done. split; [done|].
    intros (body' & _ & Hf%Hall%Herr). done. }
  apply reported_through with (cr := cr2) in E as (-> & Hav & Hrep); [|done..].
  split_and!; [done| |done]. split; [|done]. intros _. exists body. split; [done|]. by apply Hall, Herr.
Qed.
End run_lemmas.
