(* ===== verification/Pinger.v ===== *)
(** Component: the pinger (src/check/pinger.go), with the encoding of time
    stamps it takes from Go's [time] package.  The ICMP codec of
    golang.org/x/net, the resolution of names, the random identifier and what
    the sockets deliver are arguments. *)
From S2P Require Export GoStrings Runtime.

(** ** Bytes in network order *)
Definition byte_of (z : Z) : ascii := ascii_of_N (Z.to_N (z mod 256)).
Definition byte_value (c : ascii) : Z := Z.of_N (N_of_ascii c).

Fixpoint be_bytes (n : nat) (z : Z) : chars :=
  match n with
  | O => []
  | S n' => byte_of (Z.shiftr z (8 * Z.of_nat n')) :: be_bytes n' z
  end.
Definition be_value (l : chars) : Z := foldl (λ acc c, acc * 256 + byte_value c)%Z 0%Z l.

(** ** Time stamps

    A [time.Time] without its monotonic reading: seconds since year 1,
    nanoseconds within the second, and the offset of its zone in seconds east
    of UTC, [None] being UTC itself. *)
Record gtime := { t_sec : Z; t_nsec : Z; t_zone : option Z }.

Definition timeBinaryVersion : Z := 1.
Definition TimeBinarySize : nat := 15.

Definition encode_time (t : gtime) (offsetMin : Z) : chars :=
  byte_of timeBinaryVersion :: be_bytes 8 (t_sec t) ++ be_bytes 4 (t_nsec t) ++ be_bytes 2 offsetMin.

Definition MarshalBinary (t : gtime) : chars + error :=
  match t_zone t with
  | None => inl (encode_time t (-1))
  | Some offset =>
      if bool_decide (Z.rem offset 60 ≠ 0)%Z then
        inr "Time.MarshalBinary: zone offset has fractional minute"
      else
        let offset := Z.quot offset 60 in
        if bool_decide (offset < -32768 ∨ offset = -1 ∨ 32767 < offset)%Z then
          inr "Time.MarshalBinary: unexpected zone offset"
        else inl (encode_time t offset)
  end.

Definition UnmarshalBinary (data : chars) : gtime + error :=
  match data with
  | [] => inr "Time.UnmarshalBinary: no data"
  | v :: buf =>
      if bool_decide (byte_value v ≠ timeBinaryVersion) then
        inr "Time.UnmarshalBinary: unsupported version"
      else if bool_decide (length data ≠ TimeBinarySize) then
        inr "Time.UnmarshalBinary: invalid length"
      else
        let offset := (wrap_signed 16 (be_value (take 2 (drop 12 buf))) * 60)%Z in
        inl {| t_sec := to_i64 (be_value (take 8 buf));
               t_nsec := wrap_signed 32 (be_value (take 4 (drop 8 buf)));
               t_zone := if bool_decide (offset = -60)%Z then None else Some offset |}
  end.

Definition min_i64 : Z := (- 2 ^ 63)%Z.
Definition instant (t : gtime) : Z := (t_sec t * 1000000000 + t_nsec t)%Z.
(** [t.Sub(u)] saturates. *)
Definition Sub (t u : gtime) : Duration := (min_i64 `max` ((instant t - instant u) `min` max_i64))%Z.

(** ** Addresses *)
Inductive net_addr :=
| IPAddr (ip zone : string)
| UDPAddr (ip : string) (port : Z) (zone : string).

Definition with_zone (ip zone : string) : string :=
  if bool_decide (zone = "") then ip else (ip +:+ "%" +:+ zone)%string.
Definition addr_String (a : net_addr) : string :=
  match a with
  | IPAddr ip zone => with_zone ip zone
  | UDPAddr ip port zone => JoinHostPort (with_zone ip zone) (pretty port)
  end.

(** ** Messages, as golang.org/x/net/icmp gives them *)
Inductive icmp_type :=
| V4Echo | V4EchoReply | V4DestinationUnreachable
| V6EchoRequest | V6EchoReply | V6DestinationUnreachable
| OtherType.
Inductive icmp_body :=
| BodyEcho (id seq : Z) (data : chars)
| BodyDstUnreach (data : chars)
| BodyOther.
Record icmp_message := { msg_Type : icmp_type; msg_Code : Z; msg_Body : icmp_body }.

#[export] Instance icmp_type_eq_dec : EqDecision icmp_type.
Proof. solve_decision. Defined.

(** ** Sockets

    An error is a [net.Error] when [ne_Timeout] is given.  A socket holds what
    has been sent on it and what it is going to do: the outcomes of the next
    writes (none left: they succeed) and of the next reads. *)
Record net_error := { ne_message : error; ne_Timeout : option bool }.
Definition isNetTimeoutError (err : net_error) : bool := default false (ne_Timeout err).
Definition ErrNetClosing : net_error :=
  {| ne_message := "use of closed network connection"; ne_Timeout := Some false |}.

Inductive read_event :=
| ReadPacket (now : gtime) (data : chars) (peerAddr : net_addr)
| ReadError (err : net_error).

Record PacketConn := {
  pc_open : bool;
  pc_sent : list (chars * net_addr);
  pc_writes : list (option net_error);
  pc_reads : list read_event;
  pc_readDeadline : option Duration
}.

Definition put_open (b : bool) (c : PacketConn) : PacketConn :=
  {| pc_open := b; pc_sent := pc_sent c; pc_writes := pc_writes c; pc_reads := pc_reads c;
     pc_readDeadline := pc_readDeadline c |}.
Definition put_written (p : chars * net_addr) (rest : list (option net_error)) (c : PacketConn)
    : PacketConn :=
  {| pc_open := pc_open c; pc_sent := pc_sent c ++ [p]; pc_writes := rest; pc_reads := pc_reads c;
     pc_readDeadline := pc_readDeadline c |}.
Definition put_writes (l : list (option net_error)) (c : PacketConn) : PacketConn :=
  {| pc_open := pc_open c; pc_sent := pc_sent c; pc_writes := l; pc_reads := pc_reads c;
     pc_readDeadline := pc_readDeadline c |}.
Definition put_reads (l : list read_event) (c : PacketConn) : PacketConn :=
  {| pc_open := pc_open c; pc_sent := pc_sent c; pc_writes := pc_writes c; pc_reads := l;
     pc_readDeadline := pc_readDeadline c |}.
Definition put_readDeadline (d : Duration) (c : PacketConn) : PacketConn :=
  {| pc_open := pc_open c; pc_sent := pc_sent c; pc_writes := pc_writes c; pc_reads := pc_reads c;
     pc_readDeadline := Some d |}.

(** [SetReadDeadline(time.Now().Add(d))] *)
Definition SetReadDeadline (d : Duration) : go PacketConn (option net_error) :=
  open ← gets pc_open;
  if open : bool then modify (put_readDeadline d);; mret None else mret (Some ErrNetClosing).

Definition WriteTo (data : chars) (addr : net_addr) : go PacketConn (option net_error) :=
  open ← gets pc_open;
  if open : bool then
    writes ← gets pc_writes;
    match writes with
    | Some err :: rest => modify (put_writes rest);; mret (Some err)
    | _ => modify (put_written (data, addr) (tail writes));; mret None
    end
  else mret (Some ErrNetClosing).

Definition conn_close : go PacketConn unit := modify (put_open false).

(** ** The pinger *)
Definition ProtocolICMP : Z := 1.
Definition ProtocolIPv6ICMP : Z := 58.
Definition PingReceiveBufferSize : nat := 1500.
Definition PingerIPv4 : string := "v4".
Definition PingerIPv6 : string := "v6".
Definition IcmpNetIP4 : string := "ip4:icmp".
Definition IcmpNetUDP4 : string := "udp4".
Definition IcmpNetIP6 : string := "ip6:ipv6-icmp".
Definition IcmpNetUDP6 : string := "udp6".
Definition GooglePingLimit : nat := 64.
Definition PadUpTo : nat := 64 - 8.

Definition pingNetworkToProto : gmap string Z := list_to_map [
  (IcmpNetUDP4, ProtocolICMP); (IcmpNetUDP6, ProtocolIPv6ICMP);
  (IcmpNetIP4, ProtocolICMP); (IcmpNetIP6, ProtocolIPv6ICMP)].

Record PingResponse := { pr_Seq : Z; pr_Rtt : Duration; pr_Timeout : bool; pr_Err : option error }.
Definition error_response (err : error) (timeout : bool) : PingResponse :=
  {| pr_Seq := 0; pr_Rtt := 0; pr_Timeout := timeout; pr_Err := Some err |}.

(** [packetConn] is the number of a socket. *)
Record pingerBase := {
  packetConn : nat;
  p_id : Z;
  p_identifier : string;
  p_remoteAddr : net_addr;
  p_proto : Z
}.

(** The bytes that follow the first [n], which [for buffer.Len() < PadUpTo]
    appends, starting with the byte [padByte]. *)
Fixpoint padding (k : nat) (padByte : Z) : chars :=
  match k with
  | O => []
  | S k' => byte_of padByte :: padding k' ((padByte + 1) mod 256)
  end.
Definition pad (buffer : chars) : chars := buffer ++ padding (PadUpTo - length buffer) 1.

Definition ping_payload (identifier : string) (nowBytes : chars) : chars :=
  pad (to_chars identifier ++ [byte_of 0] ++ [byte_of (Z.of_nat (length nowBytes))] ++ nowBytes).

(** [rbuf.ReadString(0)], without the delimiter: what it read and the rest. *)
Fixpoint ReadString0 (rbuf : chars) : option (chars * chars) :=
  match rbuf with
  | [] => None
  | c :: rbuf' =>
      if bool_decide (c = byte_of 0) then Some ([], rbuf')
      else '(s, rest) ← ReadString0 rbuf'; Some (c :: s, rest)
  end.

Section pinger.
Context (Marshal : icmp_message → chars + error).
Context (ParseMessage : Z → chars → icmp_message + error).

(** An echo reply: [None] continues with the next packet. *)
Definition echo_reply (p : pingerBase) (now : gtime) (id seq : Z) (data : chars)
    : option PingResponse :=
  if bool_decide (id ≠ p_id p) then None
  else
    '(_, rbuf) ← ReadString0 (take GooglePingLimit data);
    match rbuf with
    | [] => None
    | timeLen :: rbuf =>
        match UnmarshalBinary (take (Z.to_nat (byte_value timeLen)) rbuf) with
        | inr _ => None
        | inl sent => Some {| pr_Seq := seq; pr_Rtt := Sub now sent; pr_Timeout := false;
                              pr_Err := None |}
        end
    end.

(** What the loop makes of a packet. *)
Definition handle_packet (p : pingerBase) (now : gtime) (data : chars) (peerAddr : net_addr)
    : option PingResponse :=
  if bool_decide (addr_String peerAddr ≠ addr_String (p_remoteAddr p)) then None
  else
    match ParseMessage (p_proto p) (take PingReceiveBufferSize data) with
    | inr _ => None
    | inl m =>
        match msg_Type m with
        | V4EchoReply | V6EchoReply | V4DestinationUnreachable | V6DestinationUnreachable =>
            match msg_Body m with
            | BodyEcho id seq data => echo_reply p now id seq data
            | BodyDstUnreach _ => None
            | BodyOther => None
            end
        | _ => None
        end
    end.

(** [recvLoop], over the outcomes of the next reads; when none is left it waits
    for ever. *)
Fixpoint recvLoop (p : pingerBase) (reads : list read_event) : go PacketConn PingResponse :=
  match reads with
  | [] => halt Blocked
  | ReadError err :: rest =>
      modify (put_reads rest);;
      if isNetTimeoutError err then mret (error_response (ne_message err) true)
      else conn_close;; mret (error_response (ne_message err) false)
  | ReadPacket now data peerAddr :: rest =>
      modify (put_reads rest);;
      match handle_packet p now data peerAddr with
      | Some pingResponse => mret pingResponse
      | None => recvLoop p rest
      end
  end.

Definition receive (p : pingerBase) (perPingDuration : Duration) : go PacketConn PingResponse :=
  err ← SetReadDeadline perPingDuration;
  match err with
  | Some err => mret (error_response (ne_message err) false)
  | None => reads ← gets pc_reads; recvLoop p reads
  end.

Definition ping (now : gtime) (p : pingerBase) (seq : Z) (messageType : icmp_type)
    (perPingDuration : Duration) : go PacketConn PingResponse :=
  match MarshalBinary now with
  | inr err => mret (error_response err false)
  | inl nowBytes =>
      let reqMessage := {|
        msg_Type := messageType; msg_Code := 0;
        msg_Body := BodyEcho (p_id p) seq (ping_payload (p_identifier p) nowBytes)
      |} in
      match Marshal reqMessage with
      | inr err => mret (error_response err false)
      | inl reqEncoded =>
          err ← WriteTo reqEncoded (p_remoteAddr p);
          match err with
          | Some err => mret (error_response (ne_message err) (isNetTimeoutError err))
          | None => receive p perPingDuration
          end
      end
  end.
End pinger.

(** ** The sockets of the process, and the making of a pinger *)
Record Net := { sockets : gmap nat PacketConn; slept : list Duration }.
Definition put_sockets (m : gmap nat PacketConn) (n : Net) : Net :=
  {| sockets := m; slept := slept n |}.

Definition on_socket {A} (i : nat) (c : go PacketConn A) : go Net A := λ n,
  match sockets n !! i with
  | None => Halt NilDeref n
  | Some conn =>
      match c conn with
      | Ret a conn' => Ret a (put_sockets (<[i := conn']> (sockets n)) n)
      | Halt f conn' => Halt f (put_sockets (<[i := conn']> (sockets n)) n)
      end
  end.

(** [time.Sleep] *)
Definition net_sleep (d : Duration) : go Net unit :=
  modify (λ n, {| sockets := sockets n; slept := slept n ++ [d] |}).

Inductive Pinger := pingerV4 (p : pingerBase) | pingerV6 (p : pingerBase).
Definition base_pinger (p : Pinger) : pingerBase :=
  match p with pingerV4 b | pingerV6 b => b end.

(** What [net.ResolveIPAddr] gives; [ra_v4] says whether [IP.To4()] is there. *)
Record ip_addr := { ra_ip : string; ra_v4 : bool; ra_zone : string }.

(** [errors.Wrap(err, message)] *)
Definition Wrap (err : error) (message : string) : error := (message +:+ ": " +:+ err)%string.

Section factory.
Context (ListenPacket : string → string → PacketConn + error).
Context (ResolveIPAddr : string → string → ip_addr + error).
Context (rand_id : Z) (euid : Z) (GOOS : string).

Definition createPacketConn (network bindAddr : string) : go Net (nat + error) :=
  match ListenPacket network bindAddr with
  | inr err => mret (inr (Wrap err "Unable to create ICMP listener"))
  | inl conn =>
      open ← gets sockets;
      let i := fresh (dom open) in
      modify (put_sockets (<[i := conn]> open));;
      mret (inl i)
  end.

Definition newPingerBase (identifier : string) (conn : nat) (remoteAddr : net_addr)
    (network : string) : pingerBase := {|
  packetConn := conn; p_id := rand_id; p_identifier := identifier; p_remoteAddr := remoteAddr;
  p_proto := default 0%Z (pingNetworkToProto !! network)
|}.

Definition resolvePingAddr (addrNetwork icmpNetwork remoteAddr : string) : net_addr + error :=
  match ResolveIPAddr addrNetwork remoteAddr with
  | inr err => inr err
  | inl ipAddr =>
      if HasPrefix icmpNetwork "udp" then inl (UDPAddr (ra_ip ipAddr) 0 (ra_zone ipAddr))
      else inl (IPAddr (ra_ip ipAddr) (ra_zone ipAddr))
  end.

(** One case of [NewPinger]. *)
Definition new_pinger (make : pingerBase → Pinger) (bindAddr addrNetwork : string)
    (identifier icmpNetwork remoteAddr : string) : go Net (Pinger + error) :=
  r ← createPacketConn icmpNetwork bindAddr;
  match r with
  | inr err => mret (inr err)
  | inl packetConn =>
      match resolvePingAddr addrNetwork icmpNetwork remoteAddr with
      | inr err => mret (inr (Wrap err ("Trying to resolve " +:+ remoteAddr)%string))
      | inl addr => mret (inl (make (newPingerBase identifier packetConn addr icmpNetwork)))
      end
  end.

Definition NewPinger (identifier icmpNetwork remoteAddr : string) : go Net (Pinger + error) :=
  if bool_decide (icmpNetwork = IcmpNetIP4 ∨ icmpNetwork = IcmpNetUDP4) then
    new_pinger pingerV4 "0.0.0.0" "ip4" identifier icmpNetwork remoteAddr
  else if bool_decide (icmpNetwork = IcmpNetIP6 ∨ icmpNetwork = IcmpNetUDP6) then
    new_pinger pingerV6 "::" "ip6" identifier icmpNetwork remoteAddr
  else mret (inr ("unsupported network type: " +:+ icmpNetwork)%string).

(** The address family, guessed when it is not given. *)
Definition guess_version (remoteAddr ipVersion : string) : string + error :=
  if bool_decide (ipVersion = "") then
    match ResolveIPAddr "ip" remoteAddr with
    | inr err => inr (Wrap err "Unable to guess at IPv4/v6 address type")
    | inl ipAddr => inl (if ra_v4 ipAddr then PingerIPv4 else PingerIPv6)
    end
  else inl ipVersion.

Definition choose_network (privileged : bool) (ipVersion : string) : string :=
  if bool_decide (ipVersion = PingerIPv4) then if privileged then IcmpNetIP4 else IcmpNetUDP4
  else if bool_decide (ipVersion = PingerIPv6) then if privileged then IcmpNetIP6 else IcmpNetUDP6
  else "".

Definition PingerFactory (identifier remoteAddr ipVersion : string) : go Net (Pinger + error) :=
  let privileged := bool_decide (euid = 0%Z) || bool_decide (GOOS = "windows") in
  if negb privileged && negb (bool_decide (GOOS = "darwin" ∨ GOOS = "linux")) then
    mret (inr ("non-privileged ping is not supported on " +:+ GOOS)%string)
  else
    match guess_version remoteAddr ipVersion with
    | inr err => mret (inr err)
    | inl ipVersion => NewPinger identifier (choose_network privileged ipVersion) remoteAddr
    end.

Context (Marshal : icmp_message → chars + error).
Context (ParseMessage : Z → chars → icmp_message + error).

(** [now] is the clock when the ping is sent. *)
Definition Ping (now : gtime) (p : Pinger) (seq : Z) (perPingDuration : Duration)
    : go Net PingResponse :=
  match p with
  | pingerV4 b =>
      on_socket (packetConn b) (ping Marshal ParseMessage now b seq V4Echo perPingDuration)
  | pingerV6 b =>
      on_socket (packetConn b) (ping Marshal ParseMessage now b seq V6EchoRequest perPingDuration)
  end.

Definition pinger_close (p : Pinger) : go Net unit := on_socket (packetConn (base_pinger p)) conn_close.
End factory.

(** ** The encoding of time stamps *)
Lemma byte_value_of z : byte_value (byte_of z) = (z mod 256)%Z.
Proof.
  unfold byte_value, byte_of. pose proof (Z.mod_pos_bound z 256 ltac:(lia)).
  rewrite N_ascii_embedding by lia. lia.
Qed.

Lemma length_be_bytes n z : length (be_bytes n z) = n.
Proof. revert z. induction n as [|n IH]; intros z; cbn; [done|]. by rewrite IH. Qed.

Lemma be_value_from n z acc :
  foldl (λ acc c, acc * 256 + byte_value c)%Z acc (be_bytes n z)
    = (acc * 2 ^ (8 * Z.of_nat n) + z mod 2 ^ (8 * Z.of_nat n))%Z.
Proof.
  revert acc. induction n as [|n IH]; intros acc; [cbn; rewrite Z.mod_1_r; lia|].
  cbn [be_bytes foldl]. rewrite IH, byte_value_of.
  replace (8 * Z.of_nat (S n))%Z with (8 * Z.of_nat n + 8)%Z by lia.
  rewrite Z.shiftr_div_pow2, Z.pow_add_r by lia. change (2 ^ 8)%Z with 256%Z.
  assert (0 < 2 ^ (8 * Z.of_nat n))%Z by (apply Z.pow_pos_nonneg; lia).
  rewrite (Z.rem_mul_r z) by lia. lia.
Qed.

Lemma be_value_bytes n z : be_value (be_bytes n z) = (z mod 2 ^ (8 * Z.of_nat n))%Z.
Proof. unfold be_value. rewrite be_value_from. lia. Qed.

Definition time_ok (t : gtime) : Prop := is_i64 (t_sec t) ∧ (0 ≤ t_nsec t < 1000000000)%Z.
#[export] Instance time_ok_dec t : Decision (time_ok t).
Proof. unfold time_ok. apply _. Defined.

Lemma wrap_signed_mod w z :
  (0 < w)%Z → (- 2 ^ (w - 1) ≤ z < 2 ^ (w - 1))%Z → wrap_signed w (z mod 2 ^ w) = z.
Proof.
  intros Hw Hz. unfold wrap_signed. rewrite Z.add_mod_idemp_l by lia.
  rewrite Z.mod_small; [lia|].
  replace (2 ^ w)%Z with (2 * 2 ^ (w - 1))%Z; [lia|].
  rewrite <- Z.pow_succ_r by lia. f_equal. lia.
Qed.

Lemma unmarshal_encode t offsetMin :
  time_ok t → (-32768 ≤ offsetMin ≤ 32767)%Z →
  UnmarshalBinary (encode_time t offsetMin) = inl {|
    t_sec := t_sec t; t_nsec := t_nsec t;
    t_zone := if bool_decide (offsetMin * 60 = -60)%Z then None else Some (offsetMin * 60)%Z |}.
Proof.
  intros [Hs Hn] Ho. unfold UnmarshalBinary, encode_time.
  rewrite bool_decide_false by (rewrite byte_value_of; by intros []).
  rewrite bool_decide_false
    by (cbn [length]; rewrite !length_app, !length_be_bytes; by intros []).
  pose proof (length_be_bytes 8 (t_sec t)) as L8. pose proof (length_be_bytes 4 (t_nsec t)) as L4.
  pose proof (length_be_bytes 2 offsetMin) as L2.
  rewrite take_app_length' by done. rewrite (drop_app_length' _ _ 8) by done.
  rewrite take_app_length' by done. change 12 with (8 + 4). rewrite <- drop_drop.
  rewrite (drop_app_length' _ _ 8), (drop_app_length' _ _ 4), take_ge by (done || lia).
  rewrite !be_value_bytes. unfold to_i64. unfold is_i64 in Hs.
  rewrite !wrap_signed_mod by (cbn; lia). done.
Qed.

Lemma marshal_round_trip t data :
  time_ok t → MarshalBinary t = inl data → length data = TimeBinarySize ∧ UnmarshalBinary data = inl t.
Proof.
  intros Ht E. unfold MarshalBinary in E.
  assert (∃ om, data = encode_time t om ∧ (-32768 ≤ om ≤ 32767)%Z
    ∧ (if bool_decide (om * 60 = -60)%Z then None else Some (om * 60)%Z) = t_zone t)
    as (om & -> & Hom & Hz).
  { destruct (t_zone t) as [offset|]; [|simplify_eq; by eexists].
    repeat case_bool_decide; simplify_eq. eexists; split_and!; [done|lia..|].
    pose proof (Z.quot_rem offset 60). rewrite bool_decide_false by lia. f_equal. lia. }
  split.
  - unfold encode_time. cbn [length]. by rewrite !length_app, !length_be_bytes.
  - rewrite unmarshal_encode, Hz by done. by destruct t.
Qed.

Lemma unmarshal_length data t : UnmarshalBinary data = inl t → length data = TimeBinarySize.
Proof.
  unfold UnmarshalBinary. destruct data as [|v buf]; [done|].
  destruct (bool_decide_reflect (byte_value v ≠ timeBinaryVersion)); [done|].
  destruct (bool_decide_reflect (length (v :: buf) ≠ TimeBinarySize)) as [|Hl]; [done|].
  intros _. by destruct (decide (length (v :: buf) = TimeBinarySize)).
Qed.

(** ** The reply to a ping *)
Lemma read_string_app s rest :
  byte_of 0 ∉ s → ReadString0 (s ++ byte_of 0 :: rest) = Some (s, rest).
Proof.
  induction s as [|c s IH]; intros Hs; cbn [app ReadString0].
  - by rewrite bool_decide_true.
  - apply not_elem_of_cons in Hs as [Hc Hs].
    rewrite bool_decide_false, IH by (done || by intros ->). done.
Qed.

Lemma read_string_none s : byte_of 0 ∉ s → ReadString0 s = None.
Proof.
  induction s as [|c s IH]; intros Hs; cbn [ReadString0]; [done|].
  apply not_elem_of_cons in Hs as [Hc Hs].
  by rewrite bool_decide_false, IH by (done || by intros ->).
Qed.

(** The longest identifier whose time stamp survives the truncation of a reply. *)
Definition longest_identifier : nat := GooglePingLimit - 2 - TimeBinarySize.

Lemma echo_own p now sent nowBytes identifier seq :
  time_ok sent → MarshalBinary sent = inl nowBytes → byte_of 0 ∉ to_chars identifier →
  echo_reply p now (p_id p) seq (ping_payload identifier nowBytes)
    = if bool_decide (length (to_chars identifier) ≤ longest_identifier)
      then Some {| pr_Seq := seq; pr_Rtt := Sub now sent; pr_Timeout := false; pr_Err := None |}
      else None.
Proof.
  intros Ht [Hl Hu]%marshal_round_trip Hn; [|done].
  unfold echo_reply. rewrite bool_decide_false by by intros [].
  unfold ping_payload, pad. rewrite Hl, <- !(assoc_L (++)). generalize (padding
    (PadUpTo - length (to_chars identifier ++ [byte_of 0] ++ [byte_of (Z.of_nat TimeBinarySize)]
      ++ nowBytes)) 1). intros padded. cbn [app].
  set (id := to_chars identifier) in *. unfold longest_identifier, GooglePingLimit, TimeBinarySize in *.
  rewrite take_app. case_bool_decide as Hid.
  - rewrite (take_ge id) by lia. replace (64 - length id) with (S (S (62 - length id))) by lia.
    cbn [take]. rewrite read_string_app by done. cbn [mbind option_bind].
    rewrite byte_value_of. change (Z.to_nat (Z.of_nat 15 mod 256)) with 15.
    rewrite take_take, Nat.min_l, take_app_length' by lia. by rewrite Hu.
  - destruct (decide (64 ≤ length id)) as [Hlong|Hlong].
    + replace (64 - length id) with 0 by lia. rewrite app_nil_r.
      rewrite read_string_none; [done|]. intros Hc. apply Hn.
      rewrite <- (take_drop 64 id). apply elem_of_app. by left.
    + rewrite (take_ge id) by lia. replace (64 - length id) with (S (63 - length id)) by lia.
      cbn [take]. rewrite read_string_app by done. cbn [mbind option_bind].
      destruct (63 - length id) as [|k] eqn:Ek; [done|]. cbn [take].
      destruct (UnmarshalBinary (take _ (take _ _))) as [t|] eqn:E; [|done].
      apply unmarshal_length in E. rewrite !length_take in E. unfold TimeBinarySize in E. lia.
Qed.

(** What the loop does with the outcome of a read: continue, or return a
    response and perhaps close the socket. *)
Section receiving.
Context (ParseMessage : Z → chars → icmp_message + error).

Definition decides (p : pingerBase) (ev : read_event) : option (PingResponse * bool) :=
  match ev with
  | ReadError err =>
      if isNetTimeoutError err then Some (error_response (ne_message err) true, true)
      else Some (error_response (ne_message err) false, false)
  | ReadPacket now data peerAddr => (λ r, (r, true)) <$> handle_packet ParseMessage p now data peerAddr
  end.

Lemma recvLoop_skips p before rest conn :
  Forall (λ ev, decides p ev = None) before →
  pc_reads conn = before ++ rest →
  recvLoop ParseMessage p (before ++ rest) conn = recvLoop ParseMessage p rest (put_reads rest conn).
Proof.
  intros Hb. revert conn. induction Hb as [|ev before Hev Hb IH]; intros conn Hr; cbn [app] in *.
  - f_equal. destruct conn. cbn in *. by subst.
  - destruct ev as [now data peer|err]; cbn in Hev |- *; [|by case_match].
    apply fmap_None in Hev. rewrite bind_app. cbn. rewrite Hev. by rewrite IH.
Qed.

Lemma receive_open p d conn :
  pc_open conn = true →
  receive ParseMessage p d conn = recvLoop ParseMessage p (pc_reads conn) (put_readDeadline d conn).
Proof.
  intros Ho. unfold receive, SetReadDeadline. rewrite !bind_app. cbn [gets]. by rewrite Ho.
Qed.

Lemma recvLoop_decided p ev rest r keep conn :
  pc_open conn = true → decides p ev = Some (r, keep) →
  recvLoop ParseMessage p (ev :: rest) conn = Ret r (put_open keep (put_reads rest conn)).
Proof.
  intros Ho Hd. destruct conn. cbn in Ho. subst.
  destruct ev as [now data peer|err]; cbn in *; rewrite bind_app; cbn.
  - by apply fmap_Some in Hd as (? & -> & [= -> <-]).
  - by destruct (isNetTimeoutError err); simplify_eq.
Qed.

Lemma receive_closed p d conn :
  pc_open conn = false →
  receive ParseMessage p d conn = Ret (error_response (ne_message ErrNetClosing) false) conn.
Proof. intros Ho. unfold receive, SetReadDeadline. rewrite !bind_app. cbn [gets]. by rewrite Ho. Qed.

Lemma receive_decided p d conn before ev rest r keep :
  pc_open conn = true → pc_reads conn = before ++ ev :: rest →
  Forall (λ ev, decides p ev = None) before → decides p ev = Some (r, keep) →
  receive ParseMessage p d conn = Ret r (put_open keep (put_reads rest (put_readDeadline d conn))).
Proof.
  intros Ho Hr Hb Hd. rewrite receive_open, Hr, recvLoop_skips by done.
  by rewrite (recvLoop_decided p ev rest r keep).
Qed.

Lemma receive_undecided p d conn :
  pc_open conn = true → Forall (λ ev, decides p ev = None) (pc_reads conn) →
  returns (receive ParseMessage p d conn) = false.
Proof.
  intros Ho Hb. rewrite receive_open by done.
  pose proof (recvLoop_skips p (pc_reads conn) [] (put_readDeadline d conn) Hb) as E.
  rewrite app_nil_r in E. by rewrite E.
Qed.

Lemma first_decided p reads :
  Forall (λ ev, decides p ev = None) reads
  ∨ ∃ before ev rest r keep, reads = before ++ ev :: rest
      ∧ Forall (λ ev, decides p ev = None) before ∧ decides p ev = Some (r, keep).
Proof.
  induction reads as [|ev reads [Hall|(before & ev' & rest & r & keep & -> & Hb & Hd)]];
    [by left| |]; destruct (decides p ev) as [[r0 keep0]|] eqn:Hev.
  - right. by exists [], ev, reads, r0, keep0.
  - left. by constructor.
  - right. exists [], ev, (before ++ ev' :: rest), r0, keep0. by rewrite Hev.
  - right. exists (ev :: before), ev', rest, r, keep. by repeat constructor.
Qed.

(** A reception returns exactly when something decides it.  On an open
    socket the packets that are not an acceptable echo reply are skipped; the
    first acceptable reply, or the first error of a read, gives the response,
    what comes after it is left for the next reception, and only an error
    other than the deadline closes the socket.  When nothing decides, not even
    the deadline, the pinger waits for ever; on a closed socket it returns an
    error at once. *)
Theorem receive_decides p d conn :
  (∀ before ev rest r keep, pc_open conn = true → pc_reads conn = before ++ ev :: rest →
     Forall (λ ev, decides p ev = None) before → decides p ev = Some (r, keep) →
     receive ParseMessage p d conn
       = Ret r (put_open keep (put_reads rest (put_readDeadline d conn))))
  ∧ (pc_open conn = false → receive ParseMessage p d conn
       = Ret (error_response (ne_message ErrNetClosing) false) conn)
  ∧ (returns (receive ParseMessage p d conn) = true ↔
       pc_open conn = false ∨ Exists (λ ev, is_Some (decides p ev)) (pc_reads conn)).
Proof.
  split_and!; [intros; by eapply receive_decided|apply receive_closed|].
  destruct (pc_open conn) eqn:Ho; [|rewrite receive_closed by done; naive_solver].
  destruct (first_decided p (pc_reads conn)) as [Hall|(before & ev & rest & r & keep & Hr & Hb & Hd)].
  - rewrite receive_undecided by done. split; [done|]. intros [|(ev & Hin & Hev)%Exists_exists]; [done|].
    rewrite Forall_forall in Hall. rewrite Hall in Hev by done. by destruct Hev.
  - erewrite receive_decided by done. split; [|done]. intros _. right. rewrite Hr.
    apply Exists_app. right. left. by eexists.
Qed.
End receiving.

(** The request [ping] sends. *)
Definition echo_request (p : pingerBase) (seq : Z) (messageType : icmp_type) (nowBytes : chars)
    : icmp_message :=
  {| msg_Type := messageType; msg_Code := 0;
     msg_Body := BodyEcho (p_id p) seq (ping_payload (p_identifier p) nowBytes) |}.

(** A packet that echoes the request of [p] from the address it was sent to. *)
Definition echoes (ParseMessage : Z → chars → icmp_message + error) (p : pingerBase) (seq : Z)
    (nowBytes data : chars) (peer : net_addr) : Prop :=
  addr_String peer = addr_String (p_remoteAddr p)
  ∧ ∃ m, ParseMessage (p_proto p) (take PingReceiveBufferSize data) = inl m
    ∧ msg_Type m ∈ [V4EchoReply; V6EchoReply]
    ∧ msg_Body m = BodyEcho (p_id p) seq (ping_payload (p_identifier p) nowBytes).

Lemma handle_echo ParseMessage p seq sent nowBytes now data peer :
  time_ok sent → MarshalBinary sent = inl nowBytes → byte_of 0 ∉ to_chars (p_identifier p) →
  echoes ParseMessage p seq nowBytes data peer →
  handle_packet ParseMessage p now data peer
    = if bool_decide (length (to_chars (p_identifier p)) ≤ longest_identifier)
      then Some {| pr_Seq := seq; pr_Rtt := Sub now sent; pr_Timeout := false; pr_Err := None |}
      else None.
Proof.
  intros Ht Hm Hn (Ha & m & Hp & Htype & Hbody). unfold handle_packet.
  rewrite bool_decide_false by (by intros []). rewrite Hp, Hbody, (echo_own _ _ sent) by done.
  apply list_elem_of_In in Htype as [<-|[<-|[]]]; done.
Qed.

(** C26: a ping that is answered.  When the packet goes out and the first packet
    that is not skipped echoes the request, the ping returns the sequence
    number it was sent with and the time between the time stamp it carried and
    the clock at the reception, if the identifier of the check has at most 47
    bytes; a longer one pushes the time stamp out of the 64 bytes a reply is
    cut to, and the reply to the pinger's own request is passed over. *)
Theorem ping_answered Marshal ParseMessage p now seq messageType d conn nowBytes enc before now' data
    peer rest :
  time_ok now → MarshalBinary now = inl nowBytes → byte_of 0 ∉ to_chars (p_identifier p) →
  Marshal (echo_request p seq messageType nowBytes) = inl enc →
  pc_open conn = true → pc_writes conn = [] →
  pc_reads conn = before ++ ReadPacket now' data peer :: rest →
  Forall (λ ev, decides ParseMessage p ev = None) before →
  echoes ParseMessage p seq nowBytes data peer →
  let conn' := put_reads rest (put_readDeadline d (put_written (enc, p_remoteAddr p) [] conn)) in
  ping Marshal ParseMessage now p seq messageType d conn =
    if bool_decide (String.length (p_identifier p) ≤ 47)
    then Ret {| pr_Seq := seq; pr_Rtt := Sub now' now; pr_Timeout := false; pr_Err := None |} conn'
    else recvLoop ParseMessage p rest conn'.
Proof.
  intros Ht Hm Hn Henc Ho Hw Hr Hb He conn'.
  unfold ping. rewrite Hm. fold (echo_request p seq messageType nowBytes). rewrite Henc.
  rewrite bind_app. unfold WriteTo. rewrite bind_app. cbn [gets]. rewrite Ho, bind_app. cbn [gets].
  rewrite Hw, bind_app. cbn. set (conn1 := put_written (enc, p_remoteAddr p) [] conn).
  rewrite receive_open by done. change (pc_reads conn1) with (pc_reads conn). rewrite Hr.
  rewrite recvLoop_skips by done. cbn [recvLoop]. rewrite bind_app. cbn [modify].
  rewrite (handle_echo _ _ seq now nowBytes), length_to_chars by done.
  change longest_identifier with 47. by case_bool_decide.
Qed.
