(* ===== verification/PingCheck.v ===== *)
(** Component: the run of a ping check (src/check/check_ping.go), against the
    interface of a pinger that src/check/pinger.go declares, and its instance
    for the pinger of that file. *)
From S2P Require Export Floats Pinger.

(** The facility to send single pings, over the state [N] of the process:
    [PingerFactory], the methods of [Pinger], and [time.Sleep]. *)
Class Pinging (N P : Type) := {
  pinger_factory : string → string → string → go N (P + error);
  pinger_Ping : P → Z → Duration → go N PingResponse;
  pinger_Close : P → go N unit;
  sleep : Duration → go N unit
}.

Definition defaultPingCount : Z := 6.

(** [int(ch.Details.Count)], or the default. *)
Definition ping_count (d : PingCheckDetails) : nat :=
  Z.to_nat (if bool_decide (Count d ≤ 0)%Z then defaultPingCount else Count d).

(** ** The responses, by sequence number, and the latched error *)
Record ping_acc := { responses : list (option PingResponse); pingErr : option error }.

(** The loop body after [pinger.Ping]: whether the response has been saved. *)
Definition record_response (resp : PingResponse) (acc : ping_acc) : ping_acc * bool :=
  match pr_Err resp with
  | Some err =>
      ((if pr_Timeout resp then acc
        else {| responses := responses acc; pingErr := Some err |}), false)
  | None =>
      if bool_decide (pr_Seq resp ≤ 0 ∨ Z.of_nat (length (responses acc)) < pr_Seq resp)%Z
      then (acc, false)
      else
        let slot := Z.to_nat (pr_Seq resp - 1) in
        match responses acc !! slot with
        | Some (Some _) => (acc, false)
        | _ => ({| responses := <[slot := Some resp]> (responses acc); pingErr := pingErr acc |}, true)
        end
  end.

(** ** The statistics over the responses *)
Record rtt_stats := {
  initialDuration : bool; minRTT : Duration; maxRTT : Duration; totalRTT : Duration; recv : Z
}.
Definition no_stats : rtt_stats :=
  {| initialDuration := true; minRTT := 0; maxRTT := 0; totalRTT := 0; recv := 0 |}.

Definition stats_step (st : rtt_stats) (response : option PingResponse) : rtt_stats :=
  match response with
  | None => st
  | Some resp =>
      let rtt := pr_Rtt resp in
      {| initialDuration := false;
         minRTT := if initialDuration st then rtt
                   else if bool_decide (rtt < minRTT st)%Z then rtt else minRTT st;
         maxRTT := if initialDuration st then rtt
                   else if bool_decide (maxRTT st < rtt)%Z then rtt else maxRTT st;
         totalRTT := to_i64 (totalRTT st + rtt);
         recv := recv st + 1 |}
  end.
Definition avgRTT (st : rtt_stats) : Duration :=
  if bool_decide (0 < recv st)%Z then Z.quot (totalRTT st) (recv st) else 0%Z.

Section run.
Context {N P : Type} `{!Pinging N P} (FormatFloat : float64 → string).
(** Whether [overallTimeout] has fired when the loop selects for the i-th time. *)
Context (expired : nat → bool).

Fixpoint packetLoop (pinger : P) (interPingDelay perPingDuration : Duration) (iterations : list nat)
    (acc : ping_acc) : go N ping_acc :=
  match iterations with
  | [] => mret acc
  | i :: rest =>
      if expired i then mret acc
      else
        resp ← pinger_Ping pinger (Z.of_nat i + 1) perPingDuration;
        let '(acc, saved) := record_response resp acc in
        when saved (sleep interPingDelay);;
        packetLoop pinger interPingDelay perPingDuration rest acc
  end.

Definition ping_metrics (count : nat) (st : rtt_stats) : Result :=
  let seconds d := VFloat64 (FormatFloat (ScaleFractionalDuration d Second)) in
  NewResult [
    NewMetric "count" "" MetricNumber (VInteger Int (Z.of_nat count)) "";
    NewPercentMetricFromInt FormatFloat "available" "" (recv st) (Z.of_nat count);
    NewMetric "average" "" MetricFloat (seconds (avgRTT st)) UnitSeconds;
    NewMetric "maximum" "" MetricFloat (seconds (maxRTT st)) UnitSeconds;
    NewMetric "minimum" "" MetricFloat (seconds (minRTT st)) UnitSeconds].

Definition ping_status (pingErr : option error) (received : Z) (crs : ResultSet) : ResultSet :=
  match pingErr with
  | None =>
      if bool_decide (0 < received)%Z then SetStateAvailable (on_states SetStatusSuccess crs)
      else on_states (SetStatus "No responses received") (SetStateUnavailable crs)
  | Some err => on_states (SetStatusFromError err) (SetStateUnavailable crs)
  end.

Definition ip_version (resolver : string) : string :=
  if bool_decide (resolver = ResolverIPV6) then "v6"
  else if bool_decide (resolver = ResolverIPV4) then "v4" else "".

Definition ping_Run (b : Base) (d : PingCheckDetails) : go N (ResultSet + error) :=
  let ch := PingCheck b d in
  match GetTargetIP (header_of ch) with
  | inr err => mret (inr err)
  | inl targetIP =>
      r ← pinger_factory (GetID ch) targetIP (ip_version (ch_TargetResolver (header_of ch)));
      match r with
      | inr err => mret (inr err)
      | inl pinger =>
          let timeoutDuration := GetTimeoutDuration ch in
          let count := ping_count d in
          let perPingDuration := Z.quot timeoutDuration (Z.of_nat count) in
          let interPingDelay := MinOfDurations Second perPingDuration in
          acc ← packetLoop pinger interPingDelay perPingDuration (seq 0 count)
                  {| responses := replicate count None; pingErr := None |};
          let st := foldl stats_step no_stats (responses acc) in
          let crs := NewResultSet ch (Some (ping_metrics count st)) in
          pinger_Close pinger;;
          mret (inl (ping_status (pingErr acc) (recv st) crs))
      end
  end.
End run.

(** ** Bookkeeping of the responses *)

(** A response that counts for a run of [count] pings. *)
Definition valid (count : nat) (r : PingResponse) : Prop :=
  pr_Err r = None ∧ (1 ≤ pr_Seq r ≤ Z.of_nat count)%Z.
#[export] Instance valid_dec count r : Decision (valid count r).
Proof. unfold valid. apply _. Defined.

(** The first one with the sequence number [s + 1]. *)
Definition first_valid (count : nat) (rs : list PingResponse) (s : nat) : option PingResponse :=
  head (filter (λ r, valid count r ∧ pr_Seq r = Z.of_nat s + 1)%Z rs).

(** The responses kept, by increasing sequence number. *)
Definition kept (count : nat) (rs : list PingResponse) : list PingResponse :=
  omap (first_valid count rs) (seq 0 count).

Definition hard_error (r : PingResponse) : option error :=
  match pr_Err r with
  | Some err => if pr_Timeout r then None else Some err
  | None => None
  end.

Definition recorded (count : nat) (rs : list PingResponse) : ping_acc :=
  foldl (λ acc r, (record_response r acc).1)
    {| responses := replicate count None; pingErr := None |} rs.

Lemma first_valid_snoc count rs r s :
  first_valid count (rs ++ [r]) s =
    match first_valid count rs s with
    | Some r' => Some r'
    | None => if decide (valid count r ∧ pr_Seq r = Z.of_nat s + 1)%Z then Some r else None
    end.
Proof.
  unfold first_valid. rewrite filter_app, filter_cons, filter_nil.
  destruct (filter _ rs); [|done]. cbn [app]. by case_decide.
Qed.

(** What a response does to a slot: it fills its own when it is empty. *)
Lemma record_slot r acc i :
  responses (record_response r acc).1 !! i =
    match responses acc !! i with
    | Some None =>
        if decide (valid (length (responses acc)) r ∧ pr_Seq r = Z.of_nat i + 1)%Z then Some (Some r)
        else Some None
    | slot => slot
    end.
Proof.
  unfold record_response. destruct (pr_Err r) as [err|] eqn:Herr.
  { destruct (pr_Timeout r); cbn [fst responses]; destruct (responses acc !! i) as [[r'|]|]; try done;
      by rewrite decide_False by (unfold valid; naive_solver). }
  case_bool_decide as Hs.
  { cbn [fst]. destruct (responses acc !! i) as [[r'|]|]; try done.
    rewrite decide_False; [done|]. unfold valid. lia. }
  set (slot := Z.to_nat (pr_Seq r - 1)).
  assert (slot = i ↔ pr_Seq r = Z.of_nat i + 1)%Z as Hslot by lia.
  assert (slot < length (responses acc)) as Hlt by lia.
  assert (valid (length (responses acc)) r) as Hv by (split; [done|lia]).
  destruct (decide (slot = i)) as [->|Hi].
  - destruct (responses acc !! i) as [[r'|]|] eqn:E; cbn [fst responses]; rewrite ?E; try done.
    + rewrite list_lookup_insert_eq, decide_True by naive_solver. done.
    + apply lookup_ge_None_1 in E. lia.
  - destruct (responses acc !! slot) as [[r'|]|]; cbn [fst responses]; rewrite ?list_lookup_insert_ne by done;
      destruct (responses acc !! i) as [[r''|]|]; try done; by rewrite decide_False by naive_solver.
Qed.

Lemma record_error r acc :
  pingErr (record_response r acc).1 =
    match hard_error r with Some err => Some err | None => pingErr acc end.
Proof.
  unfold record_response, hard_error. destruct (pr_Err r); [by destruct (pr_Timeout r)|].
  repeat case_match; done.
Qed.

Lemma recorded_snoc count rs r :
  recorded count (rs ++ [r]) = (record_response r (recorded count rs)).1.
Proof. unfold recorded. by rewrite foldl_snoc. Qed.

Lemma recorded_spec count rs :
  responses (recorded count rs) = first_valid count rs <$> seq 0 count
  ∧ pingErr (recorded count rs) = last (omap hard_error rs).
Proof.
  induction rs as [|r rs [IHr IHe]] using rev_ind.
  - split; [|done]. apply list_eq. intros i. cbn. rewrite list_lookup_fmap.
    destruct (decide (i < count)).
    + by rewrite lookup_replicate_2, lookup_seq_lt by done.
    + by rewrite !lookup_ge_None_2 by (rewrite ?length_replicate, ?length_seq; lia).
  - rewrite recorded_snoc, omap_app, last_app, record_error, IHe. split.
    2:{ cbn. by destruct (hard_error r). }
    apply list_eq. intros i. rewrite record_slot, IHr, length_fmap, length_seq, !list_lookup_fmap.
    destruct (seq 0 count !! i) as [s|] eqn:Hs; [|done]. apply lookup_seq in Hs as [-> _]. cbn.
    rewrite first_valid_snoc. destruct (first_valid count rs i); [done|]. by case_decide.
Qed.

(** ** The statistics *)
Definition total_rtt (got : list PingResponse) : Z := foldr (λ r z, pr_Rtt r + z)%Z 0%Z got.

Record stats_of (got : list PingResponse) (st : rtt_stats) : Prop := {
  stats_recv : recv st = Z.of_nat (length got);
  stats_total : totalRTT st = to_i64 (total_rtt got);
  stats_initial : initialDuration st = bool_decide (got = []);
  stats_bounds : Forall (λ r, minRTT st ≤ pr_Rtt r ≤ maxRTT st)%Z got;
  stats_reached : got ≠ [] → minRTT st ∈ (pr_Rtt <$> got) ∧ maxRTT st ∈ (pr_Rtt <$> got);
  stats_none : got = [] → minRTT st = 0%Z ∧ maxRTT st = 0%Z
}.

Lemma total_rtt_snoc got r : total_rtt (got ++ [r]) = (total_rtt got + pr_Rtt r)%Z.
Proof. induction got as [|x got IH]; cbn in *; [lia|]. unfold total_rtt in *. rewrite IH. lia. Qed.

Lemma to_i64_add_l a b : to_i64 (to_i64 a + b) = to_i64 (a + b).
Proof.
  unfold to_i64, wrap_signed. f_equal.
  replace ((a + 2 ^ (64 - 1)) mod 2 ^ 64 - 2 ^ (64 - 1) + b + 2 ^ (64 - 1))%Z
    with ((a + 2 ^ (64 - 1)) mod 2 ^ 64 + b)%Z by lia.
  rewrite Z.add_mod_idemp_l by lia. f_equal. lia.
Qed.

Lemma stats_snoc got st r : stats_of got st → stats_of (got ++ [r]) (stats_step st (Some r)).
Proof.
  intros [Hrecv Htotal Hinit Hbounds Hreached Hnone]. split; cbn [stats_step recv totalRTT minRTT maxRTT initialDuration].
  - rewrite length_app. cbn. lia.
  - by rewrite Htotal, to_i64_add_l, total_rtt_snoc.
  - rewrite bool_decide_false; [done|]. by destruct got.
  - rewrite Hinit. case_bool_decide as Hgot; [subst; by repeat constructor|].
    rewrite Forall_forall in Hbounds. apply Forall_forall. intros x [Hx|Hx]%elem_of_app.
    + specialize (Hbounds x Hx). repeat case_bool_decide; lia.
    + apply list_elem_of_singleton in Hx as ->. repeat case_bool_decide; try lia.
      all: destruct got as [|y got]; [done|]; specialize (Hbounds y ltac:(left)); lia.
  - intros _. rewrite Hinit, fmap_app, !elem_of_app. case_bool_decide as Hgot.
    + split; right; by left.
    + specialize (Hreached Hgot). repeat case_bool_decide; split; (right; by left) || (left; tauto).
  - by destruct got.
Qed.

Lemma stats_fold l : stats_of (omap id l) (foldl stats_step no_stats l).
Proof.
  induction l as [|[r|] l IH] using rev_ind; [by repeat constructor| |];
    rewrite foldl_snoc, omap_app; cbn [omap list_omap].
  - by apply stats_snoc.
  - by rewrite app_nil_r.
Qed.

Lemma omap_id_fmap {A B} (f : A → option B) (l : list A) : omap id (f <$> l) = omap f l.
Proof. induction l as [|x l IH]; [done|]. cbn. rewrite IH. done. Qed.

(** ** The loop *)
Section runs.
Context {N P : Type} `{!Pinging N P} (FormatFloat : float64 → string) (expired : nat → bool).

(** From the [i]-th on, the pings of a run had these responses. *)
Inductive pinged (pinger : P) (d : Duration) : nat → N → list PingResponse → N → Prop :=
| pinged_done i n : pinged pinger d i n [] n
| pinged_next i n r n1 n2 rs n3 :
    pinger_Ping pinger (Z.of_nat i + 1) d n = Ret r n1 →
    (n2 = n1 ∨ ∃ delay, sleep delay n1 = Ret () n2) →
    pinged pinger d (S i) n2 rs n3 →
    pinged pinger d i n (r :: rs) n3.

Lemma packetLoop_pinged pinger delay d k i acc n acc' n' :
  packetLoop expired pinger delay d (seq i k) acc n = Ret acc' n' →
  ∃ rs, pinged pinger d i n rs n' ∧ length rs ≤ k
    ∧ acc' = foldl (λ acc r, (record_response r acc).1) acc rs.
Proof.
  revert i acc n. induction k as [|k IH]; intros i acc n; cbn [seq packetLoop].
  { intros [= <- <-]. exists []. split_and!; [constructor|done..]. }
  destruct (expired i).
  { intros [= <- <-]. exists []. split_and!; [constructor|cbn; lia|done]. }
  rewrite bind_app. destruct (pinger_Ping pinger _ d n) as [r n1|] eqn:Hping; [|done].
  destruct (record_response r acc) as [acc1 saved] eqn:Hrec. rewrite bind_app.
  destruct (when saved (sleep delay) n1) as [[] n2|] eqn:Hsleep; [|done].
  intros (rs & Hrs & Hlen & ->)%IH. exists (r :: rs). split_and!; [|cbn; lia|cbn; by rewrite Hrec].
  eapply pinged_next; [done| |done]. destruct saved; cbn in Hsleep; [by right; exists delay|].
  left. by injection Hsleep.
Qed.

Lemma ping_status_spec err k ch m :
  let crs := ping_status err (Z.of_nat k) (NewResultSet ch (Some m)) in
  rs_Metrics crs = [m] ∧ rs_Available crs = bool_decide (k ≠ 0 ∧ err = None)
  ∧ rs_States crs =
      match err with
      | Some err => SetStatusFromError err {| State := StateUnavailable; Status := "" |}
      | None =>
          if bool_decide (k = 0)
          then {| State := StateUnavailable; Status := "No responses received" |}
          else {| State := StateAvailable; Status := StatusSuccess |}
      end.
Proof.
  cbv zeta. unfold ping_status. destruct err as [err|].
  - split_and!; [done|..|done]. by rewrite bool_decide_false by naive_solver.
  - destruct k as [|k].
    + done.
    + rewrite !bool_decide_true by (done || lia). rewrite bool_decide_false by done.
      by split_and!.
Qed.

(** The metrics of a run, of the responses it has kept. *)
Definition ping_reported (count : nat) (got : list PingResponse) (m : Result) : Prop :=
  let seconds d := Some (VFloat64 (FormatFloat (ScaleFractionalDuration d Second))) in
  dom m = {["count"; "available"; "average"; "maximum"; "minimum"]}
  ∧ m_Value <$> m !! "count" = Some (VInteger Int (Z.of_nat count))
  ∧ m_Value <$> m !! "available" =
      Some (VFloat64 (FormatFloat (percent (Z.of_nat (length got)) (Z.of_nat count))))
  ∧ m_Value <$> m !! "average" = seconds (if bool_decide (got = []) then 0%Z
                                          else Z.quot (to_i64 (total_rtt got)) (Z.of_nat (length got)))
  ∧ ∃ lo hi, m_Value <$> m !! "minimum" = seconds lo ∧ m_Value <$> m !! "maximum" = seconds hi
      ∧ Forall (λ r, lo ≤ pr_Rtt r ≤ hi)%Z got
      ∧ if bool_decide (got = []) then lo = 0%Z ∧ hi = 0%Z
        else lo ∈ pr_Rtt <$> got ∧ hi ∈ pr_Rtt <$> got.

Lemma ping_metrics_reported count got st :
  stats_of got st → ping_reported count got (ping_metrics FormatFloat count st).
Proof.
  intros [Hr Ht _ Hb Hin Hno]. unfold ping_reported. split_and!; [done|done| | |].
  - cbn. by rewrite Hr.
  - change (Some (VFloat64 (FormatFloat (ScaleFractionalDuration (avgRTT st) Second))) =
      Some (VFloat64 (FormatFloat (ScaleFractionalDuration
        (if bool_decide (got = []) then 0%Z
         else Z.quot (to_i64 (total_rtt got)) (Z.of_nat (length got))) Second)))).
    unfold avgRTT. rewrite Hr, Ht. destruct got as [|r got]; [done|].
    by rewrite bool_decide_true by (cbn; lia).
  - exists (minRTT st), (maxRTT st). split_and!; [done..|].
    case_bool_decide as E; [by apply Hno|by apply Hin].
Qed.

(** C25: what a ping check reports.  Whatever the pinger answers, a run that is
    not refused makes at most [count] pings in sequence; of their responses it
    keeps, per sequence number in range, the first without error.  Its metrics
    are the count, the percentage of pings of which a response was kept, and the
    average, the least and the greatest of the times of these in seconds, 0
    when there are none; the check is available exactly when one was kept and no
    ping failed but for a timeout, and the status is otherwise the last such
    failure or the lack of responses. *)
Theorem ping_run_spec b d n crs n' :
  ping_Run FormatFloat expired b d n = Ret (inl crs) n' →
  let count := ping_count d in
  ∃ pinger n1 rs n2 m, pinger_Close pinger n2 = Ret () n'
    ∧ pinged pinger (Z.quot (GetTimeoutDuration (PingCheck b d)) (Z.of_nat count)) 0 n1 rs n2
    ∧ length rs ≤ count
    ∧ rs_Metrics crs = [m] ∧ ping_reported count (kept count rs) m
    ∧ rs_Available crs = bool_decide (kept count rs ≠ [] ∧ omap hard_error rs = [])
    ∧ rs_States crs =
        match last (omap hard_error rs) with
        | Some err => SetStatusFromError err {| State := StateUnavailable; Status := "" |}
        | None =>
            if bool_decide (kept count rs = [])
            then {| State := StateUnavailable; Status := "No responses received" |}
            else {| State := StateAvailable; Status := StatusSuccess |}
        end.
Proof.
  intros Hrun count. unfold ping_Run in Hrun.
  destruct (GetTargetIP _) as [targetIP|]; [|done]. rewrite bind_app in Hrun.
  destruct (pinger_factory _ _ _ n) as [[pinger|] n1|]; [|done..].
  rewrite bind_app in Hrun. fold count in Hrun.
  destruct (packetLoop _ _ _ _ _ _ _) as [acc n2|] eqn:Hloop in Hrun; [|done].
  apply packetLoop_pinged in Hloop as (rs & Hrs & Hlen & Hacc). fold (recorded count rs) in Hacc.
  destruct (recorded_spec count rs) as [Hresp Herr].
  set (st := foldl _ _ _) in Hrun. rewrite bind_app in Hrun.
  destruct (pinger_Close pinger n2) as [[] n3|] eqn:Hclose; [|done]. injection Hrun as <- <-.
  assert (stats_of (kept count rs) st) as Hst.
  { unfold st, kept. rewrite Hacc, Hresp, <- omap_id_fmap. apply stats_fold. }
  exists pinger, n1, rs, n2, (ping_metrics FormatFloat count st). rewrite Hacc, Herr, (stats_recv _ _ Hst).
  destruct (ping_status_spec (last (omap hard_error rs)) (length (kept count rs)) (PingCheck b d)
    (ping_metrics FormatFloat count st)) as (Em & Ea & Es).
  split_and!; [done..|by apply ping_metrics_reported| |].
  - etrans; [exact Ea|]. apply bool_decide_ext. by rewrite last_None, length_zero_iff_nil.
  - etrans; [exact Es|]. by rewrite (bool_decide_ext _ _ (length_zero_iff_nil (kept count rs))).
Qed.
End runs.

(** A run goes on as long as an invariant of the pinger, indexed by the pings
    that may still be made, lets each of them return. *)
Lemma packetLoop_runs {N P} `{!Pinging N P} expired (I : nat → N → Prop) pinger delay d l acc n :
  (∀ k seq n, I (S k) n → runs (pinger_Ping pinger seq d) n (λ _ n', I k n')) →
  (∀ k n, I k n → runs (sleep delay) n (λ _ n', I k n')) →
  (∀ k n, I k n → I 0 n) →
  I (length l) n → runs (packetLoop expired pinger delay d l acc) n (λ _ n', I 0 n').
Proof.
  intros Hping Hsleep Hdone. revert acc n. induction l as [|i l IH]; intros acc n HI;
    cbn [packetLoop]; [done|].
  destruct (expired i); [by eapply Hdone|].
  apply runs_bind. eapply runs_mono; [by apply Hping|]. intros r n1 H1. cbn beta.
  destruct (record_response r acc) as [acc1 saved]. apply runs_bind.
  eapply runs_mono with (P := λ _ n', I (length l) n'); [|intros _ n2; by apply IH].
  destruct saved; [by apply Hsleep|done].
Qed.

(** ** The pinger of src/check/pinger.go *)
Section concrete.
Context (ListenPacket : string → string → PacketConn + error).
Context (ResolveIPAddr : string → string → ip_addr + error).
Context (rand_id : Z) (euid : Z) (GOOS : string).
Context (Marshal : icmp_message → chars + error).
Context (ParseMessage : Z → chars → icmp_message + error).
Context (clock : Z → gtime).

(** [clock seq] is the time at which the ping [seq] is sent. *)
#[local] Instance icmp_pinging : Pinging Net Pinger := {
  pinger_factory := PingerFactory ListenPacket ResolveIPAddr rand_id euid GOOS;
  pinger_Ping p seq d := Ping Marshal ParseMessage (clock seq) p seq d;
  pinger_Close := pinger_close;
  sleep := net_sleep
}.

Definition times_out (ev : read_event) : Prop :=
  match ev with ReadError err => isNetTimeoutError err = true | ReadPacket _ _ _ => False end.
#[local] Instance times_out_dec ev : Decision (times_out ev).
Proof. unfold times_out. destruct ev; apply _. Defined.
Definition timeouts (reads : list read_event) : nat := length (filter times_out reads).

(** A socket on which [k] receptions return. *)
Definition answers (k : nat) (c : PacketConn) : Prop :=
  pc_open c = true → k ≤ timeouts (pc_reads c).

Lemma timeouts_skipped p before :
  Forall (λ ev, decides ParseMessage p ev = None) before → timeouts before = 0.
Proof.
  unfold timeouts. induction 1 as [|ev before Hev Hb IH]; [done|]. rewrite filter_cons.
  case_decide as Ht; [|done]. destruct ev as [|err]; [done|]. cbn in *. by rewrite Ht in Hev.
Qed.

Lemma receive_answers p d k c :
  answers (S k) c → runs (receive ParseMessage p d) c (λ _ c', answers k c').
Proof.
  intros Ha. unfold runs. destruct (pc_open c) eqn:Ho; [|rewrite receive_closed by done].
  2:{ intros Ho'. congruence. }
  specialize (Ha Ho).
  destruct (first_decided ParseMessage p (pc_reads c)) as [Hall|(before & ev & rest & r & keep & Hr & Hb & Hd)].
  { rewrite (timeouts_skipped p) in Ha by done. lia. }
  erewrite receive_decided by done. intros _. cbn. rewrite Hr in Ha. revert Ha.
  pose proof (timeouts_skipped p before Hb) as H0. unfold timeouts in *.
  rewrite filter_app, length_app, H0, filter_cons. case_decide; cbn; lia.
Qed.

Lemma write_keeps data addr c :
  runs (WriteTo data addr) c (λ _ c', pc_open c' = pc_open c ∧ pc_reads c' = pc_reads c).
Proof.
  unfold WriteTo, runs. rewrite bind_app. cbn [gets]. destruct (pc_open c) eqn:Ho; [|done].
  rewrite bind_app. cbn [gets]. by destruct (pc_writes c) as [|[err|] rest].
Qed.

Lemma ping_answers now p seq t d k c :
  answers (S k) c → runs (ping Marshal ParseMessage now p seq t d) c (λ _ c', answers k c').
Proof.
  intros Ha. assert (∀ c', pc_open c' = pc_open c → pc_reads c' = pc_reads c → answers (S k) c') as Ha'.
  { intros c' Ho Hr. unfold answers. rewrite Ho, Hr. exact Ha. }
  assert (∀ c', answers (S k) c' → answers k c') as Hle by (intros c' H Ho; specialize (H Ho); lia).
  unfold ping. destruct (MarshalBinary now); [|by apply Hle]. destruct (Marshal _) as [enc|]; [|by apply Hle].
  apply runs_bind. eapply runs_mono; [apply write_keeps|]. intros [err|] c' [Ho Hr].
  - by apply Hle, Ha'.
  - by apply receive_answers, Ha'.
Qed.

(** ** The sockets of a run *)
Definition one_socket (i : nat) (others : gmap nat PacketConn) (k : nat) (n : Net) : Prop :=
  ∃ c, sockets n = <[i := c]> others ∧ answers k c.

Lemma on_socket_runs {A} i others c (m : go PacketConn A) n (Q : PacketConn → Prop) :
  sockets n = <[i := c]> others → runs m c (λ _ c', Q c') →
  runs (on_socket i m) n (λ _ n', ∃ c', sockets n' = <[i := c']> others ∧ Q c').
Proof.
  intros Hn Hm. unfold on_socket, runs in *. rewrite Hn, lookup_insert_eq.
  destruct (m c) as [a c'|]; [|done]. exists c'. cbn. by rewrite insert_insert_eq.
Qed.

Lemma Ping_answers others p seq d k n :
  one_socket (packetConn (base_pinger p)) others (S k) n →
  runs (Ping Marshal ParseMessage (clock seq) p seq d) n
    (λ _ n', one_socket (packetConn (base_pinger p)) others k n').
Proof.
  intros (c & Hn & Hc). destruct p as [p|p]; cbn [Ping base_pinger] in *;
    (eapply on_socket_runs; [done|by apply ping_answers]).
Qed.

(** What a factory leaves: a new socket with a pinger, nothing, or, when the
    address does not resolve, a new socket that nobody closes. *)
Definition factory_post (addr : string) (n : Net) (r : Pinger + error) (n' : Net) : Prop :=
  match r with
  | inl p => ∃ net bind c, ListenPacket net bind = inl c
      ∧ sockets n !! packetConn (base_pinger p) = None
      ∧ sockets n' = <[packetConn (base_pinger p) := c]> (sockets n)
  | inr _ => n' = n ∨ ∃ fam err i c, ResolveIPAddr fam addr = inr err
      ∧ sockets n !! i = None ∧ sockets n' = <[i := c]> (sockets n)
  end.

Lemma new_pinger_sockets make bind fam identifier net addr n :
  (∀ b, base_pinger (make b) = b) →
  runs (new_pinger ListenPacket ResolveIPAddr rand_id make bind fam identifier net addr) n
    (factory_post addr n).
Proof.
  intros Hmake. unfold new_pinger, createPacketConn, resolvePingAddr, runs.
  rewrite bind_app. destruct (ListenPacket net bind) as [c|err] eqn:El; [|by left].
  cbn. pose proof (not_elem_of_dom_1 _ _ (is_fresh (dom (sockets n)))) as Hf.
  destruct (ResolveIPAddr fam addr) as [ip|err] eqn:Er.
  - destruct (HasPrefix net "udp"); exists net, bind, c; by rewrite Hmake.
  - right. by exists fam, err, (fresh (dom (sockets n))), c.
Qed.

Lemma factory_sockets identifier addr version n :
  runs (PingerFactory ListenPacket ResolveIPAddr rand_id euid GOOS identifier addr version) n
    (factory_post addr n).
Proof.
  unfold PingerFactory. destruct (_ && _); [by left|].
  destruct (guess_version _ _ _) as [v|err]; [|by left].
  generalize (choose_network (bool_decide (euid = 0%Z) || bool_decide (GOOS = "windows")) v).
  intros net. unfold NewPinger. case_bool_decide; [by apply new_pinger_sockets|].
  case_bool_decide; [by apply new_pinger_sockets|by left].
Qed.

(** C24: a run of the ping check ends and closes its socket.  When the deadline
    set for each reception fires in the end (the socket has as many time-outs
    ahead as there are pings to make, among any other traffic) the run returns;
    the other sockets of the process are as they were, and the one it opened is
    closed, but when the run fails because the address of the check does not
    resolve: then it may leave a socket open. *)
Theorem ping_run_ends FormatFloat expired b d n :
  (∀ net bind c, ListenPacket net bind = inl c → ping_count d ≤ timeouts (pc_reads c)) →
  runs (ping_Run FormatFloat expired b d) n (λ r n', sockets n ⊆ sockets n'
    ∧ ∀ i c, sockets n !! i = None → sockets n' !! i = Some c → pc_open c = true →
        ∃ err target fam err', r = inr err ∧ GetTargetIP (header_of (PingCheck b d)) = inl target
          ∧ ResolveIPAddr fam target = inr err').
Proof.
  intros Hlisten. unfold ping_Run.
  destruct (GetTargetIP _) as [target|err] eqn:Ht; [|split; [done|naive_solver]].
  apply runs_bind. eapply runs_mono; [apply factory_sockets|]. intros [p|err] n1 Hn1; cbn beta.
  - destruct Hn1 as (net & bind & c & Hc & Hfresh & Hn1). apply runs_bind.
    eapply runs_mono; [eapply (packetLoop_runs expired
      (one_socket (packetConn (base_pinger p)) (sockets n)))|].
    + intros k seq m. apply Ping_answers.
    + intros k m (c' & Hm & Ha). by exists c'.
    + intros k m (c' & Hm & Ha). exists c'. split; [done|]. intros _. lia.
    + exists c. split; [done|]. intros _. rewrite length_seq. by eapply Hlisten.
    + intros acc n2 (c2 & Hn2 & _). apply runs_bind.
      eapply runs_mono; [apply (on_socket_runs _ _ c2 conn_close _ (λ c, pc_open c = false) Hn2); done|].
      intros _ n3 (c3 & Hn3 & Hclosed). cbn. rewrite Hn3. split; [by apply insert_subseteq|].
      intros i c' Hi [[<- <-]|[_ Hc']]%lookup_insert_Some Ho; congruence.
  - split; destruct Hn1 as [->|(fam & err' & i & c & Hr & Hfresh & ->)]; [done|by apply insert_subseteq|naive_solver|].
    intros i' c' Hi _ _. by exists err, target, fam, err'.
Qed.

(** The leak, for a privileged process and an IPv4 check. *)
Lemma unresolved_address_leaks FormatFloat expired b d n target c err :
  euid = 0%Z → ch_TargetResolver (header_of (PingCheck b d)) = ResolverIPV4 →
  GetTargetIP (header_of (PingCheck b d)) = inl target →
  ListenPacket IcmpNetIP4 "0.0.0.0" = inl c → ResolveIPAddr "ip4" target = inr err →
  ∃ i n', sockets n !! i = None ∧ sockets n' !! i = Some c
    ∧ ping_Run FormatFloat expired b d n
        = Ret (inr (Wrap err ("Trying to resolve " +:+ target)%string)) n'.
Proof.
  intros Hu Hr Ht Hl He. exists (fresh (dom (sockets n))).
  exists (put_sockets (<[fresh (dom (sockets n)) := c]> (sockets n)) n). split_and!.
  - apply not_elem_of_dom_1, is_fresh.
  - cbn. by rewrite lookup_insert_eq.
  - assert (PingerFactory ListenPacket ResolveIPAddr rand_id euid GOOS (GetID (PingCheck b d)) target
      "v4" n = Ret (inr (Wrap err ("Trying to resolve " +:+ target)%string))
          (put_sockets (<[fresh (dom (sockets n)) := c]> (sockets n)) n)) as E.
    { unfold PingerFactory. rewrite (bool_decide_true (euid = 0%Z)) by done.
      change (new_pinger ListenPacket ResolveIPAddr rand_id pingerV4 "0.0.0.0" "ip4"
        (GetID (PingCheck b d)) IcmpNetIP4 target n = Ret (inr (Wrap err ("Trying to resolve " +:+ target)%string))
          (put_sockets (<[fresh (dom (sockets n)) := c]> (sockets n)) n)).
      unfold new_pinger, createPacketConn. rewrite bind_app, Hl. cbn.
      unfold resolvePingAddr. by rewrite He. }
    unfold ping_Run. rewrite Ht, bind_app, Hr.
    change (pinger_factory (GetID (PingCheck b d)) target (ip_version ResolverIPV4) n)
      with (PingerFactory ListenPacket ResolveIPAddr rand_id euid GOOS (GetID (PingCheck b d)) target "v4" n).
    by rewrite E.
Qed.
End concrete.
