(* ===== verification/Commands.v ===== *)
(** Component: the commands that run checks on demand (src/commands/verify.go,
    ping.go): rounds of a check, with what they print.  The parsing of the flags
    is a library's; a flag is an argument. *)
From S2P Require Export GoStrings PingCheck.

(** ** verify

    [Run] is that of the check, over what it works on; [format] is the error of
    encoding a result set.  The command prints and waits. *)
Inductive verify_output := Printed (rs : ResultSet) | Waited (d : Duration).

Section verify.
Context {W : Type} (Run : Check → go W (ResultSet + error)) (format : ResultSet → option error).
Context (verifyRepeat verifyPeriod : Z).

Record verify_state := { vs_world : W; vs_contexts : Contexts; vs_output : list verify_output }.
Definition put_vs_world (w : W) (s : verify_state) : verify_state :=
  {| vs_world := w; vs_contexts := vs_contexts s; vs_output := vs_output s |}.
Definition put_vs_contexts (c : Contexts) (s : verify_state) : verify_state :=
  {| vs_world := vs_world s; vs_contexts := c; vs_output := vs_output s |}.
Definition print (o : verify_output) : go verify_state unit :=
  modify (λ s, {| vs_world := vs_world s; vs_contexts := vs_contexts s; vs_output := vs_output s ++ [o] |}).

(** One round; the answer is the message and the error to end with. *)
Definition verify_round (ch : Check) : go verify_state (option (string * error)) :=
  r ← zoom vs_world put_vs_world (Run ch);
  match r with
  | inr err => mret (Some ("Failed to run check", err))
  | inl rs =>
      match format rs with
      | Some err => mret (Some ("Failed to format check", err))
      | None =>
          print (Printed rs);;
          when (bool_decide (0 < verifyRepeat)%Z) (print (Waited (to_i64 (Second * verifyPeriod))));;
          mret None
      end
  end.

Fixpoint verify_rounds (n : nat) (ch : Check) : go verify_state (option (string * error)) :=
  match n with
  | O => mret None
  | S n' =>
      r ← verify_round ch;
      match r with Some died => mret (Some died) | None => verify_rounds n' ch end
  end.

(** [i <= verifyRepeat] from 0 on. *)
Definition VerifyCmd (ReadFile : string → string + error) (Parse : string → option json)
    (checkFile : string) : go verify_state (option (string * option error)) :=
  if bool_decide (checkFile = "") then mret None
  else
    r ← zoom vs_contexts put_vs_contexts (ReadCheckFromFile ReadFile Parse checkFile);
    match r with
    | inr _ => mret (Some (("Invalid check definition in " +:+ checkFile)%string, None))
    | inl ch =>
        died ← verify_rounds (Z.to_nat (verifyRepeat + 1)) ch;
        mret match died with Some (msg, err) => Some (msg, Some err) | None => None end
    end.
End verify.
Arguments verify_state W : clear implicits.

(** ** ping *)
Section ping.
Context {N P : Type} `{!Pinging N P} (FormatFloat : float64 → string).
(** Whether the time-out of a round has fired, by rounds and pings. *)
Context (expired : nat → nat → bool).
Context (count timeout rounds : Z) (ipType : string).

(** The flag is ASCII text. *)
Definition ping_resolver : string :=
  if equal_fold ipType "ipv4" then ResolverIPV4
  else if equal_fold ipType "ipv6" then ResolverIPV6 else "".

Definition ping_base (host checkId : string) : Base := {|
  base_CheckIn := {| Header := {|
    ch_Id := checkId; ch_CheckType := ""; ch_Period := 0; ch_Timeout := timeout; ch_EntityId := "";
    ch_ZoneId := ""; ch_Disabled := false; ch_IpAddresses := Some {["main" := host]};
    ch_TargetAlias := Some "main"; ch_TargetHostname := Some host;
    ch_TargetResolver := ping_resolver |}; RawDetails := None |};
  base_context := Background
|}.

(** The results of the rounds that ran; the instance ends at the first that
    fails. *)
Fixpoint ping_rounds (host checkId : string) (n i : nat) (acc : list ResultSet)
    : go N (list ResultSet * option error) :=
  match n with
  | O => mret (acc, None)
  | S n' =>
      r ← ping_Run FormatFloat (expired i) (ping_base host checkId) {| Count := count |};
      match r with
      | inr err => mret (acc, Some err)
      | inl crs => ping_rounds host checkId n' (S i) (acc ++ [crs])
      end
  end.
Definition pingCmdInstance (host checkId : string) : go N (list ResultSet * option error) :=
  ping_rounds host checkId (Z.to_nat rounds) 0 [].

(** [fmt.Sprintf("ch%05d", i)] *)
Definition ping_id (i : nat) : string :=
  ("ch" +:+ zeros (5 - String.length (pretty i)) (pretty i))%string.
Definition ping_instances (hosts : list string) : list (string * string) :=
  imap (λ i host, (host, ping_id i)) hosts.
End ping.

(** ** Properties of verify *)
Section verify_properties.
Context {W : Type} (Run : Check → go W (ResultSet + error)) (format : ResultSet → option error).
Context (verifyRepeat verifyPeriod : Z) (ch : Check).

(** Rounds whose results can be printed. *)
Inductive rounds_succeed : list ResultSet → W → W → Prop :=
| no_round w : rounds_succeed [] w w
| next_round rs rss w w1 w2 :
    Run ch w = Ret (inl rs) w1 → format rs = None → rounds_succeed rss w1 w2 →
    rounds_succeed (rs :: rss) w w2.

Definition round_output (rs : ResultSet) : list verify_output :=
  Printed rs :: (if bool_decide (0 < verifyRepeat)%Z then [Waited (to_i64 (Second * verifyPeriod))] else []).

Lemma verify_round_app rs w w1 c out :
  Run ch w = Ret (inl rs) w1 → format rs = None →
  verify_round Run format verifyRepeat verifyPeriod ch
      {| vs_world := w; vs_contexts := c; vs_output := out |} =
    Ret None {| vs_world := w1; vs_contexts := c; vs_output := out ++ round_output rs |}.
Proof.
  intros Hrun Hf. unfold verify_round. rewrite bind_app. unfold zoom. cbn [vs_world]. rewrite Hrun, Hf.
  unfold round_output. unfold when.
  case_bool_decide; [|done]. change (out ++ [?x; ?y]) with (out ++ ([x] ++ [y])). by rewrite (assoc_L (++)).
Qed.

Lemma verify_rounds_app rss n w w' c out :
  rounds_succeed rss w w' → length rss ≤ n →
  verify_rounds Run format verifyRepeat verifyPeriod n ch
      {| vs_world := w; vs_contexts := c; vs_output := out |} =
    verify_rounds Run format verifyRepeat verifyPeriod (n - length rss) ch
      {| vs_world := w'; vs_contexts := c; vs_output := out ++ (rss ≫= round_output) |}.
Proof.
  intros Hr. revert n out. induction Hr as [w|rs rss w w1 w2 Hrun Hf Hr IH]; intros n out Hn.
  - cbn. by rewrite app_nil_r, Nat.sub_0_r.
  - destruct n as [|n]; [cbn in Hn; lia|]. cbn [length] in Hn |- *.
    replace (S n - S (length rss)) with (n - length rss) by lia. cbn [verify_rounds].
    rewrite bind_app, (verify_round_app rs w w1) by done. rewrite IH by lia.
    cbn [mbind list_bind]. by rewrite <- (assoc_L (++)).
Qed.

(** The rounds of [verify].  When every round from 0 to the repetition
    succeeds, each result is printed in order, and with a repetition the period
    is waited for after each of them, the last one too; the first round that
    fails, or whose result cannot be printed, ends the command after what was
    printed before it.  A negative repetition runs nothing. *)
Theorem verify_spec rss w w' c :
  let n := Z.to_nat (verifyRepeat + 1) in
  let run := verify_rounds Run format verifyRepeat verifyPeriod n ch
    {| vs_world := w; vs_contexts := c; vs_output := [] |} in
  let after w := {| vs_world := w; vs_contexts := c; vs_output := rss ≫= round_output |} in
  rounds_succeed rss w w' →
  (length rss = n → run = Ret None (after w'))
  ∧ (∀ err w2, length rss < n → Run ch w' = Ret (inr err) w2 →
      run = Ret (Some ("Failed to run check", err)) (after w2))
  ∧ (∀ rs err w2, length rss < n → Run ch w' = Ret (inl rs) w2 → format rs = Some err →
      run = Ret (Some ("Failed to format check", err)) (after w2)).
Proof.
  intros n run after Hr. unfold run. split_and!.
  - intros Hn. rewrite (verify_rounds_app rss) with (w' := w') by (done || lia). by rewrite Hn, Nat.sub_diag.
  - intros err w2 Hn Hrun. rewrite (verify_rounds_app rss) with (w' := w') by (done || lia).
    destruct (n - length rss) as [|k] eqn:Ek; [lia|]. cbn [verify_rounds].
    unfold verify_round. rewrite bind_app, bind_app. unfold zoom. cbn [vs_world]. by rewrite Hrun.
  - intros rs err w2 Hn Hrun Hf. rewrite (verify_rounds_app rss) with (w' := w') by (done || lia).
    destruct (n - length rss) as [|k] eqn:Ek; [lia|]. cbn [verify_rounds].
    unfold verify_round. rewrite bind_app, bind_app. unfold zoom. cbn [vs_world]. by rewrite Hrun, Hf.
Qed.
End verify_properties.

(** ** Properties of ping *)
Section ping_properties.
Context (ListenPacket : string → string → PacketConn + error).
Context (ResolveIPAddr : string → string → ip_addr + error).
Context (rand_id : Z) (euid : Z) (GOOS : string).
Context (Marshal : icmp_message → chars + error).
Context (ParseMessage : Z → chars → icmp_message + error).
Context (clock : Z → gtime).
#[local] Instance command_pinging : Pinging Net Pinger :=
  icmp_pinging ListenPacket ResolveIPAddr rand_id euid GOOS Marshal ParseMessage clock.

(** The sockets of before are as they were, and those made since are closed. *)
Definition sockets_closed (n n' : Net) : Prop :=
  sockets n ⊆ sockets n' ∧
  ∀ i c, sockets n !! i = None → sockets n' !! i = Some c → pc_open c = false.

#[local] Instance sockets_closed_trans : Transitive sockets_closed.
Proof.
  intros n1 n2 n3 [Hs Hc] [Hs' Hc']. split; [by etrans|]. intros i c H1 H3.
  destruct (sockets n2 !! i) as [c2|] eqn:H2; [|by eapply Hc'].
  pose proof (lookup_weaken _ _ _ _ H2 Hs') as H3'. rewrite H3 in H3'. injection H3' as ->. by eapply Hc.
Qed.

Lemma ping_target timeout ipType host checkId d :
  GetTargetIP (header_of (PingCheck (ping_base timeout ipType host checkId) d)) = inl host.
Proof. reflexivity. Qed.

Lemma ping_rounds_end FormatFloat expired count timeout ipType host checkId k i acc n :
  (∀ net bind c, ListenPacket net bind = inl c → ping_count {| Count := count |} ≤ timeouts (pc_reads c)) →
  runs (ping_rounds FormatFloat expired count timeout ipType host checkId k i acc) n (λ r n',
    sockets n ⊆ sockets n' ∧ length acc ≤ length r.1 ≤ length acc + k
    ∧ (r.2 = None → length r.1 = length acc + k ∧ sockets_closed n n')).
Proof.
  intros Hlisten. revert i acc n. induction k as [|k IH]; intros i acc n.
  - split_and!; [done|cbn; lia..|]. intros _. split; [cbn; lia|]. split; [done|]. intros; congruence.
  - apply runs_bind. eapply runs_mono; [by apply ping_run_ends|]. intros [crs|err] n1 [Hs Hc]; cbn beta.
    + assert (sockets_closed n n1) as H1.
      { split; [done|]. intros j c Hn Hj. destruct (pc_open c) eqn:Ho; [|done].
        by destruct (Hc j c Hn Hj Ho) as (? & ? & ? & ? & ? & _). }
      eapply runs_mono; [apply IH|]. intros r n2 (Hs2 & Hlen & Hall). rewrite length_app in Hlen, Hall.
      cbn in Hlen, Hall. split_and!; [by etrans|lia..|]. intros Hr. destruct (Hall Hr) as [Hl H2].
      split; [lia|by etrans].
    + split_and!; [done|cbn; lia..|done].
Qed.

(** An instance of the ping command ends.  When the deadlines of the
    receptions fire in the end, an instance makes its rounds on the host it was
    given and returns, so that the command does; it has a result per round, or
    one for each of those before the first that failed; and when none failed,
    every socket it opened is closed. *)
Theorem ping_instance_ends FormatFloat expired count timeout rounds ipType host checkId n :
  (∀ net bind c, ListenPacket net bind = inl c →
     ping_count {| Count := count |} ≤ timeouts (pc_reads c)) →
  runs (pingCmdInstance FormatFloat expired count timeout rounds ipType host checkId) n (λ r n',
    length r.1 ≤ Z.to_nat rounds
    ∧ (r.2 = None → length r.1 = Z.to_nat rounds ∧ sockets_closed n n')).
Proof.
  intros Hlisten. eapply runs_mono; [by apply ping_rounds_end|].
  intros r n' (_ & Hlen & Hall). cbn in Hlen, Hall. split; [lia|done].
Qed.
End ping_properties.
