(* ===== verification/CommandLine.v ===== *)
(** Component: the command line (src/poller.go, src/commands/serve.go,
    install-service.go, uninstall-service.go, src/utils/process.go, rlimit.go):
    the log and the signals of the program, which command runs what, and the
    service.  Parsing the flags is a library's; a flag is an argument, and so
    is what the library of services answers.  The functions end the program
    with [die] where the code calls [log.Fatal] or [os.Exit]. *)
From S2P Require Export Runtime Protocol.

(** ** Signals

    Go's [os/signal]: a signal goes to the channels registered for it, without
    waiting for room, and ends the program when there is none. *)
Inductive signal := SIGINT | SIGTERM | SIGHUP.
#[export] Instance signal_eq_dec : EqDecision signal.
Proof. solve_decision. Defined.

(** The two channels of the program, with their capacities. *)
Inductive sig_channel := hupChan | signalNotify.
#[export] Instance sig_channel_eq_dec : EqDecision sig_channel.
Proof. solve_decision. Defined.
Definition capacity (c : sig_channel) : nat := match c with hupChan => 1 | signalNotify => 2 end.

(** ** The program *)
Inductive log_level := InfoLevel | DebugLevel.
Inductive log_format := TextFormatter | JSONFormatter.
Inductive log_output := Stderr | LogFile (n : nat).   (** the n-th file opened *)
Inductive ending := Killed (sig : signal) | Died (messages : list string).

Record program := {
  pg_level : log_level;
  pg_format : log_format;
  pg_output : log_output;
  pg_opened : nat;                                  (** files opened, none is closed *)
  pg_registered : list (sig_channel * list signal);
  pg_hups : list signal;                            (** in [hupChan] *)
  pg_signals : list signal;                         (** in [signalNotify] *)
  pg_ended : option ending
}.

Definition put_pg_level (x : log_level) (p : program) : program :=
  {| pg_level := x; pg_format := pg_format p; pg_output := pg_output p; pg_opened := pg_opened p;
     pg_registered := pg_registered p; pg_hups := pg_hups p; pg_signals := pg_signals p;
     pg_ended := pg_ended p |}.
Definition put_pg_format (x : log_format) (p : program) : program :=
  {| pg_level := pg_level p; pg_format := x; pg_output := pg_output p; pg_opened := pg_opened p;
     pg_registered := pg_registered p; pg_hups := pg_hups p; pg_signals := pg_signals p;
     pg_ended := pg_ended p |}.
Definition put_pg_file (n : nat) (p : program) : program :=
  {| pg_level := pg_level p; pg_format := pg_format p; pg_output := LogFile n; pg_opened := S n;
     pg_registered := pg_registered p; pg_hups := pg_hups p; pg_signals := pg_signals p;
     pg_ended := pg_ended p |}.
Definition put_pg_channels (hups sigs : list signal) (p : program) : program :=
  {| pg_level := pg_level p; pg_format := pg_format p; pg_output := pg_output p; pg_opened := pg_opened p;
     pg_registered := pg_registered p; pg_hups := hups; pg_signals := sigs; pg_ended := pg_ended p |}.
Definition end_program (x : ending) (p : program) : program :=
  {| pg_level := pg_level p; pg_format := pg_format p; pg_output := pg_output p; pg_opened := pg_opened p;
     pg_registered := pg_registered p; pg_hups := pg_hups p; pg_signals := pg_signals p;
     pg_ended := Some x |}.

(** [signal.Notify] *)
Definition Notify (c : sig_channel) (sigs : list signal) (p : program) : program :=
  {| pg_level := pg_level p; pg_format := pg_format p; pg_output := pg_output p; pg_opened := pg_opened p;
     pg_registered := pg_registered p ++ [(c, sigs)]; pg_hups := pg_hups p; pg_signals := pg_signals p;
     pg_ended := pg_ended p |}.

Definition die (messages : list string) (p : program) : program := end_program (Died messages) p.

(** [utils.Die] *)
Definition Die (err : error) (messages : list string) (p : program) : program :=
  die (messages ++ [("Reason: " +:+ err)%string]) p.

Definition listens_to (sig : signal) (c : sig_channel) (p : program) : bool :=
  existsb (λ r, bool_decide (r.1 = c) && bool_decide (sig ∈ r.2)) (pg_registered p).

Definition offer (sig : signal) (c : sig_channel) (q : list signal) (p : program) : list signal :=
  if listens_to sig c p && bool_decide (length q < capacity c) then q ++ [sig] else q.

(** A signal arrives. *)
Definition deliver (sig : signal) (p : program) : program :=
  match pg_ended p with
  | Some _ => p
  | None =>
      if listens_to sig hupChan p || listens_to sig signalNotify p then
        put_pg_channels (offer sig hupChan (pg_hups p) p) (offer sig signalNotify (pg_signals p) p) p
      else end_program (Killed sig) p
  end.

(** ** The start *)
Record flags := { fl_Debug : bool; fl_LogfileName : string; fl_JsonLogger : bool }.

(** ** The commands *)
Inductive command :=
| versionCmd | ServeCmd | EndpointCmd | VerifyCmd | PingCmd | InstallServiceCmd | UninstallServiceCmd.

Definition pollerCmd_commands : list (string * command) :=
  [("version", versionCmd); ("serve", ServeCmd); ("endpoint", EndpointCmd); ("verify", VerifyCmd);
   ("ping", PingCmd); ("install-service", InstallServiceCmd); ("uninstall-service", UninstallServiceCmd)].

#[export] Instance command_eq_dec : EqDecision command.
Proof. solve_decision. Defined.

(** The n-th opening of the log file fails, or does not. *)
Section start.
Context (OpenFile : nat → option error) (globalFlags : flags).

Definition setLogOutput (p : program) : program :=
  match OpenFile (pg_opened p) with
  | Some err => die [("Unable to open initial log file " +:+ fl_LogfileName globalFlags +:+ " : "
                      +:+ err)%string] p
  | None => put_pg_file (pg_opened p) p
  end.

(** [init]: the log goes to the standard error. *)
Definition initial_program : program :=
  {| pg_level := InfoLevel; pg_format := TextFormatter; pg_output := Stderr; pg_opened := 0;
     pg_registered := []; pg_hups := []; pg_signals := []; pg_ended := None |}.

Definition initEnv (p : program) : program :=
  let p := if fl_Debug globalFlags then put_pg_level DebugLevel p else p in
  let p := put_pg_format (if fl_JsonLogger globalFlags then JSONFormatter else TextFormatter) p in
  if bool_decide (fl_LogfileName globalFlags = "") then p
  else
    let p := setLogOutput p in
    match pg_ended p with Some _ => p | None => Notify hupChan [SIGINT; SIGHUP] p end.

(** A turn of the goroutine of [hupChan]. *)
Definition hup_turn (p : program) : option program :=
  match pg_ended p, pg_hups p with
  | None, _ :: q => Some (setLogOutput (put_pg_channels q (pg_signals p) p))
  | _, _ => None
  end.

Definition HandleInterrupts (p : program) : program := Notify signalNotify [SIGINT; SIGTERM] p.

(** Only [poller.Run] asks for interrupts. *)
Definition command_signals (c : command) (p : program) : program :=
  match c with ServeCmd => HandleInterrupts p | _ => p end.

(** A command that goes on, in its environment. *)
Definition started (c : command) : program :=
  let p := initEnv initial_program in
  match pg_ended p with Some _ => p | None => command_signals c p end.
End start.

(** [CheckFDLimit], on what [Getrlimit] answers: whether it warns. *)
Definition FdMin : Z := 8192.
Definition CheckFDLimit (rlimit : option Z) : bool :=
  match rlimit with Some cur => bool_decide (cur < FdMin)%Z | None => false end.

(** ** The service *)
Record service := {
  sv_contexts : Contexts;
  serviceContext : option Context;
  serviceCancel : option Context;      (** what [cancel] cancels *)
  sv_runs : list (option Context * string * bool)   (** the calls of [poller.Run] *)
}.

Section service.
Context (configFilePath : string) (insecure : bool).

Definition on_sv_contexts {A} : go Contexts A → go service A :=
  zoom sv_contexts (λ c s, {| sv_contexts := c; serviceContext := serviceContext s;
    serviceCancel := serviceCancel s; sv_runs := sv_runs s |}).

Definition run_poller (ctx : option Context) : go service unit :=
  modify (λ s, {| sv_contexts := sv_contexts s; serviceContext := serviceContext s;
    serviceCancel := serviceCancel s; sv_runs := sv_runs s ++ [(ctx, configFilePath, insecure)] |}).

Definition service_Start : go service unit :=
  ctx ← on_sv_contexts (WithCancel Background);
  modify (λ s, {| sv_contexts := sv_contexts s; serviceContext := Some ctx; serviceCancel := Some ctx;
    sv_runs := sv_runs s |});;
  run_poller (Some ctx).

(** A call of a nil function panics. *)
Definition service_Stop : go service unit :=
  cancel ← gets serviceCancel;
  ctx ← deref cancel;
  on_sv_contexts (cancel_context ctx).

(** What the library of services does with an entry: it fails, or starts it
    and stops it at the end. *)
Inductive service_answer := ServiceFails (err : error) | ServiceRuns (stopped : bool).

Definition service_Run (answer : service_answer) : go service (option error) :=
  match answer with
  | ServiceFails err => mret (Some err)
  | ServiceRuns stopped => service_Start;; when stopped service_Stop;; mret None
  end.

(** [New] and [Logger] give an error or not. *)
Definition createServiceInstance (New Logger : option error) : option error :=
  match New with Some err => Some err | None => Logger end.

(** The result is what the program dies of, and what it logs. *)
Definition serveCmdRun (interactive : bool) (New Logger : option error) (answer : service_answer)
    : go service (option error * list error) :=
  if interactive then run_poller None;; mret (None, [])
  else
    match createServiceInstance New Logger with
    | Some err => mret (Some err, [])
    | None => r ← service_Run answer; mret (None, option_list r)
    end.
End service.

(** The arguments of the service that is installed, and what becomes of it. *)
Definition installed_arguments (serviceConfigFilePath serviceConfigLogfile : string) : list string :=
  ["serve"; "--config"; serviceConfigFilePath; "--logfile"; serviceConfigLogfile].

Definition installServiceCmdRun (New Logger Install : option error) (cfg logfile : string)
    : option error * list error * list string :=
  match createServiceInstance New Logger with
  | Some err => (Some err, [], installed_arguments cfg logfile)
  | None => (None, option_list Install, installed_arguments cfg logfile)
  end.

Definition uninstallServiceCmdRun (New Logger Uninstall : option error) : option error * list error :=
  match createServiceInstance New Logger with
  | Some err => (Some err, [])
  | None => (None, option_list Uninstall)
  end.

(** ** A program that goes on *)
Inductive program_event :=
| Arrives (sig : signal)
| Reopens              (** a turn of the goroutine of [hupChan] *)
| Takes.               (** the main goroutine takes a signal *)
#[export] Instance program_event_eq_dec : EqDecision program_event.
Proof. solve_decision. Defined.

Section run.
Context (OpenFile : nat → option error) (globalFlags : flags) (c : command).

Definition program_step (e : program_event) (p : program) : option program :=
  match pg_ended p with
  | Some _ => None
  | None =>
      match e with
      | Arrives sig => Some (deliver sig p)
      | Reopens => hup_turn OpenFile globalFlags p
      | Takes => match pg_signals p with _ :: q => Some (put_pg_channels (pg_hups p) q p) | [] => None end
      end
  end.

Fixpoint program_run (es : list program_event) (p : program) : option program :=
  match es with
  | [] => Some p
  | e :: es' => p' ← program_step e p; program_run es' p'
  end.

Definition logs_to_file : bool := bool_decide (fl_LogfileName globalFlags ≠ "").

(** The signals that end the program. *)
Definition kills (sig : signal) : bool :=
  match sig with
  | SIGINT => negb logs_to_file && bool_decide (c ≠ ServeCmd)
  | SIGTERM => bool_decide (c ≠ ServeCmd)
  | SIGHUP => negb logs_to_file
  end.

Definition reopenings (es : list program_event) : nat :=
  foldr (λ e n, if decide (e = Reopens) then S n else n) 0 es.

(** ** Invariant *)
Record going_on (n : nat) (p : program) : Prop := {
  go_registered : ∀ sig, listens_to sig hupChan p = logs_to_file && bool_decide (sig ≠ SIGTERM)
    ∧ listens_to sig signalNotify p = bool_decide (c = ServeCmd ∧ sig ≠ SIGHUP);
  go_files : if logs_to_file then pg_opened p = S n ∧ pg_output p = LogFile n
             else pg_opened p = 0 ∧ n = 0 ∧ pg_output p = Stderr ∧ pg_hups p = [];
  go_channels : length (pg_hups p) ≤ 1 ∧ length (pg_signals p) ≤ 2
}.
End run.

Section run_properties.
Context (OpenFile : nat → option error) (fl : flags) (c : command).

Lemma offer_length sig ch q p : length q ≤ capacity ch → length (offer sig ch q p) ≤ capacity ch.
Proof.
  intros Hq. unfold offer. case_match eqn:E; [|done].
  apply andb_true_iff in E as [_ E%bool_decide_eq_true_1]. rewrite length_app. cbn. lia.
Qed.

Lemma started_goes_on :
  pg_ended (started OpenFile fl c) = None → going_on fl c 0 (started OpenFile fl c).
Proof.
  unfold started, initEnv, setLogOutput. destruct fl as [debug name js]. cbn.
  case_bool_decide as Hn; intros Hp.
  - assert (logs_to_file {| fl_Debug := debug; fl_LogfileName := name; fl_JsonLogger := js |} = false)
      as Hl by (apply bool_decide_eq_false_2; tauto).
    destruct debug, js, c; cbn; (split; rewrite ?Hl; [by intros []|done|cbn; lia]).
  - assert (logs_to_file {| fl_Debug := debug; fl_LogfileName := name; fl_JsonLogger := js |} = true)
      as Hl by by apply bool_decide_eq_true_2.
    destruct debug, js; cbn in *; (destruct (OpenFile 0); [by destruct c|]);
      destruct c; cbn in *; (split; rewrite ?Hl; [by intros []|done|cbn; lia]).
Qed.

Lemma deliver_kills n sig p :
  going_on fl c n p → pg_ended p = None →
  pg_ended (deliver sig p) = if kills fl c sig then Some (Killed sig) else None.
Proof.
  intros [Hr _ _] Hp. destruct (Hr sig) as [H1 H2]. unfold deliver. rewrite Hp, H1, H2.
  unfold kills. destruct (logs_to_file fl), sig; cbn; repeat case_bool_decide; naive_solver.
Qed.

Lemma step_goes_on n e p p' :
  going_on fl c n p → program_step OpenFile fl e p = Some p' → pg_ended p' = None →
  going_on fl c (if decide (e = Reopens) then S n else n) p'.
Proof.
  intros [Hr Hf Hc] E Hp'. unfold program_step in E. destruct (pg_ended p) eqn:Hp; [done|].
  destruct e as [sig| |].
  - rewrite decide_False by done. injection E as <-. revert Hp'. unfold deliver. rewrite Hp.
    destruct (_ || _) eqn:El; [|done]. intros _. split; [exact Hr| |].
    + cbn. destruct (logs_to_file fl) eqn:Elog; [done|]. destruct Hf as (? & ? & ? & Eh).
      split_and!; [done..|]. unfold offer. destruct (Hr sig) as [-> _]. done.
    + split; [apply (offer_length sig hupChan)|apply (offer_length sig signalNotify)]; apply Hc.
  - rewrite decide_True by done. unfold hup_turn in E. rewrite Hp in E.
    destruct (pg_hups p) as [|h q] eqn:Eh; [done|]. injection E as <-. revert Hp'.
    unfold setLogOutput. cbn [pg_opened put_pg_channels].
    destruct (OpenFile (pg_opened p)); [done|]. intros _. split; [exact Hr| |].
    + destruct (logs_to_file fl); [|by destruct Hf as (_ & _ & _ & ?)]. destruct Hf as [-> _]. done.
    + cbn. cbn in Hc. lia.
  - rewrite decide_False by done. destruct (pg_signals p) as [|h q] eqn:Eh; [done|].
    injection E as <-. split; [exact Hr|exact Hf|]. cbn. cbn in Hc. lia.
Qed.

Lemma run_goes_on es n p p' :
  going_on fl c n p → program_run OpenFile fl es p = Some p' → pg_ended p' = None → going_on fl c (n + reopenings es) p'.
Proof.
  revert n p. induction es as [|e es IH]; intros n p Hg; cbn [program_run].
  - intros [= <-] _. unfold reopenings. cbn. by rewrite Nat.add_0_r.
  - destruct (program_step OpenFile fl e p) as [p1|] eqn:E; [|done]. cbn. intros Hrun Hp'.
    assert (pg_ended p1 = None) as Hp1.
    { destruct (pg_ended p1) eqn:E1; [|done]. destruct es as [|e' es]; cbn in Hrun; [congruence|].
      unfold program_step in Hrun. by rewrite E1 in Hrun. }
    pose proof (step_goes_on n e p p1 Hg E Hp1) as Hg1. specialize (IH _ p1 Hg1 Hrun Hp').
    cbn [reopenings foldr]. fold (reopenings es). destruct (decide (e = Reopens)); [|done].
    by rewrite Nat.add_succ_r.
Qed.

(** ** Properties *)

(** C34: which signals end the program.  In every state that a command reaches
    while signals arrive and are taken, an interrupt ends the program unless it
    serves, but no longer once a log file is given: then it only has the file
    reopened; SIGTERM ends it unless it serves, SIGHUP unless a log file is
    given.  The log goes to the file opened last, of the files opened - one for
    each time it was reopened - none is closed, and no channel of signals is
    overrun. *)
Theorem signals_end_program es p :
  program_run OpenFile fl es (started OpenFile fl c) = Some p → pg_ended p = None →
  (∀ sig, pg_ended (deliver sig p) = if kills fl c sig then Some (Killed sig) else None)
  ∧ (if logs_to_file fl then pg_opened p = S (reopenings es) ∧ pg_output p = LogFile (reopenings es)
     else pg_opened p = 0 ∧ reopenings es = 0 ∧ pg_output p = Stderr)
  ∧ length (pg_hups p) ≤ 1 ∧ length (pg_signals p) ≤ 2.
Proof.
  intros Hrun Hp. assert (going_on fl c (0 + reopenings es) p) as Hg.
  { apply (run_goes_on es 0 (started OpenFile fl c)); [|done..]. apply started_goes_on.
    destruct (pg_ended (started OpenFile fl c)) eqn:E; [|done].
    destruct es; cbn in Hrun; [congruence|]. unfold program_step in Hrun. by rewrite E in Hrun. }
  split; [intros sig; by apply (deliver_kills (reopenings es))|]. destruct Hg as [_ Hf Hc].
  split; [|done]. by destruct (logs_to_file fl); naive_solver.
Qed.
End run_properties.

Definition example_flags : flags :=
  {| fl_Debug := false; fl_LogfileName := "/var/log/poller.log"; fl_JsonLogger := false |}.

(** An interrupt of [endpoint] with a log file, twice. *)
Lemma signals_end_program_witness :
  ∃ p, program_run (λ _, None) example_flags [Arrives SIGINT; Reopens; Arrives SIGINT]
         (started (λ _, None) example_flags EndpointCmd) = Some p
    ∧ pg_ended (deliver SIGINT p) = None.
Proof.
  eexists. split; [reflexivity|].
  rewrite (proj1 (signals_end_program (λ _, None) example_flags EndpointCmd
    [Arrives SIGINT; Reopens; Arrives SIGINT] _ eq_refl eq_refl)).
  reflexivity.
Defined.

(** A service that was started runs one poller, whose context is done once it has
    been stopped; stopped before it was started, it panics. *)
Theorem service_stops configFilePath insecure s :
  (∀ i, i ∈ ctx_canceled (sv_contexts s) → i < ctx_next (sv_contexts s)) →
  runs (service_Start configFilePath insecure) s (λ _ t,
    ∃ ctx, sv_runs t = sv_runs s ++ [(Some ctx, configFilePath, insecure)]
      ∧ is_done (sv_contexts t) ctx = false
      ∧ runs service_Stop t (λ _ u, is_done (sv_contexts u) ctx = true ∧ sv_runs u = sv_runs t))
  ∧ (serviceCancel s = None → service_Stop s = Halt NilDeref s).
Proof.
  intros Hold. split.
  - unfold runs at 1. cbn -[is_done]. exists [ctx_next (sv_contexts s)]. split_and!; [done| |].
    + apply is_done_false. cbn. intros i Hi Hc. apply list_elem_of_singleton in Hi as ->.
      specialize (Hold _ Hc). lia.
    + unfold runs. cbn -[is_done]. split; [|done]. apply is_done_true. exists (ctx_next (sv_contexts s)).
      split; [by apply list_elem_of_singleton|cbn; set_solver].
  - intros E. unfold service_Stop. rewrite bind_app. cbn [gets]. by rewrite E.
Qed.
