(* ===== verification/Plugin.v ===== *)
(** Component: the run of a plugin check (src/check/check_plugin.go): the
    parsing of what the plugin prints, and what its process does, given as
    arguments. *)
From S2P Require Export CheckResult.

(** ** Regular expressions

    The three expressions of the file are anchored sequences of a literal, of
    white space and of groups; they are given as matchers that pass the rest of
    the text to a continuation, in the order of preference of the expression:
    [\s+] and [(.* )] are greedy, [(.*?)] is lazy. *)
Definition re_space (c : ascii) : bool :=
  let n := nat_of_ascii c in bool_decide (n = 9 ∨ n = 10 ∨ n = 12 ∨ n = 13 ∨ n = 32).
Definition re_dot (c : ascii) : bool := bool_decide (c ≠ ascii_of_nat 10).

Section matchers.
Context {R : Type}.

Fixpoint m_literal (lit : chars) (k : chars → option R) (l : chars) : option R :=
  match lit, l with
  | [], _ => k l
  | c :: lit', d :: l' => if bool_decide (c = d) then m_literal lit' k l' else None
  | _ :: _, [] => None
  end.

(** [p*] *)
Fixpoint m_greedy (p : ascii → bool) (k : chars → option R) (l : chars) : option R :=
  match l with
  | c :: l' =>
      if p c then match m_greedy p k l' with Some r => Some r | None => k l end else k l
  | [] => k []
  end.
(** [p+] *)
Definition m_greedy1 (p : ascii → bool) (k : chars → option R) (l : chars) : option R :=
  match l with
  | c :: l' => if p c then m_greedy p k l' else None
  | [] => None
  end.
(** [(.*?)], with the text of the group *)
Fixpoint m_lazy (k : chars → chars → option R) (group : chars) (l : chars) : option R :=
  match k group l with
  | Some r => Some r
  | None =>
      match l with
      | c :: l' => if re_dot c then m_lazy k (group ++ [c]) l' else None
      | [] => None
      end
  end.
(** [(.* )] at the end of an expression *)
Fixpoint m_rest (l : chars) : chars :=
  match l with
  | c :: l' => if re_dot c then c :: m_rest l' else []
  | [] => []
  end.
End matchers.

(** [^status\s+(err|warn|ok)\s+(.* )] *)
Definition status_word (w : string) (l : chars) : option (string * string) :=
  m_literal (to_chars w) (m_greedy1 re_space (λ rest, Some (w, of_chars (m_rest rest)))) l.
Definition statusRegex (line : string) : option (string * string) :=
  m_literal (to_chars "status") (m_greedy1 re_space (λ l,
    match status_word "err" l with
    | Some r => Some r
    | None => match status_word "warn" l with Some r => Some r | None => status_word "ok" l end
    end)) (to_chars line).

(** [^state\s+(.*?)]: the group is always empty. *)
Definition stateRegex (line : string) : bool :=
  match m_literal (to_chars "state") (m_greedy1 re_space Some) (to_chars line) with
  | Some _ => true
  | None => false
  end.

(** [^metric\s+(.*?)\s+(.*?)\s+(.* )] *)
Definition metricRegex (line : string) : option (string * string * string) :=
  m_literal (to_chars "metric") (m_greedy1 re_space (m_lazy (λ name,
    m_greedy1 re_space (m_lazy (λ unit,
      m_greedy1 re_space (λ rest, Some (of_chars name, of_chars unit, of_chars (m_rest rest))))
      [])) [])) (to_chars line).

(** ** A line of the output *)
(** The result set while its first result is filled: [cr] is that result. *)
Definition plugin_type (metricUnit : string) : option Z :=
  if bool_decide (metricUnit = "string") then Some MetricString
  else if bool_decide (metricUnit ∈ ["double"; "float"]) then Some MetricFloat
  else if bool_decide (metricUnit ∈ ["gauge"; "int"; "int32"; "uint32"; "int64"; "uint64"])
  then Some MetricNumber
  else None.

Definition status_line (line : string) (crs : ResultSet) : ResultSet :=
  match statusRegex line with
  | None => crs
  | Some (word, text) =>
      if bool_decide (to_lower word ∈ ["ok"; "warn"; "err"]) then on_states (SetStatus text) crs
      else on_states (SetStatus (Join [word; text] " ")) crs
  end.

Definition state_line (line : string) (crs : ResultSet) : ResultSet :=
  if stateRegex line then
    match Fields line with
    | _ :: field :: _ =>
        let state := to_lower field in
        if bool_decide (state = "available") then SetStateAvailable crs
        else if bool_decide (state = "unavailable") then SetStateUnavailable crs
        else crs
    | _ => crs
    end
  else crs.

Definition on_first (f : Result → Result) (crs : ResultSet) : ResultSet :=
  put_Metrics (alter f 0 (rs_Metrics crs)) crs.

Definition metric_line (line : string) (crs : ResultSet) : ResultSet :=
  match metricRegex line with
  | None => crs
  | Some (metricName, unit, metricValue) =>
      let metricUnit := to_lower unit in
      match plugin_type metricUnit with
      | None => crs
      | Some pollerType =>
          on_first (AddMetric (NewMetric metricName "" pollerType (VString metricValue) metricUnit)) crs
      end
  end.

Definition handle_line (crs : ResultSet) (text : string) : ResultSet :=
  let line := TrimSpace text in
  metric_line line (state_line line (status_line line crs)).

(** ** The lines of the output, as [bufio.Scanner] cuts them *)
Definition MaxScanTokenSize : nat := 64 * 1024.

Fixpoint scan_from (line : chars) (l : chars) : list chars :=
  match l with
  | [] => if bool_decide (line = []) then [] else [line]
  | c :: l' =>
      if bool_decide (c = ascii_of_nat 10) then line :: scan_from [] l'
      else scan_from (line ++ [c]) l'
  end.
(** A carriage return at the end of a line is dropped. *)
Definition dropCR (line : chars) : chars :=
  match reverse line with
  | c :: l => if bool_decide (c = ascii_of_nat 13) then reverse l else line
  | [] => line
  end.
(** The scan stops at a line that does not fit its buffer. *)
Fixpoint fitting (lines : list chars) : list chars :=
  match lines with
  | line :: lines' =>
      if bool_decide (length line < MaxScanTokenSize) then dropCR line :: fitting lines' else []
  | [] => []
  end.
Definition scan (output : string) : list string := of_chars <$> fitting (scan_from [] (to_chars output)).

Definition handleStdout (output : string) (crs : ResultSet) : ResultSet :=
  foldl handle_line crs (scan output).

(** ** The run *)
Definition ErrorPluginExit : string := "Plugin exited with non-zero status code".

Definition plugin_environment (ch : Check) (environ : list string) : list string :=
  environ ++ [("RAX_CHECK_ID=" +:+ GetID ch)%string;
              ("RAX_CHECK_PERIOD=" +:+ pretty (GetPeriod ch))%string;
              ("RAX_CHECK_TYPE=" +:+ GetCheckType ch)%string].

Definition plugin_timeout (ch : Check) (d : PluginCheckDetails) : Duration :=
  let timeout := to_u64 (pd_Timeout d) in
  let timeout := if bool_decide (timeout = 0%Z) then GetTimeout ch else timeout in
  to_i64 (to_i64 timeout * Second).

(** What happens to the process: its pipe or its start fails, or it prints and
    ends, with an error when it is killed or its status is not 0. *)
Inductive plugin_process :=
| PipeFails (err : error)
| StartFails
| Prints (output : string) (failed : bool).

(** [start file args environment timeout] *)
Definition plugin_Run (start : string → list string → list string → Duration → plugin_process)
    (environ : list string) (b : Base) (d : PluginCheckDetails) : ResultSet :=
  let ch := PluginCheck b d in
  let crs := SetStateAvailable (NewResultSet ch (Some (NewResult []))) in
  match start (File d) (Args d) (plugin_environment ch environ) (plugin_timeout ch d) with
  | PipeFails err => on_states (SetStatus err) (SetStateUnavailable crs)
  | StartFails => on_states (SetStatus ErrorPluginExit) (SetStateUnavailable crs)
  | Prints output failed =>
      let crs := handleStdout output crs in
      if failed then on_states (SetStatus ErrorPluginExit) (SetStateUnavailable crs) else crs
  end.

(** ** The matchers *)
Section matcher_lemmas.
Context {R : Type}.
Implicit Types (k : chars → option R).

Lemma m_literal_app lit k l : m_literal lit k (lit ++ l) = k l.
Proof. induction lit as [|c lit IH]; cbn; [done|]. by rewrite bool_decide_true. Qed.

(** A text that does not start in [p]. *)
Definition starts_outside (p : ascii → bool) (l : chars) : Prop :=
  match l with c :: _ => p c = false | [] => True end.

Lemma m_greedy_stops p k l : starts_outside p l → m_greedy p k l = k l.
Proof. destruct l as [|c l]; cbn; [done|]. by intros ->. Qed.

Lemma m_greedy_app p k ws l r :
  Forall (λ c, p c = true) ws → starts_outside p l → k l = Some r → m_greedy p k (ws ++ l) = Some r.
Proof.
  intros Hws Hl Hk. induction Hws as [|c ws Hc Hws IH]; cbn [app m_greedy].
  - by rewrite m_greedy_stops.
  - by rewrite Hc, IH.
Qed.

Lemma m_greedy1_app p k ws l r :
  ws ≠ [] → Forall (λ c, p c = true) ws → starts_outside p l → k l = Some r →
  m_greedy1 p k (ws ++ l) = Some r.
Proof.
  intros Hne Hws Hl Hk. destruct Hws as [|c ws Hc Hws]; [done|]. cbn. rewrite Hc.
  by apply m_greedy_app.
Qed.

(** A lazy group takes a word when what follows cannot match inside of it. *)
Lemma m_lazy_word (k : chars → chars → option R) g w l r :
  Forall (λ c, re_dot c = true) w → (∀ g' c l', c ∈ w → k g' (c :: l') = None) →
  k (g ++ w) l = Some r → m_lazy k g (w ++ l) = Some r.
Proof.
  intros Hw Hk. revert g. induction Hw as [|c w Hc Hw IH]; intros g Hr; cbn [app m_lazy].
  - rewrite app_nil_r in Hr. by destruct l; cbn; rewrite Hr.
  - rewrite Hk by left. rewrite Hc. apply IH; [|by rewrite <- app_assoc].
    intros g' c' l' Hin. apply Hk. by right.
Qed.

Lemma m_rest_all l : Forall (λ c, re_dot c = true) l → m_rest l = l.
Proof. induction 1 as [|c l Hc _ IH]; cbn; [done|]. by rewrite Hc, IH. Qed.
End matcher_lemmas.

(** A word has no white space, a gap nothing else. *)
Definition word (w : chars) : Prop := w ≠ [] ∧ Forall (λ c, re_space c = false) w.
Definition gap (ws : chars) : Prop := ws ≠ [] ∧ Forall (λ c, re_space c = true) ws.

Lemma space_dot c : re_space c = false → re_dot c = true.
Proof.
  unfold re_space, re_dot. rewrite bool_decide_eq_true, bool_decide_eq_false. intros H ->. by apply H; right; left.
Qed.

Lemma word_starts w l : word w → starts_outside re_space (w ++ l).
Proof. intros [Hne Hw]. by destruct Hw. Qed.

Lemma lazy_word {R} (k : chars → chars → option R) w l r :
  word w → (∀ g c l', re_space c = false → k g (c :: l') = None) → k w l = Some r →
  m_lazy k [] (w ++ l) = Some r.
Proof.
  intros [_ Hw] Hk Hr. rewrite Forall_forall in Hw. apply m_lazy_word; [|by eauto|done].
  rewrite Forall_forall. intros c Hc. by apply space_dot, Hw.
Qed.

(** A metric that a plugin prints is read back.  Of a line made of "metric",
    a name and a unit without white space, and a value that does not start with
    white space and stays on the line, whatever the white space between them,
    the expression gives exactly the name, the unit and the value. *)
Theorem metric_line_read g1 name g2 unit g3 value :
  gap g1 → word name → gap g2 → word unit → gap g3 →
  starts_outside re_space value → Forall (λ c, re_dot c = true) value →
  metricRegex (of_chars (to_chars "metric" ++ g1 ++ name ++ g2 ++ unit ++ g3 ++ value))
    = Some (of_chars name, of_chars unit, of_chars value).
Proof.
  intros [Hg1 Hs1] Hname [Hg2 Hs2] Hunit [Hg3 Hs3] Hv Hvd. unfold metricRegex.
  rewrite to_of_chars, m_literal_app.
  apply m_greedy1_app; [done..|by apply word_starts|].
  apply lazy_word; [done|intros g c l' Hc; cbn; by rewrite Hc|].
  apply m_greedy1_app; [done..|by apply word_starts|].
  apply lazy_word; [done|intros g c l' Hc; cbn; by rewrite Hc|].
  apply m_greedy1_app; [done..|]. by rewrite m_rest_all.
Qed.

Lemma metric_line_read_witness :
  metricRegex "metric  load1 double 0.5 x" = Some ("load1", "double", "0.5 x").
Proof.
  apply (metric_line_read (to_chars "  ") (to_chars "load1") (to_chars " ") (to_chars "double")
    (to_chars " ") (to_chars "0.5 x")); repeat split; first [discriminate|repeat constructor].
Defined.

(** ** What a run reports *)

(** What a line says of the state and of the metrics. *)
Definition state_said (line : string) : option bool :=
  if stateRegex line then
    match Fields line with
    | _ :: field :: _ =>
        if bool_decide (to_lower field = "available") then Some true
        else if bool_decide (to_lower field = "unavailable") then Some false else None
    | _ => None
    end
  else None.
Definition status_said (line : string) : option string := snd <$> statusRegex line.
Definition metric_said (line : string) : option Metric :=
  '(name, unit, v) ← metricRegex line;
  t ← plugin_type (to_lower unit);
  Some (NewMetric name "" t (VString v) (to_lower unit)).

Lemma m_greedy_inv {R} p (k : chars → option R) l r :
  m_greedy p k l = Some r → ∃ l', k l' = Some r.
Proof.
  induction l as [|c l IH]; cbn; [by eauto|]. destruct (p c); [|by eauto].
  destruct (m_greedy p k l); [intros [= ->]; by apply IH|by eauto].
Qed.
Lemma m_greedy1_inv {R} p (k : chars → option R) l r :
  m_greedy1 p k l = Some r → ∃ l', k l' = Some r.
Proof. destruct l as [|c l]; cbn; [done|]. destruct (p c); [|done]. apply m_greedy_inv. Qed.
Lemma m_literal_inv {R} lit (k : chars → option R) l r :
  m_literal lit k l = Some r → ∃ l', k l' = Some r.
Proof.
  revert l. induction lit as [|c lit IH]; intros l; cbn; [by eauto|].
  destruct l as [|d l]; [done|]. case_bool_decide; [apply IH|done].
Qed.

Lemma status_word_is w l r : status_word w l = Some r → r.1 = w.
Proof. intros (l' & (l'' & [= <-])%m_greedy1_inv)%m_literal_inv. done. Qed.

(** The group of the status expression decides the word: the other branch of
    the switch on it is dead. *)
Lemma status_words line r : statusRegex line = Some r → r.1 ∈ ["ok"; "warn"; "err"].
Proof.
  intros (l & (l' & E)%m_greedy1_inv)%m_literal_inv.
  destruct (status_word "err" l') eqn:E1; [simplify_eq; apply status_word_is in E1 as ->; set_solver|].
  destruct (status_word "warn" l') eqn:E2; [simplify_eq; apply status_word_is in E2 as ->; set_solver|].
  apply status_word_is in E as ->. set_solver.
Qed.

Lemma status_line_spec line crs :
  status_line line crs =
    match status_said line with Some text => on_states (SetStatus text) crs | None => crs end.
Proof.
  unfold status_line, status_said. destruct (statusRegex line) as [[w text]|] eqn:E; [|done].
  apply status_words in E. cbn in *. rewrite bool_decide_true; [done|].
  repeat (apply elem_of_cons in E as [->|E]; [vm_compute; set_solver|]). by apply elem_of_nil in E.
Qed.

Definition set_said (said : option bool) (crs : ResultSet) : ResultSet :=
  match said with
  | Some true => SetStateAvailable crs
  | Some false => SetStateUnavailable crs
  | None => crs
  end.
Lemma state_line_spec line crs : state_line line crs = set_said (state_said line) crs.
Proof.
  unfold state_line, state_said. destruct (stateRegex line); [|done].
  destruct (Fields line) as [|x [|field fs]]; [done..|]. by repeat case_bool_decide.
Qed.

Lemma metric_line_spec line crs :
  metric_line line crs =
    match metric_said line with Some m => on_first (AddMetric m) crs | None => crs end.
Proof.
  unfold metric_line, metric_said. destruct (metricRegex line) as [[[name unit] v]|]; [|done]. cbn.
  by destruct (plugin_type (to_lower unit)).
Qed.

(** The result set of a plugin whose lines were [lines]. *)
Definition plugin_lines (output : string) : list string := TrimSpace <$> scan output.
Definition said_status (lines : list string) : string :=
  match last (omap status_said lines) with
  | Some text => crop DefaultStatusLimit text
  | None => StatusUnknownError
  end.
Definition said_available (lines : list string) : bool := default true (last (omap state_said lines)).
Definition reported (ch : Check) (lines : list string) : ResultSet := {|
  rs_States := {| State := if said_available lines then StateAvailable else StateUnavailable;
                  Status := said_status lines |};
  rs_Check := ch;
  rs_Metrics := [NewResult (omap metric_said lines)];
  rs_Available := said_available lines
|}.

Lemma reported_snoc ch lines line :
  metric_line line (state_line line (status_line line (reported ch lines)))
    = reported ch (lines ++ [line]).
Proof.
  rewrite metric_line_spec, state_line_spec, status_line_spec.
  unfold reported, said_status, said_available. rewrite !omap_app, !last_app. cbn [omap list_omap].
  destruct (status_said line), (state_said line) as [[]|], (metric_said line); cbn;
    unfold on_first, put_Metrics, NewResult, AddMetrics; cbn; rewrite ?app_nil_r, ?foldl_app; done.
Qed.

Lemma handleStdout_spec ch output :
  handleStdout output (SetStateAvailable (NewResultSet ch (Some (NewResult []))))
    = reported ch (plugin_lines output).
Proof.
  unfold handleStdout, plugin_lines. induction (scan output) as [|text l IH] using rev_ind; [done|].
  rewrite foldl_snoc, IH, fmap_app. unfold handle_line. by rewrite reported_snoc.
Qed.

(** C31: what a plugin check reports.  A plugin that runs and ends well has the
    status of its last status line, cut to the limit, or "unknown error" when it
    prints none; it is available unless its last state line says otherwise, a
    status of err or warn does not count; under each name there is the last
    metric printed with a known unit.  When it fails, the metrics stay, the
    check is unavailable and the status says so; when it cannot be started it
    is unavailable. *)
Theorem plugin_run_spec start environ b d :
  let ch := PluginCheck b d in
  plugin_Run start environ b d =
    match start (File d) (Args d) (plugin_environment ch environ) (plugin_timeout ch d) with
    | Prints output false => reported ch (plugin_lines output)
    | Prints output true => {|
        rs_States := {| State := StateUnavailable; Status := ErrorPluginExit |};
        rs_Check := ch; rs_Metrics := [NewResult (omap metric_said (plugin_lines output))];
        rs_Available := false |}
    | StartFails => {|
        rs_States := {| State := StateUnavailable; Status := ErrorPluginExit |};
        rs_Check := ch; rs_Metrics := [NewResult []]; rs_Available := false |}
    | PipeFails err => {|
        rs_States := {| State := StateUnavailable; Status := crop DefaultStatusLimit err |};
        rs_Check := ch; rs_Metrics := [NewResult []]; rs_Available := false |}
    end.
Proof.
  intros ch. unfold plugin_Run. fold ch. destruct (start _ _ _ _) as [err| |output failed]; [done..|].
  rewrite handleStdout_spec. by destruct failed.
Qed.
