(* ===== verification/Connection.v ===== *)
(** Component: connections.  A poller's connection to an endpoint
    (src/poller/connection.go), the endpoint's wrapper that manages deadlines
    and heartbeats (src/utils/smart_conn.go), and the blocking buffer of the
    tests (src/utils/io.go).  Dialing is an argument. *)
From S2P Require Export Runtime GoStrings.

(** ** Sockets

    The dynamic type of a [net.Conn]: a TCP connection, one of TLS, another
    one, or the nil pointer to a TLS connection that a failed dial returns. *)
Inductive conn_type := TCPConn | TLSConn | OtherConn | NilTLSConn.
#[export] Instance conn_type_eq_dec : EqDecision conn_type.
Proof. solve_decision. Defined.

Record net_conn := {
  nc_type : conn_type;
  nc_readDeadline : option Z;
  nc_writeDeadline : option Z
}.
Definition new_conn (t : conn_type) : net_conn :=
  {| nc_type := t; nc_readDeadline := None; nc_writeDeadline := None |}.
Definition put_readDeadline (d : option Z) (c : net_conn) : net_conn :=
  {| nc_type := nc_type c; nc_readDeadline := d; nc_writeDeadline := nc_writeDeadline c |}.
Definition put_writeDeadline (d : option Z) (c : net_conn) : net_conn :=
  {| nc_type := nc_type c; nc_readDeadline := nc_readDeadline c; nc_writeDeadline := d |}.

(** ** A connection of the poller *)

(** What a connection uses of its session. *)
Class PollerSession (S : Type) := {
  session_GetClockOffset : S → Z;
  session_GetLatency : S → Z;
  session_HasLatencyMeasurements : S → bool;
  session_Close : S → S
}.

Record counters := { attempts : nat; connections : nat; disconnects : nat }.

Section connection.
Context {Sess : Type} `{!PollerSession Sess}.

(** [authenticated] says whether that channel has been closed; the counters
    are those of the address. *)
Record EleConnection := {
  ec_session : option Sess;
  ec_conn : option net_conn;
  ec_address : string;
  ec_guid : string;
  connectionTimeout : Duration;
  authenticated : bool;
  ec_counters : counters
}.

Definition NewConnection (address guid : string) (c : counters) : EleConnection := {|
  ec_session := None; ec_conn := None; ec_address := address; ec_guid := guid;
  connectionTimeout := 10 * Second; authenticated := false; ec_counters := c
|}.

Definition put_session (s : option Sess) (c : EleConnection) : EleConnection :=
  {| ec_session := s; ec_conn := ec_conn c; ec_address := ec_address c; ec_guid := ec_guid c;
     connectionTimeout := connectionTimeout c; authenticated := authenticated c;
     ec_counters := ec_counters c |}.
Definition put_conn (x : option net_conn) (c : EleConnection) : EleConnection :=
  {| ec_session := ec_session c; ec_conn := x; ec_address := ec_address c; ec_guid := ec_guid c;
     connectionTimeout := connectionTimeout c; authenticated := authenticated c;
     ec_counters := ec_counters c |}.
Definition put_authenticated (c : EleConnection) : EleConnection :=
  {| ec_session := ec_session c; ec_conn := ec_conn c; ec_address := ec_address c;
     ec_guid := ec_guid c; connectionTimeout := connectionTimeout c; authenticated := true;
     ec_counters := ec_counters c |}.
Definition count (f : counters → counters) (c : EleConnection) : EleConnection :=
  {| ec_session := ec_session c; ec_conn := ec_conn c; ec_address := ec_address c;
     ec_guid := ec_guid c; connectionTimeout := connectionTimeout c;
     authenticated := authenticated c; ec_counters := f (ec_counters c) |}.
Definition one_attempt (k : counters) : counters :=
  {| attempts := S (attempts k); connections := connections k; disconnects := disconnects k |}.
Definition one_connection (k : counters) : counters :=
  {| attempts := attempts k; connections := S (connections k); disconnects := disconnects k |}.
Definition one_disconnect (k : counters) : counters :=
  {| attempts := attempts k; connections := connections k; disconnects := S (disconnects k) |}.

Definition GetGUID : go EleConnection string := gets ec_guid.
Definition GetSession : go EleConnection (option Sess) := gets ec_session.
Definition of_session {A} (f : Sess → A) : go EleConnection A :=
  s ← gets ec_session; s ← deref s; mret (f s).
Definition GetClockOffset : go EleConnection Z := of_session session_GetClockOffset.
Definition GetLatency : go EleConnection Z := of_session session_GetLatency.
Definition HasLatencyMeasurements : go EleConnection bool := of_session session_HasLatencyMeasurements.

(** [conn.conn.( *net.TCPConn)] *)
Definition on_tcp (f : net_conn → net_conn) : go EleConnection unit :=
  c ← gets ec_conn;
  match c with
  | Some socket => when (bool_decide (nc_type socket = TCPConn)) (modify (put_conn (Some (f socket))))
  | None => mret ()
  end.
Definition SetReadDeadline (deadline : Z) : go EleConnection unit :=
  on_tcp (put_readDeadline (Some deadline)).
Definition SetWriteDeadline (deadline : Z) : go EleConnection unit :=
  on_tcp (put_writeDeadline (Some deadline)).

Definition ErrUndefinedContext : error := "Context is undefined".

(** The dials: through a proxy, giving a connection of some type; of TLS; and
    of TCP.  [timeout] is that of the dialer. *)
Record dialer := {
  DialViaProxy : string → string → conn_type + error;
  tls_Dial : string → Duration → option error;
  net_Dial : string → Duration → option error
}.

Definition dial (dl : dialer) (proxyUrl : option string) (tls : bool)
    : go EleConnection (option error) :=
  address ← gets ec_address;
  timeout ← gets connectionTimeout;
  let proxied := match proxyUrl with Some u => Some (DialViaProxy dl u address) | None => None end in
  match proxied with
  | Some (inr err) => mret (Some err)
  | Some (inl t) =>
      modify (put_conn (Some (new_conn (if tls then TLSConn else t))));; mret None
  | None =>
      if tls then
        match tls_Dial dl address timeout with
        | Some err => modify (put_conn (Some (new_conn NilTLSConn)));; mret (Some err)
        | None => modify (put_conn (Some (new_conn TLSConn)));; mret None
        end
      else
        match net_Dial dl address timeout with
        | Some err => modify (put_conn None);; mret (Some err)
        | None => modify (put_conn (Some (new_conn TCPConn)));; mret None
        end
  end.

(** [newSession] is the session [NewSession] makes. *)
Definition Connect (dl : dialer) (newSession : Sess) (ctx : option Context)
    (proxyUrl : option string) (tls : bool) : go EleConnection (option error) :=
  match ctx with
  | None => mret (Some ErrUndefinedContext)
  | Some _ =>
      modify (count one_attempt);;
      err ← dial dl proxyUrl tls;
      match err with
      | Some err => mret (Some err)
      | None =>
          modify (put_session (Some newSession));;
          modify (count one_connection);;
          mret None
      end
  end.

Definition Close : go EleConnection unit :=
  c ← gets ec_conn;
  match c with
  | Some socket =>
      modify (count one_disconnect);;
      if bool_decide (nc_type socket = NilTLSConn) then halt NilDeref
      else modify (put_conn None)
  | None => mret ()
  end;;
  s ← gets ec_session;
  s ← deref s;
  modify (put_session (Some (session_Close s))).

Definition SetAuthenticated : go EleConnection unit :=
  closed ← gets authenticated;
  if closed : bool then halt CloseOfClosed else modify put_authenticated.
End connection.
Arguments EleConnection : clear implicits.

(** ** The wrapper of the endpoint *)

(** [now] is the clock, in nanoseconds; writing and the error of the managed
    connection are arguments.  [sc_started] says whether the encoder is there. *)
Record SmartConn := {
  managedConn : net_conn;
  sc_written : list string;
  encoder : bool;
  WriteAllowance : Duration;
  ReadKeepalive : Duration;
  HeartbeatSender : bool;
  HeartbeatSendInterval : Duration;
  heartbeatTimer : option Timer
}.
Definition put_managed (x : net_conn) (c : SmartConn) : SmartConn :=
  {| managedConn := x; sc_written := sc_written c; encoder := encoder c;
     WriteAllowance := WriteAllowance c; ReadKeepalive := ReadKeepalive c;
     HeartbeatSender := HeartbeatSender c; HeartbeatSendInterval := HeartbeatSendInterval c;
     heartbeatTimer := heartbeatTimer c |}.
Definition put_sc_written (x : list string) (c : SmartConn) : SmartConn :=
  {| managedConn := managedConn c; sc_written := x; encoder := encoder c;
     WriteAllowance := WriteAllowance c; ReadKeepalive := ReadKeepalive c;
     HeartbeatSender := HeartbeatSender c; HeartbeatSendInterval := HeartbeatSendInterval c;
     heartbeatTimer := heartbeatTimer c |}.
Definition put_encoder (c : SmartConn) : SmartConn :=
  {| managedConn := managedConn c; sc_written := sc_written c; encoder := true;
     WriteAllowance := WriteAllowance c; ReadKeepalive := ReadKeepalive c;
     HeartbeatSender := HeartbeatSender c; HeartbeatSendInterval := HeartbeatSendInterval c;
     heartbeatTimer := heartbeatTimer c |}.
Definition put_timer (t : option Timer) (c : SmartConn) : SmartConn :=
  {| managedConn := managedConn c; sc_written := sc_written c; encoder := encoder c;
     WriteAllowance := WriteAllowance c; ReadKeepalive := ReadKeepalive c;
     HeartbeatSender := HeartbeatSender c; HeartbeatSendInterval := HeartbeatSendInterval c;
     heartbeatTimer := t |}.

Definition NewSmartConn (c : net_conn) : SmartConn := {|
  managedConn := c; sc_written := []; encoder := false; WriteAllowance := 0; ReadKeepalive := 0;
  HeartbeatSender := false; HeartbeatSendInterval := 0; heartbeatTimer := None
|}.

Definition ReadKeepaliveTolerance : Z := 2.
Definition read_allowance (keepalive : Duration) : Duration :=
  to_i64 (keepalive + Z.quot keepalive ReadKeepaliveTolerance).

(** [deadline_error] is the error of setting a deadline. *)
Definition observedRead (now : Z) (deadline_error : option error) : go SmartConn (option error) :=
  keepalive ← gets ReadKeepalive;
  if bool_decide (0 < keepalive)%Z then
    match deadline_error with
    | Some err => mret (Some err)
    | None =>
        modify (λ c, put_managed (put_readDeadline (Some (now + read_allowance keepalive)%Z)
          (managedConn c)) c);;
        mret None
    end
  else mret None.

Definition smart_Start (now : Z) (deadline_error : option error) : go SmartConn (option error) :=
  modify put_encoder;;
  keepalive ← gets ReadKeepalive;
  err ← (if bool_decide (keepalive ≠ 0%Z) then observedRead now deadline_error else mret None);
  match err with
  | Some err => mret (Some err)
  | None =>
      c ← get;
      when (bool_decide (HeartbeatSendInterval c ≠ 0%Z) && HeartbeatSender c)
        (modify (put_timer (Some (Armed (HeartbeatSendInterval c)))));;
      mret None
  end.

(** The timer is one of [time.AfterFunc]: its channel is nil, and receiving
    from it blocks for ever. *)
Definition pause_heartbeat : go SmartConn unit :=
  t ← gets heartbeatTimer;
  match t with
  | None => mret ()
  | Some t =>
      let '(stopped, t') := timer_stop t in
      modify (put_timer (Some t'));;
      if stopped : bool then mret () else halt Blocked
  end.
Definition resume_heartbeat : go SmartConn unit :=
  t ← gets heartbeatTimer;
  match t with
  | None => mret ()
  | Some t => modify (λ c, put_timer (Some (timer_reset (HeartbeatSendInterval c) t)) c)
  end.

Definition set_write_deadline (d : option Z) : go SmartConn unit :=
  allowance ← gets WriteAllowance;
  when (bool_decide (0 < allowance)%Z)
    (modify (λ c, put_managed (put_writeDeadline d (managedConn c)) c)).

(** [Write]: [write] is the write of the managed connection.  The deferred calls
    clear the deadline and then restart the timer. *)
Definition smart_Write (now : Z) (write : net_conn → option error) (p : string)
    : go SmartConn (option error) :=
  pause_heartbeat;;
  allowance ← gets WriteAllowance;
  set_write_deadline (Some (now + allowance)%Z);;
  conn ← gets managedConn;
  err ← match write conn with
        | Some err => mret (Some err)
        | None => modify (λ c, put_sc_written (sc_written c ++ [p]) c);; mret None
        end;
  set_write_deadline None;;
  resume_heartbeat;;
  mret err.

Definition smart_Close : go SmartConn unit :=
  t ← gets heartbeatTimer;
  match t with
  | Some t => modify (put_timer (Some (timer_stop t).2))
  | None => mret ()
  end.

(** The function of the timer: [sender] is what the [HeartbeatSender] does. *)
Definition heartbeat (sender : go SmartConn unit) : go SmartConn unit :=
  modify (put_timer (Some Fired));;
  sender;;
  modify (λ c, put_timer (Some (timer_reset (HeartbeatSendInterval c) Fired)) c).

Definition smart_Read (now : Z) (deadline_error : option error) : go SmartConn unit :=
  observedRead now deadline_error;; mret ().

(** ** The blocking buffer *)
Record BlockingReadBuffer := { bb_Buffer : chars; bb_closed : bool }.
Definition NewBlockingReadBuffer : BlockingReadBuffer := {| bb_Buffer := []; bb_closed := false |}.
Definition put_buffer (l : chars) (b : BlockingReadBuffer) : BlockingReadBuffer :=
  {| bb_Buffer := l; bb_closed := bb_closed b |}.

(** [Read] into [n] bytes: the bytes, or [None] for the end.  While the buffer is
    open and empty the caller waits. *)
Definition bb_Read (n : nat) : go BlockingReadBuffer (option chars) :=
  b ← get;
  if bb_closed b then mret None
  else if bool_decide (bb_Buffer b = []) then halt Blocked
  else modify (put_buffer (drop n (bb_Buffer b)));; mret (Some (take n (bb_Buffer b))).
Definition ReadReady : go BlockingReadBuffer bool := gets (λ b, negb (bool_decide (bb_Buffer b = []))).
Definition bb_Write (p : chars) : go BlockingReadBuffer nat :=
  modify (λ b, put_buffer (bb_Buffer b ++ p) b);; mret (length p).
Definition bb_Close : go BlockingReadBuffer unit :=
  modify (λ b, {| bb_Buffer := bb_Buffer b; bb_closed := true |}).

(** ** Properties *)
Section connection_properties.
Context {Sess : Type} `{!PollerSession Sess}.
Implicit Types (c : EleConnection Sess).

(** The type of the connection a dial makes, or its error. *)
Definition dialed (dl : dialer) (c : EleConnection Sess) (proxyUrl : option string) (tls : bool)
    : conn_type + error :=
  match proxyUrl with
  | Some u =>
      match DialViaProxy dl u (ec_address c) with
      | inl t => inl (if tls then TLSConn else t)
      | inr err => inr err
      end
  | None =>
      match (if tls then tls_Dial dl else net_Dial dl) (ec_address c) (connectionTimeout c) with
      | Some err => inr err
      | None => inl (if tls then TLSConn else TCPConn)
      end
  end.

Lemma connect_cases dl s ctx proxyUrl tls c :
  match dialed dl (count one_attempt c) proxyUrl tls with
  | inl t => Connect dl s (Some ctx) proxyUrl tls c = Ret None (count one_connection
      (put_session (Some s) (put_conn (Some (new_conn t)) (count one_attempt c))))
  | inr err => ∃ c', Connect dl s (Some ctx) proxyUrl tls c = Ret (Some err) c'
      ∧ ec_session c' = ec_session c ∧ ec_counters c' = one_attempt (ec_counters c)
      ∧ (proxyUrl = None → ec_conn c' = if tls then Some (new_conn NilTLSConn) else None)
  end.
Proof.
  unfold Connect, dial, dialed, mbind, go_bind, gets, modify. cbn.
  destruct proxyUrl as [u|]; [destruct (DialViaProxy _ _ _) as [t|err]; [done|by eexists]|].
  by destruct tls; [destruct (tls_Dial _ _ _) as [err|]|destruct (net_Dial _ _ _) as [err|]];
    try done; eexists.
Qed.

(** A deadline only takes effect on a plain TCP connection.  After a
    connection has been made, setting its read or its write deadline sets it
    when the connection is one of TCP, and does nothing at all when it is one
    of TLS, which it is unless the configuration asks for clear text. *)
Theorem deadlines_need_tcp dl s ctx proxyUrl tls c c' d :
  Connect dl s (Some ctx) proxyUrl tls c = Ret None c' →
  ∃ socket, ec_conn c' = Some socket
    ∧ (tls = true → nc_type socket = TLSConn)
    ∧ (nc_type socket = TCPConn →
         SetReadDeadline d c' = Ret () (put_conn (Some (put_readDeadline (Some d) socket)) c')
         ∧ SetWriteDeadline d c' = Ret () (put_conn (Some (put_writeDeadline (Some d) socket)) c'))
    ∧ (nc_type socket ≠ TCPConn → SetReadDeadline d c' = Ret () c' ∧ SetWriteDeadline d c' = Ret () c').
Proof.
  intros E. pose proof (connect_cases dl s ctx proxyUrl tls c) as Hc.
  destruct (dialed dl (count one_attempt c) proxyUrl tls) as [t|err] eqn:Hd.
  2:{ destruct Hc as (c'' & E' & _). congruence. }
  rewrite E in Hc. injection Hc as ->. exists (new_conn t). split; [done|]. cbn [nc_type new_conn].
  split.
  { intros ->. unfold dialed in Hd. destruct proxyUrl as [u|].
    - destruct (DialViaProxy _ _ _); congruence.
    - destruct (tls_Dial _ _ _); congruence. }
  by destruct t.
Qed.

(** Closing a connection ends the poller exactly when it has no session or
    its last dial of TLS failed; otherwise the connection is gone and the
    session closed, and a connection that was there is counted. *)
Theorem close_panics_iff c :
  (returns (Close c) = false ↔
     ec_session c = None ∨ ∃ socket, ec_conn c = Some socket ∧ nc_type socket = NilTLSConn)
  ∧ ∀ c', Close c = Ret () c' → ec_conn c' = None ∧ ec_session c' = session_Close <$> ec_session c
      ∧ disconnects (ec_counters c') = disconnects (ec_counters c) + (if ec_conn c is Some _ then 1 else 0).
Proof.
  unfold Close, mbind, go_bind, gets, modify, deref, halt. cbn.
  destruct (ec_conn c) as [socket|] eqn:Ec.
  - destruct (decide (nc_type socket = NilTLSConn)) as [Ht|Ht].
    { rewrite bool_decide_true by done. split; [|done]. split; [|done]. intros _. right. by exists socket. }
    rewrite bool_decide_false by done. cbn. destruct (ec_session c) as [s|] eqn:Es; cbn.
    + split; [split; [done|intros [?|(k & [= <-] & ?)]; done]|].
      intros c' [= <-]. cbn. split_and!; [done..|lia].
    + split; [|done]. split; [by left|done].
  - cbn. destruct (ec_session c) as [s|] eqn:Es; cbn.
    + split; [split; [done|intros [?|(k & ? & ?)]; done]|].
      intros c' [= <-]. cbn. split_and!; [done..|lia].
    + split; [|done]. split; [by left|done].
Qed.
End connection_properties.

(** C35: the heartbeat of the wrapper cannot write.  A write blocks exactly when
    there is a timer that is not armed: the code then receives from the channel
    of the timer, which such a timer does not have.  While the function of the
    timer runs it is not, so a sender that writes to its connection never
    returns, nor does any other write meanwhile. *)
Theorem write_blocks_iff now write p c :
  (returns (smart_Write now write p c) = false ↔ ∃ t, heartbeatTimer c = Some t ∧ (timer_stop t).1 = false)
  ∧ returns (heartbeat (smart_Write now write p;; mret ()) c) = false.
Proof.
  assert (∀ c, returns (smart_Write now write p c) = false
    ↔ ∃ t, heartbeatTimer c = Some t ∧ (timer_stop t).1 = false) as Hiff.
  { clear c. intros c. unfold smart_Write. rewrite bind_app. unfold pause_heartbeat. rewrite bind_app.
    cbn [gets]. destruct (heartbeatTimer c) as [t|] eqn:Ht.
    - destruct (timer_stop t) as [[] t'] eqn:Hs; cbn.
      + split; [|intros (t0 & [= <-] & E); by rewrite Hs in E].
        unfold set_write_deadline, resume_heartbeat, mbind, go_bind, when, gets, modify. cbn.
        repeat (case_match; cbn); done.
      + split; [|done]. intros _. exists t. by rewrite Hs.
    - cbn. split; [|by intros (? & ? & _)].
      unfold set_write_deadline, resume_heartbeat, mbind, go_bind, when, gets, modify. cbn.
      repeat (case_match; cbn); done. }
  split; [apply Hiff|]. unfold heartbeat. rewrite bind_app. cbn [modify]. rewrite !bind_app.
  assert (returns (smart_Write now write p (put_timer (Some Fired) c)) = false) as Hb.
  { apply Hiff. by exists Fired. }
  by destruct (smart_Write now write p (put_timer (Some Fired) c)).
Qed.

(** Operations on a buffer that stays open. *)
Inductive buffer_op := BWrite (p : chars) | BRead (n : nat).
Definition bb_do (op : buffer_op) : go BlockingReadBuffer chars :=
  match op with
  | BWrite p => bb_Write p;; mret []
  | BRead n => r ← bb_Read n; mret (default [] r)
  end.
Definition bb_run (ops : list buffer_op) : go BlockingReadBuffer chars :=
  for_fold ops [] (λ out op, r ← bb_do op; mret (out ++ r)).
Definition written (op : buffer_op) : chars := match op with BWrite p => p | BRead _ => [] end.

Lemma bb_do_keeps op b r b' :
  bb_closed b = false → bb_do op b = Ret r b' →
  bb_closed b' = false ∧ bb_Buffer b ++ written op = r ++ bb_Buffer b'.
Proof.
  intros Ho. destruct op as [p|n]; cbn; [by intros [= <- <-]|].
  unfold bb_Read. rewrite !bind_app. unfold get. rewrite Ho. case_bool_decide; [done|].
  intros [= <- <-]. cbn. split; [done|]. by rewrite app_nil_r, take_drop.
Qed.

(** A buffer is a queue: whatever the sizes of the reads and the writes, the
    bytes read are those written, in order, and the rest is in the buffer. *)
Lemma buffer_queue ops b out b' :
  bb_closed b = false → bb_run ops b = Ret out b' →
  bb_Buffer b ++ (ops ≫= written) = out ++ bb_Buffer b'.
Proof.
  unfold bb_run. intros Ho.
  assert (∀ acc, for_fold ops acc (λ out op, r ← bb_do op; mret (out ++ r)) b = Ret out b' →
    acc ++ bb_Buffer b ++ (ops ≫= written) = out ++ bb_Buffer b') as Hrun.
  { revert b Ho. induction ops as [|op ops IH]; intros b Ho acc; cbn [for_fold].
    - intros [= <- <-]. cbn. by rewrite app_nil_r.
    - rewrite !bind_app. destruct (bb_do op b) as [r b1|] eqn:E; [|done].
      apply bb_do_keeps in E as [Ho1 Eb]; [|done]. intros Hrest%IH; [|done]. rewrite <- Hrest. cbn.
      rewrite (assoc_L (++) (bb_Buffer b)), Eb, <- !(assoc_L (++)). done. }
  apply (Hrun []).
Qed.
