(* ===== verification/Distributor.v ===== *)
(** Component: the distribution of metrics to StatsD
    (src/poller/distributor.go).  The StatsD client is not part of the program:
    it is the list of the calls made on it. *)
From S2P Require Export CheckResult.

(** [strconv.ParseFloat(s, 32)], the host name and the construction of a client
    are arguments; a float is given by its text. *)
Section distributor.
Context (ParseFloat32 : string → option string) (Hostname : string + error).

(** [(m *Metric) ToFloat64] and [strToFloat] (src/protocol/metric/metric.go) *)
Definition strToFloat (strVal : string) : string + error :=
  match ParseFloat32 strVal with
  | Some f => inl f
  | None => inr "Invalid coercion to float64"
  end.
Definition ToFloat64 (m : Metric) : string + error :=
  if bool_decide (m_Type m = MetricString) then
    match m_Value m with
    | VString s => strToFloat s
    | _ => inr "Wrong type for string metric"
    end
  else match m_Value m with
       | VFloat64 text => inl text
       | v => strToFloat (Sprint v)
       end.

Inductive ServiceCheckStatus := Ok | Warn | Critical | Unknown.
Definition mapStateToServiceCheckStatus (state : string) : ServiceCheckStatus :=
  if bool_decide (state = StateAvailable) then Ok
  else if bool_decide (state = StateUnavailable) then Critical
  else Unknown.

(** The calls on the client; the rate is always 1. *)
Inductive statsd_call :=
| Gauge (name value : string) (tags : list string)
| ServiceCheck (name : string) (status : ServiceCheckStatus) (message : string) (tags : list string).

(** [crsChan] and [statsdClient] are nil until a successful [Start]. *)
Record statsdDistributor := {
  statsdEndpoint : string;
  crsChan : option (list ResultSet);
  statsdClient : option (list statsd_call);
  tenantId : string
}.

Definition newStatsdDistributor (statsdEndpoint tenantId : string) : statsdDistributor :=
  {| statsdEndpoint := statsdEndpoint; crsChan := None; statsdClient := None; tenantId := tenantId |}.

Definition MetricsDistributor : Type := list statsdDistributor.

Definition tenant_of (token : string) : string := default "" (Split token "." !! 1).

Definition NewMetricsDistributor (config : Config) : MetricsDistributor :=
  if bool_decide (StatsdEndpoint config = "") then []
  else [newStatsdDistributor (StatsdEndpoint config) (tenant_of (Token config))].

Definition set_crsChan (q : option (list ResultSet)) (d : statsdDistributor) : statsdDistributor :=
  {| statsdEndpoint := statsdEndpoint d; crsChan := q; statsdClient := statsdClient d;
     tenantId := tenantId d |}.
Definition set_statsdClient (c : option (list statsd_call)) (d : statsdDistributor)
    : statsdDistributor :=
  {| statsdEndpoint := statsdEndpoint d; crsChan := crsChan d; statsdClient := c;
     tenantId := tenantId d |}.

Definition statsd_Start (statsd_New : string → option error) : go statsdDistributor (option error) :=
  endpoint ← gets statsdEndpoint;
  match statsd_New endpoint with
  | Some err => modify (set_statsdClient None);; mret (Some err)
  | None =>
      modify (set_statsdClient (Some []));;
      modify (set_crsChan (Some []));;
      mret None
  end.

(** A failure to start is logged. *)
Definition Start (statsd_New : string → option error) (md : MetricsDistributor) : MetricsDistributor :=
  (λ d, state_of (statsd_Start statsd_New d)) <$> md.

(** A send on a nil channel, or on a full one, blocks. *)
Definition statsd_Distribute (crs : ResultSet) : go statsdDistributor unit :=
  q ← gets crsChan;
  match q with
  | Some q =>
      if bool_decide (length q < 100) then modify (set_crsChan (Some (q ++ [crs]))) else halt Blocked
  | None => halt Blocked
  end.

Fixpoint Distribute (crs : ResultSet) (md : MetricsDistributor) : outcome MetricsDistributor unit :=
  match md with
  | [] => Ret () []
  | d :: md' =>
      match statsd_Distribute crs d with
      | Halt f d' => Halt f (d' :: md')
      | Ret _ d' =>
          match Distribute crs md' with
          | Ret _ md'' => Ret () (d' :: md'')
          | Halt f md'' => Halt f (d' :: md'')
          end
      end
  end.

Definition tags_of (tenantId : string) (ch : Check) : list string :=
  let tags := [("tenant:" +:+ tenantId)%string; ("entity:" +:+ GetEntityID ch)%string;
               ("check:" +:+ GetID ch)%string] in
  let tags := match GetTargetIP (header_of ch) with
              | inr _ => tags ++ ["targetIP:"]
              | inl _ => tags
              end in
  match Hostname with
  | inr _ => tags
  | inl hostname => tags ++ [("host:" +:+ hostname)%string]
  end.

Definition client_call (c : statsd_call) : go statsdDistributor unit :=
  client ← gets statsdClient;
  client ← deref client;
  modify (set_statsdClient (Some (client ++ [c]))).

Section ranging.
Context `{MapRange}.

Definition send_gauge (checkType : string) (tags : list string) (kv : string * Metric)
    : go statsdDistributor unit :=
  let metricName := (checkType +:+ "." +:+ kv.1)%string in
  match ToFloat64 kv.2 with
  | inl value => client_call (Gauge metricName value tags)
  | inr _ => mret ()
  end.

Definition sendToStatsd (crs : ResultSet) : go statsdDistributor unit :=
  let ch := rs_Check crs in
  let checkType := GetCheckType ch in
  tenant ← gets tenantId;
  let tags := tags_of tenant ch in
  for_each (rs_Metrics crs) (λ result, for_each (range result) (send_gauge checkType tags));;
  client_call (ServiceCheck checkType (mapStateToServiceCheckStatus (State (rs_States crs)))
    (Status (rs_States crs)) tags).

(** One turn of [run]. *)
Definition take_crs : go statsdDistributor unit :=
  q ← gets crsChan;
  match q with
  | Some (crs :: q') => modify (set_crsChan (Some q'));; sendToStatsd crs
  | _ => halt Blocked
  end.

(** ** Properties *)
Definition gauge_of (checkType : string) (tags : list string) (kv : string * Metric)
    : list statsd_call :=
  match ToFloat64 kv.2 with
  | inl value => [Gauge (checkType +:+ "." +:+ kv.1)%string value tags]
  | inr _ => []
  end.

Definition with_client (d : statsdDistributor) (calls : list statsd_call) : statsdDistributor :=
  set_statsdClient (Some calls) d.

Lemma client_loop {A} (body : A → go statsdDistributor unit) (f : A → list statsd_call) l d calls :
  (∀ x calls, body x (with_client d calls) = Ret () (with_client d (calls ++ f x))) →
  for_each l body (with_client d calls) = Ret () (with_client d (calls ++ (l ≫= f))).
Proof.
  intros Hb. revert calls. induction l as [|x l IH]; intros calls; cbn.
  - by rewrite app_nil_r.
  - by rewrite bind_app, Hb, IH, (assoc_L (++)).
Qed.

Lemma send_gauge_app checkType tags kv d calls :
  send_gauge checkType tags kv (with_client d calls)
    = Ret () (with_client d (calls ++ gauge_of checkType tags kv)).
Proof.
  unfold send_gauge, gauge_of. destruct (ToFloat64 kv.2); [reflexivity|]. by rewrite app_nil_r.
Qed.

(** A result set sent to StatsD becomes one gauge per metric that has a
    float value, named after the type of the check and the metric, and then one
    service check with the state and the status; all carry the tenant, the
    entity, the check and the host.  The address is not among the tags: a tag
    "targetIP:" without address is added when the check has none. *)
Theorem send_to_statsd_spec crs d calls :
  statsdClient d = Some calls →
  let ch := rs_Check crs in
  let tags := tags_of (tenantId d) ch in
  runs (sendToStatsd crs) d (λ _ d', ∃ gauges,
    d' = with_client d (calls ++ gauges ++
      [ServiceCheck (GetCheckType ch) (mapStateToServiceCheckStatus (State (rs_States crs)))
         (Status (rs_States crs)) tags])
    ∧ gauges ≡ₚ (rs_Metrics crs ≫= λ result,
        map_to_list (result : gmap string Metric) ≫= gauge_of (GetCheckType ch) tags)
    ∧ ("targetIP:" ∈ tags ↔ ∃ e, GetTargetIP (header_of ch) = inr e)).
Proof.
  intros Hd ch tags. assert (d = with_client d calls) as Ed.
  { unfold with_client. destruct d. cbn in *. by subst. }
  set (f := λ result : Result, range (result : gmap string Metric) ≫= gauge_of (GetCheckType ch) tags).
  assert (sendToStatsd crs d = Ret () (with_client d (calls ++ (rs_Metrics crs ≫= f) ++
    [ServiceCheck (GetCheckType ch) (mapStateToServiceCheckStatus (State (rs_States crs)))
       (Status (rs_States crs)) tags]))) as E.
  { unfold sendToStatsd. cbv zeta. rewrite bind_app. cbn [gets]. fold ch tags. rewrite Ed at 1.
    rewrite bind_app, (client_loop _ f).
    - by rewrite (assoc_L (++)).
    - intros result calls'. apply client_loop. intros kv calls2. apply send_gauge_app. }
  apply (runs_ret _ _ _ _ _ E). eexists. split; [reflexivity|]. split.
  - clear. subst f. cbn. induction (rs_Metrics crs) as [|r rs IH]; [done|]. cbn.
    rewrite IH. apply Permutation_app; [|done]. by apply bind_Permutation, range_perm.
  - subst tags. unfold tags_of.
    assert (∀ a b, ("targetIP:" : string) ≠ ("tenant:" +:+ a)%string
      ∧ ("targetIP:" : string) ≠ ("entity:" +:+ a)%string
      ∧ ("targetIP:" : string) ≠ ("check:" +:+ a)%string
      ∧ ("targetIP:" : string) ≠ ("host:" +:+ b)%string) as Hne by (intros; repeat split; done).
    destruct (GetTargetIP (header_of ch)) as [ip|e]; destruct Hostname as [h|err];
      cbn; rewrite ?elem_of_cons, elem_of_nil; naive_solver.
Qed.

(** A distribution that failed to start blocks its callers.  When the client
    could not be built, the distributor stays in the list without a channel, and
    every distribution of a result set waits for ever; the caller is the timer
    loop of the check, which then runs its check no more. *)
Theorem failed_start_blocks (statsd_New : string → option error) config crs err :
  StatsdEndpoint config ≠ "" → statsd_New (StatsdEndpoint config) = Some err →
  ∃ md, Distribute crs (Start statsd_New (NewMetricsDistributor config)) = Halt Blocked md.
Proof.
  intros He Hn. unfold NewMetricsDistributor. rewrite bool_decide_false by done.
  unfold Start. cbn. unfold statsd_Start. rewrite bind_app. cbn. rewrite Hn. by eexists.
Qed.
End ranging.
End distributor.
