(* ===== verification/Scheduler.v ===== *)
(** Component: the scheduler of one zone (src/poller/scheduler.go).

    The goroutine [runReconciler] owns the table of checks; the other
    goroutines hand it preparations and resets through channels.  A check's
    timer loop runs in a goroutine of its own until its context is done.  The
    scheduler and executor are the defaults, the scheduler itself.  The calls
    of the Prometheus gauge are recorded in a trace. *)
From S2P Require Export Preparation Check.

Inductive gauge_call :=
| GaugeInc (checkType : string)
| GaugeDec (checkType : string).

Record EleScheduler := {
  s_zoneID : string;
  s_ctx : Context;
  s_checks : gmap string Check;
  s_preparations : list ChecksPreparation;
  s_resets : nat;
  (** every check given to [runCheckTimerLoop], the last one first *)
  s_started : list Check;
  s_gauge : list gauge_call;
  s_contexts : Contexts
}.

Definition checkPreparationBufferSize : nat := 10.

Section setters.
Context (s : EleScheduler).
Definition set_checks (x : gmap string Check) : EleScheduler :=
  {| s_zoneID := s_zoneID s; s_ctx := s_ctx s; s_checks := x;
     s_preparations := s_preparations s; s_resets := s_resets s; s_started := s_started s;
     s_gauge := s_gauge s; s_contexts := s_contexts s |}.
Definition set_preparations (x : list ChecksPreparation) : EleScheduler :=
  {| s_zoneID := s_zoneID s; s_ctx := s_ctx s; s_checks := s_checks s;
     s_preparations := x; s_resets := s_resets s; s_started := s_started s;
     s_gauge := s_gauge s; s_contexts := s_contexts s |}.
Definition set_resets (x : nat) : EleScheduler :=
  {| s_zoneID := s_zoneID s; s_ctx := s_ctx s; s_checks := s_checks s;
     s_preparations := s_preparations s; s_resets := x; s_started := s_started s;
     s_gauge := s_gauge s; s_contexts := s_contexts s |}.
Definition set_started (x : list Check) : EleScheduler :=
  {| s_zoneID := s_zoneID s; s_ctx := s_ctx s; s_checks := s_checks s;
     s_preparations := s_preparations s; s_resets := s_resets s; s_started := x;
     s_gauge := s_gauge s; s_contexts := s_contexts s |}.
Definition set_gauge (x : list gauge_call) : EleScheduler :=
  {| s_zoneID := s_zoneID s; s_ctx := s_ctx s; s_checks := s_checks s;
     s_preparations := s_preparations s; s_resets := s_resets s; s_started := s_started s;
     s_gauge := x; s_contexts := s_contexts s |}.
Definition set_contexts (x : Contexts) : EleScheduler :=
  {| s_zoneID := s_zoneID s; s_ctx := s_ctx s; s_checks := s_checks s;
     s_preparations := s_preparations s; s_resets := s_resets s; s_started := s_started s;
     s_gauge := s_gauge s; s_contexts := x |}.
End setters.

(** A computation on contexts, inside the scheduler. *)
Definition on_contexts {A} : go Contexts A → go EleScheduler A :=
  zoom s_contexts (λ c s, set_contexts s c).

(** Only the contexts below the scheduler's own matter to it, so it counts
    them from the start. *)
Definition NewScheduler (zoneID : string) : EleScheduler :=
  {| s_zoneID := zoneID; s_ctx := [0]; s_checks := ∅; s_preparations := []; s_resets := 0;
     s_started := []; s_gauge := []; s_contexts := {| ctx_next := 1; ctx_canceled := ∅ |} |}.

(** [Close] cancels the scheduler's context, the parent of those of the checks. *)
Definition scheduler_Close : go EleScheduler unit :=
  ctx ← gets s_ctx; on_contexts (cancel_context ctx).

(** [Reset] is a send on a channel of capacity 1; [ReconcileChecks] is one on
    a channel of capacity [checkPreparationBufferSize]. *)
Definition Reset : go EleScheduler unit :=
  n ← gets s_resets;
  if bool_decide (n < 1) then modify (λ s, set_resets s (S n)) else halt Blocked.

Definition scheduler_ReconcileChecks (cp : ChecksPreparation) : go EleScheduler unit :=
  q ← gets s_preparations;
  if bool_decide (length q < checkPreparationBufferSize)
  then modify (λ s, set_preparations s (q ++ [cp]))
  else halt Blocked.

Definition CancelCheck (ch : Check) : go EleScheduler unit := on_contexts (Cancel ch).

Definition Schedule (ch : Check) : go EleScheduler unit :=
  if negb (IsDisabled ch) then modify (λ s, set_started s (ch :: s_started s)) else mret ().

Definition gauge (c : gauge_call) : go EleScheduler unit :=
  modify (λ s, set_gauge s (s_gauge s ++ [c])).

Definition initiateCheck (ac : ActionableCheck) : go EleScheduler (option check_error) :=
  ctx ← gets s_ctx;
  r ← on_contexts (NewCheckParsed ctx (ac_CheckIn ac));
  match r with
  | inr err => mret (Some err)
  | inl newCheck =>
      modify (λ s, set_checks s (<[GetID newCheck := newCheck]> (s_checks s)));;
      Schedule newCheck;;
      mret None
  end.

(** The report of a failure prints the details through their pointer. *)
Definition initiate_and_report (ac : ActionableCheck) : go EleScheduler unit :=
  err ← initiateCheck ac;
  match err with
  | None => mret ()
  | Some _ => _ ← deref (RawDetails (ac_CheckIn ac)); mret ()
  end.

Definition reconcile_one (ac : ActionableCheck) : go EleScheduler unit :=
  existing ← gets (λ s, s_checks s !! ac_Id ac);
  match ac_Action ac with
  | ActionTypeStart =>
      match existing with
      | Some existingCheck => CancelCheck existingCheck
      | None => gauge (GaugeInc (ac_CheckType ac))
      end;;
      initiate_and_report ac
  | ActionTypeRestart =>
      match existing with
      | Some existingCheck => CancelCheck existingCheck
      | None => mret ()
      end;;
      initiate_and_report ac
  | ActionTypeContinue | ActionTypeUnknown => mret ()
  end.

Definition remove_check (checkIdToRemove : string) : go EleScheduler unit :=
  found ← gets (λ s, s_checks s !! checkIdToRemove);
  modify (λ s, set_checks s (delete checkIdToRemove (s_checks s)));;
  checkToRemove ← deref found;
  CancelCheck checkToRemove;;
  gauge (GaugeDec (GetCheckType checkToRemove)).

Definition validate_one (checks : gmap string Check) (ac : ActionableCheck) : option error :=
  match ac_Action ac, checks !! ac_Id ac with
  | ActionTypeRestart, None =>
      Some ("Reconciling was told to restart a check, but it does not exist: " +:+ ac_Id ac)%string
  | ActionTypeContinue, None =>
      Some ("Reconciling was told to continue a check, but it does not exist: " +:+ ac_Id ac)%string
  | _, _ => None
  end.

Section ranging.
Context `{MapRange}.

Definition GetScheduledChecks (s : EleScheduler) : list Check := (range (s_checks s)).*2.

Definition reset : go EleScheduler unit :=
  entries ← gets (λ s, range (s_checks s));
  for_each entries (λ kv,
    modify (λ s, set_checks s (delete kv.1 (s_checks s)));;
    CancelCheck kv.2).

Definition scheduler_ValidateChecks (cp : ChecksPreparation) (s : EleScheduler)
    : option error :=
  first_error (validate_one (s_checks s)) (GetActionableChecks cp).

Definition reconcile (cp : ChecksPreparation) : go EleScheduler unit :=
  remainder0 ← gets (λ s, dom (s_checks s));
  let actionableChecks := GetActionableChecks cp in
  remainder ← for_fold actionableChecks remainder0 (λ remainder ac,
    reconcile_one ac;;
    mret (remainder ∖ {[ac_Id ac]}));
  for_each (range_keys remainder) remove_check.

(** [logScheduledChecks]: the number of checks of each type. *)
Definition logScheduledChecks (s : EleScheduler) : gmap string nat :=
  foldl (λ counts ch, <[GetCheckType ch := S (default 0 (counts !! GetCheckType ch))]> counts)
    ∅ (GetScheduledChecks s).

(** One turn of the loop of [runReconciler], when the channel it takes from
    is ready. *)
Definition take_preparation : go EleScheduler unit :=
  q ← gets s_preparations;
  match q with
  | cp :: q' => modify (λ s, set_preparations s q');; reconcile cp
  | [] => halt Blocked
  end.
Definition take_reset : go EleScheduler unit :=
  n ← gets s_resets;
  match n with
  | S n' => modify (λ s, set_resets s n');; reset
  | O => halt Blocked
  end.
End ranging.

(** ** The pure effect of the elementary operations *)
Definition after_cancel (ch : Check) (s : EleScheduler) : EleScheduler :=
  set_contexts s (cancel_in (base_context (base_of ch)) (s_contexts s)).
Definition after_alloc (s : EleScheduler) : EleScheduler :=
  set_contexts s (allocated (s_contexts s)).
Definition after_install (ch : Check) (s : EleScheduler) : EleScheduler :=
  set_started (set_checks s (<[GetID ch := ch]> (s_checks s)))
    (if IsDisabled ch then s_started s else ch :: s_started s).
Definition after_remove (id : string) (ch : Check) (s : EleScheduler) : EleScheduler :=
  after_cancel ch (set_checks s (delete id (s_checks s))).

Lemma CancelCheck_app ch s : CancelCheck ch s = Ret () (after_cancel ch s).
Proof. reflexivity. Qed.

Lemma initiateCheck_app ac s :
  match initiation_of (ac_CheckIn ac) with
  | Initiated => ∃ ch, initiateCheck ac s = Ret None (after_install ch (after_alloc s))
      ∧ GetCheckIn ch = ac_CheckIn ac
      ∧ base_context (base_of ch) = ctx_next (s_contexts s) :: s_ctx s
  | Refused e => initiateCheck ac s = Ret (Some e) (after_alloc s)
  | Crashed => initiateCheck ac s = Halt NilDeref (after_alloc s)
  end.
Proof.
  pose proof (new_check_parsed_cases (s_ctx s) (ac_CheckIn ac) (s_contexts s)) as H.
  unfold initiateCheck, on_contexts, zoom. rewrite bind_app. cbn. rewrite bind_app.
  destruct (initiation_of (ac_CheckIn ac)) as [| |].
  - destruct H as (ch & -> & Hci & Hctx). exists ch. split; [|done].
    cbn. unfold Schedule, after_install. rewrite bind_app. by destruct (IsDisabled ch).
  - by rewrite H.
  - by rewrite H.
Qed.

(** A definition that comes with details never crashes the poller. *)
Definition has_details (ac : ActionableCheck) : Prop := is_Some (RawDetails (ac_CheckIn ac)).
#[export] Instance has_details_dec ac : Decision (has_details ac).
Proof. unfold has_details. apply _. Defined.

Lemma initiate_and_report_app ac s :
  has_details ac →
  ∃ s', initiate_and_report ac s = Ret () s' ∧
    ((initiation_of (ac_CheckIn ac) ≠ Initiated ∧ s' = after_alloc s)
     ∨ ∃ ch, initiation_of (ac_CheckIn ac) = Initiated
         ∧ s' = after_install ch (after_alloc s) ∧ GetCheckIn ch = ac_CheckIn ac
         ∧ base_context (base_of ch) = ctx_next (s_contexts s) :: s_ctx s).
Proof.
  intros [raw Hraw]. unfold initiate_and_report. pose proof (initiateCheck_app ac s) as H.
  rewrite bind_app. destruct (initiation_of (ac_CheckIn ac)) as [|e|] eqn:E.
  - destruct H as (ch & -> & Hci & Hctx). eexists. split; [done|]. right. by exists ch.
  - rewrite H. cbn. rewrite Hraw. eexists. split; [done|]. by left.
  - unfold initiation_of in E. rewrite Hraw in E.
    destruct (details_decoder _); [|done]. by destruct (b raw).
Qed.

Lemma initiate_and_report_crash ac s :
  ¬ has_details ac → ∃ s', initiate_and_report ac s = Halt NilDeref s'.
Proof.
  intros Hno. assert (RawDetails (ac_CheckIn ac) = None) as Hraw.
  { unfold has_details in Hno. by apply eq_None_not_Some. }
  unfold initiate_and_report. pose proof (initiateCheck_app ac s) as H.
  rewrite bind_app. unfold initiation_of in H. rewrite Hraw in H.
  destruct (details_decoder _); rewrite H; [|cbn; rewrite Hraw]; by eexists.
Qed.

(** ** The invariant

    Each check of the table is filed under its id and has a context of its own
    below the scheduler's; a timer loop that has not been canceled belongs to
    a check of the table; and every enabled check of the table has its loop. *)
Definition done_in (s : EleScheduler) (ch : Check) : bool := Done (s_contexts s) ch.
Definition closed (s : EleScheduler) : bool := is_done (s_contexts s) (s_ctx s).

Definition known (s : EleScheduler) (ch : Check) : Prop :=
  ch ∈ s_started s ∨ ∃ id, s_checks s !! id = Some ch.

Definition owns (s : EleScheduler) (ch : Check) : Prop :=
  ∃ i, base_context (base_of ch) = i :: s_ctx s ∧ i < ctx_next (s_contexts s) ∧ i ∉ s_ctx s.

Record sched_inv (s : EleScheduler) : Prop := {
  inv_root : live_ids (s_contexts s) (s_ctx s);
  inv_canceled : ∀ i, i ∈ ctx_canceled (s_contexts s) → i < ctx_next (s_contexts s);
  inv_owns : ∀ ch, known s ch → owns s ch;
  inv_key : ∀ id ch, s_checks s !! id = Some ch → GetID ch = id;
  inv_inj : ∀ id1 id2 ch1 ch2, s_checks s !! id1 = Some ch1 → s_checks s !! id2 = Some ch2 →
    base_context (base_of ch1) = base_context (base_of ch2) → id1 = id2;
  inv_started : ∀ ch, ch ∈ s_started s → done_in s ch = false → s_checks s !! GetID ch = Some ch;
  inv_running : ∀ id ch, s_checks s !! id = Some ch → IsDisabled ch = false → ch ∈ s_started s;
  inv_enabled : ∀ ch, ch ∈ s_started s → IsDisabled ch = false
}.

(** The timer loops that go on. *)
Definition running (s : EleScheduler) (ch : Check) : Prop :=
  ch ∈ s_started s ∧ done_in s ch = false.

(** Those of the enabled checks of the table that have not been canceled. *)
Lemma inv_loops s : sched_inv s → ∀ ch,
  running s ch ↔ s_checks s !! GetID ch = Some ch ∧ IsDisabled ch = false ∧ done_in s ch = false.
Proof. intros [_ _ _ _ _ Hs Hn He] ch. unfold running. naive_solver. Qed.

Lemma sched_inv_new zoneID : sched_inv (NewScheduler zoneID).
Proof.
  split; unfold known; cbn.
  - by repeat constructor.
  - intros i Hi. by apply not_elem_of_empty in Hi.
  - intros ch [H|[id H]]; [by apply not_elem_of_nil in H|by rewrite lookup_empty in H].
  - intros id ch. by rewrite lookup_empty.
  - intros id1 id2 ch1 ch2. by rewrite lookup_empty.
  - intros ch H. by apply not_elem_of_nil in H.
  - intros id ch. by rewrite lookup_empty.
  - intros ch H. by apply not_elem_of_nil in H.
Qed.

(** The parts of the state the invariant does not read. *)
Lemma sched_inv_ext s t :
  s_ctx t = s_ctx s → s_checks t = s_checks s → s_started t = s_started s →
  s_contexts t = s_contexts s → sched_inv s → sched_inv t.
Proof.
  destruct s, t. cbn. intros -> -> -> -> [Hr Hb Ho Hk Hi Hs Hn He]. by split.
Qed.

Lemma elem_of_canceled k c (s : Contexts) :
  k ∈ ctx_canceled (cancel_in c s) ↔ head c = Some k ∨ k ∈ ctx_canceled s.
Proof. destruct c; cbn; set_solver. Qed.

Lemma done_cancel ch c s :
  done_in s c = true → done_in (after_cancel ch s) c = true.
Proof.
  unfold done_in, Done. rewrite !is_done_true. cbn [after_cancel s_contexts set_contexts].
  setoid_rewrite elem_of_canceled. naive_solver.
Qed.

Lemma done_cancel_self ch s : owns s ch → done_in (after_cancel ch s) ch = true.
Proof.
  intros (i & E & _). unfold done_in, Done. apply is_done_true. exists i.
  rewrite E. split; [by left|]. cbn [after_cancel s_contexts set_contexts].
  apply elem_of_canceled. rewrite E. by left.
Qed.

Lemma done_cancel_other ch c s :
  owns s ch → owns s c → base_context (base_of ch) ≠ base_context (base_of c) →
  done_in (after_cancel ch s) c = done_in s c.
Proof.
  intros (i & Ei & _ & Hi) (j & Ej & _ & Hj) Hne. unfold done_in, Done.
  apply eq_true_iff_eq. rewrite !is_done_true. cbn [after_cancel s_contexts set_contexts].
  setoid_rewrite elem_of_canceled. rewrite Ei, Ej in *. cbn. split; [|naive_solver].
  intros (k & Hk & [[= <-]|Hc]); [|by eauto]. apply elem_of_cons in Hk as [<-|Hk]; done.
Qed.

Lemma closed_cancel ch s : owns s ch → closed (after_cancel ch s) = closed s.
Proof.
  intros (i & Ei & _ & Hi). unfold closed.
  apply eq_true_iff_eq. rewrite !is_done_true. cbn [after_cancel s_contexts set_contexts s_ctx].
  setoid_rewrite elem_of_canceled. rewrite Ei. naive_solver.
Qed.

Lemma inv_cancel ch s : sched_inv s → owns s ch → sched_inv (after_cancel ch s).
Proof.
  intros [Hr Hb Ho Hk Hi Hs Hn He] Hown. split; try done.
  - intros i [Hh|Hc]%elem_of_canceled; [|by apply Hb].
    destruct Hown as (j & E & Hj & _). rewrite E in Hh. by injection Hh as <-.
  - intros c Hc Hd. apply Hs; [done|].
    destruct (done_in s c) eqn:E; [|done]. apply (done_cancel ch) in E. congruence.
Qed.

Lemma inv_alloc s : sched_inv s → sched_inv (after_alloc s).
Proof.
  intros [Hr Hb Ho Hk Hi Hs Hn He]. split; try done.
  - cbn. unfold live_ids in *. cbn. eapply Forall_impl; [exact Hr|]. cbn. intros ? ?. lia.
  - cbn. intros i Hi'%Hb. lia.
  - intros c Hc. destruct (Ho c Hc) as (i & E & Hlt & Hni). exists i. cbn. split_and!; [done|lia|done].
Qed.

Lemma inv_install ch s :
  sched_inv s → base_context (base_of ch) = ctx_next (s_contexts s) :: s_ctx s →
  (∀ old, s_checks s !! GetID ch = Some old → done_in s old = true) →
  sched_inv (after_install ch (after_alloc s)).
Proof.
  intros [Hr Hb Ho Hk Hi Hs Hn He] Hctx Hold.
  assert (∀ id old, s_checks s !! id = Some old →
    base_context (base_of old) ≠ base_context (base_of ch)) as Hfresh.
  { intros id old Hl E. destruct (Ho old) as (i & Ei & Hlt & _); [by right; exists id|].
    rewrite Ei, Hctx in E. injection E. lia. }
  assert (ctx_next (s_contexts s) ∉ s_ctx s) as Hroot.
  { intros Hin. eapply (proj1 (Forall_forall _ _)) in Hr; [|exact Hin]. lia. }
  assert (∀ c, known (after_install ch (after_alloc s)) c → c = ch ∨ known s c) as Hknown.
  { unfold known. cbn. intros c [Hc|[id [[_ ->]|[_ Hc]]%lookup_insert_Some]]; eauto.
    destruct (IsDisabled ch); [by eauto|]. apply elem_of_cons in Hc as [->|Hc]; eauto. }
  destruct (inv_alloc s) as [Hr' Hb' Ho' _ _ _ _ _]; [by split|].
  split.
  - exact Hr'.
  - exact Hb'.
  - intros c [->|Hc]%Hknown; [|exact (Ho' c Hc)].
    exists (ctx_next (s_contexts s)). cbn. split_and!; [done|lia|done].
  - cbn. intros id c [[<- <-]|[_ Hc]]%lookup_insert_Some; [done|by apply Hk].
  - cbn. intros id1 id2 c1 c2 [[<- <-]|[N1 H1]]%lookup_insert_Some
      [[<- <-]|[N2 H2]]%lookup_insert_Some E; [done| | |by eapply Hi].
    + by destruct (Hfresh _ _ H2).
    + by destruct (Hfresh _ _ H1).
  - cbn. intros c Hc Hd. change (done_in s c = false) in Hd.
    assert (c = ch ∨ c ∈ s_started s) as [->|Hc'].
    { destruct (IsDisabled ch); [by right|]. by apply elem_of_cons in Hc. }
    + by rewrite lookup_insert_eq.
    + pose proof (Hs c Hc' Hd) as E. rewrite lookup_insert_ne; [done|].
      intros Eid. rewrite <- Eid in E. rewrite (Hold c E) in Hd. done.
  - cbn. intros id c [[_ <-]|[_ Hc]]%lookup_insert_Some Hdis.
    + rewrite Hdis. by left.
    + destruct (IsDisabled ch); [|right]; by eapply Hn.
  - cbn. intros c Hc. destruct (IsDisabled ch) eqn:E; [by apply He|].
    apply elem_of_cons in Hc as [->|Hc]; [done|by apply He].
Qed.

Lemma inv_remove id ch s :
  sched_inv s → s_checks s !! id = Some ch → sched_inv (after_remove id ch s).
Proof.
  intros Hinv Hl.
  assert (owns s ch) as Hown by (apply (inv_owns s Hinv); right; by exists id).
  destruct (inv_cancel ch s Hinv Hown) as [Hr Hb Ho Hk Hi Hs Hn He].
  split; try done; unfold known; cbn.
  - intros c [Hc|[j [_ Hj]%lookup_delete_Some]]; apply Ho; [by left|right; by exists j].
  - intros j c [_ Hj]%lookup_delete_Some. by apply Hk.
  - intros j1 j2 c1 c2 [_ H1]%lookup_delete_Some [_ H2]%lookup_delete_Some.
    by apply (Hi j1 j2 c1 c2).
  - intros c Hc Hd. pose proof (Hs c Hc Hd) as E. apply lookup_delete_Some. split; [|done].
    intros ->. cbn in E. rewrite Hl in E. injection E as <-.
    pose proof (done_cancel_self ch s) as Hself. unfold done_in in *. cbn in *.
    by rewrite (Hself Hown) in Hd.
  - intros j c [_ Hj]%lookup_delete_Some. by eapply Hn.
Qed.

(** ** What one step leaves alone

    [frame X s t]: from [s] to [t] nothing happened to the checks filed
    outside [X], no canceled check came back, and the scheduler's own context
    is as it was. *)
Definition frame (X : gset string) (s t : EleScheduler) : Prop :=
  s_ctx t = s_ctx s ∧ closed t = closed s
  ∧ (∀ ch, done_in s ch = true → done_in t ch = true)
  ∧ ∀ id, id ∉ X → s_checks t !! id = s_checks s !! id
      ∧ ∀ ch, s_checks s !! id = Some ch → done_in t ch = done_in s ch.

Lemma frame_ext X s t :
  s_ctx t = s_ctx s → s_checks t = s_checks s → s_contexts t = s_contexts s → frame X s t.
Proof. unfold frame, closed, done_in. by intros -> -> ->. Qed.

Lemma frame_trans X Y s t u : frame X s t → frame Y t u → frame (X ∪ Y) s u.
Proof.
  intros (A1 & A2 & A3 & A4) (B1 & B2 & B3 & B4). split_and!.
  - by rewrite B1. - by rewrite B2. - by auto.
  - intros id [HX HY]%not_elem_of_union. destruct (A4 id HX) as [C1 D1], (B4 id HY) as [C2 D2].
    split; [by rewrite C2|]. intros ch Hch. rewrite D2; [by apply D1|by rewrite C1].
Qed.

Lemma frame_cancel id ch s :
  sched_inv s → s_checks s !! id = Some ch → frame {[id]} s (after_cancel ch s).
Proof.
  intros Hinv Hl.
  assert (owns s ch) as Ho by (apply (inv_owns s Hinv); right; by exists id).
  split_and!; [done|by apply closed_cancel|intros c; apply done_cancel|].
  intros j Hj. split; [done|]. intros c Hc. apply done_cancel_other; [done| |].
  - apply (inv_owns s Hinv). right. by exists j.
  - intros E. apply Hj, elem_of_singleton. symmetry. by eapply (inv_inj s Hinv).
Qed.

Lemma done_alloc_install ch c s :
  done_in (after_install ch (after_alloc s)) c = done_in s c.
Proof. reflexivity. Qed.

Lemma frame_install ch s : frame {[GetID ch]} s (after_install ch (after_alloc s)).
Proof.
  split_and!; try done. intros id Hid%not_elem_of_singleton. cbn. split; [|done].
  by rewrite lookup_insert_ne.
Qed.

(** A new check is done only if the scheduler is closed. *)
Lemma done_fresh ch s :
  sched_inv s → base_context (base_of ch) = ctx_next (s_contexts s) :: s_ctx s →
  done_in (after_install ch (after_alloc s)) ch = closed s.
Proof.
  intros [_ Hb _ _ _ _ _ _] E. unfold done_in, Done, closed. rewrite E. cbn. unfold is_done at 1. cbn.
  rewrite bool_decide_false; [done|]. intros Hin%Hb. lia.
Qed.

(** ** One entry of a preparation *)
Definition to_initiate (ac : ActionableCheck) : Prop :=
  ac_Action ac = ActionTypeStart ∨ ac_Action ac = ActionTypeRestart.
#[export] Instance to_initiate_dec ac : Decision (to_initiate ac).
Proof. unfold to_initiate. apply _. Defined.

(** What the table holds for the entry [ac], from [s] to [t]. *)
Definition entry_done (ac : ActionableCheck) (s t : EleScheduler) : Prop :=
  if decide (to_initiate ac) then
    (∀ old, s_checks s !! ac_Id ac = Some old → done_in t old = true)
    ∧ match initiation_of (ac_CheckIn ac) with
      | Initiated => ∃ ch, s_checks t !! ac_Id ac = Some ch ∧ GetCheckIn ch = ac_CheckIn ac
          ∧ done_in t ch = closed s
      | _ => s_checks t !! ac_Id ac = s_checks s !! ac_Id ac
      end
  else s_checks t !! ac_Id ac = s_checks s !! ac_Id ac
    ∧ ∀ old, s_checks s !! ac_Id ac = Some old → done_in t old = done_in s old.

Lemma initiate_step ac s0 s :
  sched_inv s → has_details ac → frame {[ac_Id ac]} s0 s →
  s_checks s !! ac_Id ac = s_checks s0 !! ac_Id ac →
  (∀ old, s_checks s0 !! ac_Id ac = Some old → done_in s old = true) → to_initiate ac →
  runs (initiate_and_report ac) s
    (λ _ t, sched_inv t ∧ frame {[ac_Id ac]} s0 t ∧ entry_done ac s0 t).
Proof.
  intros Hinv Hd Hf Hsame Hold Hact. unfold runs, entry_done.
  destruct (initiate_and_report_app ac s Hd) as (t & -> & [[Hno ->]|(ch & Hin & -> & Hci & Hctx)]);
    rewrite decide_True by done.
  - split_and!; [by apply inv_alloc|exact Hf|done|].
    by destruct (initiation_of (ac_CheckIn ac)).
  - assert (GetID ch = ac_Id ac) as Hid.
    { unfold ac_Id. by rewrite <- Hci. }
    split_and!.
    + apply inv_install; [done|done|]. rewrite Hid, Hsame. exact Hold.
    + pose proof (frame_trans _ _ _ _ _ Hf (frame_install ch s)) as H.
      rewrite Hid, (idemp_L (∪)) in H. exact H.
    + exact Hold.
    + rewrite Hin. exists ch. cbn. rewrite Hid, lookup_insert_eq. split_and!; [done|done|].
      rewrite (done_fresh ch s Hinv Hctx). by destruct Hf as (_ & -> & _).
Qed.

(** The check filed under [id] has been canceled. *)
Definition old_canceled (id : string) (s t : EleScheduler) : Prop :=
  sched_inv t ∧ frame {[id]} s t ∧ s_checks t !! id = s_checks s !! id
  ∧ ∀ old, s_checks s !! id = Some old → done_in t old = true.

Lemma old_canceled_step id s (otherwise : go EleScheduler unit) :
  sched_inv s →
  runs otherwise s (λ _ t, s_ctx t = s_ctx s ∧ s_checks t = s_checks s
    ∧ s_started t = s_started s ∧ s_contexts t = s_contexts s) →
  runs (match s_checks s !! id with
        | Some existingCheck => CancelCheck existingCheck
        | None => otherwise
        end) s (λ _ t, old_canceled id s t).
Proof.
  intros Hinv Hother. unfold old_canceled. destruct (s_checks s !! id) as [ch|] eqn:Hl.
  - assert (owns s ch) as Hown by (apply (inv_owns s Hinv); right; by exists id).
    unfold runs. rewrite CancelCheck_app. split_and!; [by apply inv_cancel|by eapply frame_cancel|done|].
    intros old [= <-]. by apply done_cancel_self.
  - eapply runs_mono; [exact Hother|]. cbn. intros _ t (H1 & H2 & H3 & H4).
    split_and!; [by eapply sched_inv_ext|by apply frame_ext|by rewrite H2|done].
Qed.

Lemma reconcile_one_step ac s :
  sched_inv s → (to_initiate ac → has_details ac) →
  runs (reconcile_one ac) s
    (λ _ t, sched_inv t ∧ frame {[ac_Id ac]} s t ∧ entry_done ac s t).
Proof.
  intros Hinv Hd. unfold reconcile_one. apply runs_bind. cbn.
  assert (∀ t, old_canceled (ac_Id ac) s t → to_initiate ac →
    runs (initiate_and_report ac) t
      (λ _ t, sched_inv t ∧ frame {[ac_Id ac]} s t ∧ entry_done ac s t)) as Hinit.
  { intros t (Ht & Hf & Hsame & Hold) Hact. apply initiate_step; auto. }
  assert (¬ to_initiate ac → sched_inv s ∧ frame {[ac_Id ac]} s s ∧ entry_done ac s s) as Hnop.
  { intros Hno. split_and!; [done|by apply frame_ext|]. unfold entry_done.
    by rewrite decide_False. }
  unfold to_initiate in *. destruct (ac_Action ac) eqn:Ea.
  - apply Hnop. naive_solver.
  - apply runs_bind. eapply runs_mono; [by apply old_canceled_step|]. cbn. auto.
  - apply runs_bind. eapply runs_mono; [by apply old_canceled_step|]. cbn. auto.
  - apply Hnop. naive_solver.
Qed.

(** ** The whole of [reconcile] *)
Definition wf_prep (cp : ChecksPreparation) : Prop :=
  map_Forall (λ id ac, ac_Id ac = id) (cp_Actions cp).

(** Every check to start or restart comes with details. *)
Definition prep_has_details (cp : ChecksPreparation) : Prop :=
  map_Forall (λ _ ac, to_initiate ac → has_details ac) (cp_Actions cp).

Definition reconciled (cp : ChecksPreparation) (s t : EleScheduler) : Prop :=
  closed t = closed s
  ∧ (∀ id ac, cp_Actions cp !! id = Some ac → entry_done ac s t)
  ∧ (∀ id, cp_Actions cp !! id = None → s_checks t !! id = None
       ∧ ∀ old, s_checks s !! id = Some old → done_in t old = true).

Lemma entry_done_from X ac s t u :
  frame X s t → ac_Id ac ∉ X → entry_done ac t u → entry_done ac s u.
Proof.
  intros (_ & Hcl & _ & Hf) HX. destruct (Hf _ HX) as [E Hdone]. unfold entry_done.
  rewrite E, Hcl. case_decide; [done|]. intros [H1 H2]. split; [done|].
  intros old Hold. rewrite H2 by done. by apply Hdone.
Qed.

Lemma entry_done_later X ac s t u :
  frame X t u → ac_Id ac ∉ X → entry_done ac s t → entry_done ac s u.
Proof.
  intros (_ & _ & Hm & Hf) HX. destruct (Hf _ HX) as [E Hdone]. unfold entry_done. rewrite E.
  case_decide.
  - intros [H1 H2]. split; [by auto|]. destruct (initiation_of _); [|done|done].
    destruct H2 as (ch & Hl & Hci & Hd). exists ch. split_and!; [done|done|].
    by rewrite Hdone.
  - intros [H1 H2]. split; [done|]. intros old Hold. rewrite Hdone by congruence. by apply H2.
Qed.

Section reconcile_loops.
Context (cp : ChecksPreparation) (s : EleScheduler).
Context (Hwf : wf_prep cp) (Hdet : prep_has_details cp).

Definition ids (l : list ActionableCheck) : gset string := list_to_set (ac_Id <$> l).

Record first_loop (l : list ActionableCheck) (R : gset string) (t : EleScheduler) : Prop := {
  fl_inv : sched_inv t;
  fl_frame : frame (dom (cp_Actions cp) ∖ ids l) s t;
  fl_remainder : R = dom (s_checks s) ∖ (dom (cp_Actions cp) ∖ ids l);
  fl_nodup : NoDup (ac_Id <$> l);
  fl_entries : ∀ ac, ac ∈ l → cp_Actions cp !! ac_Id ac = Some ac;
  fl_done : ∀ ac, cp_Actions cp !! ac_Id ac = Some ac → ac_Id ac ∉ ids l → entry_done ac s t
}.

Lemma elem_of_ids id l : id ∈ ids l ↔ ∃ ac, ac ∈ l ∧ id = ac_Id ac.
Proof. unfold ids. rewrite elem_of_list_to_set, list_elem_of_fmap. naive_solver. Qed.

Lemma first_loop_step ac l R t :
  first_loop (ac :: l) R t →
  runs (reconcile_one ac) t (λ _ u, first_loop l (R ∖ {[ac_Id ac]}) u).
Proof.
  intros [Hinv Hf HR HN He Hdone]. cbn in HN. apply NoDup_cons in HN as [Hn HN].
  assert (cp_Actions cp !! ac_Id ac = Some ac) as Hac by (apply He; by left).
  assert (ac_Id ac ∈ dom (cp_Actions cp)) as Hdom by (by eapply elem_of_dom_2).
  assert (ac_Id ac ∉ ids l) as Hni by (unfold ids; by rewrite elem_of_list_to_set).
  eapply runs_mono; [apply reconcile_one_step; [done|by apply (Hdet _ _ Hac)]|].
  intros _ u (Hu & Hfu & Hent). cbn in Hf, HR, Hdone. split; try done.
  - replace (dom (cp_Actions cp) ∖ ids l)
      with ((dom (cp_Actions cp) ∖ ({[ac_Id ac]} ∪ ids l)) ∪ {[ac_Id ac]}).
    + by eapply frame_trans.
    + apply set_eq. intros x. destruct (decide (x = ac_Id ac)); set_solver.
  - rewrite HR. apply set_eq. intros x. destruct (decide (x = ac_Id ac)); set_solver.
  - intros ac' Hin. apply He. by right.
  - intros ac' Hac' Hni'. destruct (decide (ac_Id ac' = ac_Id ac)) as [E|E].
    + assert (ac' = ac) as -> by (rewrite E in Hac'; congruence).
      eapply entry_done_from; [exact Hf| |exact Hent]. set_solver.
    + eapply entry_done_later; [exact Hfu|set_solver|]. apply Hdone; [done|]. set_solver.
Qed.

Record second_loop (l : list string) (t : EleScheduler) : Prop := {
  sl_inv : sched_inv t;
  sl_frame : frame (dom (cp_Actions cp) ∪ (dom (s_checks s) ∖ list_to_set l)) s t;
  sl_nodup : NoDup l;
  sl_entries : ∀ id, id ∈ l → id ∈ dom (s_checks s) ∧ id ∉ dom (cp_Actions cp);
  sl_kept : ∀ ac, cp_Actions cp !! ac_Id ac = Some ac → entry_done ac s t;
  sl_removed : ∀ id, id ∉ dom (cp_Actions cp) → id ∈ dom (s_checks s) → id ∉ l →
    s_checks t !! id = None ∧ ∀ old, s_checks s !! id = Some old → done_in t old = true
}.

Lemma second_loop_step id l t :
  second_loop (id :: l) t → runs (remove_check id) t (λ _ u, second_loop l u).
Proof.
  intros [Hinv Hf HN He Hk Hr]. apply NoDup_cons in HN as [Hn HN].
  destruct (He id) as [Hdom Hnot]; [by left|].
  assert (id ∉ dom (cp_Actions cp) ∪ (dom (s_checks s) ∖ list_to_set (id :: l))) as HnX
    by set_solver.
  pose proof Hf as (_ & _ & _ & Hsame). destruct (Hsame id HnX) as [Hlk Hdn].
  apply elem_of_dom in Hdom as [ch Hch]. rewrite Hch in Hlk.
  unfold remove_check. apply runs_bind. cbn. rewrite Hlk. apply runs_bind. cbn.
  assert (owns t ch) as Hown by (apply (inv_owns t Hinv); right; by exists id).
  set (u := after_remove id ch t).
  assert (frame {[id]} t u) as Hfu.
  { destruct (frame_cancel id ch t Hinv Hlk) as (F1 & F2 & F3 & F4). split_and!; try done.
    intros j Hj. destruct (F4 j Hj) as [G1 G2]. cbn. split; [|done].
    apply lookup_delete_ne. set_solver. }
  assert (sched_inv u) as Hu by by apply inv_remove.
  unfold runs. change (second_loop l (set_gauge u (s_gauge u ++ [GaugeDec (GetCheckType ch)]))).
  set (v := set_gauge u _).
  assert (frame {[id]} t v) as Hfv by exact Hfu.
  split.
  - by apply (sched_inv_ext u).
  - pose proof (frame_trans _ _ _ _ _ Hf Hfv) as H.
    replace (dom (cp_Actions cp) ∪ (dom (s_checks s) ∖ list_to_set l)) with
      (dom (cp_Actions cp) ∪ (dom (s_checks s) ∖ list_to_set (id :: l)) ∪ {[id]}); [done|].
    assert (id ∈ dom (s_checks s)) by (by eapply elem_of_dom_2).
    apply set_eq. intros x. destruct (decide (x = id)); set_solver.
  - done.
  - intros j Hj. apply He. by right.
  - intros ac Hac. eapply entry_done_later; [exact Hfv| |by apply Hk].
    intros E%elem_of_singleton. apply Hnot. rewrite <- E. by eapply elem_of_dom_2.
  - intros j Hj1 Hj2 Hj3. destruct (decide (j = id)) as [->|Hne].
    + split; [apply lookup_delete_eq|]. intros old Hold.
      assert (old = ch) as -> by congruence. by apply done_cancel_self.
    + destruct (Hr j Hj1 Hj2) as [R1 R2]; [set_solver|].
      destruct Hfv as (_ & _ & Hm & Hs'). destruct (Hs' j) as [E _]; [set_solver|].
      split; [by rewrite E|]. intros old Hold. by apply Hm, R2.
Qed.
End reconcile_loops.

Section reconcile_spec.
Context `{MapRange}.

Lemma elem_of_actionable cp ac :
  wf_prep cp → ac ∈ GetActionableChecks cp ↔ cp_Actions cp !! ac_Id ac = Some ac.
Proof.
  intros Hwf. unfold GetActionableChecks. rewrite list_elem_of_fmap. split.
  - intros ([id ac'] & -> & Hin%elem_of_range). cbn. by rewrite (Hwf _ _ Hin).
  - intros Hl. exists (ac_Id ac, ac). split; [done|]. by apply elem_of_range.
Qed.

Lemma actionable_ids cp :
  wf_prep cp → ac_Id <$> GetActionableChecks cp = (range (cp_Actions cp)).*1.
Proof.
  intros Hwf. unfold GetActionableChecks. rewrite <- list_fmap_compose.
  apply list_fmap_ext. intros i [id ac] Hin. cbn. apply (Hwf id ac).
  apply elem_of_range. by eapply list_elem_of_lookup_2.
Qed.

Lemma ids_actionable cp : wf_prep cp → ids (GetActionableChecks cp) = dom (cp_Actions cp).
Proof.
  intros Hwf. unfold ids. rewrite (actionable_ids cp Hwf). apply set_eq. intros id.
  rewrite elem_of_list_to_set, list_elem_of_fmap, elem_of_dom. split.
  - intros ([id' ac] & -> & Hin%elem_of_range). by exists ac.
  - intros [ac Hac]. exists (id, ac). split; [done|]. by apply elem_of_range.
Qed.

Lemma reconcile_runs cp s :
  sched_inv s → wf_prep cp → prep_has_details cp →
  runs (reconcile cp) s (λ _ t, sched_inv t ∧ reconciled cp s t).
Proof.
  intros Hinv Hwf Hdet. unfold reconcile. apply runs_bind. cbn. apply runs_bind.
  eapply runs_mono.
  - apply (runs_for_fold (first_loop cp s)).
    + split.
      * done.
      * by apply frame_ext.
      * rewrite (ids_actionable cp Hwf). set_solver.
      * rewrite (actionable_ids cp Hwf). apply NoDup_range.
      * intros ac. by apply elem_of_actionable.
      * intros ac Hac Hni. destruct Hni. rewrite (ids_actionable cp Hwf). by eapply elem_of_dom_2.
    + intros ac l R t Hl. apply runs_bind.
      eapply runs_mono; [by apply first_loop_step|]. done.
  - cbn. intros R t [Ht Hf -> _ _ Hdone]. unfold ids in *. cbn in *.
    rewrite difference_empty_L in *. eapply runs_mono.
    + apply (runs_for_each (second_loop cp s)); [|by intros; apply second_loop_step].
      split; [done| |apply NoDup_range_keys| | |].
      * destruct Hf as (F1 & F2 & F3 & F4). split_and!; try done.
        intros id Hid. apply F4. set_solver.
      * intros id Hid%elem_of_range_keys. set_solver.
      * intros ac Hac. apply Hdone; [done|set_solver].
      * intros id H1 H2 H3. destruct H3. apply elem_of_range_keys. set_solver.
    + cbn. intros _ u [Hu Hfu _ _ Hk Hr]. split; [done|].
      pose proof Hfu as (_ & F2 & _ & F4). split_and!; [done| |].
      * intros id ac Hac. apply Hk. by rewrite (Hwf _ _ Hac).
      * intros id Hno. assert (id ∉ dom (cp_Actions cp)) as Hn by by apply not_elem_of_dom.
        destruct (decide (id ∈ dom (s_checks s))) as [Hs|Hs].
        -- apply Hr; [done|done|apply not_elem_of_nil].
        -- destruct (F4 id) as [E _]; [set_solver|]. rewrite E.
           apply not_elem_of_dom in Hs. rewrite Hs. split; [done|]. congruence.
Qed.
End reconcile_spec.

(** ** Faults *)
Lemma reconcile_one_crash ac s :
  to_initiate ac → ¬ has_details ac → ∃ t, reconcile_one ac s = Halt NilDeref t.
Proof.
  intros Hact Hno. unfold reconcile_one. rewrite bind_app. cbn.
  assert (∀ (c : go EleScheduler unit) s, (∃ t, c s = Ret () t) → ∃ t, (c ;; initiate_and_report ac) s = Halt NilDeref t)
    as Hc.
  { intros c s' [t E]. rewrite bind_app, E. by apply initiate_and_report_crash. }
  destruct Hact as [-> | ->]; apply Hc; destruct (s_checks s !! ac_Id ac); by eexists.
Qed.

Lemma for_fold_halts {S A R} (l : list A) (x : A) (body : R → A → go S R) r s :
  x ∈ l → (∀ r s, returns (body r x s) = false) → returns (for_fold l r body s) = false.
Proof.
  intros Hin Hx. revert r s. induction l as [|y l IH]; [by apply not_elem_of_nil in Hin|].
  intros r s. cbn. rewrite bind_app. apply elem_of_cons in Hin as [<-|Hin].
  - specialize (Hx r s). by destruct (body r x s).
  - destruct (body r y s); [by apply IH|done].
Qed.

Section invariants.
Context `{MapRange}.

Lemma initiate_keeps ac s :
  sched_inv s → (∀ old, s_checks s !! ac_Id ac = Some old → done_in s old = true) →
  sched_inv (state_of (initiate_and_report ac s)).
Proof.
  intros Hinv Hold. pose proof (initiateCheck_app ac s) as Ha.
  unfold initiate_and_report. rewrite bind_app.
  destruct (initiation_of (ac_CheckIn ac)).
  - destruct Ha as (ch & -> & Hci & Hctx). cbn. apply inv_install; [done|done|].
    unfold GetID, header_of. unfold GetCheckIn in Hci. by rewrite Hci.
  - rewrite Ha. cbn. destruct (RawDetails _); by apply inv_alloc.
  - rewrite Ha. by apply inv_alloc.
Qed.

Lemma reconcile_one_keeps ac : keeps sched_inv (reconcile_one ac).
Proof.
  intros s Hinv. unfold reconcile_one. rewrite bind_app. cbn.
  assert (∀ c : go EleScheduler unit, runs c s (λ _ t, old_canceled (ac_Id ac) s t) →
    sched_inv (state_of ((c ;; initiate_and_report ac) s))) as Hc.
  { intros c Hr. rewrite bind_app. unfold runs in Hr. destruct (c s) as [[] t|]; [|done].
    destruct Hr as (Ht & _ & E & Hold). apply initiate_keeps; [done|]. by rewrite E. }
  destruct (ac_Action ac); [done| | |done]; apply Hc; by apply old_canceled_step.
Qed.

Lemma remove_check_keeps id : keeps sched_inv (remove_check id).
Proof.
  intros s Hinv. unfold remove_check. rewrite bind_app. cbn. rewrite bind_app. cbn.
  destruct (s_checks s !! id) as [ch|] eqn:Hl; cbn.
  - change (sched_inv (set_gauge (after_remove id ch s)
      (s_gauge s ++ [GaugeDec (GetCheckType ch)]))).
    apply (sched_inv_ext (after_remove id ch s)); try done. by apply inv_remove.
  - apply (sched_inv_ext s); try done. by apply delete_id.
Qed.

Lemma reconcile_keeps cp : keeps sched_inv (reconcile cp).
Proof.
  apply keeps_bind; [apply keeps_gets|]. intros R. apply keeps_bind.
  - apply keeps_for_fold. intros r ac _. apply keeps_bind; [apply reconcile_one_keeps|].
    intros _. apply keeps_ret.
  - intros R'. apply keeps_for_each. intros id _. apply remove_check_keeps.
Qed.

(** [reset] on the entries [l] of the table not yet visited. *)
Lemma reset_loop l s :
  sched_inv s → NoDup l.*1 → (∀ id ch, (id, ch) ∈ l ↔ s_checks s !! id = Some ch) →
  runs (for_each l (λ kv,
    modify (λ s, set_checks s (delete kv.1 (s_checks s)));; CancelCheck kv.2)) s
    (λ _ t, sched_inv t ∧ s_checks t = ∅ ∧ s_preparations t = s_preparations s
       ∧ closed t = closed s ∧ s_gauge t = s_gauge s).
Proof.
  revert s. induction l as [|[id ch] l IH]; intros s Hinv HN Hl; cbn.
  - split_and!; [done| |done..]. apply map_eq. intros id. rewrite lookup_empty.
    apply eq_None_not_Some. intros [ch Hch%Hl]. by apply not_elem_of_nil in Hch.
  - apply runs_bind. apply runs_bind. cbn.
    cbn in HN. apply NoDup_cons in HN as [Hn HN].
    assert (s_checks s !! id = Some ch) as Hid by (apply Hl; by left).
    eapply runs_mono; [apply (IH (after_remove id ch s))|].
    + by apply inv_remove.
    + done.
    + intros j c. cbn. rewrite lookup_delete_Some, <- Hl, elem_of_cons. split.
      * intros Hj. split; [|by right]. intros ->. apply Hn.
        apply list_elem_of_fmap. by exists (j, c).
      * intros [Hne [[= -> ->]|Hj]]; done.
    + intros _ t (H1 & H2 & H3 & H4 & H5). split_and!; try done. rewrite H4.
      apply (closed_cancel ch s), (inv_owns s Hinv). right. by exists id.
Qed.

Lemma reset_runs s :
  sched_inv s →
  runs reset s (λ _ t, sched_inv t ∧ s_checks t = ∅ ∧ s_preparations t = s_preparations s
    ∧ closed t = closed s ∧ s_gauge t = s_gauge s).
Proof.
  intros Hinv. unfold reset. apply runs_bind. cbn. apply reset_loop; [done|apply NoDup_range|].
  intros id ch. apply elem_of_range.
Qed.

(** The scheduler, driven by the other goroutines and its own loop. *)
Inductive sched_step : EleScheduler → EleScheduler → Prop :=
| step_ReconcileChecks cp s t : scheduler_ReconcileChecks cp s = Ret () t → sched_step s t
| step_Reset s t : Reset s = Ret () t → sched_step s t
| step_Close s t : scheduler_Close s = Ret () t → sched_step s t
| step_reconcile s t : take_preparation s = Ret () t → sched_step s t
| step_reset s t : take_reset s = Ret () t → sched_step s t.

Definition sched_reachable (s : EleScheduler) : Prop :=
  ∃ zoneID, rtc sched_step (NewScheduler zoneID) s.

Lemma closed_keeps s : sched_inv s → sched_inv (set_contexts s (cancel_in (s_ctx s) (s_contexts s))).
Proof.
  intros [Hr Hb Ho Hk Hi Hs Hn He]. split; try done.
  - cbn [s_contexts set_contexts]. intros i [Hh|Hc]%elem_of_canceled; [|by apply Hb].
    apply (proj1 (Forall_forall _ _) Hr). by apply head_Some_elem_of.
  - intros c Hc Hd. apply Hs; [done|]. destruct (done_in s c) eqn:E; [|done].
    unfold done_in, Done in *. cbn [s_contexts set_contexts] in Hd. rewrite <- Hd.
    symmetry. apply is_done_true. apply is_done_true in E as (k & Hk' & Hc').
    exists k. split; [done|]. apply elem_of_canceled. by right.
Qed.

Lemma step_keeps s t : sched_step s t → sched_inv s → sched_inv t.
Proof.
  intros Hstep Hinv. destruct Hstep as [cp s t E|s t E|s t E|s t E|s t E].
  - revert E. unfold scheduler_ReconcileChecks. rewrite bind_app. cbn.
    case_bool_decide; intros [= <-]. by apply (sched_inv_ext s).
  - revert E. unfold Reset. rewrite bind_app. cbn.
    case_bool_decide; intros [= <-]. by apply (sched_inv_ext s).
  - injection E as <-. by apply closed_keeps.
  - revert E. unfold take_preparation. rewrite bind_app. cbn.
    destruct (s_preparations s) as [|cp q]; [done|]. rewrite bind_app. cbn.
    intros E. pose proof (reconcile_keeps cp (set_preparations s q)) as Hkeep.
    rewrite E in Hkeep. apply Hkeep. by apply (sched_inv_ext s).
  - revert E. unfold take_reset. rewrite bind_app. cbn.
    destruct (s_resets s) as [|n]; [done|]. rewrite bind_app. cbn.
    intros E. pose proof (reset_runs (set_resets s n)) as Hr. unfold runs in Hr.
    rewrite E in Hr. apply Hr. by apply (sched_inv_ext s).
Qed.

Lemma reachable_inv s : sched_reachable s → sched_inv s.
Proof.
  intros [zoneID Hr]. pose proof (sched_inv_new zoneID) as H0. revert H0.
  induction Hr as [|s1 s2 s3 Hstep _ IH]; [done|]. intros H1. by apply IH, (step_keeps s1).
Qed.
End invariants.

Lemma validate_one_none checks ac :
  validate_one checks ac = None ↔
    (ac_Action ac = ActionTypeRestart ∨ ac_Action ac = ActionTypeContinue →
     is_Some (checks !! ac_Id ac)).
Proof.
  rewrite <- not_eq_None_Some. unfold validate_one.
  destruct (ac_Action ac), (checks !! ac_Id ac); naive_solver.
Qed.

Lemma actionable_entry `{MapRange} cp ac :
  ac ∈ GetActionableChecks cp ↔ ∃ id, cp_Actions cp !! id = Some ac.
Proof.
  unfold GetActionableChecks. rewrite list_elem_of_fmap. split.
  - intros ([id ac'] & -> & Hin%elem_of_range). by exists id.
  - intros [id Hid]. exists (id, ac). split; [done|]. by apply elem_of_range.
Qed.

Lemma initiated_details ac : initiation_of (ac_CheckIn ac) = Initiated → has_details ac.
Proof.
  unfold initiation_of, has_details. destruct (details_decoder _); [|done].
  by destruct (RawDetails (ac_CheckIn ac)).
Qed.

(** The scheduler implements [ChecksReconciler]. *)
Definition scheduler_room (s : EleScheduler) : bool :=
  bool_decide (length (s_preparations s) < checkPreparationBufferSize).

Lemma validate_checks_none `{MapRange} cp s :
  scheduler_ValidateChecks cp s = None ↔
    ∀ id action, plan cp id action → action = ActionTypeRestart ∨ action = ActionTypeContinue →
      is_Some (s_checks s !! id).
Proof.
  unfold scheduler_ValidateChecks, plan. rewrite first_error_none.
  setoid_rewrite actionable_entry. setoid_rewrite validate_one_none. naive_solver.
Qed.

#[export] Instance scheduler_reconciler `{MapRange} : ChecksReconciler EleScheduler.
Proof.
  refine {| ValidateChecks := scheduler_ValidateChecks;
            ReconcileChecks := scheduler_ReconcileChecks; has_room := scheduler_room |}.
  - intros cp s Hroom. unfold scheduler_ReconcileChecks. rewrite bind_app. cbn [gets].
    unfold scheduler_room in Hroom. by rewrite Hroom.
  - intros s cp cp' Hp. rewrite !validate_checks_none. split; intros Hv id action Hpl Ha;
      (apply (Hv id action); [apply Hp; [by destruct Ha; subst|done]|done]).
Defined.

(** ** Properties *)
Section properties.
Context `{MapRange}.

(** C12: what a reconciliation does, check by check, on a preparation whose
    checks to start or restart come with details.  A check that the
    preparation does not mention is removed and its loop ends; one that
    continues is left alone, and its loop goes on if it did; one to start or
    restart has its old instance, if any, canceled, and is replaced by a new
    instance with the definition received, the only one of its id whose loop
    goes on: it does when the check is enabled and the scheduler open; when the
    definition is refused the table keeps the old instance, whose loop has
    ended. *)
Theorem reconcile_spec cp s :
  sched_reachable s → wf_prep cp → prep_has_details cp →
  ∃ t, reconcile cp s = Ret () t ∧
    (∀ id, cp_Actions cp !! id = None → s_checks t !! id = None
       ∧ (∀ old, s_checks s !! id = Some old → done_in t old = true)
       ∧ ∀ ch, GetID ch = id → ¬ running t ch)
    ∧ (∀ id ac, cp_Actions cp !! id = Some ac → ¬ to_initiate ac →
         s_checks t !! id = s_checks s !! id
         ∧ (∀ old, s_checks s !! id = Some old → done_in t old = done_in s old)
         ∧ ∀ ch, GetID ch = id → running t ch ↔ running s ch)
    ∧ (∀ id ac, cp_Actions cp !! id = Some ac → to_initiate ac →
         (∀ old, s_checks s !! id = Some old → done_in t old = true)
         ∧ (initiation_of (ac_CheckIn ac) = Initiated →
              ∃ ch, s_checks t !! id = Some ch ∧ GetCheckIn ch = ac_CheckIn ac
                ∧ done_in t ch = closed s
                ∧ ∀ ch', GetID ch' = id →
                    running t ch' ↔ ch' = ch ∧ IsDisabled ch = false ∧ closed s = false)
         ∧ (initiation_of (ac_CheckIn ac) ≠ Initiated →
              s_checks t !! id = s_checks s !! id
              ∧ ∀ ch, GetID ch = id → ¬ running t ch)).
Proof.
  intros Hs%reachable_inv Hwf Hdet. pose proof (reconcile_runs cp s Hs Hwf Hdet) as Hr.
  unfold runs in Hr. destruct (reconcile cp s) as [[] t|]; [|done].
  destruct Hr as (Ht & _ & He & Hno). exists t. pose proof (inv_loops t Ht) as Hrun.
  split_and!; [done| | |]; intros id.
  - intros [Hn Hd]%Hno. split_and!; [done..|]. intros ch <-. rewrite Hrun. naive_solver.
  - intros ac Hac Hn. specialize (He _ _ Hac). rewrite <- (Hwf _ _ Hac).
    unfold entry_done in He. rewrite decide_False in He by done. destruct He as [E Hd].
    split_and!; [done..|]. intros ch Hid. rewrite Hrun, (inv_loops s Hs), Hid, E. naive_solver.
  - intros ac Hac Hn. specialize (He _ _ Hac). rewrite <- (Hwf _ _ Hac).
    unfold entry_done in He. rewrite decide_True in He by done. destruct He as [Hold He].
    split; [done|]. setoid_rewrite Hrun. split; intros Hi.
    + rewrite Hi in He. destruct He as (ch & Hch & Hdef & Hd). exists ch. split_and!; [done..|].
      intros ch' ->. rewrite Hch, <- Hd. split; [intros ([= <-] & ? & ?)|intros (-> & ? & ?)]; done.
    + assert (s_checks t !! ac_Id ac = s_checks s !! ac_Id ac) as E by by destruct (initiation_of _).
      split; [done|]. intros ch ->. rewrite E. intros (H1 & _ & H3). rewrite (Hold ch H1) in H3. done.
Qed.

(** A reconciliation crashes the poller if and only if the preparation
    has a check to start or restart without details. *)
Theorem reconcile_returns_iff cp s :
  sched_reachable s → wf_prep cp →
  returns (reconcile cp s) = true ↔ prep_has_details cp.
Proof.
  intros Hreach Hwf. split.
  - intros Hret id ac Hac Hact. destruct (decide (has_details ac)) as [|Hno]; [done|].
    assert (returns (reconcile cp s) = false) as E; [|congruence].
    unfold reconcile. rewrite bind_app. cbn. rewrite bind_app.
    pose proof (for_fold_halts (GetActionableChecks cp) ac (λ remainder ac,
      reconcile_one ac;; mret (remainder ∖ {[ac_Id ac]})) (dom (s_checks s)) s) as Hh.
    destruct (for_fold _ _ _ s); [|done]. cbn in Hh. enough (true = false) by done. apply Hh.
    + apply elem_of_actionable; [done|]. by rewrite (Hwf _ _ Hac).
    + intros r s'. rewrite bind_app. by destruct (reconcile_one_crash ac s' Hact Hno) as [t ->].
  - intros Hdet. pose proof (reconcile_runs cp s (reachable_inv s Hreach) Hwf Hdet) as Hr.
    unfold runs in Hr. by destruct (reconcile cp s).
Qed.

(** C14: no leak.  In every state the scheduler can reach, the timer loops that
    go on are exactly those of the enabled checks of the table that have not
    been canceled. *)
Theorem running_iff s ch :
  sched_reachable s →
  running s ch ↔
    s_checks s !! GetID ch = Some ch ∧ IsDisabled ch = false ∧ done_in s ch = false.
Proof.
  intros Hreach. by apply inv_loops, reachable_inv.
Qed.

(** C15: a reset returns, leaves no check in the table and no timer loop going
    on, and keeps the preparations that wait. *)
Theorem reset_stops_all s :
  sched_reachable s →
  runs reset s (λ _ t, s_checks t = ∅ ∧ (∀ ch, ¬ running t ch)
    ∧ s_preparations t = s_preparations s).
Proof.
  intros Hreach. eapply runs_mono; [apply reset_runs; by apply reachable_inv|].
  cbn. intros _ t (Hinv & E & Hp & _). split_and!; [done| |done].
  intros ch [Hst Hd]. apply (inv_started t Hinv) in Hst; [|done]. rewrite E in Hst. done.
Qed.

(** A preparation is accepted exactly when each check it restarts or
    continues is in the table. *)
Theorem validate_checks_iff cp s :
  scheduler_ValidateChecks cp s = None ↔
    ∀ id ac, cp_Actions cp !! id = Some ac →
      ac_Action ac = ActionTypeRestart ∨ ac_Action ac = ActionTypeContinue →
      is_Some (s_checks s !! ac_Id ac).
Proof.
  unfold scheduler_ValidateChecks. rewrite first_error_none.
  setoid_rewrite actionable_entry. setoid_rewrite validate_one_none. naive_solver.
Qed.

(** When an accepted preparation is reconciled against the table it was
    validated for, and its definitions initiate, the table holds exactly the
    checks of the preparation afterwards. *)
Theorem accepted_table cp s :
  sched_reachable s → wf_prep cp → scheduler_ValidateChecks cp s = None →
  map_Forall (λ _ ac, ac_Action ac ≠ ActionTypeUnknown) (cp_Actions cp) →
  map_Forall (λ _ ac, to_initiate ac → initiation_of (ac_CheckIn ac) = Initiated)
    (cp_Actions cp) →
  runs (reconcile cp) s (λ _ t, dom (s_checks t) = dom (cp_Actions cp)).
Proof.
  intros Hreach Hwf Hval Hkn Hin.
  assert (prep_has_details cp) as Hdet.
  { intros id ac Hac Hact. apply initiated_details. by eapply Hin. }
  eapply runs_mono; [apply reconcile_runs; [by apply reachable_inv|done..]|].
  cbn. intros _ t (_ & _ & He & Hno). apply set_eq. intros id. rewrite !elem_of_dom.
  destruct (cp_Actions cp !! id) as [ac|] eqn:Hac.
  - split; [done|]. intros _. specialize (He _ _ Hac). unfold entry_done in He.
    rewrite (Hwf _ _ Hac) in He. case_decide as Hact.
    + destruct He as [_ He]. rewrite (Hin _ _ Hac Hact) in He.
      destruct He as (ch & -> & _). done.
    + destruct He as [-> _]. unfold scheduler_ValidateChecks in Hval.
      rewrite first_error_none in Hval. specialize (Hval ac). rewrite validate_one_none in Hval.
      rewrite (Hwf _ _ Hac) in Hval. apply Hval; [apply actionable_entry; by exists id|].
      specialize (Hkn _ _ Hac). unfold to_initiate in Hact. cbn in Hkn.
      clear -Hkn Hact. destruct (ac_Action ac); naive_solver.
  - destruct (Hno id Hac) as [-> _]. done.
Qed.
End properties.

(** ** Witnesses: a preparation with one ping to start, on a new scheduler *)
Definition example_prep : ChecksPreparation := {|
  cp_ZoneId := "pzA"; cp_Version := 5;
  cp_Actions := {[ "chA" := {| ac_CheckIn := example_definition; ac_Action := ActionTypeStart;
                               ac_Populated := true |} ]} |}.

Lemma example_prep_entry id ac :
  cp_Actions example_prep !! id = Some ac →
  id = "chA" ∧ ac = {| ac_CheckIn := example_definition; ac_Action := ActionTypeStart;
                       ac_Populated := true |}.
Proof. cbn. intros [<- <-]%lookup_singleton_Some. done. Qed.

Lemma example_prep_ok :
  wf_prep example_prep ∧ prep_has_details example_prep
  ∧ map_Forall (λ _ ac, ac_Action ac ≠ ActionTypeUnknown) (cp_Actions example_prep).
Proof.
  split_and!; intros id ac [-> ->]%example_prep_entry; [done| |done]. intros _. by eexists.
Qed.

Lemma reconcile_spec_witness :
  ∃ t ch, @reconcile some_order example_prep (NewScheduler "pzA") = Ret () t
    ∧ s_checks t !! "chA" = Some ch ∧ GetCheckIn ch = example_definition ∧ done_in t ch = false
    ∧ (IsDisabled ch = false → running t ch).
Proof.
  destruct (@reconcile_spec some_order example_prep (NewScheduler "pzA"))
    as (t & E & _ & _ & H).
  - by exists "pzA".
  - apply example_prep_ok.
  - apply example_prep_ok.
  - destruct (H "chA" {| ac_CheckIn := example_definition; ac_Action := ActionTypeStart;
                         ac_Populated := true |}) as (_ & Hi & _).
    + reflexivity.
    + by left.
    + destruct Hi as (ch & H1 & H2 & H3 & H4); [vm_compute; reflexivity|]. exists t, ch.
      split; [exact E|]. split; [exact H1|]. split; [exact H2|]. split; [exact H3|].
      intros Hen. assert (GetID ch = "chA") as Hid.
      { change (ch_Id (Header (GetCheckIn ch)) = "chA"). rewrite H2. reflexivity. }
      destruct (H4 ch Hid) as [_ Hrun]. exact (Hrun (conj eq_refl (conj Hen eq_refl))).
Defined.

Lemma reconcile_returns_iff_witness :
  returns (@reconcile some_order example_prep (NewScheduler "pzA")) = true
    ↔ prep_has_details example_prep.
Proof.
  apply (@reconcile_returns_iff some_order).
  - by exists "pzA".
  - apply example_prep_ok.
Defined.

(** The states after the queuing and the reconciliation of [example_prep]. *)
Definition example_queued : EleScheduler :=
  state_of (scheduler_ReconcileChecks example_prep (NewScheduler "pzA")).
Definition example_scheduler : EleScheduler :=
  state_of (@take_preparation some_order example_queued).

Lemma example_reachable : @sched_reachable some_order example_scheduler.
Proof.
  exists "pzA". apply (rtc_l _ _ example_queued); [|apply rtc_once].
  - apply (@step_ReconcileChecks some_order example_prep). reflexivity.
  - apply (@step_reconcile some_order). reflexivity.
Qed.

Lemma running_iff_witness :
  ∃ ch, running example_scheduler ch ∧ GetID ch = "chA".
Proof.
  exists (default (example_ping 0) (s_checks example_scheduler !! "chA")). split; [|done].
  apply (@running_iff some_order); [exact example_reachable|].
  split_and!; reflexivity.
Defined.

Lemma reset_stops_all_witness :
  runs (@reset some_order) example_scheduler (λ _ t, s_checks t = ∅ ∧ (∀ ch, ¬ running t ch)
    ∧ s_preparations t = s_preparations example_scheduler).
Proof. apply (@reset_stops_all some_order), example_reachable. Defined.

Lemma accepted_table_witness :
  runs (@reconcile some_order example_prep) (NewScheduler "pzA")
    (λ _ t, dom (s_checks t) = dom (cp_Actions example_prep)).
Proof.
  apply (@accepted_table some_order).
  - by exists "pzA".
  - apply example_prep_ok.
  - reflexivity.
  - apply example_prep_ok.
  - intros id ac [_ ->]%example_prep_entry _. vm_compute. reflexivity.
Defined.
