(* ===== verification/Gauge.v ===== *)
(** The gauge of scheduled checks (src/poller/scheduler.go): what the calls that
    [Scheduler] records come to, against the table of checks. *)
From S2P Require Export Scheduler.

(** The value of the gauge of a type. *)
Definition gauge_call_value (ty : string) (c : gauge_call) : Z :=
  match c with
  | GaugeInc ty' => if bool_decide (ty' = ty) then 1 else 0
  | GaugeDec ty' => if bool_decide (ty' = ty) then -1 else 0
  end.
Definition gauge_value (ty : string) (s : EleScheduler) : Z :=
  foldr (λ c n, (gauge_call_value ty c + n)%Z) 0%Z (s_gauge s).

(** The checks of the type. *)
Definition scheduled (ty : string) (checks : gmap string Check) : nat :=
  size (filter (λ kv, GetCheckType kv.2 = ty) checks).

Definition drift (ty : string) (s : EleScheduler) : Z :=
  (gauge_value ty s - Z.of_nat (scheduled ty (s_checks s)))%Z.

(** ** The table, one entry at a time *)
Lemma scheduled_set ty id ch (m : gmap string Check) :
  scheduled ty (<[id := ch]> m) =
    (if decide (GetCheckType ch = ty) then 1 else 0) + scheduled ty (delete id m).
Proof.
  unfold scheduled. rewrite map_filter_insert. cbn. case_decide.
  - by rewrite <- insert_delete_eq, map_size_insert_None, map_filter_delete
      by (rewrite ?map_filter_delete; apply lookup_delete_eq).
  - by rewrite map_filter_delete.
Qed.

Lemma scheduled_old ty id old (m : gmap string Check) :
  m !! id = Some old →
  scheduled ty m = (if decide (GetCheckType old = ty) then 1 else 0) + scheduled ty (delete id m).
Proof. intros Hold. rewrite <- scheduled_set. by rewrite insert_id. Qed.

Lemma scheduled_new ty id (m : gmap string Check) :
  m !! id = None → scheduled ty (delete id m) = scheduled ty m.
Proof. intros Hno. by rewrite delete_id. Qed.

Lemma gauge_value_app ty s c :
  gauge_value ty (set_gauge s (s_gauge s ++ [c])) = (gauge_value ty s + gauge_call_value ty c)%Z.
Proof.
  unfold gauge_value. cbn. induction (s_gauge s) as [|c' l IH]; cbn; [lia|]. rewrite IH. lia.
Qed.

(** ** Preparations that keep the gauge right

    Every check to start or restart can be made, one to restart is there, and
    one that is there already keeps its type. *)
Definition makes_all (cp : ChecksPreparation) : Prop :=
  map_Forall (λ _ ac, to_initiate ac → initiation_of (ac_CheckIn ac) = Initiated) (cp_Actions cp).

Definition keeps_types (cp : ChecksPreparation) (s : EleScheduler) : Prop :=
  map_Forall (λ id ac, to_initiate ac →
    (ac_Action ac = ActionTypeRestart → is_Some (s_checks s !! id))
    ∧ ∀ old, s_checks s !! id = Some old → GetCheckType old = ac_CheckType ac) (cp_Actions cp).

Lemma initiated ac s :
  initiation_of (ac_CheckIn ac) = Initiated →
  ∃ ch t, initiate_and_report ac s = Ret () t ∧ GetCheckType ch = ac_CheckType ac
    ∧ s_checks t = <[ac_Id ac := ch]> (s_checks s) ∧ s_gauge t = s_gauge s.
Proof.
  intros Hi. destruct (initiate_and_report_app ac s (initiated_details ac Hi))
    as (t & E & [[Hno _]|(ch & _ & -> & Hci & _)]); [done|].
  exists ch, (after_install ch (after_alloc s)). split_and!; try done.
  - unfold ac_CheckType. by rewrite <- Hci.
  - unfold ac_Id. by rewrite <- Hci.
Qed.

Lemma reconcile_one_drift ac s ty :
  (to_initiate ac → initiation_of (ac_CheckIn ac) = Initiated
     ∧ (ac_Action ac = ActionTypeRestart → is_Some (s_checks s !! ac_Id ac))
     ∧ ∀ old, s_checks s !! ac_Id ac = Some old → GetCheckType old = ac_CheckType ac) →
  runs (reconcile_one ac) s (λ _ t, drift ty t = drift ty s
    ∧ (s_checks t = s_checks s
       ∨ ∃ ch, GetCheckType ch = ac_CheckType ac ∧ s_checks t = <[ac_Id ac := ch]> (s_checks s))).
Proof.
  intros Hac. unfold reconcile_one. apply runs_bind. cbn.
  assert (∀ s1 c, s_checks s1 = s_checks s → to_initiate ac →
    gauge_value ty s1 = (gauge_value ty s + c)%Z →
    c = (if decide (ac_CheckType ac = ty) then (if s_checks s !! ac_Id ac is Some _ then 0 else 1) else 0)%Z →
    runs (initiate_and_report ac) s1 (λ _ t, drift ty t = drift ty s
      ∧ (s_checks t = s_checks s
         ∨ ∃ ch, GetCheckType ch = ac_CheckType ac ∧ s_checks t = <[ac_Id ac := ch]> (s_checks s))))
    as Hinit.
  { intros s1 c Hs1 Hto Hg Hc. destruct (Hac Hto) as (Hi & _ & Hty).
    destruct (initiated ac s1 Hi) as (ch & t & E & Hch & Ht & Hgt). eapply runs_ret; [exact E|].
    rewrite Hs1 in Ht. split; [|right; by exists ch]. unfold drift.
    replace (gauge_value ty t) with (gauge_value ty s1) by (unfold gauge_value; by rewrite Hgt).
    rewrite Ht, scheduled_set, Hch, Hg, Hc.
    destruct (s_checks s !! ac_Id ac) as [old|] eqn:Hold.
    - rewrite (scheduled_old ty _ _ _ Hold), (Hty old eq_refl). case_decide; lia.
    - rewrite (scheduled_new ty _ _ Hold). case_decide; lia. }
  unfold to_initiate in *. destruct (ac_Action ac) eqn:Ea; try (split; [done|by left]);
    apply runs_bind; destruct (s_checks s !! ac_Id ac) as [old|] eqn:Hold.
  - apply (Hinit _ 0%Z); [done|auto|unfold gauge_value; cbn; lia|by case_decide].
  - eapply Hinit; [done|auto|apply gauge_value_app|]. cbn. by repeat case_decide; case_bool_decide.
  - apply (Hinit _ 0%Z); [done|auto|unfold gauge_value; cbn; lia|by case_decide].
  - exfalso. destruct Hac as (_ & Hr & _); [auto|]. by destruct (Hr eq_refl).
Qed.

Lemma remove_check_drift id d ty : keeps (λ t, drift ty t = d) (remove_check id).
Proof.
  intros s Hs. unfold remove_check. rewrite bind_app. cbn [gets]. rewrite bind_app. cbn [modify].
  destruct (s_checks s !! id) as [ch|] eqn:Hold.
  - change (drift ty (set_gauge (after_remove id ch s)
      (s_gauge (after_remove id ch s) ++ [GaugeDec (GetCheckType ch)])) = d).
    unfold drift in *. rewrite gauge_value_app.
    change (gauge_value ty (after_remove id ch s)) with (gauge_value ty s).
    cbn [gauge_call_value s_checks set_gauge after_remove after_cancel set_checks set_contexts].
    rewrite (scheduled_old ty _ _ _ Hold) in Hs.
    case_decide; [rewrite bool_decide_true by done|rewrite bool_decide_false by done]; lia.
  - change (drift ty (set_checks s (delete id (s_checks s))) = d). rewrite <- Hs. unfold drift.
    cbn [s_checks set_checks]. by rewrite scheduled_new.
Qed.

(** ** Properties *)
Section properties.
Context `{MapRange}.

Lemma reconcile_drift cp s ty :
  wf_prep cp → makes_all cp → keeps_types cp s → drift ty (state_of (reconcile cp s)) = drift ty s.
Proof.
  intros Hwf Hall Hkeep. unfold reconcile. rewrite bind_app. cbn [gets]. rewrite bind_app.
  match goal with |- context [for_fold ?l ?r ?body s] =>
    assert (runs (for_fold l r body) s (λ _ t, drift ty t = drift ty s)) as Hfold
  end.
  - eapply runs_mono.
    + apply (runs_for_fold (λ l _ t, (∀ ac, ac ∈ l → cp_Actions cp !! ac_Id ac = Some ac)
        ∧ drift ty t = drift ty s ∧ keeps_types cp t)).
      * split_and!; [intros ac; by apply elem_of_actionable|done..].
      * intros ac l R t (Hl & <- & Ht). assert (cp_Actions cp !! ac_Id ac = Some ac) as Hac
          by (apply Hl; by left).
        apply runs_bind. eapply runs_mono; [apply (reconcile_one_drift ac t ty)|].
        { intros Hto. by destruct (Ht _ _ Hac Hto); split; [apply (Hall _ _ Hac Hto)|]. }
        cbn. intros _ u [Hd Hu]. split_and!; [intros ac' H'; apply Hl; by right|done|].
        destruct Hu as [Hu|(ch & Hch & Hu)]; unfold keeps_types; rewrite Hu; [exact Ht|].
        intros id ac' Hac' Hto. destruct (decide (id = ac_Id ac)) as [->|Hne].
        -- assert (ac' = ac) as -> by congruence. rewrite lookup_insert_eq. split; [by eexists|congruence].
        -- rewrite lookup_insert_ne by done. by apply Ht.
    + by cbn; intros R t (_ & ? & _).
  - unfold runs in Hfold. destruct (for_fold _ _ _ s) as [R t|]; [|done].
    apply keeps_for_each; [|done]. intros id _. apply remove_check_drift.
Qed.

(** C16: the gauge of scheduled checks.  A preparation whose checks can be made,
    that restarts only checks that are there, and starts or restarts none that
    is there under another type, changes the gauge of every type by as much as the number of checks of that type in
    the table.  A reset empties the table and leaves the gauges: each is too
    high, by the checks that were there, from then on. *)
Theorem gauge_follows_table s :
  sched_reachable s →
  (∀ cp, wf_prep cp → makes_all cp → keeps_types cp s →
     ∃ t, reconcile cp s = Ret () t ∧ ∀ ty, drift ty t = drift ty s)
  ∧ ∃ t, reset s = Ret () t ∧ s_checks t = ∅
      ∧ ∀ ty, drift ty t = (drift ty s + Z.of_nat (scheduled ty (s_checks s)))%Z.
Proof.
  intros Hs%reachable_inv. split.
  - intros cp Hwf Hall Hkeep.
    assert (prep_has_details cp) as Hdet
      by (intros id ac Hac Hto; apply initiated_details, (Hall id ac Hac Hto)).
    pose proof (λ ty, reconcile_drift cp s ty Hwf Hall Hkeep) as Hd.
    pose proof (reconcile_runs cp s Hs Hwf Hdet) as Hr. unfold runs in Hr.
    destruct (reconcile cp s) as [[] t|]; [by exists t|done].
  - pose proof (reset_runs s Hs) as Hr. unfold runs in Hr. destruct (reset s) as [[] t|]; [|done].
    destruct Hr as (_ & He & _ & _ & Hg). exists t. split_and!; [done..|]. intros ty.
    unfold drift, gauge_value. rewrite Hg, He. change (scheduled ty ∅) with (size (∅ : gmap string Check)).
    rewrite map_size_empty. lia.
Qed.
End properties.

(** A reset of the scheduler that runs one ping: the gauge of pings stays at 1. *)
Lemma gauge_follows_table_witness :
  ∃ t u, @reconcile some_order example_prep (NewScheduler "pzA") = Ret () t
    ∧ drift "remote.ping" t = 0%Z
    ∧ @reset some_order example_scheduler = Ret () u ∧ drift "remote.ping" u = 1%Z.
Proof.
  destruct (@gauge_follows_table some_order (NewScheduler "pzA")) as [Hr _]; [by exists "pzA"|].
  destruct (Hr example_prep) as (t & Et & Hd).
  - apply example_prep_ok.
  - intros id ac [-> ->]%example_prep_entry _. vm_compute. reflexivity.
  - intros id ac [-> ->]%example_prep_entry _. split; [done|]. intros old Hold. done.
  - destruct (@gauge_follows_table some_order example_scheduler example_reachable) as [_ (u & Eu & _ & Hu)].
    exists t, u. split; [exact Et|]. split; [rewrite (Hd "remote.ping"); reflexivity|].
    split; [exact Eu|]. rewrite (Hu "remote.ping"). vm_compute. reflexivity.
Defined.
