(* ===== verification/Session.v ===== *)
(** Component: a session (src/poller/session.go), with the events it emits.

    One goroutine reads frames, one handles them and waits for the
    prepare-to-end timer, one writes, one sends heartbeats; host information and
    check tests run in goroutines of their own.  Each is modelled by the
    computations it runs on the session, and their interleaving by the step
    relation at the end.  The write side of [sendCh] (capacity 128) is an append:
    a full channel delays the sender until the writing goroutine catches up. *)
From S2P Require Export Preparation Check CheckResult.

Record CompletionFrame := { comp_ID : Z; comp_Method : string }.

(** The events emitted to the registered consumers. *)
Inductive session_event :=
| EventReadError (f : FrameMsg) (e : error)
| EventSendError
| EventAuthTimeout.

(** The goroutines started for a frame. *)
Inductive spawned :=
| GoHostInfo (f : FrameMsg)
| GoCheckTest (f : FrameMsg).

Record prepDetails := {
  activePrep : option ChecksPreparation;
  newestCommittedVersion : Z;
  srcPrepMsg : option FrameMsg;
  prepared : bool;
  prepareToEndTimer : option Timer
}.
Record heartbeatMeasurement := {
  tracking : TimeLatencyTracking;
  expectedSeqID : Z;
  offset : Z;
  latency : Z;
  observations : Z
}.

Definition put_activePrep (x : option ChecksPreparation) (s : prepDetails) : prepDetails :=
  {| activePrep := x; newestCommittedVersion := newestCommittedVersion s;
     srcPrepMsg := srcPrepMsg s; prepared := prepared s;
     prepareToEndTimer := prepareToEndTimer s |}.
Definition put_newestCommittedVersion (x : Z) (s : prepDetails) : prepDetails :=
  {| activePrep := activePrep s; newestCommittedVersion := x; srcPrepMsg := srcPrepMsg s;
     prepared := prepared s; prepareToEndTimer := prepareToEndTimer s |}.
Definition put_srcPrepMsg (x : option FrameMsg) (s : prepDetails) : prepDetails :=
  {| activePrep := activePrep s; newestCommittedVersion := newestCommittedVersion s;
     srcPrepMsg := x; prepared := prepared s; prepareToEndTimer := prepareToEndTimer s |}.
Definition put_prepared (x : bool) (s : prepDetails) : prepDetails :=
  {| activePrep := activePrep s; newestCommittedVersion := newestCommittedVersion s;
     srcPrepMsg := srcPrepMsg s; prepared := x; prepareToEndTimer := prepareToEndTimer s |}.
Definition put_prepareToEndTimer (x : option Timer) (s : prepDetails) : prepDetails :=
  {| activePrep := activePrep s; newestCommittedVersion := newestCommittedVersion s;
     srcPrepMsg := srcPrepMsg s; prepared := prepared s; prepareToEndTimer := x |}.

Definition put_tracking (x : TimeLatencyTracking) (s : heartbeatMeasurement) : heartbeatMeasurement :=
  {| tracking := x; expectedSeqID := expectedSeqID s; offset := offset s; latency := latency s;
     observations := observations s |}.
Definition put_expectedSeqID (x : Z) (s : heartbeatMeasurement) : heartbeatMeasurement :=
  {| tracking := tracking s; expectedSeqID := x; offset := offset s; latency := latency s;
     observations := observations s |}.
Definition put_offset (x : Z) (s : heartbeatMeasurement) : heartbeatMeasurement :=
  {| tracking := tracking s; expectedSeqID := expectedSeqID s; offset := x; latency := latency s;
     observations := observations s |}.
Definition put_latency (x : Z) (s : heartbeatMeasurement) : heartbeatMeasurement :=
  {| tracking := tracking s; expectedSeqID := expectedSeqID s; offset := offset s; latency := x;
     observations := observations s |}.
Definition put_observations (x : Z) (s : heartbeatMeasurement) : heartbeatMeasurement :=
  {| tracking := tracking s; expectedSeqID := expectedSeqID s; offset := offset s;
     latency := latency s; observations := x |}.

Definition zero_prep : prepDetails :=
  {| activePrep := None; newestCommittedVersion := 0; srcPrepMsg := None; prepared := false;
     prepareToEndTimer := None |}.
Definition zero_measurement : heartbeatMeasurement :=
  {| tracking := zero_tracking; expectedSeqID := 0; offset := 0; latency := 0;
     observations := 0 |}.

Record EleSession {R : Type} := {
  ss_guid : string;
  ss_cfg : Config;
  ss_reconciler : R;
  ss_prep : prepDetails;
  ss_ctx : Context;
  ss_contexts : Contexts;
  ss_seq : Z;
  ss_completions : gmap Z CompletionFrame;
  ss_sendCh : list Frame;
  ss_written : list json;
  ss_readCh : list FrameMsg;
  ss_authTimer : option Timer;
  ss_authenticated : bool;
  ss_heartbeatRoutines : nat;
  ss_heartbeatInterval : Duration;
  ss_heartbeatResponses : list HeartbeatResponse;
  ss_measurement : heartbeatMeasurement;
  ss_spawned : list spawned;
  ss_events : list session_event
}.
Arguments EleSession R : clear implicits.

Section session.
Context {R : Type} `{!ChecksReconciler R}.

Definition put_ss_guid (x : string) (s : EleSession R) : EleSession R :=
  {| ss_guid := x; ss_cfg := ss_cfg s; ss_reconciler := ss_reconciler s; ss_prep := ss_prep s;
     ss_ctx := ss_ctx s; ss_contexts := ss_contexts s; ss_seq := ss_seq s;
     ss_completions := ss_completions s; ss_sendCh := ss_sendCh s; ss_written := ss_written s;
     ss_readCh := ss_readCh s; ss_authTimer := ss_authTimer s;
     ss_authenticated := ss_authenticated s; ss_heartbeatRoutines := ss_heartbeatRoutines s;
     ss_heartbeatInterval := ss_heartbeatInterval s;
     ss_heartbeatResponses := ss_heartbeatResponses s; ss_measurement := ss_measurement s;
     ss_spawned := ss_spawned s; ss_events := ss_events s |}.
Definition put_ss_cfg (x : Config) (s : EleSession R) : EleSession R :=
  {| ss_guid := ss_guid s; ss_cfg := x; ss_reconciler := ss_reconciler s; ss_prep := ss_prep s;
     ss_ctx := ss_ctx s; ss_contexts := ss_contexts s; ss_seq := ss_seq s;
     ss_completions := ss_completions s; ss_sendCh := ss_sendCh s; ss_written := ss_written s;
     ss_readCh := ss_readCh s; ss_authTimer := ss_authTimer s;
     ss_authenticated := ss_authenticated s; ss_heartbeatRoutines := ss_heartbeatRoutines s;
     ss_heartbeatInterval := ss_heartbeatInterval s;
     ss_heartbeatResponses := ss_heartbeatResponses s; ss_measurement := ss_measurement s;
     ss_spawned := ss_spawned s; ss_events := ss_events s |}.
Definition put_ss_reconciler (x : R) (s : EleSession R) : EleSession R :=
  {| ss_guid := ss_guid s; ss_cfg := ss_cfg s; ss_reconciler := x; ss_prep := ss_prep s;
     ss_ctx := ss_ctx s; ss_contexts := ss_contexts s; ss_seq := ss_seq s;
     ss_completions := ss_completions s; ss_sendCh := ss_sendCh s; ss_written := ss_written s;
     ss_readCh := ss_readCh s; ss_authTimer := ss_authTimer s;
     ss_authenticated := ss_authenticated s; ss_heartbeatRoutines := ss_heartbeatRoutines s;
     ss_heartbeatInterval := ss_heartbeatInterval s;
     ss_heartbeatResponses := ss_heartbeatResponses s; ss_measurement := ss_measurement s;
     ss_spawned := ss_spawned s; ss_events := ss_events s |}.
Definition put_ss_prep (x : prepDetails) (s : EleSession R) : EleSession R :=
  {| ss_guid := ss_guid s; ss_cfg := ss_cfg s; ss_reconciler := ss_reconciler s; ss_prep := x;
     ss_ctx := ss_ctx s; ss_contexts := ss_contexts s; ss_seq := ss_seq s;
     ss_completions := ss_completions s; ss_sendCh := ss_sendCh s; ss_written := ss_written s;
     ss_readCh := ss_readCh s; ss_authTimer := ss_authTimer s;
     ss_authenticated := ss_authenticated s; ss_heartbeatRoutines := ss_heartbeatRoutines s;
     ss_heartbeatInterval := ss_heartbeatInterval s;
     ss_heartbeatResponses := ss_heartbeatResponses s; ss_measurement := ss_measurement s;
     ss_spawned := ss_spawned s; ss_events := ss_events s |}.
Definition put_ss_ctx (x : Context) (s : EleSession R) : EleSession R :=
  {| ss_guid := ss_guid s; ss_cfg := ss_cfg s; ss_reconciler := ss_reconciler s;
     ss_prep := ss_prep s; ss_ctx := x; ss_contexts := ss_contexts s; ss_seq := ss_seq s;
     ss_completions := ss_completions s; ss_sendCh := ss_sendCh s; ss_written := ss_written s;
     ss_readCh := ss_readCh s; ss_authTimer := ss_authTimer s;
     ss_authenticated := ss_authenticated s; ss_heartbeatRoutines := ss_heartbeatRoutines s;
     ss_heartbeatInterval := ss_heartbeatInterval s;
     ss_heartbeatResponses := ss_heartbeatResponses s; ss_measurement := ss_measurement s;
     ss_spawned := ss_spawned s; ss_events := ss_events s |}.
Definition put_ss_contexts (x : Contexts) (s : EleSession R) : EleSession R :=
  {| ss_guid := ss_guid s; ss_cfg := ss_cfg s; ss_reconciler := ss_reconciler s;
     ss_prep := ss_prep s; ss_ctx := ss_ctx s; ss_contexts := x; ss_seq := ss_seq s;
     ss_completions := ss_completions s; ss_sendCh := ss_sendCh s; ss_written := ss_written s;
     ss_readCh := ss_readCh s; ss_authTimer := ss_authTimer s;
     ss_authenticated := ss_authenticated s; ss_heartbeatRoutines := ss_heartbeatRoutines s;
     ss_heartbeatInterval := ss_heartbeatInterval s;
     ss_heartbeatResponses := ss_heartbeatResponses s; ss_measurement := ss_measurement s;
     ss_spawned := ss_spawned s; ss_events := ss_events s |}.
Definition put_ss_seq (x : Z) (s : EleSession R) : EleSession R :=
  {| ss_guid := ss_guid s; ss_cfg := ss_cfg s; ss_reconciler := ss_reconciler s;
     ss_prep := ss_prep s; ss_ctx := ss_ctx s; ss_contexts := ss_contexts s; ss_seq := x;
     ss_completions := ss_completions s; ss_sendCh := ss_sendCh s; ss_written := ss_written s;
     ss_readCh := ss_readCh s; ss_authTimer := ss_authTimer s;
     ss_authenticated := ss_authenticated s; ss_heartbeatRoutines := ss_heartbeatRoutines s;
     ss_heartbeatInterval := ss_heartbeatInterval s;
     ss_heartbeatResponses := ss_heartbeatResponses s; ss_measurement := ss_measurement s;
     ss_spawned := ss_spawned s; ss_events := ss_events s |}.
Definition put_ss_completions (x : gmap Z CompletionFrame) (s : EleSession R) : EleSession R :=
  {| ss_guid := ss_guid s; ss_cfg := ss_cfg s; ss_reconciler := ss_reconciler s;
     ss_prep := ss_prep s; ss_ctx := ss_ctx s; ss_contexts := ss_contexts s; ss_seq := ss_seq s;
     ss_completions := x; ss_sendCh := ss_sendCh s; ss_written := ss_written s;
     ss_readCh := ss_readCh s; ss_authTimer := ss_authTimer s;
     ss_authenticated := ss_authenticated s; ss_heartbeatRoutines := ss_heartbeatRoutines s;
     ss_heartbeatInterval := ss_heartbeatInterval s;
     ss_heartbeatResponses := ss_heartbeatResponses s; ss_measurement := ss_measurement s;
     ss_spawned := ss_spawned s; ss_events := ss_events s |}.
Definition put_ss_sendCh (x : list Frame) (s : EleSession R) : EleSession R :=
  {| ss_guid := ss_guid s; ss_cfg := ss_cfg s; ss_reconciler := ss_reconciler s;
     ss_prep := ss_prep s; ss_ctx := ss_ctx s; ss_contexts := ss_contexts s; ss_seq := ss_seq s;
     ss_completions := ss_completions s; ss_sendCh := x; ss_written := ss_written s;
     ss_readCh := ss_readCh s; ss_authTimer := ss_authTimer s;
     ss_authenticated := ss_authenticated s; ss_heartbeatRoutines := ss_heartbeatRoutines s;
     ss_heartbeatInterval := ss_heartbeatInterval s;
     ss_heartbeatResponses := ss_heartbeatResponses s; ss_measurement := ss_measurement s;
     ss_spawned := ss_spawned s; ss_events := ss_events s |}.
Definition put_ss_written (x : list json) (s : EleSession R) : EleSession R :=
  {| ss_guid := ss_guid s; ss_cfg := ss_cfg s; ss_reconciler := ss_reconciler s;
     ss_prep := ss_prep s; ss_ctx := ss_ctx s; ss_contexts := ss_contexts s; ss_seq := ss_seq s;
     ss_completions := ss_completions s; ss_sendCh := ss_sendCh s; ss_written := x;
     ss_readCh := ss_readCh s; ss_authTimer := ss_authTimer s;
     ss_authenticated := ss_authenticated s; ss_heartbeatRoutines := ss_heartbeatRoutines s;
     ss_heartbeatInterval := ss_heartbeatInterval s;
     ss_heartbeatResponses := ss_heartbeatResponses s; ss_measurement := ss_measurement s;
     ss_spawned := ss_spawned s; ss_events := ss_events s |}.
Definition put_ss_readCh (x : list FrameMsg) (s : EleSession R) : EleSession R :=
  {| ss_guid := ss_guid s; ss_cfg := ss_cfg s; ss_reconciler := ss_reconciler s;
     ss_prep := ss_prep s; ss_ctx := ss_ctx s; ss_contexts := ss_contexts s; ss_seq := ss_seq s;
     ss_completions := ss_completions s; ss_sendCh := ss_sendCh s; ss_written := ss_written s;
     ss_readCh := x; ss_authTimer := ss_authTimer s; ss_authenticated := ss_authenticated s;
     ss_heartbeatRoutines := ss_heartbeatRoutines s;
     ss_heartbeatInterval := ss_heartbeatInterval s;
     ss_heartbeatResponses := ss_heartbeatResponses s; ss_measurement := ss_measurement s;
     ss_spawned := ss_spawned s; ss_events := ss_events s |}.
Definition put_ss_authTimer (x : option Timer) (s : EleSession R) : EleSession R :=
  {| ss_guid := ss_guid s; ss_cfg := ss_cfg s; ss_reconciler := ss_reconciler s;
     ss_prep := ss_prep s; ss_ctx := ss_ctx s; ss_contexts := ss_contexts s; ss_seq := ss_seq s;
     ss_completions := ss_completions s; ss_sendCh := ss_sendCh s; ss_written := ss_written s;
     ss_readCh := ss_readCh s; ss_authTimer := x; ss_authenticated := ss_authenticated s;
     ss_heartbeatRoutines := ss_heartbeatRoutines s;
     ss_heartbeatInterval := ss_heartbeatInterval s;
     ss_heartbeatResponses := ss_heartbeatResponses s; ss_measurement := ss_measurement s;
     ss_spawned := ss_spawned s; ss_events := ss_events s |}.
Definition put_ss_authenticated (x : bool) (s : EleSession R) : EleSession R :=
  {| ss_guid := ss_guid s; ss_cfg := ss_cfg s; ss_reconciler := ss_reconciler s;
     ss_prep := ss_prep s; ss_ctx := ss_ctx s; ss_contexts := ss_contexts s; ss_seq := ss_seq s;
     ss_completions := ss_completions s; ss_sendCh := ss_sendCh s; ss_written := ss_written s;
     ss_readCh := ss_readCh s; ss_authTimer := ss_authTimer s; ss_authenticated := x;
     ss_heartbeatRoutines := ss_heartbeatRoutines s;
     ss_heartbeatInterval := ss_heartbeatInterval s;
     ss_heartbeatResponses := ss_heartbeatResponses s; ss_measurement := ss_measurement s;
     ss_spawned := ss_spawned s; ss_events := ss_events s |}.
Definition put_ss_heartbeatRoutines (x : nat) (s : EleSession R) : EleSession R :=
  {| ss_guid := ss_guid s; ss_cfg := ss_cfg s; ss_reconciler := ss_reconciler s;
     ss_prep := ss_prep s; ss_ctx := ss_ctx s; ss_contexts := ss_contexts s; ss_seq := ss_seq s;
     ss_completions := ss_completions s; ss_sendCh := ss_sendCh s; ss_written := ss_written s;
     ss_readCh := ss_readCh s; ss_authTimer := ss_authTimer s;
     ss_authenticated := ss_authenticated s; ss_heartbeatRoutines := x;
     ss_heartbeatInterval := ss_heartbeatInterval s;
     ss_heartbeatResponses := ss_heartbeatResponses s; ss_measurement := ss_measurement s;
     ss_spawned := ss_spawned s; ss_events := ss_events s |}.
Definition put_ss_heartbeatInterval (x : Duration) (s : EleSession R) : EleSession R :=
  {| ss_guid := ss_guid s; ss_cfg := ss_cfg s; ss_reconciler := ss_reconciler s;
     ss_prep := ss_prep s; ss_ctx := ss_ctx s; ss_contexts := ss_contexts s; ss_seq := ss_seq s;
     ss_completions := ss_completions s; ss_sendCh := ss_sendCh s; ss_written := ss_written s;
     ss_readCh := ss_readCh s; ss_authTimer := ss_authTimer s;
     ss_authenticated := ss_authenticated s; ss_heartbeatRoutines := ss_heartbeatRoutines s;
     ss_heartbeatInterval := x; ss_heartbeatResponses := ss_heartbeatResponses s;
     ss_measurement := ss_measurement s; ss_spawned := ss_spawned s; ss_events := ss_events s |}.
Definition put_ss_heartbeatResponses (x : list HeartbeatResponse) (s : EleSession R) : EleSession R :=
  {| ss_guid := ss_guid s; ss_cfg := ss_cfg s; ss_reconciler := ss_reconciler s;
     ss_prep := ss_prep s; ss_ctx := ss_ctx s; ss_contexts := ss_contexts s; ss_seq := ss_seq s;
     ss_completions := ss_completions s; ss_sendCh := ss_sendCh s; ss_written := ss_written s;
     ss_readCh := ss_readCh s; ss_authTimer := ss_authTimer s;
     ss_authenticated := ss_authenticated s; ss_heartbeatRoutines := ss_heartbeatRoutines s;
     ss_heartbeatInterval := ss_heartbeatInterval s; ss_heartbeatResponses := x;
     ss_measurement := ss_measurement s; ss_spawned := ss_spawned s; ss_events := ss_events s |}.
Definition put_ss_measurement (x : heartbeatMeasurement) (s : EleSession R) : EleSession R :=
  {| ss_guid := ss_guid s; ss_cfg := ss_cfg s; ss_reconciler := ss_reconciler s;
     ss_prep := ss_prep s; ss_ctx := ss_ctx s; ss_contexts := ss_contexts s; ss_seq := ss_seq s;
     ss_completions := ss_completions s; ss_sendCh := ss_sendCh s; ss_written := ss_written s;
     ss_readCh := ss_readCh s; ss_authTimer := ss_authTimer s;
     ss_authenticated := ss_authenticated s; ss_heartbeatRoutines := ss_heartbeatRoutines s;
     ss_heartbeatInterval := ss_heartbeatInterval s;
     ss_heartbeatResponses := ss_heartbeatResponses s; ss_measurement := x;
     ss_spawned := ss_spawned s; ss_events := ss_events s |}.
Definition put_ss_spawned (x : list spawned) (s : EleSession R) : EleSession R :=
  {| ss_guid := ss_guid s; ss_cfg := ss_cfg s; ss_reconciler := ss_reconciler s;
     ss_prep := ss_prep s; ss_ctx := ss_ctx s; ss_contexts := ss_contexts s; ss_seq := ss_seq s;
     ss_completions := ss_completions s; ss_sendCh := ss_sendCh s; ss_written := ss_written s;
     ss_readCh := ss_readCh s; ss_authTimer := ss_authTimer s;
     ss_authenticated := ss_authenticated s; ss_heartbeatRoutines := ss_heartbeatRoutines s;
     ss_heartbeatInterval := ss_heartbeatInterval s;
     ss_heartbeatResponses := ss_heartbeatResponses s; ss_measurement := ss_measurement s;
     ss_spawned := x; ss_events := ss_events s |}.
Definition put_ss_events (x : list session_event) (s : EleSession R) : EleSession R :=
  {| ss_guid := ss_guid s; ss_cfg := ss_cfg s; ss_reconciler := ss_reconciler s;
     ss_prep := ss_prep s; ss_ctx := ss_ctx s; ss_contexts := ss_contexts s; ss_seq := ss_seq s;
     ss_completions := ss_completions s; ss_sendCh := ss_sendCh s; ss_written := ss_written s;
     ss_readCh := ss_readCh s; ss_authTimer := ss_authTimer s;
     ss_authenticated := ss_authenticated s; ss_heartbeatRoutines := ss_heartbeatRoutines s;
     ss_heartbeatInterval := ss_heartbeatInterval s;
     ss_heartbeatResponses := ss_heartbeatResponses s; ss_measurement := ss_measurement s;
     ss_spawned := ss_spawned s; ss_events := x |}.

(** A computation on a part of the session. *)
Definition on_prep {A} : go prepDetails A → go (EleSession R) A := zoom ss_prep put_ss_prep.
Definition on_reconciler {A} : go R A → go (EleSession R) A :=
  zoom ss_reconciler put_ss_reconciler.
Definition session_contexts {A} : go Contexts A → go (EleSession R) A :=
  zoom ss_contexts put_ss_contexts.

Definition EmitEvent (e : session_event) : go (EleSession R) unit :=
  modify (λ s, put_ss_events (ss_events s ++ [e]) s).

(** ** Sending *)
Definition Send (msg : Frame) : go (EleSession R) unit :=
  msg ← (if bool_decide (GetId msg = 0%Z)
         then seq ← gets ss_seq;
              let '(seq', c) := SetId seq (frame_common msg) in
              modify (put_ss_seq seq');;
              mret (on_common (λ _, c) msg)
         else mret msg);
  guid ← gets ss_guid;
  let msg := on_common (λ c, SetSource guid (SetTarget "endpoint" c)) msg in
  modify (λ s, put_ss_sendCh (ss_sendCh s ++ [msg]) s).

Definition Respond (msg : Frame) : go (EleSession R) unit :=
  guid ← gets ss_guid;
  let msg := on_common (λ c, SetSource guid (SetTarget "endpoint" c)) msg in
  modify (λ s, put_ss_sendCh (ss_sendCh s ++ [msg]) s).

Definition Auth : go (EleSession R) unit :=
  cfg ← gets ss_cfg;
  Send (FHandshake (NewHandshakeRequest cfg));;
  when (bool_decide (0 < TimeoutAuth cfg)%Z)
    (modify (put_ss_authTimer (Some (Armed (TimeoutAuth cfg))))).

(** [NewSession]: [ctx] is the context made for it. *)
Definition NewSession (guid : string) (cfg : Config) (reconciler : R) (ctx : Context)
    (contexts : Contexts) : outcome (EleSession R) unit :=
  Auth {| ss_guid := guid; ss_cfg := cfg; ss_reconciler := reconciler; ss_prep := zero_prep;
          ss_ctx := ctx; ss_contexts := contexts; ss_seq := 0; ss_completions := ∅;
          ss_sendCh := []; ss_written := []; ss_readCh := []; ss_authTimer := None;
          ss_authenticated := false; ss_heartbeatRoutines := 0; ss_heartbeatInterval := 0;
          ss_heartbeatResponses := []; ss_measurement := zero_measurement; ss_spawned := [];
          ss_events := [] |}.

(** ** Responses to the requests sent *)
Definition addCompletion (frame : Frame) : go (EleSession R) unit :=
  modify (λ s, put_ss_completions
    (<[GetId frame := {| comp_ID := GetId frame; comp_Method := GetMethod frame |}]>
       (ss_completions s)) s).

Definition getCompletionRequest (resp : FrameMsg) : go (EleSession R) (option CompletionFrame) :=
  req ← gets (λ s, ss_completions s !! f_Id (Common resp));
  match req with
  | None => mret None
  | Some req =>
      modify (λ s, put_ss_completions (delete (f_Id (Common resp)) (ss_completions s)) s);;
      mret (Some req)
  end.


(** [heartbeatsStarter.Do(s.goRunHeartbeats)] *)
Definition heartbeatsStarter : go (EleSession R) unit :=
  n ← gets ss_heartbeatRoutines;
  when (bool_decide (n = 0)) (modify (put_ss_heartbeatRoutines 1)).

(** [connection.SetAuthenticated] closes a channel (src/poller/connection.go). *)
Definition SetAuthenticated : go (EleSession R) unit :=
  closed ← gets ss_authenticated;
  if closed : bool then halt CloseOfClosed else modify (put_ss_authenticated true).

Definition handleResponse (resp : FrameMsg) : go (EleSession R) (option error) :=
  req ← getCompletionRequest resp;
  match req with
  | None => mret None
  | Some req =>
      if bool_decide (comp_Method req = MethodHandshakeHello) then
        modify (put_ss_authTimer None);;
        let hs := DecodeHandshakeResponse resp in
        match f_Error (Common (hresp_Frame hs)) with
        | Some err => mret (Some (Message err))
        | None =>
            modify (put_ss_heartbeatInterval
              (to_i64 (to_i64 (HeartbeatInterval (hresp_Result hs)) * Millisecond)));;
            heartbeatsStarter;;
            SetAuthenticated;;
            mret None
        end
      else if bool_decide (comp_Method req = MethodHeartbeatPost) then
        q ← gets ss_heartbeatResponses;
        if bool_decide (length q < 1) then
          modify (put_ss_heartbeatResponses (q ++ [DecodeHeartbeatResponse resp]));;
          mret None
        else halt Blocked
      else mret None
  end.

(** ** Preparing and committing checks *)
Definition clear : go prepDetails unit :=
  modify (put_activePrep None);;
  modify (put_srcPrepMsg None);;
  modify (put_prepared false);;
  modify (put_prepareToEndTimer None).

Definition commit : go (EleSession R) unit :=
  cp ← gets (λ s, activePrep (ss_prep s));
  cp ← deref cp;
  on_reconciler (ReconcileChecks cp);;
  on_prep clear.

Definition respondCommitResult (f : FrameMsg) (req : PollerCommitRequest) (status details : string)
    : go (EleSession R) unit :=
  let result := {| pcr_ZoneId := pcp_ZoneId (commit_Params req);
                   pcr_Version := pcp_Version (commit_Params req);
                   pcr_Status := status; pcr_Details := details |} in
  resp ← NewPollerPrepareCommitResponse (Some f) result;
  Respond (FMsg resp).

(** A nil [f] or a nil pointer behind [req] is a nil dereference. *)
Definition respondFailureToPollerPrepare (f : option FrameMsg) (req : option PollerPrepareRequest)
    (status details : string) : go (EleSession R) unit :=
  req ← deref req;
  let result := {| ppr_ZoneId := GetPreparationZoneId req;
                   ppr_Version := GetPreparationVersion req;
                   ppr_Status := status; ppr_Details := details |} in
  resp ← NewPollerPrepareResponse f result;
  Respond (FMsg resp).

Definition handlePollerPrepare (f : FrameMsg) : go (EleSession R) unit :=
  let req := DecodePollerPrepareStartRequest f in
  let reqVer := pps_Version (start_Params req) in
  pd ← gets ss_prep;
  if bool_decide (reqVer ≤ newestCommittedVersion pd)%Z then
    respondFailureToPollerPrepare (Some f) (Some (start_request req)) PrepareResultStatusIgnored
      "Request contains version older than newest committed version"
  else if IsOlder (activePrep pd) reqVer then
    respondFailureToPollerPrepare (Some f) (Some (start_request req)) PrepareResultStatusIgnored
      "Request contains version older than active preparation"
  else
    when (match activePrep pd with Some _ => IsNewer (activePrep pd) reqVer | None => false end) (
      respondFailureToPollerPrepare (srcPrepMsg pd) (preparation_request <$> activePrep pd)
        PrepareResultStatusIgnored "Request supercedes a previous preparation";;
      match prepareToEndTimer pd with
      | Some t => on_prep (modify (put_prepareToEndTimer (Some (timer_stop t).2)))
      | None => mret ()
      end);;
    match NewChecksPreparation (pps_ZoneId (start_Params req)) reqVer
            (pps_Manifest (start_Params req)) with
    | inr err =>
        respondFailureToPollerPrepare (Some f) (Some (start_request req)) PrepareResultStatusFailed err
    | inl cp =>
        verdict ← gets (λ s, ValidateChecks cp (ss_reconciler s));
        match verdict with
        | Some err =>
            respondFailureToPollerPrepare (Some f) (Some (start_request req))
              PrepareResultStatusFailed err
        | None =>
            cfg ← gets ss_cfg;
            on_prep (modify (put_prepareToEndTimer (Some (Armed (TimeoutPrepareEnd cfg))));;
                     modify (put_srcPrepMsg (Some f));;
                     modify (put_activePrep (Some cp)))
        end
    end.

(** [AddDefinitions] on the active preparation, in place. *)
Definition add_to_active (block : list (option CheckIn)) : go prepDetails unit :=
  cp ← gets activePrep;
  cp ← deref cp;
  zoom (λ _, cp) (λ cp' pd, put_activePrep (Some cp') pd) (AddDefinitions block).

Definition handlePollerPrepareBlock (f : FrameMsg) : go (EleSession R) unit :=
  let req := DecodePollerPrepareBlockRequest f in
  pd ← gets ss_prep;
  if negb (VersionApplies (activePrep pd) (ppb_Version (block_Params req))) then mret ()
  else
    on_prep (add_to_active (ppb_Block (block_Params req)));;
    t ← deref (prepareToEndTimer pd);
    let '(was_active, t') := timer_stop t in
    on_prep (modify (put_prepareToEndTimer (Some t')));;
    t'' ← (if was_active : bool then mret t' else timer_receive t');
    cfg ← gets ss_cfg;
    on_prep (modify (put_prepareToEndTimer (Some (timer_reset (TimeoutPrepareEnd cfg) t'')))).

Section ranging.
Context `{MapRange}.

Definition handlePollerPrepareEnd (f : FrameMsg) : go (EleSession R) unit :=
  let req := DecodePollerPrepareEndRequest f in
  let directive := ppe_Directive (end_Params req) in
  pd ← gets ss_prep;
  if bool_decide (directive = PrepareDirectiveAbort) then
    respondFailureToPollerPrepare (srcPrepMsg pd) (Some (end_request req))
      PrepareResultStatusAborted "Aborting poller prepare per request of the server";;
    on_prep clear
  else if bool_decide (directive ≠ PrepareDirectivePrepare) then
    respondFailureToPollerPrepare (srcPrepMsg pd) (Some (end_request req))
      PrepareResultStatusFailed
      ("Unexpected directive during poller prepare end: " +:+ directive)%string
  else
    match activePrep pd with
    | None =>
        respondFailureToPollerPrepare (Some f) (Some (end_request req)) PrepareResultStatusFailed
          "No active checks preparation"
    | Some cp =>
        match ValidatePreparation cp (ppe_Version (end_Params req)) with
        | Some err =>
            respondFailureToPollerPrepare (srcPrepMsg pd) (Some (end_request req))
              PrepareResultStatusFailed err
        | None =>
            on_prep (modify (put_prepared true));;
            t ← deref (prepareToEndTimer pd);
            on_prep (modify (put_prepareToEndTimer (Some (timer_stop t).2)));;
            on_prep (modify (put_prepareToEndTimer None));;
            resp ← NewPollerPrepareResponse (srcPrepMsg pd)
              {| ppr_ZoneId := cp_ZoneId cp; ppr_Version := ppe_Version (end_Params req);
                 ppr_Status := PrepareResultStatusPrepared; ppr_Details := "" |};
            Respond (FMsg resp)
        end
    end.

Definition handlePollerCommit (f : FrameMsg) : go (EleSession R) unit :=
  let req := DecodePollerCommitRequest f in
  pd ← gets ss_prep;
  if negb (VersionApplies (activePrep pd) (pcp_Version (commit_Params req))) then
    respondCommitResult f req PrepareResultStatusIgnored
      "Poller commit request specified non-applicable version"
  else
    respondCommitResult f req PrepareResultStatusCommitted "";;
    commit.

(** The branch of [runFrameHandlingAndTimeout] for the timer. *)
Definition prepare_to_end_expired : go (EleSession R) unit :=
  on_prep (modify (put_prepareToEndTimer None));;
  pd ← gets ss_prep;
  respondFailureToPollerPrepare (srcPrepMsg pd) (preparation_request <$> activePrep pd)
    PrepareResultStatusFailed "prepare-to-end timer expired";;
  on_prep clear.

Definition spawn (g : spawned) : go (EleSession R) unit :=
  modify (λ s, put_ss_spawned (ss_spawned s ++ [g]) s).

Definition handleFrame (f : FrameMsg) : go (EleSession R) (option error) :=
  let method := f_Method (Common f) in
  if bool_decide (method = MethodEmpty) then handleResponse f
  else if bool_decide (method = MethodHostInfoGet) then spawn (GoHostInfo f);; mret None
  else if bool_decide (method = MethodPollerPrepare) then handlePollerPrepare f;; mret None
  else if bool_decide (method = MethodPollerPrepareBlock) then
    handlePollerPrepareBlock f;; mret None
  else if bool_decide (method = MethodPollerPrepareEnd) then
    handlePollerPrepareEnd f;; mret None
  else if bool_decide (method = MethodPollerCommit) then handlePollerCommit f;; mret None
  else if bool_decide (method = MethodCheckTest) then spawn (GoCheckTest f);; mret None
  else mret None.

(** The branch for a frame: an error is emitted as an event, and the loop goes on. *)
Definition handle_read_frame : go (EleSession R) unit :=
  q ← gets ss_readCh;
  match q with
  | [] => halt Blocked
  | f :: q' =>
      modify (put_ss_readCh q');;
      err ← handleFrame f;
      match err with Some e => EmitEvent (EventReadError f e) | None => mret () end
  end.
End ranging.

(** ** Check tests

    [Parse] reads the embedded document; [run] is the execution of the check,
    [tmp] the random number of a temporary id, [now] the poller's clock. *)
Definition digits6 (n : Z) : string :=
  let d := pretty n in (Repeat "0" (6 - String.length d) +:+ d)%string.

Definition handleCheckTest (Parse : string → option json) (run : Check → ResultSet + error)
    (tmp now : Z) (f : FrameMsg) : go (EleSession R) unit :=
  let refuse := resp ← NewErrorResponse (Some f) 1
                  "Unable to interpret the given check for testing";
                Respond (FMsg resp) in
  match DecodePollerCheckTestRequest Parse f with
  | inr _ => refuse
  | inl req =>
      checkIn ← deref (CheckParams (test_Params req));
      ctx ← gets ss_ctx;
      r ← session_contexts (NewCheckParsed ctx checkIn);
      match r with
      | inr _ => refuse
      | inl newCheck =>
          let newCheck := if bool_decide (GetID newCheck = "")
                          then SetID ("tch" +:+ digits6 tmp)%string newCheck else newCheck in
          match run newCheck with
          | inr err =>
              resp ← NewErrorResponse (Some f) 2 err;
              Respond (FMsg resp)
          | inl crs =>
              content ← PopulateMetricsPostContent now 0 crs;
              resp ← NewPollerCheckTestResponse (Some f) content;
              Respond (FMsg resp)
          end
      end
  end.

(** ** Heartbeats *)
Definition prepareHeartbeatMeasurement (req : HeartbeatRequest) : go heartbeatMeasurement unit :=
  modify (put_expectedSeqID (f_Id (Common (hbreq_Frame req))));;
  modify (λ m, put_tracking {|
    PollerSendTimestamp := hbp_Timestamp (hbreq_Params req);
    PollerRecvTimestamp := PollerRecvTimestamp (tracking m);
    ServerRecvTimestamp := ServerRecvTimestamp (tracking m);
    ServerRespTimestamp := ServerRespTimestamp (tracking m) |} m).

Definition updateHeartbeatMeasurement (now : Z) (resp : HeartbeatResponse)
    : go heartbeatMeasurement unit :=
  expected ← gets expectedSeqID;
  if bool_decide (expected ≠ f_Id (Common (hbresp_Frame resp))) then mret ()
  else
    let server := hbr_Timestamp (hbresp_Result resp) in
    modify (λ m, put_tracking {|
      PollerSendTimestamp := PollerSendTimestamp (tracking m); PollerRecvTimestamp := now;
      ServerRecvTimestamp := server; ServerRespTimestamp := server |} m);;
    tt ← gets tracking;
    match ComputeSkew tt with
    | inr _ => mret ()
    | inl (off, lat) =>
        modify (λ m, put_observations (to_u64 (observations m + 1)) m);;
        modify (put_offset off);;
        modify (put_latency lat)
    end.

Definition GetClockOffset (s : EleSession R) : Z := offset (ss_measurement s).
Definition GetLatency (s : EleSession R) : Z := latency (ss_measurement s).
Definition HasLatencyMeasurements (s : EleSession R) : bool :=
  bool_decide (0 < observations (ss_measurement s))%Z.

Definition on_measurement {A} : go heartbeatMeasurement A → go (EleSession R) A :=
  zoom ss_measurement put_ss_measurement.

(** The two branches of [runHeartbeats]: the interval has passed; a response
    has come. *)
Definition heartbeat_tick (now : Z) : go (EleSession R) unit :=
  let req := NewHeartbeatRequest now in
  seq ← gets ss_seq;
  let '(seq', c) := SetId seq (Common (hbreq_Frame req)) in
  modify (put_ss_seq seq');;
  let req := {| hbreq_Frame := on_msg (λ _, c) (hbreq_Frame req);
                hbreq_Params := hbreq_Params req |} in
  on_measurement (prepareHeartbeatMeasurement req);;
  Send (FHeartbeat req).

Definition heartbeat_receive (now : Z) : go (EleSession R) unit :=
  q ← gets ss_heartbeatResponses;
  match q with
  | [] => halt Blocked
  | resp :: q' =>
      modify (put_ss_heartbeatResponses q');;
      on_measurement (updateHeartbeatMeasurement now resp)
  end.

(** ** Reading, writing and closing *)
Definition session_Close : go (EleSession R) unit :=
  ctx ← gets ss_ctx; session_contexts (cancel_context ctx).

Definition exitError : go (EleSession R) unit := EmitEvent EventSendError;; session_Close.

(** One turn of [runFrameReading]: what the decoder gives. *)
Inductive read_result :=
| ReadFrame (f : FrameMsg)
| ReadEOF
| ReadFailed.

Definition read_frame (r : read_result) : go (EleSession R) unit :=
  match r with
  | ReadEOF => session_Close
  | ReadFailed => exitError;; session_Close
  | ReadFrame f => modify (λ s, put_ss_readCh (ss_readCh s ++ [f]) s)
  end.

(** One turn of [runFrameSending]; [write_ok] tells whether the connection took
    the frame and the end of line. *)
Definition send_frame (write_ok : bool) : go (EleSession R) unit :=
  q ← gets ss_sendCh;
  match q with
  | [] => halt Blocked
  | frame :: q' =>
      modify (put_ss_sendCh q');;
      addCompletion frame;;
      let data := Encode frame in
      if write_ok then modify (λ s, put_ss_written (ss_written s ++ [data]) s)
      else exitError;; session_Close
  end.

Definition session_Done (s : EleSession R) : bool := is_done (ss_contexts s) (ss_ctx s).

(** The authentication timer expires: the connection is closed, which is not
    part of the session. *)
Definition auth_expired : go (EleSession R) unit :=
  t ← gets ss_authTimer;
  match t with
  | Some (Armed _) => modify (put_ss_authTimer (Some Fired));; EmitEvent EventAuthTimeout
  | _ => halt Blocked
  end.

(** Deadlines (the session's heartbeat interval is added to the configured one). *)
Definition computeReadDeadline (now : Z) (s : EleSession R) : Z :=
  ComputeReadDeadline (ss_cfg s) now (ss_heartbeatInterval s).
Definition computeWriteDeadline (now : Z) (s : EleSession R) : Z :=
  ComputeWriteDeadline (ss_cfg s) now (ss_heartbeatInterval s).

(** ** The session and its surroundings

    A step is one turn of one of the goroutines, an expiry of a timer, or a
    change of the reconciler by others. *)
Section steps.
Context `{MapRange}.

Inductive session_step : EleSession R → EleSession R → Prop :=
| step_read r s t : read_frame r s = Ret () t → session_step s t
| step_handle s t : handle_read_frame s = Ret () t → session_step s t
| step_expired s t :
    ChannelOfTimer (prepareToEndTimer (ss_prep s)) = true →
    prepare_to_end_expired s = Ret () t → session_step s t
| step_timer_fires s d :
    prepareToEndTimer (ss_prep s) = Some (Armed d) →
    session_step s (put_ss_prep (put_prepareToEndTimer (Some Fired) (ss_prep s)) s)
| step_check_test Parse run tmp now f s t :
    handleCheckTest Parse run tmp now f s = Ret () t → session_step s t
| step_heartbeat now s t : heartbeat_tick now s = Ret () t → session_step s t
| step_heartbeat_response now s t : heartbeat_receive now s = Ret () t → session_step s t
| step_send ok s t : send_frame ok s = Ret () t → session_step s t
| step_send_request msg s t : Send msg s = Ret () t → session_step s t
| step_respond_hostinfo r s t : Respond (FHostInfo r) s = Ret () t → session_step s t
| step_auth_expired s t : auth_expired s = Ret () t → session_step s t
| step_close s t : session_Close s = Ret () t → session_step s t
| step_reconciler r s : session_step s (put_ss_reconciler r s).

Definition session_reachable (s : EleSession R) : Prop :=
  ∃ guid cfg reconciler ctx contexts s0,
    NewSession guid cfg reconciler ctx contexts = Ret () s0 ∧ rtc session_step s0 s.
End steps.
End session.

(** ** Properties of requests, responses and heartbeats *)
Section properties.
Context {R : Type} `{!ChecksReconciler R}.
Implicit Types s t : EleSession R.

Lemma Send_new msg s :
  GetId msg = 0%Z →
  ∃ msg', Send msg s = Ret () (put_ss_sendCh (ss_sendCh s ++ [msg'])
      (put_ss_seq (to_u64 (ss_seq s + 1)) s))
    ∧ GetId msg' = to_u64 (ss_seq s + 1) ∧ GetMethod msg' = GetMethod msg.
Proof.
  intros Hid. unfold Send. rewrite Hid. cbn. eexists. split; [reflexivity|].
  unfold GetId, GetMethod in *. by destruct msg.
Qed.

Lemma Send_old msg s :
  GetId msg ≠ 0%Z →
  Send msg s = Ret () (put_ss_sendCh (ss_sendCh s ++
    [on_common (λ c, SetSource (ss_guid s) (SetTarget "endpoint" c)) msg]) s).
Proof. intros Hid. unfold Send. by rewrite bool_decide_false. Qed.

(** Requests sent one after another, in whatever goroutine, get the
    consecutive identifiers that follow the session's counter, and are queued
    in that order, as long as the counter does not reach 2^64. *)
Theorem send_ids msgs s :
  Forall (λ m, GetId m = 0%Z) msgs → (0 ≤ ss_seq s)%Z →
  (ss_seq s + Z.of_nat (length msgs) < 2 ^ 64)%Z →
  runs (for_each msgs Send) s (λ _ t,
    ss_seq t = (ss_seq s + Z.of_nat (length msgs))%Z
    ∧ ∃ queued, ss_sendCh t = ss_sendCh s ++ queued
      ∧ GetMethod <$> queued = GetMethod <$> msgs
      ∧ GetId <$> queued = (λ i, ss_seq s + 1 + Z.of_nat i)%Z <$> seq 0 (length msgs)).
Proof.
  revert s. induction msgs as [|m msgs IH]; intros s Hm H0 Hlt; cbn [for_each].
  - split; [cbn; lia|]. exists []. by rewrite app_nil_r.
  - apply Forall_cons in Hm as [Hm Hms]. apply runs_bind.
    destruct (Send_new m s Hm) as (m' & E & Hid & Hmeth). apply (runs_ret _ _ _ _ _ E).
    rewrite (to_u64_id (ss_seq s + 1)) in * by (unfold is_u64; cbn in Hlt; lia).
    eapply runs_mono; [apply IH; [done|cbn; lia|cbn in *; lia]|].
    cbn. intros _ t (Hs & queued & Eq & Emeth & Eids). split; [lia|].
    exists (m' :: queued). rewrite Eq, <- app_assoc. split_and!; [done|cbn; by rewrite Hmeth, Emeth|].
    cbn. rewrite Hid, Eids. f_equal; [lia|]. rewrite <- fmap_S_seq, <- list_fmap_compose.
    apply list_fmap_ext. intros i x _. cbn. lia.
Qed.

(** A response is matched with a request at most once: after it has been
    handled its identifier is not pending, and handling it again does nothing. *)
Theorem response_matched_once f s e t :
  handleResponse f s = Ret e t →
  ss_completions t !! f_Id (Common f) = None ∧ handleResponse f t = Ret None t.
Proof.
  intros E. assert (ss_completions t !! f_Id (Common f) = None) as Hno.
  { revert E. unfold handleResponse, getCompletionRequest. rewrite !bind_app. cbn [gets].
    destruct (ss_completions s !! f_Id (Common f)) as [req|] eqn:El; [|by intros [= _ <-]].
    rewrite bind_app. cbn [modify]. set (u := put_ss_completions _ s).
    change (mret (M := go _) (Some req) u) with (Ret (S := EleSession R) (Some req) u). cbv beta iota.
    assert (ss_completions u !! f_Id (Common f) = None) as Hu by apply lookup_delete_eq.
    intros E. match type of E with ?c u = _ =>
      assert (keeps (λ v, ss_completions v = ss_completions u) c) as Hk end.
    { unfold heartbeatsStarter, SetAuthenticated. keeps_auto. }
    specialize (Hk u eq_refl). rewrite E in Hk. cbn in Hk. by rewrite Hk. }
  split; [done|]. unfold handleResponse, getCompletionRequest. rewrite !bind_app. cbn [gets].
  by rewrite Hno.
Qed.

Lemma heartbeat_tick_app now s :
  ∃ msg, heartbeat_tick now s = Ret () (put_ss_sendCh (ss_sendCh s ++ [msg])
    (put_ss_measurement
       (put_tracking {| PollerSendTimestamp := now;
                        PollerRecvTimestamp := PollerRecvTimestamp (tracking (ss_measurement s));
                        ServerRecvTimestamp := ServerRecvTimestamp (tracking (ss_measurement s));
                        ServerRespTimestamp := ServerRespTimestamp (tracking (ss_measurement s)) |}
          (put_expectedSeqID (to_u64 (ss_seq s + 1)) (ss_measurement s)))
       (put_ss_seq (to_u64 (ss_seq s + 1)) s)))
    ∨ to_u64 (ss_seq s + 1) = 0%Z.
Proof.
  destruct (decide (to_u64 (ss_seq s + 1) = 0%Z)) as [E|E]; [by eexists (FMsg zero_frame); right|].
  eexists. left. unfold heartbeat_tick. cbn [gets SetId]. rewrite bind_app. cbn [gets].
  rewrite bind_app. cbn [modify]. rewrite bind_app. unfold on_measurement at 1, zoom at 1. cbn.
  etrans; [apply Send_old; exact E|reflexivity].
Qed.

Lemma update_measurement_app now resp m off lat :
  expectedSeqID m = f_Id (Common (hbresp_Frame resp)) →
  ComputeSkew {| PollerSendTimestamp := PollerSendTimestamp (tracking m);
                 ServerRecvTimestamp := hbr_Timestamp (hbresp_Result resp);
                 ServerRespTimestamp := hbr_Timestamp (hbresp_Result resp);
                 PollerRecvTimestamp := now |} = inl (off, lat) →
  runs (updateHeartbeatMeasurement now resp) m (λ _ m', offset m' = off ∧ latency m' = lat
    ∧ observations m' = to_u64 (observations m + 1)).
Proof.
  intros Hid Hs. unfold updateHeartbeatMeasurement. apply runs_bind. cbn [gets runs].
  unfold runs at 1. cbn [gets]. rewrite Hid, bool_decide_false by (intros Hn; by apply Hn).
  unfold runs. rewrite bind_app. cbn. rewrite bind_app. cbn. rewrite Hs. done.
Qed.

(** C38: a heartbeat measures the clocks.  When a heartbeat sent at [t1] takes
    [d1] to reach a server whose clock is ahead by [theta], and its response,
    stamped on arrival, takes [d2], then handling the response gives the
    latency [d1 + d2] exactly, and the clock offset to within half of it. *)
Theorem heartbeat_round (t1 theta d1 d2 : Z) resp s :
  (0 < t1 < 2 ^ 60)%Z → (Z.abs theta < 2 ^ 60)%Z →
  (0 ≤ d1 < 2 ^ 60)%Z → (0 ≤ d2 < 2 ^ 60)%Z → (t1 + d1 + theta ≠ 0)%Z →
  ss_heartbeatResponses s = [] → to_u64 (ss_seq s + 1) ≠ 0%Z →
  f_Id (Common (hbresp_Frame resp)) = to_u64 (ss_seq s + 1) →
  hbr_Timestamp (hbresp_Result resp) = (t1 + d1 + theta)%Z →
  runs (heartbeat_tick t1;;
        modify (λ u, put_ss_heartbeatResponses (ss_heartbeatResponses u ++ [resp]) u);;
        heartbeat_receive (t1 + d1 + d2)) s
    (λ _ t, GetLatency t = (d1 + d2)%Z
      ∧ (2 * Z.abs (GetClockOffset t - theta) ≤ d1 + d2 + 1)%Z
      ∧ observations (ss_measurement t) = to_u64 (observations (ss_measurement s) + 1)).
Proof.
  intros H1 Hth Hd1 Hd2 Hne Hq Hseq Hid Hts.
  destruct (heartbeat_tick_app t1 s) as (msg & [E|E]); [|done].
  apply runs_bind. apply (runs_ret _ _ _ _ _ E). apply runs_bind. cbn [modify].
  destruct (compute_skew_bound t1 theta d1 0 d2) as (off & Hskew & Hoff); try lia.
  replace (t1 + d1 + theta + 0 - theta + d2)%Z with (t1 + d1 + d2)%Z in Hskew by lia.
  replace (d1 + d2 + 2 * 0)%Z with (d1 + d2)%Z in Hskew by lia.
  rewrite Z.add_0_r in Hskew. unfold runs at 1. cbn [modify].
  unfold heartbeat_receive. apply runs_bind. unfold runs at 1. cbn [gets].
  cbn [ss_heartbeatResponses put_ss_heartbeatResponses put_ss_sendCh put_ss_measurement put_ss_seq].
  rewrite Hq. cbn [app]. apply runs_bind. unfold runs at 1. cbn [modify].
  unfold on_measurement, runs, zoom.
  match goal with |- context [updateHeartbeatMeasurement _ _ ?m] =>
    pose proof (update_measurement_app (t1 + d1 + d2) resp m off (d1 + d2)) as Hu end.
  cbn in Hu. rewrite Hts in Hu. specialize (Hu (eq_sym Hid) Hskew). unfold runs in Hu.
  cbn. destruct (updateHeartbeatMeasurement _ _ _) as [[] m'|]; [|done].
  destruct Hu as (Ho & Hl & Hobs). unfold GetLatency, GetClockOffset. cbn.
  by rewrite Ho, Hl, Hobs.
Qed.
End properties.
