(* ===== verification/HostInfo.v ===== *)
(** Component: host information (src/hostinfo, src/protocol/hostinfo) and its
    handler in a session (handleHostInfo of src/poller/session.go).  What the
    gopsutil library says of the machine, and the text of a finite float, are
    arguments. *)
From S2P Require Export Session Floats.

(** ** What the library says of the machine *)
Record cpu_TimesStat := {
  User : float64; System : float64; Idle : float64; Nice : float64; Iowait : float64;
  Irq : float64; Softirq : float64; Stolen : float64; cpu_Total : float64
}.
Record cpu_InfoStat := { ModelName : string; VendorID : string; Mhz : float64 }.
Record VirtualMemoryStat := { vm_Total : Z; vm_Free : Z; vm_Used : Z; vm_UsedPercent : float64 }.
Record SwapMemoryStat := { sw_Total : Z; sw_Free : Z; sw_Used : Z; sw_UsedPercent : float64 }.
Record PartitionStat := { Device : string; Mountpoint : string; Fstype : string; Opts : string }.
Record UsageStat := {
  du_Total : Z; du_Free : Z; du_Used : Z; InodesUsed : Z; InodesFree : Z
}.
Record host_InfoStat := { OS : string; Platform : string; PlatformVersion : string; KernelVersion : string }.
Record process_TimesStat := { pt_User : float64; pt_System : float64; pt_Total : float64 }.
(** A process; each method gives a value or fails. *)
Record Process := {
  Pid : Z; pr_Name : option string; pr_Cwd : option string; pr_Exe : option string;
  pr_CreateTime : option Z; pr_Times : option process_TimesStat; pr_RSS : option Z
}.
Record machine := {
  cpu_Times : list cpu_TimesStat + error;
  cpu_Info : list cpu_InfoStat + error;
  cpu_Counts : Z;
  mem_VirtualMemory : VirtualMemoryStat + error;
  mem_SwapMemory : SwapMemoryStat + error;
  disk_Partitions : list PartitionStat;
  disk_Usage : string → UsageStat + error;
  host_Info : option host_InfoStat;
  process_Pids : list Z + error;
  NewProcess : Z → option Process;
  GOOS : string
}.

(** ** The kinds of information *)
Record HostInfoBase := { hi_Type : string }.
Definition zero_hostinfo : HostInfoBase := {| hi_Type := "" |}.
Definition c_hostinfo_base : codec HostInfoBase := c_struct [
  mk_field "type" c_string "" hi_Type (λ x _, Build_HostInfoBase x)].

Definition Memory : string := "MEMORY".
Definition Cpu : string := "CPU".
Definition Filesystem : string := "FILESYSTEM".
Definition SystemInfo : string := "SYSTEM".
Definition Processes : string := "PROCS".

Inductive HostInfo := HostInfoMemory | HostInfoCpu | HostInfoFilesystem | HostInfoSystem | HostInfoProcesses.

Definition host_info_of (type : string) : option HostInfo :=
  if bool_decide (type = Memory) then Some HostInfoMemory
  else if bool_decide (type = Cpu) then Some HostInfoCpu
  else if bool_decide (type = Filesystem) then Some HostInfoFilesystem
  else if bool_decide (type = SystemInfo) then Some HostInfoSystem
  else if bool_decide (type = Processes) then Some HostInfoProcesses
  else None.

(** [hinfo] is a pointer, of which the address is decoded into: the document
    [null] makes it nil. *)
Definition NewHostInfo {S} (rawParams : option json) : go S (option HostInfo) :=
  match rawParams with
  | None => mret None
  | Some raw =>
      let '(hinfo, ok) := Unmarshal (c_ptr c_hostinfo_base zero_hostinfo) raw (Some zero_hostinfo) in
      if ok : bool then hinfo ← deref hinfo; mret (host_info_of (hi_Type hinfo)) else mret None
  end.

(** ** The results (src/protocol/hostinfo) *)
Record HostInfoCpuMetrics := {
  cm_Idle : Z; cm_Irq : float64; cm_Mhz : float64; cm_Model : string; cm_Name : string; cm_Nice : float64;
  cm_SoftIrq : float64; cm_Stolen : float64; cm_Sys : float64; cm_Total : Z; cm_TotalCores : Z;
  cm_TotalSockets : Z; cm_User : float64; cm_Vendor : string; cm_Wait : float64
}.
Record HostInfoCpuResult := { cr_Metrics : list HostInfoCpuMetrics; cr_Timestamp : Z }.

Record HostInfoMemoryMetrics := {
  mm_UsedPercentage : float64; mm_ActualFree : Z; mm_ActualUsed : Z; mm_Free : Z; mm_Total : Z;
  mm_Used : Z; mm_RAM : Z; mm_SwapFree : Z; mm_SwapTotal : Z; mm_SwapUsed : Z;
  mm_SwapUsedPercentage : float64
}.
Record HostInfoMemoryResult := { mr_Metrics : HostInfoMemoryMetrics; mr_Timestamp : Z }.

Record HostInfoFilesystemMetrics := {
  fm_DirectoryName : string; fm_DeviceName : string; fm_Options : string; fm_SystemTypeName : string;
  fm_Free : Z; fm_Total : Z; fm_Used : Z; fm_Available : Z; fm_Files : Z; fm_FreeFiles : Z
}.
Record HostInfoFilesystemResult := { fr_Metrics : list HostInfoFilesystemMetrics; fr_Timestamp : Z }.

Record HostInfoProcessesMetrics := {
  pm_Pid : Z; pm_ExeName : string; pm_ExeCwd : string; pm_ExeRoot : string; pm_StartTime : Z;
  pm_TimeUser : float64; pm_TimeSys : float64; pm_TimeTotal : float64; pm_StateName : string;
  pm_MemoryRes : Z
}.
Record HostInfoProcessesResult := { pr_Metrics : list HostInfoProcessesMetrics; pr_Timestamp : Z }.

Record HostInfoSystemMetrics := {
  sm_Arch : string; sm_Name : string; sm_Version : string; sm_VendorName : string; sm_Vendor : string;
  sm_VendorVersion : string
}.
Record HostInfoSystemResult := { sr_Metrics : HostInfoSystemMetrics; sr_Timestamp : Z }.

(** What is in the [interface{}] that a run returns. *)
Inductive HostInfoResult :=
| CpuResult (x : HostInfoCpuResult)
| MemoryResult (x : HostInfoMemoryResult)
| FilesystemResult (x : HostInfoFilesystemResult)
| ProcessesResult (x : HostInfoProcessesResult)
| SystemResult (x : HostInfoSystemResult).

Definition BytesToKilobytes : Z := 1024.
Definition Megabyte : Z := 1024 * 1024.

(** [uint64(f)], where Go defines it: the value truncated when it fits. *)
Definition trunc_float (f : float64) : option Z :=
  match f with
  | S754_zero _ => Some 0%Z
  | S754_finite sign m e =>
      let a := if bool_decide (0 ≤ e)%Z then Z.shiftl (Z.pos m) e else (Z.pos m / 2 ^ (- e))%Z in
      Some (if sign then (- a)%Z else a)
  | _ => None
  end.

Section hostinfo.
Context (float_json : float64 → json) (conversion : float64 → Z).

Definition uint64_of_float (f : float64) : Z :=
  match trunc_float f with
  | Some z => if bool_decide (is_u64 z) then z else conversion f
  | None => conversion f
  end.

(** *** Encoding: a slice that stays nil is null. *)
Definition slice_json {A} (enc : A → json) (l : list A) : json :=
  match l with [] => JNull | _ => JArr (enc <$> l) end.
Definition result_json (metrics : json) (timestamp : Z) : json :=
  JObj [("metrics", metrics); ("timestamp", JInt timestamp)].

Definition cpu_json (x : HostInfoCpuMetrics) : json :=
  JObj [("idle", JInt (cm_Idle x)); ("irq", float_json (cm_Irq x)); ("mhz", float_json (cm_Mhz x));
        ("model", JStr (cm_Model x)); ("name", JStr (cm_Name x)); ("nice", float_json (cm_Nice x));
        ("softirq", float_json (cm_SoftIrq x)); ("stolen", float_json (cm_Stolen x));
        ("sys", float_json (cm_Sys x)); ("total", JInt (cm_Total x));
        ("total_cores", JInt (cm_TotalCores x)); ("total_sockets", JInt (cm_TotalSockets x));
        ("user", float_json (cm_User x)); ("vendor", JStr (cm_Vendor x)); ("wait", float_json (cm_Wait x))].

Definition memory_json (x : HostInfoMemoryMetrics) : json :=
  JObj [("used_percentage", float_json (mm_UsedPercentage x)); ("actual_free", JInt (mm_ActualFree x));
        ("actual_used", JInt (mm_ActualUsed x)); ("free", JInt (mm_Free x)); ("total", JInt (mm_Total x));
        ("used", JInt (mm_Used x)); ("ram", JInt (mm_RAM x)); ("swap_free", JInt (mm_SwapFree x));
        ("swap_total", JInt (mm_SwapTotal x)); ("swap_used", JInt (mm_SwapUsed x));
        ("swap_percentage", float_json (mm_SwapUsedPercentage x))].

Definition filesystem_json (x : HostInfoFilesystemMetrics) : json :=
  JObj [("dir_name", JStr (fm_DirectoryName x)); ("dev_name", JStr (fm_DeviceName x));
        ("options", JStr (fm_Options x)); ("sys_type_name", JStr (fm_SystemTypeName x));
        ("free", JInt (fm_Free x)); ("total", JInt (fm_Total x)); ("used", JInt (fm_Used x));
        ("avail", JInt (fm_Available x)); ("files", JInt (fm_Files x)); ("free_files", JInt (fm_FreeFiles x))].

Definition process_json (x : HostInfoProcessesMetrics) : json :=
  JObj [("pid", JInt (pm_Pid x)); ("exe_name", JStr (pm_ExeName x)); ("exe_cwd", JStr (pm_ExeCwd x));
        ("exe_root", JStr (pm_ExeRoot x)); ("time_start_time", JInt (pm_StartTime x));
        ("time_user", float_json (pm_TimeUser x)); ("time_sys", float_json (pm_TimeSys x));
        ("time_total", float_json (pm_TimeTotal x)); ("state_name", JStr (pm_StateName x));
        ("memory_resident", JInt (pm_MemoryRes x))].

Definition system_json (x : HostInfoSystemMetrics) : json :=
  JObj [("arch", JStr (sm_Arch x)); ("name", JStr (sm_Name x)); ("version", JStr (sm_Version x));
        ("vendor_name", JStr (sm_VendorName x)); ("vendor", JStr (sm_Vendor x));
        ("vendor_version", JStr (sm_VendorVersion x))].

Definition hostinfo_json (result : HostInfoResult) : json :=
  match result with
  | CpuResult x => result_json (slice_json cpu_json (cr_Metrics x)) (cr_Timestamp x)
  | MemoryResult x => result_json (memory_json (mr_Metrics x)) (mr_Timestamp x)
  | FilesystemResult x => result_json (slice_json filesystem_json (fr_Metrics x)) (fr_Timestamp x)
  | ProcessesResult x => result_json (slice_json process_json (pr_Metrics x)) (pr_Timestamp x)
  | SystemResult x => result_json (system_json (sr_Metrics x)) (sr_Timestamp x)
  end.

(** *** CPU: one entry for each piece of information, with the times at the same
    index. *)
Definition cpu_metrics (m : machine) (sockets i : nat) (info : cpu_InfoStat) (stat : cpu_TimesStat)
    : HostInfoCpuMetrics :=
  {| cm_Idle := uint64_of_float (Idle stat);
     cm_Irq := Irq stat;
     cm_Mhz := Mhz info;
     cm_Model := ModelName info;
     cm_Name := ("cpu." +:+ pretty (Z.of_nat i))%string;
     cm_Nice := Nice stat;
     cm_SoftIrq := Softirq stat;
     cm_Stolen := Stolen stat;
     cm_Sys := System stat;
     cm_Total := uint64_of_float (cpu_Total stat);
     cm_TotalCores := to_u64 (cpu_Counts m);
     cm_TotalSockets := Z.of_nat sockets;
     cm_User := User stat;
     cm_Vendor := VendorID info;
     cm_Wait := Iowait stat |}.

Fixpoint cpu_loop {S} (m : machine) (stats : list cpu_TimesStat) (sockets i : nat)
    (infos : list cpu_InfoStat) : go S (list HostInfoCpuMetrics) :=
  match infos with
  | [] => mret []
  | info :: infos' =>
      stat ← match stats !! i with Some stat => mret stat | None => halt OutOfRange end;
      rest ← cpu_loop m stats sockets (Datatypes.S i) infos';
      mret (cpu_metrics m sockets i info stat :: rest)
  end.

Definition cpu_Run {S} (m : machine) (now : Z) : go S (HostInfoCpuResult + error) :=
  match cpu_Times m with
  | inr err => mret (inr err)
  | inl stats =>
      match cpu_Info m with
      | inr err => mret (inr err)
      | inl infos =>
          metrics ← cpu_loop m stats (length infos) 0 infos;
          mret (inl {| cr_Metrics := metrics; cr_Timestamp := now |})
      end
  end.

(** *** Memory *)
Definition memory_Run (m : machine) (now : Z) : HostInfoMemoryResult + error :=
  match mem_VirtualMemory m with
  | inr err => inr err
  | inl v =>
      match mem_SwapMemory m with
      | inr err => inr err
      | inl s =>
          inl {| mr_Metrics :=
            {| mm_UsedPercentage := vm_UsedPercent v;
               mm_ActualFree := vm_Free v;
               mm_ActualUsed := vm_Used v;
               mm_Free := vm_Free v;
               mm_Total := vm_Total v;
               mm_Used := vm_Used v;
               mm_RAM := vm_Total v / Megabyte;
               mm_SwapFree := sw_Free s;
               mm_SwapTotal := sw_Total s;
               mm_SwapUsed := sw_Used s;
               mm_SwapUsedPercentage := sw_UsedPercent s |};
            mr_Timestamp := now |}
      end
  end.

(** *** File systems: the partitions whose usage is known. *)
Definition filesystem_metrics (m : machine) (part : PartitionStat) : option HostInfoFilesystemMetrics :=
  match disk_Usage m (Mountpoint part) with
  | inr _ => None
  | inl usage =>
      Some {| fm_DirectoryName := Mountpoint part;
              fm_DeviceName := Device part;
              fm_Options := Opts part;
              fm_SystemTypeName := Fstype part;
              fm_Free := du_Free usage / BytesToKilobytes;
              fm_Total := du_Total usage / BytesToKilobytes;
              fm_Used := du_Used usage / BytesToKilobytes;
              fm_Available := du_Free usage / BytesToKilobytes;
              fm_Files := InodesUsed usage;
              fm_FreeFiles := InodesFree usage |}
  end.
Definition filesystem_Run (m : machine) (now : Z) : HostInfoFilesystemResult :=
  {| fr_Metrics := omap (filesystem_metrics m) (disk_Partitions m); fr_Timestamp := now |}.

(** *** Processes: those of which everything is known. *)
Definition process_metrics (m : machine) (pid : Z) : option HostInfoProcessesMetrics :=
  pr ← NewProcess m pid;
  name ← pr_Name pr;
  cwd ← pr_Cwd pr;
  root ← pr_Exe pr;
  createTime ← pr_CreateTime pr;
  times ← pr_Times pr;
  rss ← pr_RSS pr;
  Some {| pm_Pid := Pid pr;
          pm_ExeName := "";
          pm_ExeCwd := cwd;
          pm_ExeRoot := root;
          pm_StartTime := createTime;
          pm_TimeUser := pt_User times;
          pm_TimeSys := pt_System times;
          pm_TimeTotal := pt_Total times;
          pm_StateName := name;
          pm_MemoryRes := rss |}.
Definition processes_Run (m : machine) (now : Z) : HostInfoProcessesResult + error :=
  match process_Pids m with
  | inr err => inr err
  | inl pids => inl {| pr_Metrics := omap (process_metrics m) pids; pr_Timestamp := now |}
  end.

(** *** System: the error of the library is dropped, and its pointer used. *)
Definition system_Run {S} (m : machine) : go S HostInfoSystemResult :=
  info ← deref (host_Info m);
  let os := to_lower (OS info) in
  mret {| sr_Metrics :=
            {| sm_Arch := GOOS m;
               sm_Name := os;
               sm_Version := KernelVersion info;
               sm_VendorName := os;
               sm_Vendor := Platform info;
               sm_VendorVersion := PlatformVersion info |};
          sr_Timestamp := 0 |}.

Definition hostinfo_Run {S} (m : machine) (now : Z) (h : HostInfo) : go S (HostInfoResult + error) :=
  match h with
  | HostInfoMemory => mret (sum_map MemoryResult id (memory_Run m now))
  | HostInfoCpu => result ← cpu_Run m now; mret (sum_map CpuResult id result)
  | HostInfoFilesystem => mret (inl (FilesystemResult (filesystem_Run m now)))
  | HostInfoSystem => result ← system_Run m; mret (inl (SystemResult result))
  | HostInfoProcesses => mret (sum_map ProcessesResult id (processes_Run m now))
  end.

Definition NewHostInfoResponse (result : HostInfoResult) (f : FrameMsg) : HostInfoResponse :=
  {| hi_Common := SetResponseFrameMsg (Common f) zero_common; hi_Result := hostinfo_json result |}.

Section handler.
Context {R : Type} `{!ChecksReconciler R}.

Definition handleHostInfo (m : machine) (now : Z) (f : FrameMsg) : go (EleSession R) unit :=
  hinfo ← NewHostInfo (RawParams f);
  match hinfo with
  | None => mret ()
  | Some hinfo =>
      r ← hostinfo_Run m now hinfo;
      match r with
      | inr _ => mret ()
      | inl result => Respond (FHostInfo (NewHostInfoResponse result f))
      end
  end.
End handler.
End hostinfo.

(** ** Properties *)

(** The kind of information a request asks for. *)
Definition asked (f : FrameMsg) : option HostInfo :=
  match RawParams f with
  | None | Some JNull => None
  | Some raw =>
      let '(base, ok) := Unmarshal c_hostinfo_base raw zero_hostinfo in
      if ok : bool then host_info_of (hi_Type base) else None
  end.

(** The library does not have it. *)
Definition unavailable (m : machine) (h : HostInfo) : Prop :=
  match h with
  | HostInfoMemory => (∃ err, mem_VirtualMemory m = inr err) ∨ ∃ err, mem_SwapMemory m = inr err
  | HostInfoCpu => (∃ err, cpu_Times m = inr err) ∨ ∃ err, cpu_Info m = inr err
  | HostInfoProcesses => ∃ err, process_Pids m = inr err
  | HostInfoFilesystem | HostInfoSystem => False
  end.

(** What the library must not give. *)
Definition overruns (m : machine) (h : HostInfo) : Prop :=
  match h with
  | HostInfoCpu => ∃ stats infos, cpu_Times m = inl stats ∧ cpu_Info m = inl infos
                     ∧ length stats < length infos
  | HostInfoSystem => host_Info m = None
  | _ => False
  end.

Section properties.
Context (float_json : float64 → json) (conversion : float64 → Z).

Definition usage_known (m : machine) (mountpoint : string) : Prop :=
  ∃ usage, disk_Usage m mountpoint = inl usage.
#[local] Instance usage_known_dec m mountpoint : Decision (usage_known m mountpoint).
Proof.
  unfold usage_known. destruct (disk_Usage m mountpoint) as [usage|err].
  - left. by exists usage.
  - right. intros [? ?]. done.
Defined.

(** The result is of the kind asked for: an entry for each processor, of its
    description and its times; one for each file system whose usage is known;
    each of a process all of which is known. *)
Definition describes (m : machine) (h : HostInfo) (result : HostInfoResult) : Prop :=
  match h, result with
  | HostInfoCpu, CpuResult x =>
      ∃ stats infos, cpu_Times m = inl stats ∧ cpu_Info m = inl infos
        ∧ length (cr_Metrics x) = length infos
        ∧ ∀ i e, cr_Metrics x !! i = Some e → ∃ info stat, infos !! i = Some info ∧ stats !! i = Some stat
            ∧ e = cpu_metrics conversion m (length infos) i info stat
  | HostInfoFilesystem, FilesystemResult x =>
      fm_DirectoryName <$> fr_Metrics x = filter (usage_known m) (Mountpoint <$> disk_Partitions m)
  | HostInfoProcesses, ProcessesResult x =>
      ∃ pids, process_Pids m = inl pids ∧ ∀ e, e ∈ pr_Metrics x → ∃ pid pr times,
        pid ∈ pids ∧ NewProcess m pid = Some pr ∧ pm_Pid e = Pid pr
        ∧ pr_Name pr = Some (pm_StateName e) ∧ pr_Cwd pr = Some (pm_ExeCwd e)
        ∧ pr_Exe pr = Some (pm_ExeRoot e) ∧ pr_CreateTime pr = Some (pm_StartTime e)
        ∧ pr_Times pr = Some times ∧ pm_TimeUser e = pt_User times ∧ pr_RSS pr = Some (pm_MemoryRes e)
  | HostInfoMemory, MemoryResult _ | HostInfoSystem, SystemResult _ => True
  | _, _ => False
  end.

Lemma new_host_info {S} f (s : S) :
  (RawParams f = Some JNull ∧ asked f = None ∧ NewHostInfo (RawParams f) s = Halt NilDeref s)
  ∨ (RawParams f ≠ Some JNull ∧ NewHostInfo (RawParams f) s = Ret (asked f) s).
Proof.
  unfold NewHostInfo, asked, Unmarshal.
  destruct (RawParams f) as [[]|]; try (by left); right; (split; [done|]); [..|done];
    cbn [c_ptr dec default]; by (destruct (dec c_hostinfo_base _ _) as [? []]).
Qed.

Lemma cpu_loop_spec {S} m stats n i infos (s : S) :
  if decide (infos = [] ∨ i + length infos ≤ length stats)
  then ∃ l, cpu_loop conversion m stats n i infos s = Ret l s ∧ length l = length infos
    ∧ ∀ k e, l !! k = Some e → ∃ info stat, infos !! k = Some info ∧ stats !! (i + k) = Some stat
        ∧ e = cpu_metrics conversion m n (i + k) info stat
  else cpu_loop conversion m stats n i infos s = Halt OutOfRange s.
Proof.
  revert i. induction infos as [|info infos IH]; intros i; cbn.
  { rewrite decide_True by auto. by exists []. }
  rewrite bind_app. specialize (IH (Datatypes.S i)). destruct (stats !! i) as [stat|] eqn:E.
  - cbn [mret go_ret]. rewrite bind_app. apply lookup_lt_Some in E as Hi.
    destruct (decide (infos = [] ∨ Datatypes.S i + length infos ≤ length stats)) as [Hd|Hd].
    + destruct IH as (l & -> & Hl & Hk). rewrite decide_True by (right; destruct Hd as [->|?]; cbn; lia).
      eexists. split; [done|]. split; [cbn; lia|]. intros [|k] e; cbn [lookup list_lookup].
      * intros [= <-]. exists info, stat. by rewrite Nat.add_0_r.
      * intros Hl'%Hk. by rewrite Nat.add_succ_r.
    + rewrite decide_False by (intros [?|?]; [done|apply Hd; right; lia]). by rewrite IH.
  - apply lookup_ge_None_1 in E. rewrite decide_False; [done|]. intros [?|?]; [done|lia].
Qed.

Lemma filesystem_entries m now : describes m HostInfoFilesystem (FilesystemResult (filesystem_Run m now)).
Proof.
  cbn. induction (disk_Partitions m) as [|part parts IH]; [done|]. rewrite fmap_cons, filter_cons. cbn.
  unfold filesystem_metrics at 1. destruct (disk_Usage m (Mountpoint part)) as [usage|err] eqn:E.
  - rewrite decide_True by (by exists usage). cbn. by rewrite IH.
  - rewrite decide_False by (intros [? ?]; congruence). exact IH.
Qed.

Lemma process_entry m (pids : list Z) e :
  e ∈ omap (process_metrics m) pids → ∃ pid pr times,
    pid ∈ pids ∧ NewProcess m pid = Some pr ∧ pm_Pid e = Pid pr
    ∧ pr_Name pr = Some (pm_StateName e) ∧ pr_Cwd pr = Some (pm_ExeCwd e)
    ∧ pr_Exe pr = Some (pm_ExeRoot e) ∧ pr_CreateTime pr = Some (pm_StartTime e)
    ∧ pr_Times pr = Some times ∧ pm_TimeUser e = pt_User times ∧ pr_RSS pr = Some (pm_MemoryRes e).
Proof.
  intros (pid & Hpid & E)%list_elem_of_omap. unfold process_metrics in E.
  repeat (apply bind_Some in E as (? & ? & E)). injection E as <-.
  eexists pid, _, _. by split_and!.
Qed.

(** A run fails, overruns, or has a result. *)
Lemma hostinfo_run_cases {S} m now h (s : S) :
  (unavailable m h ∧ ¬ overruns m h ∧ ∃ err, hostinfo_Run conversion m now h s = Ret (inr err) s)
  ∨ (¬ unavailable m h ∧ overruns m h ∧ ∃ fl, hostinfo_Run conversion m now h s = Halt fl s)
  ∨ (¬ unavailable m h ∧ ¬ overruns m h
     ∧ ∃ result, hostinfo_Run conversion m now h s = Ret (inl result) s ∧ describes m h result).
Proof.
  destruct h; cbn [hostinfo_Run unavailable overruns].
  - unfold memory_Run. destruct (mem_VirtualMemory m); [destruct (mem_SwapMemory m)|]; naive_solver.
  - rewrite bind_app. unfold cpu_Run. destruct (cpu_Times m) as [stats|err] eqn:Et; [|naive_solver].
    destruct (cpu_Info m) as [infos|err] eqn:Ei; [|naive_solver].
    rewrite bind_app. pose proof (cpu_loop_spec m stats (length infos) 0 infos s) as Hl.
    case_decide as Hd.
    + destruct Hl as (l & -> & Hlen & Hl). right; right. split; [naive_solver|].
      split; [|eexists; split; [done|by exists stats, infos]]. intros (? & ? & [= <-] & [= <-] & Hlt).
      destruct Hd as [->|Hd]; cbn in *; lia.
    + rewrite Hl. right; left. split; [naive_solver|]. split; [|by eexists].
      exists stats, infos. split_and!; [done..|]. apply Nat.nle_gt. intros Hle. apply Hd. by right.
  - right; right. split_and!; [tauto..|]. eexists. split; [done|]. apply filesystem_entries.
  - unfold system_Run. rewrite !bind_app. destruct (host_Info m) as [info|]; cbn.
    + right; right. split_and!; [tauto|done|by eexists].
    + right; left. split_and!; [tauto|done|by eexists].
  - unfold processes_Run. destruct (process_Pids m) as [pids|err] eqn:E; [|naive_solver].
    right; right. split_and!; [naive_solver|tauto|]. eexists. split; [done|]. cbn. exists pids.
    split; [done|apply process_entry].
Qed.

Section handler.
Context {R : Type} `{!ChecksReconciler R}.
Implicit Types s t : EleSession R.

(** C32: how a request for host information ends.  It ends the process exactly
    when its parameters are the document null, when the library describes more
    processors than it gives times for, or when it has no description of the
    system.  Otherwise it is answered, exactly when it asks for a known kind
    that the library can give, by one response that has its identifier, no
    method, and what describes the machine: an entry for each processor with
    its own times, one for each file system whose usage is known, and only
    processes all of which is known; in the other cases nothing is sent. *)
Theorem host_info_spec m now f s :
  let run := handleHostInfo float_json conversion m now f s in
  ((∃ fl t, run = Halt fl t) ↔
     RawParams f = Some JNull ∨ ∃ h, asked f = Some h ∧ overruns m h)
  ∧ ∀ t, run = Ret () t →
      (∃ h result msg, asked f = Some h ∧ ¬ unavailable m h ∧ describes m h result
         ∧ ss_sendCh t = ss_sendCh s ++ [msg]
         ∧ GetId msg = f_Id (Common f) ∧ GetMethod msg = ""
         ∧ ∃ c, msg = FHostInfo {| hi_Common := c; hi_Result := hostinfo_json float_json result |})
      ∨ ((asked f = None ∨ ∃ h, asked f = Some h ∧ unavailable m h) ∧ t = s).
Proof.
  cbv zeta. unfold handleHostInfo. rewrite bind_app.
  destruct (new_host_info f s) as [(E & Ha & ->)|(E & ->)].
  { split; [|done]. split; [by left|intros _; by eexists _, _]. }
  destruct (asked f) as [h|] eqn:Ha; [|split; [naive_solver|intros t [= <-]; auto]].
  rewrite bind_app.
  destruct (hostinfo_run_cases m now h s) as [(Hu & Ho & err & ->)|[(Hu & Ho & fl & ->)|(Hu & Ho & r & -> & Hr)]].
  - split; [naive_solver|]. intros t [= <-]. right. split; [|done]. right. by exists h.
  - split; [|done]. split; [right; by exists h|intros _; by eexists _, _].
  - split; [naive_solver|]. intros t [= <-]. left. eexists h, r, _. split_and!; try done. by eexists.
Qed.
End handler.
End properties.
