(* ===== verification/Participant.v ===== *)
(** The contract of a session as the participant of a two-phase commit.

    The coordinator (the endpoint) announces a set of checks
    ([poller.prepare]), sends their definitions ([poller.prepare.block]), closes
    the preparation ([poller.prepare.end]) and commits it ([poller.commit]).
    The participant of this file keeps the preparation in progress and nothing
    else; timers, queues and faults are left to the session, which is proved to
    refine it. *)
From S2P Require Export Session.

(** The frame that answers [src]. *)
Definition answer (guid : string) (src : FrameMsg) (result : json) : Frame :=
  FMsg {| Common := {| f_Version := f_Version (Common src); f_Id := f_Id (Common src);
                       f_Target := "endpoint"; f_Source := guid; f_Method := "";
                       f_Error := f_Error (Common src) |};
          RawParams := None; RawResult := Some result |}.

Definition prepare_answer (guid : string) (src : FrameMsg) (zone : string) (version : Z)
    (status details : string) : Frame :=
  answer guid src (enc c_prepare_result {| ppr_ZoneId := zone; ppr_Version := version;
    ppr_Status := status; ppr_Details := details |}).
Definition commit_answer (guid : string) (src : FrameMsg) (zone : string) (version : Z)
    (status details : string) : Frame :=
  answer guid src (enc c_commit_result {| pcr_ZoneId := zone; pcr_Version := version;
    pcr_Status := status; pcr_Details := details |}).

(** The announcement and what has been prepared so far. *)
Definition participant : Type := option (FrameMsg * ChecksPreparation).

(** The new state, the answers, and the preparation handed to the reconciler. *)
Definition reaction : Type := participant * list Frame * option ChecksPreparation.

Section participant.
Context `{MapRange}.
Context (accepts : ChecksPreparation → option error) (guid : string).

Definition superseded (p : participant) (version : Z) : list Frame :=
  match p with
  | Some (src, cp) =>
      if bool_decide (cp_Version cp < version)%Z then
        [prepare_answer guid src (cp_ZoneId cp) (cp_Version cp) PrepareResultStatusIgnored
           "Request supercedes a previous preparation"]
      else []
  | None => []
  end.

Definition on_prepare (f : FrameMsg) (p : participant) : reaction :=
  let req := decode_raw c_prepare_start zero_prepare_start (RawParams f) in
  let zone := pps_ZoneId req in
  let version := pps_Version req in
  let ignored details :=
    (p, [prepare_answer guid f zone version PrepareResultStatusIgnored details], None) in
  if bool_decide (version ≤ 0)%Z then
    ignored "Request contains version older than newest committed version"
  else if IsOlder (snd <$> p) version then
    ignored "Request contains version older than active preparation"
  else
    let failed details :=
      (p, superseded p version
            ++ [prepare_answer guid f zone version PrepareResultStatusFailed details], None) in
    match NewChecksPreparation zone version (pps_Manifest req) with
    | inr err => failed err
    | inl cp =>
        match accepts cp with
        | Some err => failed err
        | None => (Some (f, cp), superseded p version, None)
        end
    end.

Definition on_block (f : FrameMsg) (p : participant) : reaction :=
  let req := decode_raw c_prepare_block zero_prepare_block (RawParams f) in
  match p with
  | Some (src, cp) =>
      if bool_decide (cp_Version cp = ppb_Version req)
      then (Some (src, add_definitions (omap id (ppb_Block req)) cp), [], None)
      else (p, [], None)
  | None => (p, [], None)
  end.

Definition on_end (f : FrameMsg) (p : participant) : reaction :=
  let req := decode_raw c_prepare_end zero_prepare_end (RawParams f) in
  let say src status details :=
    [prepare_answer guid src (ppe_ZoneId req) (ppe_Version req) status details] in
  match p with
  | None => (None, say f PrepareResultStatusFailed "No active checks preparation", None)
  | Some (src, cp) =>
      if bool_decide (ppe_Directive req = PrepareDirectiveAbort) then
        (None, say src PrepareResultStatusAborted
                 "Aborting poller prepare per request of the server", None)
      else if bool_decide (ppe_Directive req ≠ PrepareDirectivePrepare) then
        (p, say src PrepareResultStatusFailed
              ("Unexpected directive during poller prepare end: " +:+ ppe_Directive req)%string,
         None)
      else match ValidatePreparation cp (ppe_Version req) with
           | Some err => (p, say src PrepareResultStatusFailed err, None)
           | None => (p, [prepare_answer guid src (cp_ZoneId cp) (ppe_Version req)
                            PrepareResultStatusPrepared ""], None)
           end
  end.

Definition on_commit (f : FrameMsg) (p : participant) : reaction :=
  let req := decode_raw c_commit zero_commit (RawParams f) in
  let say status details :=
    [commit_answer guid f (pcp_ZoneId req) (pcp_Version req) status details] in
  if VersionApplies (snd <$> p) (pcp_Version req)
  then (None, say PrepareResultStatusCommitted "", snd <$> p)
  else (p, say PrepareResultStatusIgnored
             "Poller commit request specified non-applicable version", None).

Definition on_expiry (p : participant) : reaction :=
  match p with
  | Some (src, cp) =>
      (None, [prepare_answer guid src (cp_ZoneId cp) (cp_Version cp) PrepareResultStatusFailed
                "prepare-to-end timer expired"], None)
  | None => (None, [], None)
  end.

Definition react (f : FrameMsg) (p : participant) : reaction :=
  let method := f_Method (Common f) in
  if bool_decide (method = MethodPollerPrepare) then on_prepare f p
  else if bool_decide (method = MethodPollerPrepareBlock) then on_block f p
  else if bool_decide (method = MethodPollerPrepareEnd) then on_end f p
  else if bool_decide (method = MethodPollerCommit) then on_commit f p
  else (p, [], None).
End participant.

(** ** The session's invariant *)
Section refinement.
Context {R : Type} `{!ChecksReconciler R} `{MapRange}.

Definition prep_inv (pd : prepDetails) : Prop :=
  newestCommittedVersion pd = 0%Z ∧
  match activePrep pd with
  | None => srcPrepMsg pd = None ∧ prepareToEndTimer pd = None
  | Some cp => is_Some (srcPrepMsg pd) ∧ filed cp ∧ ∃ r : R, ValidateChecks cp r = None
  end.

Definition session_inv (s : EleSession R) : Prop := prep_inv (ss_prep s).

Definition part_of (s : EleSession R) : participant :=
  match srcPrepMsg (ss_prep s), activePrep (ss_prep s) with
  | Some src, Some cp => Some (src, cp)
  | _, _ => None
  end.

Lemma inv_active s cp :
  session_inv s → activePrep (ss_prep s) = Some cp →
  ∃ src, srcPrepMsg (ss_prep s) = Some src ∧ part_of s = Some (src, cp).
Proof.
  unfold session_inv, prep_inv, part_of. intros [_ Hi] E. rewrite E in *.
  destruct Hi as ([src ->] & _). by exists src.
Qed.

Lemma inv_idle s :
  session_inv s → activePrep (ss_prep s) = None →
  srcPrepMsg (ss_prep s) = None ∧ prepareToEndTimer (ss_prep s) = None ∧ part_of s = None.
Proof.
  unfold session_inv, prep_inv, part_of. intros [_ Hi] E. rewrite E in *.
  by destruct Hi as [-> ->].
Qed.

Lemma active_part s : session_inv s → activePrep (ss_prep s) = snd <$> part_of s.
Proof.
  intros Hi. destruct (activePrep (ss_prep s)) as [cp|] eqn:E.
  - by destruct (inv_active s cp Hi E) as (src & _ & ->).
  - by destruct (inv_idle s Hi E) as (_ & _ & ->).
Qed.

(** From [s], the session reacted as [r] and reached [t]. *)
Definition reacted (r : reaction) (s t : EleSession R) : Prop :=
  let '(p, answers, committed) := r in
  session_inv t ∧ part_of t = p ∧ ss_sendCh t = ss_sendCh s ++ answers
  ∧ ss_guid t = ss_guid s ∧ ss_cfg t = ss_cfg s
  ∧ match committed with
    | Some cp => ReconcileChecks cp (ss_reconciler s) = Ret () (ss_reconciler t)
    | None => ss_reconciler t = ss_reconciler s
    end.

Definition verdict_of (s : EleSession R) (cp : ChecksPreparation) : option error :=
  ValidateChecks cp (ss_reconciler s).

Lemma respond_failure_app src req status details s :
  respondFailureToPollerPrepare (R := R) (Some src) (Some req) status details s =
    Ret () (put_ss_sendCh (ss_sendCh s ++ [prepare_answer (ss_guid s) src
      (GetPreparationZoneId req) (GetPreparationVersion req) status details]) s).
Proof. reflexivity. Qed.

Lemma respond_commit_app f req status details s :
  respondCommitResult (R := R) f req status details s =
    Ret () (put_ss_sendCh (ss_sendCh s ++ [commit_answer (ss_guid s) f
      (pcp_ZoneId (commit_Params req)) (pcp_Version (commit_Params req)) status details]) s).
Proof. reflexivity. Qed.

(** *** The handlers, one by one *)
Lemma supersede_app pd reqVer s :
  ss_prep s = pd → session_inv s →
  ∃ t, when (match activePrep pd with Some _ => IsNewer (activePrep pd) reqVer | None => false end)
         (respondFailureToPollerPrepare (srcPrepMsg pd) (preparation_request <$> activePrep pd)
            PrepareResultStatusIgnored "Request supercedes a previous preparation";;
          match prepareToEndTimer pd with
          | Some t => on_prep (modify (put_prepareToEndTimer (Some (timer_stop t).2)))
          | None => mret ()
          end) s = Ret () t
    ∧ reacted (part_of s, superseded (ss_guid s) (part_of s) reqVer, None) s t.
Proof.
  intros Hpd Hi. subst pd. destruct (activePrep (ss_prep s)) as [cp|] eqn:Ea.
  - destruct (inv_active s cp Hi Ea) as (src & Es & ->). cbn. case_bool_decide; cbn.
    + rewrite Es. cbn.
      assert (∀ x, prep_inv (put_prepareToEndTimer (Some x) (ss_prep s))) as Ht.
      { intros x. unfold session_inv, prep_inv in *. cbn. by rewrite Ea in *. }
      destruct (prepareToEndTimer (ss_prep s)) as [tm|]; eexists; (split; [reflexivity|]).
      * split_and!; try done; [by apply Ht|]. unfold part_of. cbn. by rewrite Es, Ea.
      * split_and!; try done. unfold part_of. cbn. by rewrite Es, Ea.
    + exists s. split; [done|]. unfold reacted. rewrite app_nil_r.
      split_and!; try done. unfold part_of. by rewrite Es, Ea.
  - destruct (inv_idle s Hi Ea) as (_ & _ & E). rewrite E. exists s. split; [done|].
    unfold reacted. rewrite app_nil_r. by split_and!.
Qed.

Lemma reacted_more p answers more s t t' :
  reacted (p, answers, None) s t → ss_prep t' = ss_prep t → ss_sendCh t' = ss_sendCh t ++ more →
  ss_guid t' = ss_guid t → ss_cfg t' = ss_cfg t → ss_reconciler t' = ss_reconciler t →
  reacted (p, answers ++ more, None) s t'.
Proof.
  unfold reacted, session_inv, part_of. intros (H1 & H2 & H3 & H4 & H5 & H6) -> -> -> -> ->.
  rewrite H3, app_assoc. by split_and!.
Qed.

Lemma prepare_reacts f s :
  session_inv s →
  ∃ t, handlePollerPrepare f s = Ret () t
    ∧ reacted (on_prepare (verdict_of s) (ss_guid s) f (part_of s)) s t
    ∧ (∀ cp, part_of s = None → part_of t = Some (f, cp) →
         prepareToEndTimer (ss_prep t) = Some (Armed (TimeoutPrepareEnd (ss_cfg s)))).
Proof.
  intros Hi. pose proof Hi as [Hn _]. unfold handlePollerPrepare, on_prepare.
  rewrite bind_app. cbn [gets].
  set (req := decode_raw c_prepare_start zero_prepare_start (RawParams f)).
  change (start_Params (DecodePollerPrepareStartRequest f)) with req.
  rewrite Hn, (active_part s Hi). case_bool_decide.
  { eexists. split; [apply respond_failure_app|]. split; [by split_and!|].
    intros cp E1 E2. unfold part_of in *. cbn in E2. congruence. }
  destruct (IsOlder (snd <$> part_of s) (pps_Version req)).
  { eexists. split; [apply respond_failure_app|]. split; [by split_and!|].
    intros cp E1 E2. unfold part_of in *. cbn in E2. congruence. }
  rewrite bind_app. destruct (supersede_app _ (pps_Version req) s eq_refl Hi) as (u & E & Hu).
  rewrite (active_part s Hi) in E. rewrite E. clear E.
  pose proof Hu as (_ & _ & _ & Eg & Ec & Er).
  destruct (NewChecksPreparation (pps_ZoneId req) (pps_Version req) (pps_Manifest req))
    as [cp|err] eqn:Enew.
  - rewrite bind_app. cbn [gets]. unfold verdict_of. rewrite Er.
    destruct (ValidateChecks cp (ss_reconciler s)) as [err|] eqn:Ev.
    + eexists. split; [apply respond_failure_app|].
      split; [eapply reacted_more; try done; by rewrite Eg|].
      intros cp' E1 E2. destruct Hu as (_ & Hp & _). unfold part_of in *. cbn in E2. congruence.
    + eexists. split; [reflexivity|]. destruct Hu as (Hiu & _ & Hch & _). split; [|by rewrite <- Ec].
      split_and!; try done. split; [apply Hiu|]. cbn.
      split_and!; [done|by eapply new_preparation_filed|by eexists].
  - eexists. split; [apply respond_failure_app|].
    split; [eapply reacted_more; try done; by rewrite Eg|].
    intros cp' E1 E2. destruct Hu as (_ & Hp & _). unfold part_of in *. cbn in E2. congruence.
Qed.

Definition block_request (f : FrameMsg) : PollerPrepareBlockParams :=
  decode_raw c_prepare_block zero_prepare_block (RawParams f).
Definition end_of_prepare (f : FrameMsg) : PollerPrepareEndParams :=
  decode_raw c_prepare_end zero_prepare_end (RawParams f).

(** A block for the active preparation meets a nil pointer: in the block
    itself, or for the timer; or it meets a timer that was stopped for good. *)
Definition block_faults (f : FrameMsg) (s : EleSession R) : Prop :=
  VersionApplies (activePrep (ss_prep s)) (ppb_Version (block_request f)) = true
  ∧ (None ∈ ppb_Block (block_request f) ∨ prepareToEndTimer (ss_prep s) = None
     ∨ prepareToEndTimer (ss_prep s) = Some Stopped).

#[export] Instance block_faults_dec f s : Decision (block_faults f s).
Proof.
  unfold block_faults. apply _.
Defined.

Lemma add_to_active_app cp block (pd : prepDetails) :
  activePrep pd = Some cp →
  add_to_active block pd =
    match AddDefinitions block cp with
    | Ret u cp' => Ret u (put_activePrep (Some cp') pd)
    | Halt e cp' => Halt e (put_activePrep (Some cp') pd)
    end.
Proof. intros E. unfold add_to_active. rewrite bind_app. cbn. by rewrite E. Qed.

Lemma on_prep_add block cp (s : EleSession R) :
  activePrep (ss_prep s) = Some cp →
  on_prep (add_to_active block) s = match AddDefinitions block cp with
    | Ret u cp' => Ret u (put_ss_prep (put_activePrep (Some cp') (ss_prep s)) s)
    | Halt e cp' => Halt e (put_ss_prep (put_activePrep (Some cp') (ss_prep s)) s)
    end.
Proof.
  intros Ea. unfold on_prep, zoom. rewrite (add_to_active_app cp) by done. by destruct (AddDefinitions _ _).
Qed.

Lemma block_reacts f s :
  session_inv s →
  (block_faults f s → returns (handlePollerPrepareBlock f s) = false)
  ∧ (¬ block_faults f s → ∃ t, handlePollerPrepareBlock f s = Ret () t
       ∧ reacted (on_block f (part_of s)) s t
       ∧ (VersionApplies (activePrep (ss_prep s)) (ppb_Version (block_request f)) = true →
          prepareToEndTimer (ss_prep t) = Some (Armed (TimeoutPrepareEnd (ss_cfg s))))).
Proof.
  intros Hi. unfold block_faults, handlePollerPrepareBlock, on_block.
  rewrite bind_app. cbn [gets].
  change (block_Params (DecodePollerPrepareBlockRequest f)) with (block_request f).
  change (decode_raw c_prepare_block zero_prepare_block (RawParams f)) with (block_request f).
  set (req := block_request f).
  destruct (activePrep (ss_prep s)) as [cp|] eqn:Ea.
  2:{ cbn. split; [by intros []|]. intros _. exists s. split; [done|].
      destruct (inv_idle s Hi Ea) as (_ & _ & ->). split; [|done].
      unfold reacted. rewrite app_nil_r. split_and!; try done.
      by destruct (inv_idle s Hi Ea) as (_ & _ & ->). }
  destruct (inv_active s cp Hi Ea) as (src & Es & Ep). rewrite Ep. cbn [VersionApplies].
  case_bool_decide as Hv; cbn [negb].
  2:{ split; [by intros []|]. intros _. exists s. split; [done|]. split; [|done].
      unfold reacted. rewrite app_nil_r. by split_and!. }
  rewrite bind_app.
  rewrite (on_prep_add _ cp s Ea).
  destruct (decide (None ∈ ppb_Block req)) as [Hnil|Hnil].
  { destruct (block_nil _ Hnil) as (defs & rest & Eb). split.
    - intros _. rewrite Eb in *. by rewrite AddDefinitions_nil.
    - intros Hno. destruct Hno. split; [done|]. by left. }
  set (cp' := add_definitions (omap id (ppb_Block req)) cp).
  assert (AddDefinitions (ppb_Block req) cp = Ret () cp') as ->
    by (rewrite (block_no_nil _ Hnil) at 1; apply AddDefinitions_ok).
  assert (∀ tm, reacted (Some (src, cp'), [], None) s
    (put_ss_prep (put_prepareToEndTimer (Some tm) (put_activePrep (Some cp') (ss_prep s))) s)) as Hr.
  { intros tm. unfold reacted, session_inv, prep_inv, part_of. cbn. rewrite Es, app_nil_r.
    destruct Hi as [Hn Hi]. rewrite Ea in Hi. destruct Hi as (_ & Hf & r & Hval).
    split_and!; try done. { by apply add_definitions_filed. }
    exists r. by apply (validate_plan r cp cp' (add_definitions_plan _ cp Hf)). }
  rewrite bind_app. destruct (prepareToEndTimer (ss_prep s)) as [[d| |]|] eqn:Et.
  - split; [intros (_ & [?|[?|?]]); done|]. intros _. eexists. split; [reflexivity|].
    split; [apply Hr|done].
  - split; [done|]. intros Hno. destruct Hno. split; [done|]. by right; right.
  - split; [intros (_ & [?|[?|?]]); done|]. intros _. eexists. split; [reflexivity|].
    split; [apply Hr|done].
  - split; [done|]. intros Hno. destruct Hno. split; [done|]. by right; left.
Qed.

(** The end of a preparation meets a nil pointer: there is no announcement to
    answer, or the preparation had already been ended. *)
Definition end_faults (f : FrameMsg) (s : EleSession R) : Prop :=
  match activePrep (ss_prep s) with
  | None => ppe_Directive (end_of_prepare f) ≠ PrepareDirectivePrepare
  | Some cp =>
      ppe_Directive (end_of_prepare f) = PrepareDirectivePrepare
      ∧ ValidatePreparation cp (ppe_Version (end_of_prepare f)) = None
      ∧ prepareToEndTimer (ss_prep s) = None
  end.

#[export] Instance end_faults_dec f s : Decision (end_faults f s).
Proof. unfold end_faults. destruct (activePrep (ss_prep s)); apply _. Defined.

Lemma cleared_inv (pd : prepDetails) :
  newestCommittedVersion pd = 0%Z →
  prep_inv (put_prepareToEndTimer None (put_prepared false (put_srcPrepMsg None
    (put_activePrep None pd)))).
Proof. intros H0. by split. Qed.

Lemma end_reacts_idle f s :
  session_inv s → activePrep (ss_prep s) = None →
  (end_faults f s → returns (handlePollerPrepareEnd f s) = false)
  ∧ (¬ end_faults f s → ∃ t, handlePollerPrepareEnd f s = Ret () t
       ∧ reacted (on_end (ss_guid s) f (part_of s)) s t).
Proof.
  intros Hi Ea. destruct (inv_idle s Hi Ea) as (Es & _ & Ep).
  unfold end_faults, handlePollerPrepareEnd, on_end. rewrite bind_app. cbn [gets].
  rewrite Ea, Es, Ep. change (end_Params (DecodePollerPrepareEndRequest f)) with (end_of_prepare f).
  case_bool_decide as Hd1.
  { rewrite Hd1. split; [done|]. intros Hn. by destruct Hn. }
  case_bool_decide as Hd2; [split; [done|by intros Hn; destruct Hn]|].
  split; [by intros Hn; destruct Hd2|]. intros _.
  eexists. split; [apply respond_failure_app|]. split_and!; try done.
Qed.

Lemma end_reacts_active f s cp :
  session_inv s → activePrep (ss_prep s) = Some cp →
  (end_faults f s → returns (handlePollerPrepareEnd f s) = false)
  ∧ (¬ end_faults f s → ∃ t, handlePollerPrepareEnd f s = Ret () t
       ∧ reacted (on_end (ss_guid s) f (part_of s)) s t).
Proof.
  intros Hi Ea. destruct (inv_active s cp Hi Ea) as (src & Es & Ep).
  unfold end_faults, handlePollerPrepareEnd, on_end. rewrite bind_app. cbn [gets].
  rewrite Ea, Es, Ep. change (end_Params (DecodePollerPrepareEndRequest f)) with (end_of_prepare f).
  change (decode_raw c_prepare_end zero_prepare_end (RawParams f)) with (end_of_prepare f).
  case_bool_decide as Hd1.
  { split; [intros (Hd & _); by rewrite Hd in Hd1|]. intros _. eexists. split; [reflexivity|].
    split_and!; try done. apply cleared_inv, Hi. }
  case_bool_decide as Hd2.
  { split; [by intros (Hd & _)|]. intros _. eexists. split; [apply respond_failure_app|].
    by split_and!. }
  destruct (ValidatePreparation cp (ppe_Version (end_of_prepare f))) as [err|] eqn:Ev.
  { split; [by intros (_ & ? & _)|]. intros _. eexists. split; [apply respond_failure_app|].
    by split_and!. }
  destruct (prepareToEndTimer (ss_prep s)) as [tm|] eqn:Et.
  - split; [by intros (_ & _ & ?)|]. intros _.
    exists (put_ss_sendCh (ss_sendCh s ++ [prepare_answer (ss_guid s) src (cp_ZoneId cp)
        (ppe_Version (end_of_prepare f)) PrepareResultStatusPrepared ""])
      (put_ss_prep (put_prepareToEndTimer None (put_prepareToEndTimer (Some (timer_stop tm).2)
        (put_prepared true (ss_prep s)))) s)).
    split; [reflexivity|].
    unfold reacted, session_inv, prep_inv, part_of. cbn. rewrite Ea, Es.
    destruct Hi as [Hn Hi]. rewrite Ea in Hi. destruct Hi as (_ & H2 & H3). by split_and!.
  - split; [done|]. intros Hn. by destruct Hn.
Qed.

Lemma end_reacts f s :
  session_inv s →
  (end_faults f s → returns (handlePollerPrepareEnd f s) = false)
  ∧ (¬ end_faults f s → ∃ t, handlePollerPrepareEnd f s = Ret () t
       ∧ reacted (on_end (ss_guid s) f (part_of s)) s t).
Proof.
  intros Hi. destruct (activePrep (ss_prep s)) as [cp|] eqn:Ea.
  - by apply (end_reacts_active f s cp).
  - by apply end_reacts_idle.
Qed.

Lemma commit_reacts f s :
  session_inv s →
  (has_room (ss_reconciler s) = true → returns (handlePollerCommit f s) = true)
  ∧ ∀ t, handlePollerCommit f s = Ret () t →
      reacted (on_commit (ss_guid s) f (part_of s)) s t.
Proof.
  intros Hi. unfold handlePollerCommit, on_commit. rewrite bind_app. cbn [gets].
  rewrite (active_part s Hi).
  change (commit_Params (DecodePollerCommitRequest f))
    with (decode_raw c_commit zero_commit (RawParams f)).
  set (req := decode_raw c_commit zero_commit (RawParams f)).
  destruct (VersionApplies (snd <$> part_of s) (pcp_Version req)) eqn:Ev; cbn [negb].
  - rewrite bind_app, respond_commit_app. destruct (part_of s) as [[src cp]|] eqn:Ep; [|done].
    pose proof (active_part s Hi) as Ea. rewrite Ep in Ea. cbn in Ea.
    set (u := put_ss_sendCh _ s).
    assert (∀ o, ReconcileChecks cp (ss_reconciler s) = o →
      commit u = match o with
        | Ret _ r => Ret () (put_ss_prep (put_prepareToEndTimer None (put_prepared false
            (put_srcPrepMsg None (put_activePrep None (ss_prep s))))) (put_ss_reconciler r u))
        | Halt e r => Halt e (put_ss_reconciler r u)
        end) as Hc.
    { intros o <-. unfold commit. rewrite bind_app. cbn [gets u put_ss_sendCh ss_prep].
      rewrite Ea, bind_app. change (deref (Some cp) u) with (Ret cp u). cbv beta iota.
      rewrite bind_app. unfold on_reconciler, zoom.
      cbn [u put_ss_sendCh ss_reconciler].
      by destruct (ReconcileChecks cp (ss_reconciler s)). }
    rewrite (Hc _ eq_refl). split.
    + intros Hroom%(reconcile_room cp). by destruct (ReconcileChecks cp (ss_reconciler s)).
    + intros t. destruct (ReconcileChecks cp (ss_reconciler s)) as [[] r|] eqn:Er; [|done].
      intros [= <-]. split_and!; try done. apply cleared_inv, Hi.
  - rewrite respond_commit_app. split; [done|]. intros t [= <-]. by split_and!.
Qed.

Lemma expiry_reacts s :
  session_inv s → ChannelOfTimer (prepareToEndTimer (ss_prep s)) = true →
  ∃ t, prepare_to_end_expired s = Ret () t
    ∧ reacted (on_expiry (ss_guid s) (part_of s)) s t.
Proof.
  intros Hi Ht. destruct (activePrep (ss_prep s)) as [cp|] eqn:Ea.
  - destruct (inv_active s cp Hi Ea) as (src & Es & ->). unfold prepare_to_end_expired.
    set (u := put_ss_prep (put_prepareToEndTimer None (ss_prep s)) s).
    eexists. split.
    + rewrite bind_app. change (on_prep _ s) with (Ret () u). cbv beta iota.
      rewrite bind_app. change (gets ss_prep u) with (Ret (ss_prep u) u). cbv beta iota.
      change (srcPrepMsg (ss_prep u)) with (srcPrepMsg (ss_prep s)).
      change (activePrep (ss_prep u)) with (activePrep (ss_prep s)).
      rewrite Es, Ea, bind_app. cbn [fmap option_fmap option_map].
      rewrite respond_failure_app. reflexivity.
    + split_and!; try done. apply cleared_inv, Hi.
  - destruct (inv_idle s Hi Ea) as (_ & E & _). by rewrite E in Ht.
Qed.

(** *** Reachable sessions *)
Definition same_prep (pd : prepDetails) (s : EleSession R) : Prop := ss_prep s = pd.

Lemma response_same pd f : keeps (same_prep pd) (handleResponse f).
Proof.
  unfold handleResponse, getCompletionRequest, heartbeatsStarter, SetAuthenticated. keeps_auto.
Qed.
Lemma Send_same pd msg : keeps (same_prep pd) (Send (R := R) msg).
Proof. unfold Send. keeps_auto. Qed.
Lemma Respond_same pd msg : keeps (same_prep pd) (Respond (R := R) msg).
Proof. unfold Respond. keeps_auto. Qed.
Lemma close_same pd : keeps (same_prep pd) (session_Close (R := R)).
Proof. unfold session_Close, session_contexts. keeps_auto. Qed.
Lemma exit_same pd : keeps (same_prep pd) (exitError (R := R)).
Proof. unfold exitError, EmitEvent. keeps_auto. Qed.
Lemma read_same pd r : keeps (same_prep pd) (read_frame (R := R) r).
Proof. unfold read_frame. keeps_auto. Qed.
Lemma send_frame_same pd ok : keeps (same_prep pd) (send_frame (R := R) ok).
Proof. unfold send_frame, addCompletion. keeps_auto. Qed.
Lemma check_test_same pd Parse run tmp now f :
  keeps (same_prep pd) (handleCheckTest (R := R) Parse run tmp now f).
Proof.
  unfold handleCheckTest, NewErrorResponse, NewPollerCheckTestResponse, response_with,
    PopulateMetricsPostContent, session_contexts.
  keeps_auto; (apply keeps_for_fold; intros; unfold Get; keeps_auto).
Qed.
Lemma heartbeat_tick_same pd now : keeps (same_prep pd) (heartbeat_tick (R := R) now).
Proof. unfold heartbeat_tick, on_measurement. keeps_auto. Qed.
Lemma heartbeat_receive_same pd now : keeps (same_prep pd) (heartbeat_receive (R := R) now).
Proof. unfold heartbeat_receive, on_measurement. keeps_auto. Qed.
Lemma auth_expired_same pd : keeps (same_prep pd) (auth_expired (R := R)).
Proof. unfold auth_expired, EmitEvent. keeps_auto. Qed.

Lemma keeps_same_inv {A} (c : go (EleSession R) A) s a t :
  (∀ pd, keeps (same_prep pd) c) → c s = Ret a t → session_inv s → session_inv t.
Proof.
  intros Hk E Hi. pose proof (Hk (ss_prep s) s eq_refl) as H0. rewrite E in H0. cbn in H0.
  unfold session_inv, same_prep in *. by rewrite H0.
Qed.

Definition two_phase_method (m : string) : Prop :=
  m ∈ [MethodPollerPrepare; MethodPollerPrepareBlock; MethodPollerPrepareEnd; MethodPollerCommit].

Lemma handle_two_phase f s e t :
  session_inv s → two_phase_method (f_Method (Common f)) → handleFrame f s = Ret e t →
  e = None ∧ reacted (react (verdict_of s) (ss_guid s) f (part_of s)) s t.
Proof.
  intros Hi Hm. assert (∀ c o, c s = o →
    ((c : go (EleSession R) unit) ;; mret (M := go _) (@None error)) s = Ret e t →
    e = None ∧ o = Ret () t) as Hret.
  { intros c o <-. rewrite bind_app. destruct (c s) as [[] u|]; [|done]. by intros [= <- <-]. }
  unfold handleFrame, react. unfold two_phase_method in Hm.
  repeat (apply elem_of_cons in Hm as [Hm|Hm]); try (by apply not_elem_of_nil in Hm);
    rewrite Hm; cbn [bool_decide decide_rel]; intros E; apply (Hret _ _ eq_refl) in E as [-> E];
    (split; [done|]); cbn [bool_decide decide_rel].
  - destruct (prepare_reacts f s Hi) as (u & Eu & Hu & _).
    rewrite Eu in E. by injection E as <-.
  - destruct (block_reacts f s Hi) as [H1 H2].
    destruct H2 as (u & Eu & Hu & _); [intros Hf%H1; by rewrite E in Hf|].
    rewrite Eu in E. by injection E as <-.
  - destruct (end_reacts f s Hi) as [H1 H2].
    destruct H2 as (u & Eu & Hu); [intros Hf%H1; by rewrite E in Hf|].
    rewrite Eu in E. by injection E as <-.
  - by apply (commit_reacts f s Hi).
Qed.

Lemma other_frame_same f pd :
  ¬ two_phase_method (f_Method (Common f)) → keeps (same_prep pd) (handleFrame f).
Proof.
  intros Hm. unfold handleFrame.
  assert (∀ m, m ∈ [MethodPollerPrepare; MethodPollerPrepareBlock; MethodPollerPrepareEnd;
    MethodPollerCommit] → bool_decide (f_Method (Common f) = m) = false) as Hno.
  { intros m Hin. apply bool_decide_eq_false_2. by intros <-. }
  rewrite (Hno MethodPollerPrepare), (Hno MethodPollerPrepareBlock),
    (Hno MethodPollerPrepareEnd), (Hno MethodPollerCommit)
    by (repeat first [apply list_elem_of_here | apply list_elem_of_further]).
  unfold spawn. case_match; [apply response_same|]. keeps_auto.
Qed.

#[export] Instance two_phase_method_dec m : Decision (two_phase_method m) := decide (m ∈ _).

Lemma handle_frame_inv f s e t : session_inv s → handleFrame f s = Ret e t → session_inv t.
Proof.
  intros Hi E. destruct (decide (two_phase_method (f_Method (Common f)))) as [Hm|Hm].
  - destruct (handle_two_phase f s e t Hi Hm E) as [_ Hr].
    destruct (react _ _ _ _) as [[p answers] c]. apply Hr.
  - eapply keeps_same_inv; [|exact E|done]. intros pd. by apply other_frame_same.
Qed.

Lemma step_inv s t : session_step s t → session_inv s → session_inv t.
Proof.
  intros Hstep Hi. destruct Hstep as [r s t E|s t E|s t Ht E|s d Ht|Parse run tmp now f s t E
    |now s t E|now s t E|ok s t E|msg s t E|r s t E|s t E|s t E|r s].
  - by eapply (keeps_same_inv _ _ _ _ (λ pd, read_same pd r)).
  - revert E. unfold handle_read_frame. rewrite bind_app. cbn [gets].
    destruct (ss_readCh s) as [|f q]; [done|]. rewrite bind_app. cbn [modify]. rewrite bind_app.
    destruct (handleFrame f (put_ss_readCh q s)) as [e u|] eqn:Eh; [|done].
    assert (session_inv u) as Hu by (by eapply handle_frame_inv; [|exact Eh]).
    destruct e as [e|]; intros [= <-]; [exact Hu|done].
  - destruct (expiry_reacts s Hi Ht) as (u & Eu & Hu). rewrite Eu in E. injection E as <-.
    destruct (on_expiry _ _) as [[p answers] c]. apply Hu.
  - destruct Hi as [Hn Hi]. split; [done|]. cbn.
    destruct (activePrep (ss_prep s)) as [cp|]; [done|].
    destruct Hi as [_ Hi]. by rewrite Hi in Ht.
  - by eapply (keeps_same_inv _ _ _ _ (λ pd, check_test_same pd Parse run tmp now f)).
  - by eapply (keeps_same_inv _ _ _ _ (λ pd, heartbeat_tick_same pd now)).
  - by eapply (keeps_same_inv _ _ _ _ (λ pd, heartbeat_receive_same pd now)).
  - by eapply (keeps_same_inv _ _ _ _ (λ pd, send_frame_same pd ok)).
  - by eapply (keeps_same_inv _ _ _ _ (λ pd, Send_same pd msg)).
  - by eapply (keeps_same_inv _ _ _ _ (λ pd, Respond_same pd (FHostInfo r))).
  - by eapply (keeps_same_inv _ _ _ _ auth_expired_same).
  - by eapply (keeps_same_inv _ _ _ _ close_same).
  - exact Hi.
Qed.

Lemma reachable_session_inv s : session_reachable s → session_inv s.
Proof.
  intros (guid & cfg & r & ctx & cs & s0 & E & Hr).
  assert (session_inv s0) as H0.
  { unfold NewSession in E. eapply (keeps_same_inv Auth); [|exact E|by split].
    intros pd. unfold Auth. keeps_auto. }
  clear E. induction Hr as [|s1 s2 s3 Hs _ IH]; [done|]. by apply IH, (step_inv s1).
Qed.
End refinement.

(** ** Properties *)
Section properties.
Context {R : Type} `{!ChecksReconciler R} `{MapRange}.
Implicit Types s t : EleSession R.

(** A step from [s] to [t] is this reaction of the participant. *)
Definition simulates (r : reaction) s t : Prop :=
  let '(p, answers, committed) := r in
  part_of t = p ∧ ss_sendCh t = ss_sendCh s ++ answers
  ∧ match committed with
    | Some cp => ReconcileChecks cp (ss_reconciler s) = Ret () (ss_reconciler t)
    | None => ss_reconciler t = ss_reconciler s
    end.

Lemma reacted_simulates r s t : reacted r s t → simulates r s t.
Proof. destruct r as [[p answers] c]. by intros (_ & ? & ? & _ & _ & ?). Qed.

(** The other steps leave the participant alone. *)
Lemma keeps_part {A} (c : go (EleSession R) A) s a t :
  (∀ pd, keeps (same_prep pd) c) → c s = Ret a t → part_of t = part_of s.
Proof.
  intros Hk E. pose proof (Hk (ss_prep s) s eq_refl) as H0. rewrite E in H0. cbn in H0.
  unfold part_of, same_prep in *. by rewrite H0.
Qed.

Lemma handled_step s t :
  session_inv s → handle_read_frame s = Ret () t →
  part_of t = part_of s ∨ ∃ f q, ss_readCh s = f :: q ∧ two_phase_method (f_Method (Common f))
    ∧ simulates (react (verdict_of s) (ss_guid s) f (part_of s)) s t.
Proof.
  intros Hi. unfold handle_read_frame. rewrite bind_app. cbn [gets].
  destruct (ss_readCh s) as [|f q] eqn:Eq; [done|]. rewrite bind_app. cbn [modify]. rewrite bind_app.
  destruct (handleFrame f (put_ss_readCh q s)) as [e u|] eqn:Eh; [|done]. intros E.
  destruct (decide (two_phase_method (f_Method (Common f)))) as [Hm|Hm].
  - right. exists f, q. split_and!; [done..|].
    destruct (handle_two_phase f (put_ss_readCh q s) e u Hi Hm Eh) as [-> Hr]. injection E as <-.
    by apply reacted_simulates in Hr.
  - left. assert (part_of u = part_of s) as <-; [|by destruct e; injection E as <-].
    apply (keeps_part (handleFrame f) (put_ss_readCh q s) e u); [|done].
    intros pd. by apply other_frame_same.
Qed.

(** C3: refinement.  When a reachable session has handled a frame of the
    two-phase protocol, its preparation, the frames it has queued and the
    preparation it has handed to the reconciler are those of the participant;
    when its timer has expired, it reacts as the participant does to that; and
    any other step, of whichever goroutine, leaves the participant as it is. *)
Theorem session_refines_participant s :
  session_reachable s →
  (∀ f e t, two_phase_method (f_Method (Common f)) → handleFrame f s = Ret e t →
     e = None ∧ simulates (react (verdict_of s) (ss_guid s) f (part_of s)) s t)
  ∧ (ChannelOfTimer (prepareToEndTimer (ss_prep s)) = true →
       ∃ t, prepare_to_end_expired s = Ret () t ∧ simulates (on_expiry (ss_guid s) (part_of s)) s t)
  ∧ ∀ t, session_step s t →
      part_of t = part_of s
      ∨ (∃ f q, ss_readCh s = f :: q ∧ two_phase_method (f_Method (Common f))
           ∧ simulates (react (verdict_of s) (ss_guid s) f (part_of s)) s t)
      ∨ (ChannelOfTimer (prepareToEndTimer (ss_prep s)) = true
           ∧ simulates (on_expiry (ss_guid s) (part_of s)) s t).
Proof.
  intros Hi%reachable_session_inv. split_and!.
  - intros f e t Hm E. destruct (handle_two_phase f s e t Hi Hm E) as [He Hr].
    split; [done|]. by apply reacted_simulates.
  - intros Ht. destruct (expiry_reacts s Hi Ht) as (t & Et & Hr). exists t.
    split; [done|]. by apply reacted_simulates.
  - intros t Hstep. destruct Hstep as [r s t E|s t E|s t Ht E|s d Ht|Parse run tmp now f s t E
      |now s t E|now s t E|ok s t E|msg s t E|r s t E|s t E|s t E|r s]; try by left.
    + left. by eapply keeps_part; [intros pd; apply read_same|].
    + destruct (handled_step s t Hi E); [by left|by right; left].
    + right; right. destruct (expiry_reacts s Hi Ht) as (u & Eu & Hr). rewrite Eu in E.
      injection E as <-. split; [done|]. by apply reacted_simulates.
    + left. by eapply keeps_part; [intros pd; apply check_test_same|].
    + left. by eapply keeps_part; [intros pd; apply heartbeat_tick_same|].
    + left. by eapply keeps_part; [intros pd; apply heartbeat_receive_same|].
    + left. by eapply keeps_part; [intros pd; apply send_frame_same|].
    + left. by eapply keeps_part; [intros pd; apply Send_same|].
    + left. by eapply keeps_part; [intros pd; apply (Respond_same pd (FHostInfo r))|].
    + left. by eapply keeps_part; [apply auth_expired_same|].
    + left. by eapply keeps_part; [apply close_same|].
Qed.

(** A response meets a channel that was closed, or one that is full: it is a
    second answer to the handshake, or one to a heartbeat before the answer to
    the last has been taken. *)
Definition response_faults (f : FrameMsg) s : Prop :=
  ∃ req, ss_completions s !! f_Id (Common f) = Some req
    ∧ if decide (comp_Method req = MethodHandshakeHello)
      then f_Error (Common f) = None ∧ ss_authenticated s = true
      else comp_Method req = MethodHeartbeatPost ∧ ss_heartbeatResponses s ≠ [].

Lemma set_authenticated_returns s :
  returns ((SetAuthenticated;; mret (M := go _) (@None error)) s) = negb (ss_authenticated s).
Proof. unfold SetAuthenticated. rewrite !bind_app. cbn [gets]. by destruct (ss_authenticated s). Qed.

Lemma response_faults_iff f s : returns (handleResponse f s) = false ↔ response_faults f s.
Proof.
  unfold handleResponse, getCompletionRequest, response_faults. rewrite !bind_app. cbn [gets].
  destruct (ss_completions s !! f_Id (Common f)) as [req|]; [|split; [done|by intros (? & ? & _)]].
  rewrite bind_app. cbn [modify]. set (u := put_ss_completions _ s).
  change (mret (M := go _) (Some req) u) with (Ret (S := EleSession R) (Some req) u). cbv beta iota.
  transitivity (if decide (comp_Method req = MethodHandshakeHello)
    then f_Error (Common f) = None ∧ ss_authenticated s = true
    else comp_Method req = MethodHeartbeatPost ∧ ss_heartbeatResponses s ≠ []);
    [|split; [intros H'; by exists req|by intros (? & [= <-] & ?)]].
  destruct (decide (comp_Method req = MethodHandshakeHello)) as [Hm|Hm].
  - rewrite bool_decide_true by done. rewrite bind_app. cbn [modify].
    change (f_Error (Common (hresp_Frame (DecodeHandshakeResponse f)))) with (f_Error (Common f)).
    destruct (f_Error (Common f)) as [err|]; [by split; [|intros [? _]]|].
    rewrite bind_app. cbn [modify]. rewrite bind_app. set (v := put_ss_heartbeatInterval _ _).
    assert (∃ w, heartbeatsStarter v = Ret () w ∧ ss_authenticated w = ss_authenticated s) as (w & -> & Hw).
    { unfold heartbeatsStarter. rewrite bind_app. cbn [gets]. unfold when. case_bool_decide; by eexists. }
    rewrite set_authenticated_returns, Hw. destruct (ss_authenticated s); cbn; split; first [done|by intros [_ ?]].
  - rewrite bool_decide_false by done. case_bool_decide as Hb; [|split; [done|by intros [? _]]].
    rewrite bind_app. cbn. destruct (ss_heartbeatResponses s) as [|x q]; cbn.
    + split; [done|]. by intros [_ ?].
    + rewrite bool_decide_false by lia. by split.
Qed.

Definition frame_faults (f : FrameMsg) s : Prop :=
  let m := f_Method (Common f) in
  m = MethodEmpty ∧ response_faults f s
  ∨ m = MethodPollerPrepareBlock ∧ block_faults f s
  ∨ m = MethodPollerPrepareEnd ∧ end_faults f s.


(** In every reachable session an active preparation has an announcement to
    answer, was accepted by the reconciler at some time, whatever has been
    added to it since, and files its checks under their ids; without one there
    is no announcement and no timer; and no version has been recorded as
    committed. *)
Theorem active_accepted s :
  session_reachable s →
  newestCommittedVersion (ss_prep s) = 0%Z ∧
  match activePrep (ss_prep s) with
  | Some cp => is_Some (srcPrepMsg (ss_prep s)) ∧ (∃ r : R, ValidateChecks cp r = None)
      ∧ ∀ key ac, cp_Actions cp !! key = Some ac → ac_Action ac ≠ ActionTypeUnknown →
          ac_Id ac = key
  | None => srcPrepMsg (ss_prep s) = None ∧ prepareToEndTimer (ss_prep s) = None
  end.
Proof.
  intros [Hn Hi]%reachable_session_inv. split; [done|].
  destruct (activePrep (ss_prep s)); [|done]. by destruct Hi as (? & ? & ?).
Qed.
End properties.
