(* ===== verification/Stream.v ===== *)
(** Component: the connection stream (src/poller/connection_stream.go, with the
    interfaces of src/poller/poller.go).

    One goroutine, the coordinator, registers connections and sends metrics;
    each configured address has a goroutine that connects, and connects again.
    The stream is the reconciler of every session: it hands a preparation to
    the schedulers of all its zones. *)
From Stdlib Require Import Sorted.
From S2P Require Export Scheduler Session.

(** What the stream asks of a connection: its health, and sending through its
    session. *)
Class Connection (C : Type) := {
  conn_HasLatencyMeasurements : C → bool;
  conn_GetLatency : C → Z;
  conn_GetClockOffset : C → Z;
  conn_Send : Frame → go C unit
}.

#[export] Instance session_connection {R} `{!ChecksReconciler R} : Connection (EleSession R) := {|
  conn_HasLatencyMeasurements := HasLatencyMeasurements;
  conn_GetLatency := Session.GetLatency;
  conn_GetClockOffset := GetClockOffset;
  conn_Send := Send
|}.

Inductive stream_event :=
| EventTypeRegister (qry : string)
| EventTypeDeregister (qry : string)
| EventTypeDroppedMetric (crs : ResultSet)
| EventTypeAllConnectionsLost.

Record connectionRegistration {C : Type} := { register : bool; qry : string; conn : C }.
Arguments connectionRegistration C : clear implicits.

Record EleConnectionStream {C : Type} := {
  cs_config : Config;
  cs_conns : gmap string C;
  cs_registrations : list (connectionRegistration C);
  cs_metricsToSend : list ResultSet;
  cs_schedulers : gmap string EleScheduler;
  cs_distributed : list ResultSet;
  cs_events : list stream_event
}.
Arguments EleConnectionStream C : clear implicits.

Section stream.
Context {C : Type} `{!Connection C}.
Implicit Types cs : EleConnectionStream C.

Definition put_config (x : Config) cs : EleConnectionStream C :=
  {| cs_config := x; cs_conns := cs_conns cs; cs_registrations := cs_registrations cs;
     cs_metricsToSend := cs_metricsToSend cs; cs_schedulers := cs_schedulers cs;
     cs_distributed := cs_distributed cs; cs_events := cs_events cs |}.
Definition put_conns (x : gmap string C) cs : EleConnectionStream C :=
  {| cs_config := cs_config cs; cs_conns := x; cs_registrations := cs_registrations cs;
     cs_metricsToSend := cs_metricsToSend cs; cs_schedulers := cs_schedulers cs;
     cs_distributed := cs_distributed cs; cs_events := cs_events cs |}.
Definition put_registrations (x : list (connectionRegistration C)) cs : EleConnectionStream C :=
  {| cs_config := cs_config cs; cs_conns := cs_conns cs; cs_registrations := x;
     cs_metricsToSend := cs_metricsToSend cs; cs_schedulers := cs_schedulers cs;
     cs_distributed := cs_distributed cs; cs_events := cs_events cs |}.
Definition put_metricsToSend (x : list ResultSet) cs : EleConnectionStream C :=
  {| cs_config := cs_config cs; cs_conns := cs_conns cs; cs_registrations := cs_registrations cs;
     cs_metricsToSend := x; cs_schedulers := cs_schedulers cs;
     cs_distributed := cs_distributed cs; cs_events := cs_events cs |}.
Definition put_schedulers (x : gmap string EleScheduler) cs : EleConnectionStream C :=
  {| cs_config := cs_config cs; cs_conns := cs_conns cs; cs_registrations := cs_registrations cs;
     cs_metricsToSend := cs_metricsToSend cs; cs_schedulers := x;
     cs_distributed := cs_distributed cs; cs_events := cs_events cs |}.
Definition put_distributed (x : list ResultSet) cs : EleConnectionStream C :=
  {| cs_config := cs_config cs; cs_conns := cs_conns cs; cs_registrations := cs_registrations cs;
     cs_metricsToSend := cs_metricsToSend cs; cs_schedulers := cs_schedulers cs;
     cs_distributed := x; cs_events := cs_events cs |}.
Definition put_events (x : list stream_event) cs : EleConnectionStream C :=
  {| cs_config := cs_config cs; cs_conns := cs_conns cs; cs_registrations := cs_registrations cs;
     cs_metricsToSend := cs_metricsToSend cs; cs_schedulers := cs_schedulers cs;
     cs_distributed := cs_distributed cs; cs_events := x |}.

Definition stream_EmitEvent (e : stream_event) : go (EleConnectionStream C) unit :=
  modify (λ cs, put_events (cs_events cs ++ [e]) cs).

(** One scheduler per configured zone. *)
Definition NewConnectionStream (config : Config) : EleConnectionStream C :=
  {| cs_config := config; cs_conns := ∅; cs_registrations := []; cs_metricsToSend := [];
     cs_schedulers := foldl (λ m pz, <[pz := NewScheduler pz]> m) ∅ (ZoneIds config);
     cs_distributed := []; cs_events := [] |}.

(** A call on the scheduler of a zone. *)
Definition on_scheduler (zone : string) (c : go EleScheduler unit)
    : go (EleConnectionStream C) unit :=
  sched ← gets (λ cs, cs_schedulers cs !! zone);
  sched ← deref sched;
  zoom (λ _, sched) (λ s cs, put_schedulers (<[zone := s]> (cs_schedulers cs)) cs) c.

Definition registerConnection (qry : string) (conn : C) : go (EleConnectionStream C) unit :=
  modify (λ cs, put_conns (<[qry := conn]> (cs_conns cs)) cs);;
  stream_EmitEvent (EventTypeRegister qry).

Section ranging.
Context `{MapRange}.

(** [newGuid] is the identifier made by the UUID library. *)
Definition deregisterConnection (newGuid : string) (qry : string)
    : go (EleConnectionStream C) unit :=
  exists_ ← gets (λ cs, cs_conns cs !! qry);
  match exists_ with
  | None => mret ()
  | Some _ =>
      modify (λ cs, put_conns (delete qry (cs_conns cs)) cs);;
      stream_EmitEvent (EventTypeDeregister qry);;
      conns ← gets cs_conns;
      when (bool_decide (size conns = 0)) (
        schedulers ← gets cs_schedulers;
        for_each (range schedulers) (λ kv, on_scheduler kv.1 Reset);;
        stream_EmitEvent EventTypeAllConnectionsLost;;
        modify (λ cs, put_config (set_Guid newGuid (cs_config cs)) cs))
  end.

Definition stream_ReconcileChecks (cp : ChecksPreparation) : go (EleConnectionStream C) unit :=
  schedulers ← gets cs_schedulers;
  for_each (range schedulers) (λ kv, on_scheduler kv.1 (scheduler_ReconcileChecks cp)).

Definition stream_ValidateChecks (cp : ChecksPreparation) (cs : EleConnectionStream C)
    : option error :=
  first_error (λ kv, scheduler_ValidateChecks cp kv.2) (range (cs_schedulers cs)).

(** [ChooseBest], as a loop with the best connection so far; connections are
    given with the address they are registered under. *)
Definition choose_step (acc : Z * option (string * C)) (kv : string * C)
    : Z * option (string * C) :=
  if conn_HasLatencyMeasurements kv.2 && bool_decide (conn_GetLatency kv.2 < acc.1)%Z
  then (conn_GetLatency kv.2, Some kv)
  else acc.
Definition ChooseBest (conns : gmap string C) : option (string * C) :=
  (foldl choose_step (max_i64, None) (range conns)).2.

(** [now] is the poller's clock. *)
Definition sendMetrics (now : Z) (crs : ResultSet) : go (EleConnectionStream C) unit :=
  conns ← gets cs_conns;
  if bool_decide (size conns = 0) then stream_EmitEvent (EventTypeDroppedMetric crs)
  else
    match ChooseBest conns with
    | None => mret ()
    | Some (qry, conn) =>
        req ← NewMetricsPostRequest now crs (conn_GetClockOffset conn);
        zoom (λ _, conn) (λ c cs, put_conns (<[qry := c]> (cs_conns cs)) cs)
          (conn_Send (FMetricsPost req))
    end.

(** [SendMetrics] hands the result set to the coordinator and to the
    distributor. *)
Definition SendMetrics (crs : ResultSet) : go (EleConnectionStream C) unit :=
  modify (λ cs, put_metricsToSend (cs_metricsToSend cs ++ [crs]) cs);;
  modify (λ cs, put_distributed (cs_distributed cs ++ [crs]) cs).

(** The turns of [runRegistrationMetricsCoordinator]. *)
Definition take_metrics (now : Z) : go (EleConnectionStream C) unit :=
  q ← gets cs_metricsToSend;
  match q with
  | [] => halt Blocked
  | crs :: q' => modify (put_metricsToSend q');; sendMetrics now crs
  end.
Definition take_registration (newGuid : string) : go (EleConnectionStream C) unit :=
  q ← gets cs_registrations;
  match q with
  | [] => halt Blocked
  | reg :: q' =>
      modify (put_registrations q');;
      if register reg then registerConnection (qry reg) (conn reg)
      else deregisterConnection newGuid (qry reg)
  end.
End ranging.

(** [Connect]: the goroutines it starts. *)
Inductive connector :=
| ConnectBySrv (qry : string)
| RunHostConnection (addr : string).
Definition stream_Connect (cs : EleConnectionStream C) : list connector :=
  if UseSrv (cs_config cs) then ConnectBySrv <$> SrvQueries (cs_config cs)
  else RunHostConnection <$> Addresses (cs_config cs).

(** The default executor of a check: [Run], then [SendMetrics] unless it fails
    (src/poller/scheduler.go). *)
Definition Execute (run : Check → ResultSet + error) (ch : Check)
    : go (EleConnectionStream C) unit :=
  match run ch with
  | inr _ => mret ()
  | inl crs => SendMetrics crs
  end.
End stream.

(** ** Lemmas *)
Section stream_lemmas.
Context {C : Type} `{!Connection C}.
Implicit Types cs : EleConnectionStream C.

Lemma put_schedulers_twice m m' cs :
  put_schedulers m (put_schedulers m' cs) = put_schedulers m cs.
Proof. reflexivity. Qed.

Lemma on_scheduler_app zone c g s cs :
  cs_schedulers cs !! zone = Some s → c s = Ret () (g s) →
  on_scheduler zone c cs = Ret () (put_schedulers (<[zone := g s]> (cs_schedulers cs)) cs).
Proof.
  intros Hz Hc. unfold on_scheduler. rewrite bind_app. cbn [gets]. rewrite Hz, bind_app.
  change (deref (Some s) cs) with (Ret s cs). cbv beta iota. unfold zoom. by rewrite Hc.
Qed.

Lemma schedulers_list (c : go EleScheduler unit) (g : EleScheduler → EleScheduler) l cs :
  NoDup l.*1 → (∀ zone s, (zone, s) ∈ l → cs_schedulers cs !! zone = Some s ∧ c s = Ret () (g s)) →
  for_each l (λ kv, on_scheduler kv.1 c) cs =
    Ret () (put_schedulers (list_to_map (prod_map id g <$> l) ∪ cs_schedulers cs) cs).
Proof.
  revert cs. induction l as [|[zone s] l IH]; intros cs HN Hl; cbn.
  - rewrite (left_id_L ∅ (∪)). by destruct cs.
  - cbn in HN. apply NoDup_cons in HN as [Hn HN].
    destruct (Hl zone s) as [Hz Hc]; [by left|].
    rewrite bind_app, (on_scheduler_app zone c g s cs Hz Hc). rewrite IH; [|done|].
    + rewrite put_schedulers_twice. cbn [cs_schedulers put_schedulers]. do 2 f_equal.
      rewrite <- insert_union_r, insert_union_l; [done|].
      apply not_elem_of_list_to_map_1. rewrite <- list_fmap_compose. exact Hn.
    + intros zone' s' Hin. destruct (Hl zone' s') as [Hz' Hc']; [by right|].
      split; [|done]. cbn. rewrite lookup_insert_ne; [done|].
      intros ->. apply Hn. apply list_elem_of_fmap. by exists (zone', s').
Qed.

Lemma schedulers_loop `{MapRange} (c : go EleScheduler unit) (g : EleScheduler → EleScheduler) cs :
  map_Forall (λ _ s, c s = Ret () (g s)) (cs_schedulers cs) →
  for_each (range (cs_schedulers cs)) (λ kv, on_scheduler kv.1 c) cs =
    Ret () (put_schedulers (g <$> cs_schedulers cs) cs).
Proof.
  intros Hall. rewrite (schedulers_list c g); [|apply NoDup_range|].
  - do 2 f_equal. rewrite list_to_map_fmap, list_to_map_range. apply map_eq. intros z.
    rewrite lookup_union, !lookup_fmap. by destruct (cs_schedulers cs !! z).
  - intros zone s Hin%elem_of_range. split; [done|]. by eapply Hall.
Qed.

(** A call on every scheduler returns only when it returns on each. *)
Lemma schedulers_list_ok (c : go EleScheduler unit) (g : EleScheduler → EleScheduler) ok l cs cs' :
  (∀ s, c s = if ok s : bool then Ret () (g s) else Halt Blocked s) →
  NoDup l.*1 → (∀ zone s, (zone, s) ∈ l → cs_schedulers cs !! zone = Some s) →
  for_each l (λ kv, on_scheduler kv.1 c) cs = Ret () cs' →
  ∀ zone s, (zone, s) ∈ l → ok s = true.
Proof.
  intros Hc. revert cs. induction l as [|[zone s] l IH]; intros cs HN Hl E zone' s' Hin;
    [by apply elem_of_nil in Hin|].
  cbn in HN. apply NoDup_cons in HN as [Hn HN]. cbn in E. rewrite bind_app in E.
  assert (cs_schedulers cs !! zone = Some s) as Hz by (apply Hl; by left).
  destruct (ok s) eqn:Hr.
  - apply elem_of_cons in Hin as [[= -> ->]|Hin]; [done|].
    rewrite (on_scheduler_app zone c g s) in E by (rewrite ?Hc, ?Hr; done).
    refine (IH _ HN _ E zone' s' Hin). intros z t Ht. cbn. rewrite lookup_insert_ne.
    + apply Hl. by right.
    + intros ->. apply Hn, list_elem_of_fmap. by exists (z, t).
  - exfalso. revert E. unfold on_scheduler. rewrite bind_app. cbn [gets]. rewrite Hz, bind_app.
    change (deref (Some s) cs) with (Ret s cs). cbv beta iota. unfold zoom. by rewrite Hc, Hr.
Qed.

Lemma schedulers_loop_ok `{MapRange} (c : go EleScheduler unit) g ok cs cs' :
  (∀ s, c s = if ok s : bool then Ret () (g s) else Halt Blocked s) →
  for_each (range (cs_schedulers cs)) (λ kv, on_scheduler kv.1 c) cs = Ret () cs' →
  map_Forall (λ _ s, ok s = true) (cs_schedulers cs)
  ∧ cs' = put_schedulers (g <$> cs_schedulers cs) cs.
Proof.
  intros Hc E. assert (map_Forall (λ _ s, ok s = true) (cs_schedulers cs)) as Hok.
  { intros z s Hz. refine (schedulers_list_ok c g ok _ cs cs' Hc (NoDup_range _) _ E z s _);
      [|by apply elem_of_range]. intros z' s'. by rewrite elem_of_range. }
  split; [done|]. rewrite (schedulers_loop c g) in E; [by injection E|].
  intros z s Hz. rewrite Hc. by rewrite (Hok z s Hz).
Qed.

Definition with_preparation (cp : ChecksPreparation) (s : EleScheduler) : EleScheduler :=
  set_preparations s (s_preparations s ++ [cp]).
Definition with_reset (s : EleScheduler) : EleScheduler := set_resets s (S (s_resets s)).

Definition stream_room (cs : EleConnectionStream C) : bool :=
  bool_decide (map_Forall (λ _ s, scheduler_room s = true) (cs_schedulers cs)).

Lemma scheduler_reconcile_app cp s :
  scheduler_room s = true → scheduler_ReconcileChecks cp s = Ret () (with_preparation cp s).
Proof.
  unfold scheduler_room, scheduler_ReconcileChecks. intros Hr. rewrite bind_app. cbn [gets].
  by rewrite Hr.
Qed.

Lemma stream_reconcile_app `{MapRange} cp cs :
  stream_room cs = true →
  stream_ReconcileChecks cp cs = Ret () (put_schedulers (with_preparation cp <$> cs_schedulers cs) cs).
Proof.
  intros Hr%bool_decide_eq_true_1. unfold stream_ReconcileChecks. rewrite bind_app. cbn [gets].
  apply schedulers_loop. intros z s Hz. apply scheduler_reconcile_app. by apply (Hr z).
Qed.

Lemma stream_reconcile_inv `{MapRange} cp cs cs' :
  stream_ReconcileChecks cp cs = Ret () cs' →
  map_Forall (λ _ s, scheduler_room s = true) (cs_schedulers cs)
  ∧ cs' = put_schedulers (with_preparation cp <$> cs_schedulers cs) cs.
Proof.
  unfold stream_ReconcileChecks. rewrite bind_app. cbn [gets]. apply schedulers_loop_ok.
  intros s. unfold scheduler_room, scheduler_ReconcileChecks. rewrite bind_app. cbn [gets].
  by case_bool_decide.
Qed.

(** The loss of a connection leaves the schedulers alone, or queues a reset in
    each, which had none. *)
Lemma deregister_schedulers `{MapRange} newGuid qry cs cs' :
  deregisterConnection newGuid qry cs = Ret () cs' →
  cs_schedulers cs' = cs_schedulers cs
  ∨ map_Forall (λ _ s, s_resets s = 0) (cs_schedulers cs)
    ∧ cs_schedulers cs' = with_reset <$> cs_schedulers cs.
Proof.
  unfold deregisterConnection. rewrite bind_app. cbn [gets].
  destruct (cs_conns cs !! qry); [|intros [= <-]; by left].
  do 3 (rewrite bind_app; cbn [modify stream_EmitEvent gets]). unfold when.
  case_bool_decide; [|intros [= <-]; by left].
  rewrite bind_app. cbn [gets]. rewrite bind_app.
  match goal with |- match ?c with _ => _ end = _ → _ => destruct c as [[] u|] eqn:E end; [|done].
  apply (schedulers_loop_ok _ with_reset (λ s, bool_decide (s_resets s < 1))) in E as [Hok ->].
  - intros [= <-]. right. split; [|done]. intros z s Hz. pose proof (Hok z s Hz) as Hr.
    cbn in Hr. apply bool_decide_eq_true_1 in Hr. lia.
  - intros s. unfold Reset. rewrite bind_app. cbn [gets]. by case_bool_decide.
Qed.

Lemma stream_validate_none `{MapRange} cp cs :
  stream_ValidateChecks cp cs = None ↔
    map_Forall (λ _ s, scheduler_ValidateChecks cp s = None) (cs_schedulers cs).
Proof.
  unfold stream_ValidateChecks. rewrite first_error_none. split.
  - intros Hall z s Hz. apply (Hall (z, s)). by apply elem_of_range.
  - intros Hall [z s] Hin%elem_of_range. by eapply Hall.
Qed.

(** The stream is the reconciler of the sessions. *)
#[export] Instance stream_reconciler `{MapRange} : ChecksReconciler (EleConnectionStream C).
Proof.
  refine {| ValidateChecks := stream_ValidateChecks; ReconcileChecks := stream_ReconcileChecks;
            has_room := stream_room |}.
  - intros cp cs Hr. by rewrite stream_reconcile_app.
  - intros cs cp cp' Hp. rewrite !stream_validate_none. unfold map_Forall.
    split; intros Hv z s Hz; specialize (Hv z s Hz);
      pose proof (validate_plan s cp cp' Hp) as E; cbn in E; tauto.
Defined.
End stream_lemmas.

(** ** Choosing a connection *)
Section choose.
Context {C : Type} `{!Connection C}.

Definition measured (kv : string * C) : Prop := conn_HasLatencyMeasurements kv.2 = true.

(** What the loop knows after the connections of [l]. *)
Definition best_of (l : list (string * C)) (acc : Z * option (string * C)) : Prop :=
  match acc.2 with
  | None => acc.1 = max_i64 ∧ ∀ kv, kv ∈ l → measured kv → (max_i64 ≤ conn_GetLatency kv.2)%Z
  | Some b => b ∈ l ∧ measured b ∧ acc.1 = conn_GetLatency b.2 ∧ (acc.1 < max_i64)%Z
      ∧ ∀ kv, kv ∈ l → measured kv → (conn_GetLatency b.2 ≤ conn_GetLatency kv.2)%Z
  end.

Lemma choose_loop l : best_of l (foldl choose_step (max_i64, None) l).
Proof.
  induction l as [|kv l IH] using rev_ind; [by split; [|intros ? ?%not_elem_of_nil]|].
  rewrite foldl_snoc. destruct (foldl choose_step _ l) as [m b].
  assert (∀ x, x ∈ l ++ [kv] ↔ x ∈ l ∨ x = kv) as Hin.
  { intros x. by rewrite elem_of_app, list_elem_of_singleton. }
  unfold choose_step, best_of in *. cbn [fst snd] in *.
  destruct (conn_HasLatencyMeasurements kv.2) eqn:Em; cbn [andb].
  - case_bool_decide as Hlt; cbn [fst snd].
    + split_and!; [apply Hin; by right|done|done|destruct b; naive_solver lia|].
      intros x [Hx| ->]%Hin Hmx; [|lia]. destruct b as [b|].
      * destruct IH as (_ & _ & E & _ & Hall). specialize (Hall x Hx Hmx). lia.
      * destruct IH as [-> Hall]. specialize (Hall x Hx Hmx). lia.
    + destruct b as [b|].
      * destruct IH as (Hb & Hmb & E & Hm & Hall). split_and!; try done; [apply Hin; by left|].
        intros x [Hx| ->]%Hin Hmx; [by apply Hall|lia].
      * destruct IH as [-> Hall]. split; [done|].
        intros x [Hx| ->]%Hin Hmx; [by apply Hall|lia].
  - assert (∀ x, x ∈ l ++ [kv] → measured x → x ∈ l) as Hold.
    { intros x [Hx| ->]%Hin Hmx; [done|]. unfold measured in Hmx. congruence. }
    destruct b as [b|].
    + destruct IH as (Hb & Hmb & E & Hm & Hall). split_and!; try done; [apply Hin; by left|].
      intros x Hx Hmx. apply Hall; [by apply Hold|done].
    + destruct IH as [-> Hall]. split; [done|]. intros x Hx Hmx. apply Hall; [by apply Hold|done].
Qed.
End choose.

(** ** The goroutine of an address

    [runHostConnection]: each connection has a number; [h_registrations] are
    the messages for the coordinator, [true] to register. *)
Inductive host_phase :=
| Dialing
| Connected (pendingAuth : bool)
| Sleeping
| Exited.

Record host := {
  h_phase : host_phase;
  h_conn : nat;
  h_registrations : list (bool * nat);
  h_closed : list nat
}.

Definition new_host : host :=
  {| h_phase := Dialing; h_conn := 0; h_registrations := []; h_closed := [] |}.

Definition enter (p : host_phase) (h : host) : host :=
  {| h_phase := p; h_conn := h_conn h; h_registrations := h_registrations h;
     h_closed := h_closed h |}.
Definition next_conn (h : host) : host :=
  {| h_phase := Dialing; h_conn := S (h_conn h); h_registrations := h_registrations h;
     h_closed := h_closed h |}.
Definition post (reg : bool) (h : host) : host :=
  {| h_phase := h_phase h; h_conn := h_conn h;
     h_registrations := h_registrations h ++ [(reg, h_conn h)]; h_closed := h_closed h |}.
Definition close_conn (h : host) : host :=
  {| h_phase := h_phase h; h_conn := h_conn h; h_registrations := h_registrations h;
     h_closed := h_closed h ++ [h_conn h] |}.

(** What can wake the goroutine. *)
Inductive host_event :=
| FactoryNil
| ConnectOk
| ConnectError
| AuthenticatedClosed
| StreamDone
| MaxAgeReached
| ConnectionDone
| SleepOver.

Definition host_step (e : host_event) (h : host) : option host :=
  match h_phase h, e with
  | Dialing, FactoryNil => Some (enter Exited h)
  | Dialing, ConnectOk => Some (enter (Connected true) h)
  | Dialing, ConnectError => Some (enter Sleeping h)
  | Connected true, AuthenticatedClosed => Some (enter (Connected false) (post true h))
  | Connected _, StreamDone => Some (enter Exited (close_conn h))
  | Connected p, MaxAgeReached => Some (enter (Connected p) (close_conn h))
  | Connected _, ConnectionDone => Some (enter Sleeping (post false h))
  | Sleeping, StreamDone => Some (enter Exited h)
  | Sleeping, SleepOver => Some (next_conn h)
  | _, _ => None
  end.

Fixpoint host_run (es : list host_event) (h : host) : option host :=
  match es with
  | [] => Some h
  | e :: es' => h' ← host_step e h; host_run es' h'
  end.

(** The order of the messages: by connection, registration first. *)
Definition before (a b : bool * nat) : Prop :=
  a.2 < b.2 ∨ (a.2 = b.2 ∧ a.1 = true ∧ b.1 = false).

Definition host_inv (h : host) : Prop :=
  StronglySorted before (h_registrations h)
  ∧ Forall (λ a, a.2 ≤ h_conn h) (h_registrations h)
  ∧ match h_phase h with
    | Dialing | Connected true => Forall (λ a, a.2 < h_conn h) (h_registrations h)
    | Connected false => Forall (λ a, a.2 < h_conn h ∨ a = (true, h_conn h)) (h_registrations h)
    | _ => True
    end.

Lemma sorted_snoc {A} (P : A → A → Prop) l x :
  StronglySorted P l → Forall (λ y, P y x) l → StronglySorted P (l ++ [x]).
Proof.
  induction 1 as [|y l Hs IH Hy]; intros Hx; cbn; [by repeat constructor|].
  apply Forall_cons in Hx as [Hyx Hx]. constructor; [by apply IH|].
  apply Forall_app. by split; [|apply Forall_singleton].
Qed.

Lemma host_inv_enter p h :
  host_inv h → p = Sleeping ∨ p = Exited → host_inv (enter p h).
Proof. intros (H1 & H2 & _) [-> | ->]; by split_and!. Qed.

Lemma host_inv_post reg h :
  host_inv h → h_phase h = Connected true ∨ (h_phase h = Connected false ∧ reg = false) →
  host_inv (enter (if reg then Connected false else Sleeping) (post reg h)).
Proof.
  intros (H1 & H2 & H3) Hp. unfold host_inv. cbn.
  assert (Forall (λ a, before a (reg, h_conn h)) (h_registrations h)) as Hb.
  { destruct Hp as [E|[E ->]]; rewrite E in H3; (eapply Forall_impl; [exact H3|]);
      intros a Ha; unfold before; cbn.
    - by left.
    - destruct Ha as [Ha| ->]; [by left|by right]. }
  split_and!.
  - by apply sorted_snoc.
  - apply Forall_app. split; [done|]. by apply Forall_singleton.
  - destruct reg; cbn; [|done]. destruct Hp as [E|[_ ?]]; [|done]. rewrite E in H3.
    apply Forall_app. split.
    + eapply Forall_impl; [exact H3|]. intros a Ha. by left.
    + apply Forall_singleton. by right.
Qed.

Lemma host_inv_step e h h' : host_inv h → host_step e h = Some h' → host_inv h'.
Proof.
  intros Hi E. unfold host_step in E.
  destruct (h_phase h) as [|[]| |] eqn:Ep, e; try done; injection E as <-;
    try (apply host_inv_enter; [done|by auto]);
    try (apply (host_inv_post false); [done|by auto]);
    try (apply (host_inv_post true); [done|by auto]);
    try (destruct Hi as (H1 & H2 & H3); rewrite Ep in H3; by split_and!).
  destruct Hi as (H1 & H2 & _). split_and!; [done| |]; cbn; (eapply Forall_impl; [exact H2|]);
    cbn; intros ? ?; lia.
Qed.

Lemma host_inv_run es h h' : host_inv h → host_run es h = Some h' → host_inv h'.
Proof.
  revert h. induction es as [|e es IH]; intros h Hi; cbn; [by intros [= <-]|].
  destruct (host_step e h) as [h1|] eqn:E; cbn; [|done].
  intros Hr. eapply IH; [|exact Hr]. by eapply host_inv_step.
Qed.

(** ** Properties *)
Section properties.
Context {C : Type} `{!Connection C} `{MapRange}.
Implicit Types cs : EleConnectionStream C.

(** A committed preparation goes to the schedulers of all the zones, the
    zone it is for among them or not, each exactly once; nothing else of the
    stream changes. *)
Theorem reconcile_goes_everywhere cp cs :
  stream_room cs = true →
  runs (stream_ReconcileChecks cp) cs (λ _ t,
    (∀ zone, cs_schedulers t !! zone =
       (λ s, set_preparations s (s_preparations s ++ [cp])) <$> cs_schedulers cs !! zone)
    ∧ cs_conns t = cs_conns cs ∧ cs_config t = cs_config cs ∧ cs_events t = cs_events cs).
Proof.
  intros Hr. apply (runs_ret _ _ _ _ _ (stream_reconcile_app cp cs Hr)).
  split_and!; try done. intros zone. cbn. by rewrite lookup_fmap.
Qed.

(** The connection chosen for metrics has the least latency among those
    that have been measured; none is chosen exactly when none has been measured
    (below the greatest [int64]), even when there are connections. *)
Theorem choose_best_spec (conns : gmap string C) :
  match ChooseBest conns with
  | Some (addr, c) =>
      conns !! addr = Some c ∧ conn_HasLatencyMeasurements c = true
      ∧ ∀ addr' c', conns !! addr' = Some c' → conn_HasLatencyMeasurements c' = true →
          (conn_GetLatency c ≤ conn_GetLatency c')%Z
  | None => ∀ addr c, conns !! addr = Some c → conn_HasLatencyMeasurements c = true →
      (max_i64 ≤ conn_GetLatency c)%Z
  end.
Proof.
  unfold ChooseBest. pose proof (choose_loop (range conns)) as Hb. unfold best_of in Hb.
  destruct (foldl choose_step _ _) as [m [[addr c]|]]; cbn [fst snd] in *.
  - destruct Hb as (Hin & Hm & _ & _ & Hall). apply elem_of_range in Hin.
    split_and!; [done|done|]. intros addr' c' Hl Hm'. apply (Hall (addr', c')); [|done].
    by apply elem_of_range.
  - destruct Hb as [_ Hall]. intros addr c Hl Hm. apply (Hall (addr, c)); [|done].
    by apply elem_of_range.
Qed.

(** C18: losing a connection.  When it was registered and is the last one, every
    scheduler is told to reset, the loss is announced and the poller takes a
    new GUID; when others remain it is only removed and announced; when it was
    not registered nothing happens. *)
Theorem deregister_spec newGuid qry cs :
  map_Forall (λ _ s, s_resets s = 0) (cs_schedulers cs) →
  runs (deregisterConnection newGuid qry) cs (λ _ t,
    cs_conns t = delete qry (cs_conns cs) ∧
    match cs_conns cs !! qry with
    | None => t = cs
    | Some _ =>
        if decide (delete qry (cs_conns cs) = ∅) then
          Config.Guid (cs_config t) = newGuid
          ∧ (∀ zone, cs_schedulers t !! zone =
               (λ s, set_resets s 1) <$> cs_schedulers cs !! zone)
          ∧ cs_events t = cs_events cs ++ [EventTypeDeregister qry; EventTypeAllConnectionsLost]
        else
          cs_config t = cs_config cs ∧ cs_schedulers t = cs_schedulers cs
          ∧ cs_events t = cs_events cs ++ [EventTypeDeregister qry]
    end).
Proof.
  intros Hz. unfold deregisterConnection. apply runs_bind. unfold runs at 1. cbn [gets].
  destruct (cs_conns cs !! qry) as [c|] eqn:Eq.
  2:{ unfold runs. cbn. split; [|done]. by rewrite delete_id. }
  do 3 (apply runs_bind; unfold runs at 1; cbn [gets modify stream_EmitEvent]).
  cbn [cs_conns put_events put_conns]. unfold when.
  destruct (decide (delete qry (cs_conns cs) = ∅)) as [He|He].
  - rewrite bool_decide_true by (by rewrite He).
    apply runs_bind. unfold runs at 1. cbn [gets]. apply runs_bind.
    set (u := put_events _ _).
    assert (map_Forall (λ _ s, Reset s = Ret () (with_reset s)) (cs_schedulers u)) as Hreset.
    { intros z s Hs. pose proof (Hz z s Hs) as E. cbn in E. unfold Reset, with_reset.
      rewrite bind_app. cbn [gets]. by rewrite E. }
    apply (runs_ret _ _ _ _ _ (schedulers_loop Reset with_reset u Hreset)).
    unfold runs. subst u. cbn. split_and!; [done|done| |].
    2:{ change ((cs_events cs ++ [EventTypeDeregister qry]) ++ [EventTypeAllConnectionsLost] =
          cs_events cs ++ [EventTypeDeregister qry; EventTypeAllConnectionsLost]).
        by rewrite <- (assoc_L (++)). }
    intros zone. change ((with_reset <$> cs_schedulers cs) !! zone
      = (λ s, set_resets s 1) <$> cs_schedulers cs !! zone).
    rewrite lookup_fmap. destruct (cs_schedulers cs !! zone) as [s|] eqn:Es; [|done].
    cbn. unfold with_reset. pose proof (Hz zone s Es) as E. cbn in E. by rewrite E.
  - rewrite bool_decide_false by (by intros Hs%map_size_empty_inv).
    unfold runs. cbn. by split_and!.
Qed.

(** Sending metrics.  Without connections the result set is announced as
    dropped; when no connection has been measured it is lost without a trace;
    otherwise the connection of least latency is given one post, made from the
    result set with the connection's clock offset, and the others nothing. *)
Theorem send_metrics_spec now crs cs :
  (∀ f c, returns (conn_Send f c) = true) →
  runs (sendMetrics now crs) cs (λ _ t,
    if decide (cs_conns cs = ∅) then
      cs_events t = cs_events cs ++ [EventTypeDroppedMetric crs] ∧ cs_conns t = cs_conns cs
    else match ChooseBest (cs_conns cs) with
    | None => t = cs
    | Some (addr, c) => ∃ req c',
        NewMetricsPostRequest now crs (conn_GetClockOffset c) cs = Ret req cs
        ∧ conn_Send (FMetricsPost req) c = Ret () c'
        ∧ cs_conns t = <[addr := c']> (cs_conns cs) ∧ cs_events t = cs_events cs
    end).
Proof.
  intros Hret. unfold sendMetrics. apply runs_bind. unfold runs at 1. cbn [gets].
  destruct (decide (cs_conns cs = ∅)) as [He|He].
  { rewrite bool_decide_true by (by rewrite He). done. }
  rewrite bool_decide_false by (by intros Hs%map_size_empty_inv).
  destruct (ChooseBest (cs_conns cs)) as [[addr c]|]; [|done].
  unfold NewMetricsPostRequest. unfold runs. rewrite !bind_app.
  destruct (populate_always now (conn_GetClockOffset c) crs cs) as [content ->].
  cbn. unfold zoom. cbn.
  match goal with |- context [conn_Send ?f c] => specialize (Hret f c); destruct (conn_Send f c) as [[] c'|] eqn:E end;
    [|done].
  cbn. eexists _, c'. split_and!; [reflexivity|exact E|done|done].
Qed.

(** For one address, a connection is registered at most once and
    deregistered at most once, in that order, and never after a later
    connection has been registered: the messages to the coordinator are in
    strict order, whatever happens to the connections. *)
Theorem registrations_ordered es h :
  host_run es new_host = Some h → StronglySorted before (h_registrations h).
Proof.
  intros Hr. assert (host_inv new_host) as H0 by (split_and!; by constructor).
  by destruct (host_inv_run es new_host h H0 Hr) as (? & _).
Qed.
End properties.
