(* ===== verification/Process.v ===== *)
(** Component: the process (src/poller/entry.go, and the service of
    src/commands/serve.go), from its start to its end:
    loading the configuration, the goroutines of the endpoints with the
    coordinator of the stream, and the shutdown at an interrupt.  It puts the
    goroutine of an address of Stream together with the resolution of services
    of Outbound.  What happens in the process is a sequence of events; the
    environment decides their order. *)
From S2P Require Export Stream Outbound.

(** ** The goroutines of the endpoints

    A worker is the goroutine that [Connect] starts for a query or an address:
    it resolves, looks after the connections of an address, waits to send a
    message to the coordinator, [true] to register, or has called
    [wg.Done]. *)
Inductive worker :=
| Resolving (qry : string)
| Hosting (addr : string) (h : host)
| Posting (addr : string) (h : host) (reg : bool)
| Ended.

(** [main] is the goroutine of [Run]: it waits, has returned, or the process
    has been ended by the timer of the shutdown. *)
Inductive main_status := Running | Returned | ForcedOut.

Record process := {
  p_workers : list worker;
  p_queue : list (string * bool);
  p_coordinator : bool;
  p_canceled : bool;
  p_forcing : bool;
  p_main : main_status
}.

Definition registrationsChannelSize : nat := 1.

Definition put_workers (x : list worker) (s : process) : process :=
  {| p_workers := x; p_queue := p_queue s; p_coordinator := p_coordinator s;
     p_canceled := p_canceled s; p_forcing := p_forcing s; p_main := p_main s |}.
Definition put_queue (x : list (string * bool)) (s : process) : process :=
  {| p_workers := p_workers s; p_queue := x; p_coordinator := p_coordinator s;
     p_canceled := p_canceled s; p_forcing := p_forcing s; p_main := p_main s |}.
Definition stop_coordinator (s : process) : process :=
  {| p_workers := p_workers s; p_queue := p_queue s; p_coordinator := false;
     p_canceled := p_canceled s; p_forcing := p_forcing s; p_main := p_main s |}.
Definition interrupted (s : process) : process :=
  {| p_workers := p_workers s; p_queue := p_queue s; p_coordinator := p_coordinator s;
     p_canceled := true; p_forcing := true; p_main := p_main s |}.
(** [serviceCancel] cancels the outer context, without the timer. *)
Definition stopped (s : process) : process :=
  {| p_workers := p_workers s; p_queue := p_queue s; p_coordinator := p_coordinator s;
     p_canceled := true; p_forcing := p_forcing s; p_main := p_main s |}.
Definition put_main (x : main_status) (s : process) : process :=
  {| p_workers := p_workers s; p_queue := p_queue s; p_coordinator := p_coordinator s;
     p_canceled := p_canceled s; p_forcing := p_forcing s; p_main := x |}.

Inductive process_event :=
| Interrupt
| ServiceStop
| Resolve (i : nat)
| HostEvent (i : nat) (e : host_event)
| Deliver (i : nat)
| TakeRegistration
| CoordinatorDone
| StreamEnded
| ForceExit.
#[export] Instance host_event_eq_dec : EqDecision host_event.
Proof. solve_decision. Defined.
#[export] Instance process_event_eq_dec : EqDecision process_event.
Proof. solve_decision. Defined.
#[export] Instance main_status_eq_dec : EqDecision main_status.
Proof. solve_decision. Defined.

Definition is_ended (w : worker) : bool := match w with Ended => true | _ => false end.

(** The message of an event of the goroutine of an address. *)
Definition message (e : host_event) : option bool :=
  match e with
  | AuthenticatedClosed => Some true
  | ConnectionDone => Some false
  | _ => None
  end.

(** After an event: the goroutine has ended, has a message to send, or goes
    on. *)
Definition next_worker (addr : string) (e : host_event) (h : host) : worker :=
  match message e with
  | Some reg => Posting addr h reg
  | None => match h_phase h with Exited => Ended | _ => Hosting addr h end
  end.

Section process.
Context (LookupSRV : string → list net_SRV + error).

Definition start_worker (c : connector) : worker :=
  match c with
  | ConnectBySrv qry => Resolving qry
  | RunHostConnection addr => Hosting addr new_host
  end.

(** The stream of a configuration, connected. *)
Definition start_process (cfg : Config) : process :=
  {| p_workers := start_worker <$> stream_Connect (NewConnectionStream (C := unit) cfg);
     p_queue := []; p_coordinator := true; p_canceled := false; p_forcing := false;
     p_main := Running |}.

Definition resolve_worker (qry : string) : worker :=
  match connectBySrv LookupSRV qry with
  | Some addr => Hosting addr new_host
  | None => Ended
  end.

(** What can happen while [Run] waits.  [NewConnection], the factory of the
    stream, never gives nil. *)
Definition process_step (e : process_event) (s : process) : option process :=
  match p_main s with
  | Running =>
      match e with
      | Interrupt => Some (interrupted s)
      | ServiceStop => Some (stopped s)
      | Resolve i =>
          match p_workers s !! i with
          | Some (Resolving qry) => Some (put_workers (<[i := resolve_worker qry]> (p_workers s)) s)
          | _ => None
          end
      | HostEvent i e =>
          match p_workers s !! i with
          | Some (Hosting addr h) =>
              if bool_decide (e = FactoryNil) || (bool_decide (e = StreamDone) && negb (p_canceled s))
              then None
              else
                h' ← host_step e h;
                Some (put_workers (<[i := next_worker addr e h']> (p_workers s)) s)
          | _ => None
          end
      | Deliver i =>
          match p_workers s !! i with
          | Some (Posting addr h reg) =>
              if bool_decide (length (p_queue s) < registrationsChannelSize) then
                Some (put_queue (p_queue s ++ [(addr, reg)])
                       (put_workers (<[i := Hosting addr h]> (p_workers s)) s))
              else None
          | _ => None
          end
      | TakeRegistration =>
          match p_coordinator s, p_queue s with
          | true, _ :: queue => Some (put_queue queue s)
          | _, _ => None
          end
      | CoordinatorDone =>
          if p_coordinator s && p_canceled s then Some (stop_coordinator s) else None
      | StreamEnded => if forallb is_ended (p_workers s) then Some (put_main Returned s) else None
      | ForceExit => if p_forcing s then Some (put_main ForcedOut s) else None
      end
  | _ => None
  end.

Fixpoint process_run (es : list process_event) (s : process) : option process :=
  match es with
  | [] => Some s
  | e :: es' => s' ← process_step e s; process_run es' s'
  end.

(** [Run] up to its loop: the process that waits, or the reason it dies of. *)
Definition Run (ParseRequestURI : string → URL + error) (WithMessage : error → string → error)
    (getenv : string → string) (Version guid : string) (file : list string + error)
    : process + error :=
  let cfg := NewConfig getenv Version guid (IsUsingStaging getenv)
               [{| feat_Name := "poller"; feat_Disabled := false |}] in
  match LoadFromFile ParseRequestURI WithMessage file cfg with
  | inr err => inr err
  | inl cfg =>
      match Validate cfg with
      | Some err => inr err
      | None => inl (start_process cfg)
      end
  end.
End process.

(** ** Invariant *)

Lemma Forall2_insert_r {A B} (P : A → B → Prop) l k i y y' :
  Forall2 P l k → k !! i = Some y → (∀ x, P x y → P x y') → Forall2 P l (<[i := y']> k).
Proof.
  intros H. revert i. induction H as [|x z l k Hx H IH]; intros [|i] Hi Hy; cbn in *; try done.
  - injection Hi as ->. constructor; [by apply Hy|done].
  - constructor; [done|by eapply IH].
Qed.

(** A worker that goes on is not at its exit. *)
Definition worker_ok (w : worker) : Prop :=
  match w with
  | Hosting _ h | Posting _ h _ => h_phase h ≠ Exited
  | _ => True
  end.

Record process_inv (s : process) : Prop := {
  inv_queue : length (p_queue s) ≤ 1;
  inv_workers : Forall worker_ok (p_workers s);
  inv_coordinator : p_coordinator s = false → p_canceled s = true
}.

Section runs.
Context (LookupSRV : string → list net_SRV + error).
Abbreviation step := (process_step LookupSRV).
Abbreviation run := (process_run LookupSRV).

Lemma next_worker_ok addr e h : worker_ok (next_worker addr e h) ∨ h_phase h = Exited ∧ message e ≠ None.
Proof.
  unfold next_worker. destruct (message e), (h_phase h) eqn:E; cbn; rewrite ?E; auto.
Qed.

Lemma host_step_message e h h' :
  host_step e h = Some h' → message e ≠ None → h_phase h' ≠ Exited.
Proof.
  unfold host_step. intros E Hm.
  destruct (h_phase h) as [|[]| |], e; try done; by injection E as <-.
Qed.

Lemma resolve_worker_ok qry : worker_ok (resolve_worker LookupSRV qry).
Proof. unfold resolve_worker. by destruct (connectBySrv _ _). Qed.

Lemma start_inv cfg : process_inv (start_process cfg).
Proof.
  split; cbn; [lia| |done]. apply Forall_fmap, Forall_true. by intros [].
Qed.

Lemma process_step_inv e s s' : process_inv s → step e s = Some s' → process_inv s'.
Proof.
  intros [Hq Hw Hc] E. unfold process_step in E. destruct (p_main s); [|done|done].
  destruct e as [| |i|i e|i| | | |].
  - injection E as <-. by split.
  - injection E as <-. by split.
  - destruct (p_workers s !! i) as [[qry| | |]|]; try done. injection E as <-.
    split; [done| |done]. apply Forall_insert; [done|apply resolve_worker_ok].
  - destruct (p_workers s !! i) as [[|addr h| |]|]; try done.
    destruct (_ || _); [done|]. destruct (host_step e h) as [h'|] eqn:Eh; [|done]. injection E as <-.
    split; [done| |done]. apply Forall_insert; [done|].
    destruct (next_worker_ok addr e h') as [?|[Hx Hm]]; [done|].
    by eapply host_step_message in Hm.
  - destruct (p_workers s !! i) as [[| |addr h reg|]|] eqn:Ei; try done.
    case_bool_decide as Hlt; [|done]. injection E as <-. unfold registrationsChannelSize in Hlt.
    split; cbn; [rewrite length_app; cbn; lia| |done].
    rewrite Forall_lookup in Hw. apply Forall_insert; [by apply Forall_lookup|apply (Hw _ _ Ei)].
  - destruct (p_coordinator s) eqn:Ec; [|done]. destruct (p_queue s) as [|m q] eqn:Eq; [done|].
    injection E as <-. split; cbn in *; [lia|done|congruence].
  - destruct (p_coordinator s), (p_canceled s) eqn:Ec; try done. injection E as <-.
    split; cbn; (done || congruence).
  - destruct (forallb _ _); [|done]. injection E as <-. by split.
  - destruct (p_forcing s); [|done]. injection E as <-. by split.
Qed.

Lemma run_inv es s s' : process_inv s → run es s = Some s' → process_inv s'.
Proof.
  revert s. induction es as [|e es IH]; intros s Hi; cbn; [by intros [= <-]|].
  destruct (step e s) as [s1|] eqn:E; cbn; [|done]. intros Hr. eapply IH; [|exact Hr].
  by eapply process_step_inv.
Qed.

Lemma run_app es es' s : run (es ++ es') s = (s' ← run es s; run es' s').
Proof.
  revert s. induction es as [|e es IH]; intros s; cbn; [done|].
  destruct (step e s); cbn; [apply IH|done].
Qed.

Lemma run_one e s : run [e] s = step e s.
Proof. cbn. by destruct (step e s). Qed.

(** ** The shutdown *)

(** Sends that wait, and messages that nobody has taken. *)
Definition is_posting (w : worker) : bool := match w with Posting _ _ _ => true | _ => false end.
Definition count_of (p : worker → bool) (ws : list worker) : nat :=
  length (filter (λ w, p w = true) ws).
Arguments count_of : simpl never.
Definition posting (s : process) : nat := count_of is_posting (p_workers s).

(** All the messages can still be sent. *)
Definition drains (s : process) : Prop :=
  p_coordinator s = true ∨ posting s + length (p_queue s) ≤ registrationsChannelSize.

Lemma count_insert (p : worker → bool) ws i w w' :
  ws !! i = Some w →
  count_of p (<[i := w']> ws) + (if p w then 1 else 0) = count_of p ws + (if p w' then 1 else 0).
Proof.
  intros Hi. unfold count_of. rewrite (insert_take_drop _ _ _ (lookup_lt_Some _ _ _ Hi)).
  pose proof (f_equal (λ l, length (filter (λ w, p w = true) l)) (take_drop_middle ws i w Hi)) as E.
  cbv beta in E. rewrite filter_app, filter_cons, length_app in E.
  rewrite filter_app, filter_cons, length_app.
  destruct (p w), (p w'); repeat case_decide; try done; cbn in *; lia.
Qed.

Lemma ended_not_posting ws :
  forallb is_ended ws = true → count_of is_posting ws = 0.
Proof.
  unfold count_of. induction ws as [|w ws IH]; [done|]. cbn [forallb]. intros [Hw Hws]%andb_true_iff.
  rewrite filter_cons. rewrite decide_False by (by destruct w). by apply IH.
Qed.

(** Once the coordinator has gone with too many messages, it stays so. *)
Lemma stuck_step e s s' :
  process_inv s → p_coordinator s = false → 1 < posting s + length (p_queue s) →
  step e s = Some s' →
  p_coordinator s' = false ∧ 1 < posting s' + length (p_queue s') ∧ (p_main s' = Returned → p_main s = Returned).
Proof.
  intros Hi Hc Hp E. unfold process_step in E. destruct (p_main s) eqn:Em; [|done|done].
  unfold posting in *. destruct e as [| |i|i e|i| | | |].
  - injection E as <-. cbn. by rewrite Em.
  - injection E as <-. cbn. by rewrite Em.
  - destruct (p_workers s !! i) as [[qry| | |]|] eqn:Ei; try done. injection E as <-.
    pose proof (count_insert is_posting _ _ _ (resolve_worker LookupSRV qry) Ei) as Hw. cbn in Hw |- *.
    rewrite Em. split_and!; [done|lia|done].
  - destruct (p_workers s !! i) as [[|addr h| |]|] eqn:Ei; try done.
    destruct (_ || _); [done|]. destruct (host_step e h) as [h'|]; [|done]. injection E as <-.
    pose proof (count_insert is_posting _ _ _ (next_worker addr e h') Ei) as Hw. cbn in Hw |- *.
    rewrite Em. split_and!; [done|lia|done].
  - destruct (p_workers s !! i) as [[| |addr h reg|]|] eqn:Ei; try done.
    case_bool_decide; [|done]. injection E as <-.
    pose proof (count_insert is_posting _ _ _ (Hosting addr h) Ei) as Hw. cbn in Hw |- *.
    rewrite Em, length_app. cbn. split_and!; [done|lia|done].
  - by rewrite Hc in E.
  - by rewrite Hc in E.
  - destruct (forallb _ _) eqn:Ee; [|done]. apply ended_not_posting in Ee. rewrite Ee in Hp.
    destruct Hi. cbn in Hp. lia.
  - destruct (p_forcing s); [|done]. injection E as <-. by split_and!.
Qed.

Lemma stuck_run es s s' :
  process_inv s → p_coordinator s = false → 1 < posting s + length (p_queue s) →
  p_main s = Running → run es s = Some s' → p_main s' ≠ Returned.
Proof.
  intros Hi Hc Hp Hm. assert (p_main s ≠ Returned) as Hn by congruence. clear Hm.
  revert s Hi Hc Hp Hn. induction es as [|e es IH]; intros s Hi Hc Hp Hn; cbn; [by intros [= <-]|].
  destruct (step e s) as [s1|] eqn:E; cbn; [|done].
  destruct (stuck_step e s s1 Hi Hc Hp E) as (Hc1 & Hp1 & Hm1).
  apply IH; [by eapply process_step_inv|done..|tauto].
Qed.

(** Without the timer of the shutdown. *)
Definition reaches (s s' : process) : Prop := ∃ es, run es s = Some s' ∧ ForceExit ∉ es.

Lemma reaches_refl s : reaches s s.
Proof. exists []. split; [done|]. by apply not_elem_of_nil. Qed.
Lemma reaches_step e s s1 s' : e ≠ ForceExit → step e s = Some s1 → reaches s1 s' → reaches s s'.
Proof.
  intros He E (es & Hr & Hf). exists (e :: es). cbn. rewrite E. split; [done|].
  by apply not_elem_of_cons.
Qed.
Lemma reaches_trans s s1 s2 : reaches s s1 → reaches s1 s2 → reaches s s2.
Proof.
  intros (es & E & Hf) (es' & E' & Hf'). exists (es ++ es'). rewrite run_app, E. split; [done|].
  by rewrite not_elem_of_app.
Qed.

(** A shutdown that can still go through. *)
Record closing (s : process) : Prop := {
  closing_inv : process_inv s;
  closing_main : p_main s = Running;
  closing_canceled : p_canceled s = true;
  closing_drains : drains s
}.

(** The shutdown goes on to a state where the i-th worker has become [w]. *)
Definition brings (i : nat) (w : worker) (s : process) : Prop :=
  ∃ s', reaches s s' ∧ closing s' ∧ p_workers s' = <[i := w]> (p_workers s).

Lemma closing_worker i w w' s :
  closing s → p_workers s !! i = Some w → is_posting w = false → is_posting w' = false →
  worker_ok w' → closing (put_workers (<[i := w']> (p_workers s)) s).
Proof.
  intros [[Hq Hw Hc] Hm Hd Hdr] Hi Hp Hp' Hok. split; [|done|done|].
  - split; [done|by apply Forall_insert|done].
  - pose proof (count_insert is_posting _ _ _ w' Hi) as Hn. rewrite Hp, Hp' in Hn.
    destruct Hdr as [?|Hdr]; [by left|right]. unfold posting in *. cbn. lia.
Qed.

Lemma brings_step e i w w' s s1 :
  e ≠ ForceExit → step e s = Some s1 → p_workers s1 = <[i := w]> (p_workers s) →
  brings i w' s1 → brings i w' s.
Proof.
  intros He E Hw (s' & Hr & Hc & Hw'). exists s'. split; [by eapply reaches_step|].
  split; [done|]. by rewrite Hw', Hw, list_insert_insert_eq.
Qed.

Lemma brings_done i w s :
  closing (put_workers (<[i := w]> (p_workers s)) s) → p_workers s !! i = Some w → brings i w s.
Proof.
  intros Hc Hi. exists s. split; [apply reaches_refl|].
  assert (<[i:=w]> (p_workers s) = p_workers s) as E by (by apply list_insert_id).
  rewrite E in Hc |- *. by destruct s.
Qed.

Lemma host_moves i e addr h h' s :
  closing s → p_workers s !! i = Some (Hosting addr h) → e ≠ FactoryNil → message e = None →
  host_step e h = Some h' →
  let w := next_worker addr e h' in
  let s1 := put_workers (<[i := w]> (p_workers s)) s in
  step (HostEvent i e) s = Some s1 ∧ closing s1 ∧ p_workers s1 !! i = Some w.
Proof.
  intros Hc Hi He Hmsg Eh. cbv zeta. split_and!.
  - unfold process_step. rewrite (closing_main s Hc), Hi, (closing_canceled s Hc), andb_false_r.
    rewrite bool_decide_false by done. cbn [orb]. by rewrite Eh.
  - eapply closing_worker; [done|done|done| |].
    + unfold next_worker. rewrite Hmsg. by destruct (h_phase h').
    + destruct (next_worker_ok addr e h') as [?|[_ Hn]]; [done|congruence].
  - cbn. apply list_lookup_insert_eq. by eapply lookup_lt_Some.
Qed.

Lemma brings_event i e addr h h' w s :
  closing s → p_workers s !! i = Some (Hosting addr h) → e ≠ FactoryNil → message e = None →
  host_step e h = Some h' →
  (∀ s1, closing s1 → p_workers s1 !! i = Some (next_worker addr e h') → brings i w s1) → brings i w s.
Proof.
  intros Hc Hi He Hmsg Eh Hnext.
  destruct (host_moves i e addr h h' s Hc Hi He Hmsg Eh) as (E & Hc1 & Hi1).
  eapply brings_step; [|exact E|done|by apply Hnext]. done.
Qed.

Lemma brings_ended i s : closing s → p_workers s !! i = Some Ended → brings i Ended s.
Proof. intros Hc Hi. apply brings_done; [|done]. by eapply closing_worker. Qed.

Lemma hosting_ends i addr h s :
  closing s → p_workers s !! i = Some (Hosting addr h) → brings i Ended s.
Proof.
  assert (∀ h s, closing s → p_workers s !! i = Some (Hosting addr h) →
    host_step StreamDone h = Some (enter Exited h) ∨
    host_step StreamDone h = Some (enter Exited (close_conn h)) → brings i Ended s) as Hdone.
  { intros h1 s1 Hc Hi [Eh|Eh]; (eapply (brings_event i StreamDone); [done|exact Hi|done|done|exact Eh|];
      by intros; apply brings_ended). }
  intros Hc Hi. destruct (h_phase h) eqn:Ep.
  - eapply (brings_event i ConnectError); [done|exact Hi|done|done| |].
    { unfold host_step. by rewrite Ep. }
    intros s1 Hc1 Hi1. cbn in Hi1. eapply Hdone; [done|exact Hi1|by left].
  - eapply Hdone; [done|exact Hi|]. right. unfold host_step. rewrite Ep. by destruct pendingAuth.
  - eapply Hdone; [done|exact Hi|]. left. unfold host_step. by rewrite Ep.
  - destruct Hc as [[_ Hw _] _ _ _]. rewrite Forall_lookup in Hw. by specialize (Hw _ _ Hi).
Qed.

Lemma brings_quiet e i w s s1 :
  e ≠ ForceExit → step e s = Some s1 → p_workers s1 = p_workers s → brings i w s1 → brings i w s.
Proof.
  intros He E Hw (s' & Hr & Hc & Hw'). exists s'. split; [by eapply reaches_step|].
  split; [done|]. by rewrite Hw', Hw.
Qed.

(** A send goes through when the channel is empty. *)
Lemma posting_delivers i addr h reg s :
  closing s → p_workers s !! i = Some (Posting addr h reg) → p_queue s = [] → brings i Ended s.
Proof.
  intros [[Hq Hw Hco] Hm Hd Hdr] Hi Eq.
  pose proof (count_insert is_posting _ _ _ (Hosting addr h) Hi) as Hn. cbn in Hn.
  eapply (brings_step (Deliver i) i (Hosting addr h));
    [done|unfold process_step; by rewrite Hm, Hi, Eq|reflexivity|].
  eapply hosting_ends.
  - split; [|done|done|].
    + split; cbn; [lia| |done]. apply Forall_insert; [done|].
      rewrite Forall_lookup in Hw. exact (Hw _ _ Hi).
    + destruct Hdr as [?|Hdr]; [by left|right]. unfold posting in *. cbn.
      rewrite Eq in Hdr. cbn in Hdr. lia.
  - cbn. apply list_lookup_insert_eq. by eapply lookup_lt_Some.
Qed.

Lemma worker_ends i w s : closing s → p_workers s !! i = Some w → brings i Ended s.
Proof.
  intros Hc Hi. destruct w as [qry|addr h|addr h reg|].
  - pose proof (closing_worker i _ (resolve_worker LookupSRV qry) s Hc Hi) as Hc1.
    eapply (brings_step (Resolve i) i (resolve_worker LookupSRV qry)); 
      [done|unfold process_step; by rewrite (closing_main s Hc), Hi|reflexivity|].
    assert (<[i := resolve_worker LookupSRV qry]> (p_workers s) !! i
      = Some (resolve_worker LookupSRV qry)) as Hi1
      by (apply list_lookup_insert_eq; by eapply lookup_lt_Some).
    assert (closing (put_workers (<[i := resolve_worker LookupSRV qry]> (p_workers s)) s)) as Hc2.
    { apply Hc1; [done| |apply resolve_worker_ok]. unfold resolve_worker. by destruct (connectBySrv _ _). }
    revert Hi1 Hc2. unfold resolve_worker.
    destruct (connectBySrv LookupSRV qry); intros Hi1 Hc2; [by eapply hosting_ends|by apply brings_ended].
  - by eapply hosting_ends.
  - destruct (p_queue s) as [|m q] eqn:Eq; [by eapply posting_delivers|].
    destruct Hc as [[Hq Hw Hco] Hm Hd Hdr]. rewrite Eq in Hq. cbn in Hq.
    destruct q; [|cbn in Hq; lia].
    assert (p_coordinator s = true) as Hcoord.
    { destruct Hdr as [?|Hdr]; [done|]. rewrite Eq in Hdr. unfold posting in Hdr.
      pose proof (count_insert is_posting _ _ _ Ended Hi) as Hn. unfold registrationsChannelSize in Hdr.
      cbn in Hn, Hdr. lia. }
    eapply (brings_quiet TakeRegistration); 
      [done|unfold process_step; by rewrite Hm, Hcoord, Eq|reflexivity|].
    eapply posting_delivers; [|exact Hi|done].
    split; [|done|done|by left]. split; cbn; [lia|done|done].
  - by apply brings_ended.
Qed.

Lemma workers_end k s :
  closing s → k ≤ length (p_workers s) →
  ∃ s', reaches s s' ∧ closing s' ∧ length (p_workers s') = length (p_workers s)
    ∧ ∀ i, i < k → p_workers s' !! i = Some Ended.
Proof.
  intros Hc. induction k as [|k IH]; intros Hk.
  { exists s. split; [apply reaches_refl|]. split_and!; [done|done|lia]. }
  destruct IH as (s1 & Hr1 & Hc1 & Hl1 & He1); [lia|].
  destruct (lookup_lt_is_Some_2 (p_workers s1) k) as [w Hw]; [lia|].
  destruct (worker_ends k w s1 Hc1 Hw) as (s2 & Hr2 & Hc2 & Hw2).
  exists s2. split; [by eapply reaches_trans|]. split; [done|].
  rewrite Hw2, length_insert. split; [done|]. intros i Hi.
  destruct (decide (i = k)) as [->|Hne].
  - apply list_lookup_insert_eq. lia.
  - rewrite list_lookup_insert_ne by done. apply He1. lia.
Qed.

Lemma closing_returns s : closing s → ∃ s', reaches s s' ∧ p_main s' = Returned.
Proof.
  intros Hc. destruct (workers_end (length (p_workers s)) s Hc) as (s1 & Hr & Hc1 & Hl & He); [done|].
  exists (put_main Returned s1). split; [|done]. eapply reaches_trans; [exact Hr|].
  eapply (reaches_step StreamEnded); [done| |apply reaches_refl].
  unfold process_step. rewrite (closing_main s1 Hc1).
  assert (forallb is_ended (p_workers s1) = true) as ->; [|done].
  apply forallb_forall. intros w Hw%list_elem_of_In. apply list_elem_of_lookup in Hw as [i Hi].
  rewrite He in Hi; [by injection Hi as <-|]. rewrite <- Hl. by eapply lookup_lt_Some.
Qed.

(** C19: the shutdown.  From any state the process comes to after it has been
    stopped, the timer can end it if the stop was an interrupt, which arms it;
    and [Run] can return exactly when the
    coordinator is still there or the messages that wait, with those that are
    sent and not taken, fit in the channel: otherwise a goroutine waits for ever
    to send to a coordinator that has gone, and [Run] never returns. *)
Theorem shutdown_iff cfg es s :
  run es (start_process cfg) = Some s → p_main s = Running → p_canceled s = true →
  (is_Some (step ForceExit s) ↔ p_forcing s = true)
  ∧ ((∃ s', reaches s s' ∧ p_main s' = Returned) ↔ drains s).
Proof.
  intros Hr Hm Hc. assert (process_inv s) as Hi by (eapply run_inv; [apply start_inv|exact Hr]).
  split.
  { unfold process_step. rewrite Hm. destruct (p_forcing s); [by split; [|eexists]|].
    by split; [intros [? ?]|]. }
  split; [|intros Hd; by apply closing_returns].
  intros (s' & (es' & Hr' & _) & Hret). destruct (p_coordinator s) eqn:Eco; [by left|right].
  apply Nat.nlt_ge. intros Hlt. by eapply (stuck_run es' s s').
Qed.

(** ** The end without an interrupt *)

(** Events that nobody outside asks for. *)
Definition calm (e : process_event) : bool :=
  match e with Interrupt | ServiceStop => false | _ => true end.
Definition calm_run (es : list process_event) : Prop := Forall (λ e, calm e = true) es.

(** A connector that does not come to an address. *)
Definition unresolvable (c : connector) : Prop :=
  match c with
  | ConnectBySrv qry => connectBySrv LookupSRV qry = None
  | RunHostConnection _ => False
  end.

(** What has become of a connector while nothing was interrupted. *)
Definition follows (c : connector) (w : worker) : Prop :=
  match w with
  | Resolving qry => c = ConnectBySrv qry
  | Ended => unresolvable c
  | _ => True
  end.

Record undisturbed (connectors : list connector) (s : process) : Prop := {
  und_canceled : p_canceled s = false;
  und_forcing : p_forcing s = false;
  und_workers : Forall2 follows connectors (p_workers s);
  und_main : p_main s = Returned → Forall unresolvable connectors
}.

Lemma start_undisturbed cfg :
  undisturbed (stream_Connect (NewConnectionStream (C := unit) cfg)) (start_process cfg).
Proof.
  split; [done|done| |done]. cbn [p_workers start_process].
  apply Forall2_fmap_r, Forall_Forall2_diag, Forall_true. by intros [].
Qed.

Lemma host_step_stays e h h' :
  host_step e h = Some h' → e ≠ FactoryNil → e ≠ StreamDone → h_phase h' ≠ Exited.
Proof.
  unfold host_step. intros E H1 H2. destruct (h_phase h) as [|[]| |], e; try done; by injection E as <-.
Qed.

Lemma undisturbed_step cs e s s' :
  undisturbed cs s → calm e = true → step e s = Some s' → undisturbed cs s'.
Proof.
  intros [Hc Hf Hw Hm] He E. unfold process_step in E. destruct (p_main s) eqn:Em; [|done|done].
  destruct e as [| |i|i e|i| | | |]; [done|done|..].
  - destruct (p_workers s !! i) as [[qry| | |]|] eqn:Ei; try done. injection E as <-.
    split; [done|done| |cbn; congruence]. eapply Forall2_insert_r; [done|exact Ei|].
    intros c Hcw. cbn in Hcw. subst c. unfold resolve_worker.
    by destruct (connectBySrv LookupSRV qry) eqn:Er.
  - destruct (p_workers s !! i) as [[|addr h| |]|] eqn:Ei; try done. rewrite Hc, andb_true_r in E.
    destruct (bool_decide (e = FactoryNil)) eqn:Ef; [done|]. apply bool_decide_eq_false in Ef.
    destruct (bool_decide (e = StreamDone)) eqn:Es; [done|]. apply bool_decide_eq_false in Es.
    cbn [orb] in E. destruct (host_step e h) as [h'|] eqn:Eh; [|done]. injection E as <-.
    split; [done|done| |cbn; congruence]. eapply Forall2_insert_r; [done|exact Ei|].
    intros c _. pose proof (host_step_stays e h h' Eh Ef Es). unfold next_worker.
    by destruct (message e), (h_phase h').
  - destruct (p_workers s !! i) as [[| |addr h reg|]|] eqn:Ei; try done. case_bool_decide; [|done].
    injection E as <-. split; [done|done| |cbn; congruence]. by eapply Forall2_insert_r.
  - destruct (p_coordinator s); [|done]. destruct (p_queue s); [done|]. injection E as <-.
    split; [done|done|done|cbn; congruence].
  - by rewrite Hc, andb_false_r in E.
  - destruct (forallb _ _) eqn:Ea; [|done]. injection E as <-. split; [done|done|done|intros _].
    rewrite forallb_forall in Ea. eapply Forall2_Forall_l; [exact Hw|].
    apply Forall_forall. intros w Hin%list_elem_of_In c Hcw. specialize (Ea w Hin). by destruct w.
  - by rewrite Hf in E.
Qed.

(** *** When nothing resolves *)
Definition is_resolving (w : worker) : bool := match w with Resolving _ => true | _ => false end.

(** The events left before [Run] returns. *)
Definition events_left (s : process) : nat :=
  count_of is_resolving (p_workers s) + (if decide (p_main s = Running) then 1 else 0).

Definition stalled (w : worker) : Prop :=
  match w with
  | Resolving qry => connectBySrv LookupSRV qry = None
  | Ended => True
  | _ => False
  end.

Record idle (s : process) : Prop := {
  idle_canceled : p_canceled s = false;
  idle_forcing : p_forcing s = false;
  idle_queue : p_queue s = [];
  idle_workers : Forall stalled (p_workers s)
}.

Lemma start_idle cfg :
  Forall unresolvable (stream_Connect (NewConnectionStream (C := unit) cfg)) → idle (start_process cfg).
Proof.
  intros Hu. split; [done..|]. cbn [p_workers start_process]. apply Forall_fmap.
  eapply Forall_impl; [exact Hu|]. by intros [].
Qed.

Lemma idle_step e s s' :
  idle s → calm e = true → step e s = Some s' →
  idle s' ∧ S (events_left s') = events_left s ∧ p_main s' ≠ ForcedOut.
Proof.
  intros [Hc Hf Hq Hw] He E. unfold process_step in E. destruct (p_main s) eqn:Em; [|done|done].
  unfold events_left. rewrite Em.
  destruct e as [| |i|i e|i| | | |]; [done|done|..].
  - destruct (p_workers s !! i) as [[qry| | |]|] eqn:Ei; try done. injection E as <-.
    pose proof (proj1 (Forall_lookup _ _) Hw i _ Ei) as Hs. cbn in Hs.
    unfold resolve_worker. rewrite Hs. split; [|split; [|cbn; congruence]].
    + split; [done..|]. by apply Forall_insert.
    + pose proof (count_insert is_resolving _ _ _ Ended Ei) as Hn. cbn in Hn |- *.
      rewrite Em. cbn. lia.
  - destruct (p_workers s !! i) as [[|addr h| |]|] eqn:Ei; try done.
    by pose proof (proj1 (Forall_lookup _ _) Hw i _ Ei).
  - destruct (p_workers s !! i) as [[| |addr h reg|]|] eqn:Ei; try done.
    by pose proof (proj1 (Forall_lookup _ _) Hw i _ Ei).
  - rewrite Hq in E. by destruct (p_coordinator s).
  - by rewrite Hc, andb_false_r in E.
  - destruct (forallb _ _) eqn:Ea; [|done]. injection E as <-. split; [by split|]. split; [|done]. cbn [p_workers p_main put_main].
    rewrite decide_False, decide_True by done. lia.
  - by rewrite Hf in E.
Qed.

Lemma idle_goes_on s :
  idle s → p_main s = Running → ∃ e s', calm e = true ∧ step e s = Some s'.
Proof.
  intros [_ _ _ Hw] Hm. destruct (forallb is_ended (p_workers s)) eqn:Ea.
  - exists StreamEnded. eexists. split; [done|]. unfold process_step. by rewrite Hm, Ea.
  - assert (∃ i qry, p_workers s !! i = Some (Resolving qry)) as (i & qry & Hi).
    { clear Hm. induction (p_workers s) as [|w ws IH]; [done|]. apply Forall_cons in Hw as [Hw Hws].
      cbn in Ea. destruct w as [qry| | |]; try done; [by exists 0, qry|].
      destruct (IH Hws Ea) as (i & qry & Hi). by exists (S i), qry. }
    exists (Resolve i). eexists. split; [done|]. unfold process_step. by rewrite Hm, Hi.
Qed.

Lemma idle_run es s s' :
  idle s → calm_run es → run es s = Some s' → idle s' ∧ length es + events_left s' = events_left s.
Proof.
  revert s. induction es as [|e es IH]; intros s Hi Hn; cbn; [by intros [= <-]|].
  apply Forall_cons in Hn as [He Hn].
  destruct (step e s) as [s1|] eqn:E; cbn; [|done].
  destruct (idle_step e s s1) as (Hi1 & Hl & _); [done|done|done|]. intros Hr.
  destruct (IH s1 Hi1 Hn Hr) as [? ?]. split; [done|lia].
Qed.

Lemma idle_returns s :
  idle s → p_main s = Running → ∃ es s', run es s = Some s' ∧ calm_run es ∧ p_main s' = Returned.
Proof.
  remember (events_left s) as n eqn:En. revert s En.
  induction n as [|n IH]; intros s En Hi Hm; (destruct (idle_goes_on s Hi Hm) as (e & s1 & He & E);
    destruct (idle_step e s s1 Hi He E) as (Hi1 & Hl & Hnf)); [lia|].
  destruct (decide (p_main s1 = Running)) as [Hm1|Hm1].
  - destruct (IH s1) as (es & s' & Hr & Hn & Hret); [lia|done|done|].
    exists (e :: es), s'. cbn. rewrite E. split_and!; [done| |done]. by constructor.
  - exists [e], s1. rewrite run_one. split_and!; [done| |].
    + by repeat constructor.
    + by destruct (p_main s1).
Qed.

Lemma undisturbed_run cs es s s' :
  undisturbed cs s → calm_run es → run es s = Some s' → undisturbed cs s'.
Proof.
  revert s. induction es as [|e es IH]; intros s Hu Hn; cbn; [by intros [= <-]|].
  apply Forall_cons in Hn as [He Hn].
  destruct (step e s) as [s1|] eqn:E; cbn; [|done]. intros Hr.
  eapply IH; [|done|exact Hr]. by eapply undisturbed_step.
Qed.

(** C20: the end without an interrupt.  [Run] can return without an interrupt
    exactly when none of its queries gives an address (and none is configured);
    then it always does, after one event for each query and its own return,
    instead of resolving again. *)
Theorem ends_by_itself_iff cfg :
  let connectors := stream_Connect (NewConnectionStream (C := unit) cfg) in
  ((∃ es s, run es (start_process cfg) = Some s ∧ calm_run es ∧ p_main s = Returned)
     ↔ Forall unresolvable connectors)
  ∧ (Forall unresolvable connectors → ∀ es s, run es (start_process cfg) = Some s → calm_run es →
       length es ≤ S (length connectors)
       ∧ (p_main s = Running → ∃ e s', calm e = true ∧ step e s = Some s')).
Proof.
  cbv zeta. set (cs := stream_Connect _). split; [split|].
  - intros (es & s & Hr & Hn & Hret). eapply und_main; [|exact Hret].
    eapply undisturbed_run; [apply start_undisturbed|exact Hn|exact Hr].
  - intros Hu. apply idle_returns; [by apply start_idle|done].
  - intros Hu es s Hr Hn. destruct (idle_run es _ s (start_idle cfg Hu) Hn Hr) as [Hi Hl].
    split; [|by apply idle_goes_on]. unfold events_left in Hl. cbn [p_main start_process] in Hl.
    rewrite (decide_True (P := Running = Running)) in Hl by done.
    assert (count_of is_resolving (p_workers (start_process cfg)) ≤ length cs); [|lia].
    unfold count_of, cs. rewrite <- (length_fmap start_worker). apply length_filter.
Qed.
End runs.

(** ** A shutdown that does not go through *)
Definition two_addresses : Config :=
  set_UseSrv false (set_Addresses ["a:1"; "b:2"] (NewConfig (λ _, "") "1" "guid" false [])).
Definition both_register : list process_event :=
  [HostEvent 0 ConnectOk; HostEvent 1 ConnectOk; HostEvent 0 AuthenticatedClosed; Deliver 0;
   HostEvent 1 AuthenticatedClosed; Interrupt; CoordinatorDone].

Lemma shutdown_iff_witness :
  ∃ s, process_run (λ _, inl []) both_register (start_process two_addresses) = Some s
    ∧ is_Some (process_step (λ _, inl []) ForceExit s)
    ∧ ¬ ∃ s', reaches (λ _, inl []) s s' ∧ p_main s' = Returned.
Proof.
  eexists. split; [vm_compute; reflexivity|].
  destruct (shutdown_iff (λ _, inl []) two_addresses both_register _
    ltac:(vm_compute; reflexivity) ltac:(reflexivity) ltac:(reflexivity)) as [Hforce Hiff].
  split; [by apply Hforce|]. intros Hr. apply Hiff in Hr as [Hco|Hp]; [discriminate|].
  vm_compute in Hp. lia.
Defined.
