(* ===== verification/Agent.v ===== *)
(** Component: an agent of the endpoint (src/endpoint/agent.go), the far end of
    a session: it reads the checks of a poller from its directory, prepares
    them on the poller in blocks, and commits what the poller has prepared. *)
From S2P Require Export Check.

(** ** State *)
Record pendingPrepare := { pp_version : Z; pp_checkIds : list string; committing : bool; pp_sent : Z }.

(** [unclassified] may be nil, which is not the empty slice here. *)
Record prepareBundle := {
  checksToStart : list Check;
  checksToRestart : list Check;
  unclassified : option (list Check)
}.

(** [a_responder] holds what has been given to [WriteJSON]; [a_contexts] are the
    contexts of the agent and of its checks; the queues are the values whose
    senders wait on the channels; [a_watching] are the directories that have a
    watcher.  [committedChecks] is a nil interface at first.  The pointers of
    [pendingPrepares] are each held under one identifier, so the map holds
    their targets. *)
Record agent := {
  a_responder : list json; a_sourceId : string; a_errors : list error; a_ctx : Context; a_contexts
  : Contexts; observedToken : string; a_id : string; a_name : string; a_processVersion : string;
  a_bundleVersion : string; a_features : list Feature; a_zones : list string; prepareBlockSize :
  Z; a_preparations : list prepareBundle; a_responses : list FrameMsg; a_watching : list (string *
  string); checkId : Z; outMsgId : Z; checksVersion : Z; committedChecks : option (gset string);
  pendingPrepares : gmap Z pendingPrepare
}.

Definition put_a_responder (x : list json) (s : agent) : agent :=
  {| a_responder := x; a_sourceId := a_sourceId s; a_errors := a_errors s; a_ctx := a_ctx s;
  a_contexts := a_contexts s; observedToken := observedToken s; a_id := a_id s; a_name := a_name
  s; a_processVersion := a_processVersion s; a_bundleVersion := a_bundleVersion s; a_features :=
  a_features s; a_zones := a_zones s; prepareBlockSize := prepareBlockSize s; a_preparations :=
  a_preparations s; a_responses := a_responses s; a_watching := a_watching s; checkId := checkId
  s; outMsgId := outMsgId s; checksVersion := checksVersion s; committedChecks := committedChecks
  s; pendingPrepares := pendingPrepares s |}.
Definition put_a_errors (x : list error) (s : agent) : agent :=
  {| a_responder := a_responder s; a_sourceId := a_sourceId s; a_errors := x; a_ctx := a_ctx s;
  a_contexts := a_contexts s; observedToken := observedToken s; a_id := a_id s; a_name := a_name
  s; a_processVersion := a_processVersion s; a_bundleVersion := a_bundleVersion s; a_features :=
  a_features s; a_zones := a_zones s; prepareBlockSize := prepareBlockSize s; a_preparations :=
  a_preparations s; a_responses := a_responses s; a_watching := a_watching s; checkId := checkId
  s; outMsgId := outMsgId s; checksVersion := checksVersion s; committedChecks := committedChecks
  s; pendingPrepares := pendingPrepares s |}.
Definition put_a_contexts (x : Contexts) (s : agent) : agent :=
  {| a_responder := a_responder s; a_sourceId := a_sourceId s; a_errors := a_errors s; a_ctx :=
  a_ctx s; a_contexts := x; observedToken := observedToken s; a_id := a_id s; a_name := a_name s;
  a_processVersion := a_processVersion s; a_bundleVersion := a_bundleVersion s; a_features :=
  a_features s; a_zones := a_zones s; prepareBlockSize := prepareBlockSize s; a_preparations :=
  a_preparations s; a_responses := a_responses s; a_watching := a_watching s; checkId := checkId
  s; outMsgId := outMsgId s; checksVersion := checksVersion s; committedChecks := committedChecks
  s; pendingPrepares := pendingPrepares s |}.
Definition put_a_preparations (x : list prepareBundle) (s : agent) : agent :=
  {| a_responder := a_responder s; a_sourceId := a_sourceId s; a_errors := a_errors s; a_ctx :=
  a_ctx s; a_contexts := a_contexts s; observedToken := observedToken s; a_id := a_id s; a_name :=
  a_name s; a_processVersion := a_processVersion s; a_bundleVersion := a_bundleVersion s;
  a_features := a_features s; a_zones := a_zones s; prepareBlockSize := prepareBlockSize s;
  a_preparations := x; a_responses := a_responses s; a_watching := a_watching s; checkId :=
  checkId s; outMsgId := outMsgId s; checksVersion := checksVersion s; committedChecks :=
  committedChecks s; pendingPrepares := pendingPrepares s |}.
Definition put_a_responses (x : list FrameMsg) (s : agent) : agent :=
  {| a_responder := a_responder s; a_sourceId := a_sourceId s; a_errors := a_errors s; a_ctx :=
  a_ctx s; a_contexts := a_contexts s; observedToken := observedToken s; a_id := a_id s; a_name :=
  a_name s; a_processVersion := a_processVersion s; a_bundleVersion := a_bundleVersion s;
  a_features := a_features s; a_zones := a_zones s; prepareBlockSize := prepareBlockSize s;
  a_preparations := a_preparations s; a_responses := x; a_watching := a_watching s; checkId :=
  checkId s; outMsgId := outMsgId s; checksVersion := checksVersion s; committedChecks :=
  committedChecks s; pendingPrepares := pendingPrepares s |}.
Definition put_a_watching (x : list (string * string)) (s : agent) : agent :=
  {| a_responder := a_responder s; a_sourceId := a_sourceId s; a_errors := a_errors s; a_ctx :=
  a_ctx s; a_contexts := a_contexts s; observedToken := observedToken s; a_id := a_id s; a_name :=
  a_name s; a_processVersion := a_processVersion s; a_bundleVersion := a_bundleVersion s;
  a_features := a_features s; a_zones := a_zones s; prepareBlockSize := prepareBlockSize s;
  a_preparations := a_preparations s; a_responses := a_responses s; a_watching := x; checkId :=
  checkId s; outMsgId := outMsgId s; checksVersion := checksVersion s; committedChecks :=
  committedChecks s; pendingPrepares := pendingPrepares s |}.
Definition put_checkId (x : Z) (s : agent) : agent :=
  {| a_responder := a_responder s; a_sourceId := a_sourceId s; a_errors := a_errors s; a_ctx :=
  a_ctx s; a_contexts := a_contexts s; observedToken := observedToken s; a_id := a_id s; a_name :=
  a_name s; a_processVersion := a_processVersion s; a_bundleVersion := a_bundleVersion s;
  a_features := a_features s; a_zones := a_zones s; prepareBlockSize := prepareBlockSize s;
  a_preparations := a_preparations s; a_responses := a_responses s; a_watching := a_watching s;
  checkId := x; outMsgId := outMsgId s; checksVersion := checksVersion s; committedChecks :=
  committedChecks s; pendingPrepares := pendingPrepares s |}.
Definition put_outMsgId (x : Z) (s : agent) : agent :=
  {| a_responder := a_responder s; a_sourceId := a_sourceId s; a_errors := a_errors s; a_ctx :=
  a_ctx s; a_contexts := a_contexts s; observedToken := observedToken s; a_id := a_id s; a_name :=
  a_name s; a_processVersion := a_processVersion s; a_bundleVersion := a_bundleVersion s;
  a_features := a_features s; a_zones := a_zones s; prepareBlockSize := prepareBlockSize s;
  a_preparations := a_preparations s; a_responses := a_responses s; a_watching := a_watching s;
  checkId := checkId s; outMsgId := x; checksVersion := checksVersion s; committedChecks :=
  committedChecks s; pendingPrepares := pendingPrepares s |}.
Definition put_checksVersion (x : Z) (s : agent) : agent :=
  {| a_responder := a_responder s; a_sourceId := a_sourceId s; a_errors := a_errors s; a_ctx :=
  a_ctx s; a_contexts := a_contexts s; observedToken := observedToken s; a_id := a_id s; a_name :=
  a_name s; a_processVersion := a_processVersion s; a_bundleVersion := a_bundleVersion s;
  a_features := a_features s; a_zones := a_zones s; prepareBlockSize := prepareBlockSize s;
  a_preparations := a_preparations s; a_responses := a_responses s; a_watching := a_watching s;
  checkId := checkId s; outMsgId := outMsgId s; checksVersion := x; committedChecks :=
  committedChecks s; pendingPrepares := pendingPrepares s |}.
Definition put_committedChecks (x : option (gset string)) (s : agent) : agent :=
  {| a_responder := a_responder s; a_sourceId := a_sourceId s; a_errors := a_errors s; a_ctx :=
  a_ctx s; a_contexts := a_contexts s; observedToken := observedToken s; a_id := a_id s; a_name :=
  a_name s; a_processVersion := a_processVersion s; a_bundleVersion := a_bundleVersion s;
  a_features := a_features s; a_zones := a_zones s; prepareBlockSize := prepareBlockSize s;
  a_preparations := a_preparations s; a_responses := a_responses s; a_watching := a_watching s;
  checkId := checkId s; outMsgId := outMsgId s; checksVersion := checksVersion s; committedChecks
  := x; pendingPrepares := pendingPrepares s |}.
Definition put_pendingPrepares (x : gmap Z pendingPrepare) (s : agent) : agent :=
  {| a_responder := a_responder s; a_sourceId := a_sourceId s; a_errors := a_errors s; a_ctx :=
  a_ctx s; a_contexts := a_contexts s; observedToken := observedToken s; a_id := a_id s; a_name :=
  a_name s; a_processVersion := a_processVersion s; a_bundleVersion := a_bundleVersion s;
  a_features := a_features s; a_zones := a_zones s; prepareBlockSize := prepareBlockSize s;
  a_preparations := a_preparations s; a_responses := a_responses s; a_watching := a_watching s;
  checkId := checkId s; outMsgId := outMsgId s; checksVersion := checksVersion s; committedChecks
  := committedChecks s; pendingPrepares := x |}.

(** ** Construction *)
Definition AgentErrorChanSize : nat := 1.

Definition newAgent (parentCtx : Context) (source : string) (params : HandshakeParameters)
    (blockSize : Z) : go Contexts (option agent * list error) :=
  match hp_ZoneIds params with
  | [] => mret (None, ["Handshake is missing one or more zone IDs"])
  | _ =>
      ctx ← WithCancel parentCtx;
      contexts ← get;
      mret (Some {|
        a_responder := []; a_sourceId := source; a_errors := []; a_ctx := ctx;
        a_contexts := contexts; observedToken := hp_Token params; a_id := hp_AgentId params;
        a_name := hp_AgentName params; a_processVersion := hp_ProcessVersion params;
        a_bundleVersion := hp_BundleVersion params; a_features := hp_Features params;
        a_zones := hp_ZoneIds params; prepareBlockSize := blockSize; a_preparations := [];
        a_responses := []; a_watching := []; checkId := 0; outMsgId := 0; checksVersion := 0;
        committedChecks := None; pendingPrepares := ∅
      |}, [])
  end.

Definition agent_context_op {A} : go Contexts A → go agent A := zoom a_contexts put_a_contexts.
Definition agent_Close : go agent unit :=
  ctx ← gets a_ctx; agent_context_op (cancel_context ctx).
Definition HandleResponse (frame : FrameMsg) : go agent unit :=
  modify (λ a, put_a_responses (a_responses a ++ [frame]) a).

(** ** Sending *)

(** [atomic.AddUint64(&a.outMsgId, 1)] *)
Definition allocateMsgId : go agent Z :=
  modify (λ a, put_outMsgId (to_u64 (outMsgId a + 1)) a);;
  gets outMsgId.

Definition agent_frame (msgId : Z) (method : string) (rawParams : json) : FrameMsg := {|
  Common := {| f_Version := ProtocolVersion; f_Id := msgId; f_Target := "endpoint";
               f_Source := "endpoint"; f_Method := method; f_Error := None |};
  RawParams := Some rawParams; RawResult := None
|}.

(** Marshalling the parameters does not fail: their raw parts were decoded. *)
Definition sendTo (msgId : Z) (method : string) (rawParams : json) : go agent unit :=
  modify (λ a, put_a_responder
    (a_responder a ++ [Encode (FMsg (agent_frame msgId method rawParams))]) a).

(** ** Preparing *)
Definition newManifest (ch : Check) (action : string) : PollerPrepareManifest := {|
  man_Action := action; man_Id := GetID ch; man_CheckType := GetCheckType ch;
  man_EntityId := GetEntityID ch; man_ZoneId := GetZoneID ch
|}.

(** [make(\[\]T, 0, n)] *)
Definition make_with_cap {S A} (n : Z) : go S (list A) :=
  if bool_decide (n < 0)%Z then halt NegativeCap else mret [].

(** The body of the loop over the definitions, on the block being filled. *)
Definition fill_block (prepareBlockParams : option PollerPrepareBlockParams) (ch : Check)
    : go agent (option PollerPrepareBlockParams) :=
  version ← gets checksVersion;
  size ← gets prepareBlockSize;
  p ← match prepareBlockParams with
      | Some p => mret p
      | None =>
          block ← make_with_cap size;
          mret {| ppb_ZoneId := ""; ppb_Version := to_i64 version; ppb_Block := block |}
      end;
  let p := {| ppb_ZoneId := ppb_ZoneId p; ppb_Version := ppb_Version p;
              ppb_Block := ppb_Block p ++ [Some (GetCheckIn ch)] |} in
  if bool_decide (size ≤ Z.of_nat (length (ppb_Block p)))%Z then
    msgId ← allocateMsgId;
    sendTo msgId MethodPollerPrepareBlock (enc c_prepare_block p);;
    mret None
  else mret (Some p).

(** [now] is the reading of the clock. *)
Definition prepareChecks (now : Z) (checksToStart checksToRestart : list Check) : go agent unit :=
  let allChecks := checksToStart ++ checksToRestart in
  let manifest := ((λ ch, newManifest ch PrepareActionStart) <$> checksToStart)
               ++ ((λ ch, newManifest ch PrepareActionRestart) <$> checksToRestart) in
  let allCheckIds := GetID <$> allChecks in
  modify (λ a, put_checksVersion (to_u64 (checksVersion a + 1)) a);;
  version ← gets checksVersion;
  let ourPending := {| pp_version := version; pp_checkIds := allCheckIds; committing := false;
                       pp_sent := now |} in
  msgId ← allocateMsgId;
  modify (λ a, put_pendingPrepares (<[msgId := ourPending]> (pendingPrepares a)) a);;
  sendTo msgId MethodPollerPrepare (enc c_prepare_start
    {| pps_ZoneId := ""; pps_Version := to_i64 version; pps_Manifest := manifest |});;
  prepareBlockParams ← for_fold allChecks None fill_block;
  match prepareBlockParams with
  | Some p =>
      msgId ← allocateMsgId;
      sendTo msgId MethodPollerPrepareBlock (enc c_prepare_block p)
  | None => mret ()
  end;;
  msgId ← allocateMsgId;
  sendTo msgId MethodPollerPrepareEnd (enc c_prepare_end
    {| ppe_ZoneId := ""; ppe_Version := to_i64 version;
       ppe_Directive := PrepareDirectivePrepare |}).

(** ** Responses *)
Definition handlePollerPrepareResponse (frame : FrameMsg) (result : PollerPrepareResult)
    (ourPending : pendingPrepare) : go agent unit :=
  if bool_decide (ppr_Status result = PrepareResultStatusPrepared) then
    let ourPending := {| pp_version := pp_version ourPending; pp_checkIds := pp_checkIds ourPending;
                         committing := true; pp_sent := pp_sent ourPending |} in
    msgId ← allocateMsgId;
    modify (λ a, put_pendingPrepares (delete (f_Id (Common frame)) (pendingPrepares a)) a);;
    modify (λ a, put_pendingPrepares (<[msgId := ourPending]> (pendingPrepares a)) a);;
    sendTo msgId MethodPollerCommit (enc c_commit
      {| pcp_ZoneId := ""; pcp_Version := to_i64 (pp_version ourPending) |})
  else
    modify (λ a, put_pendingPrepares (delete (f_Id (Common frame)) (pendingPrepares a)) a).

Definition handlePollerCommitResponse (frame : FrameMsg) (result : PollerCommitResult)
    (ourPending : pendingPrepare) : go agent unit :=
  when (bool_decide (pcr_Status result = PrepareResultStatusCommitted)) (
    modify (λ a, put_committedChecks (Some (list_to_set (pp_checkIds ourPending))) a);;
    modify (λ a, put_pendingPrepares (delete (f_Id (Common frame)) (pendingPrepares a)) a)).

(** [json.Unmarshal(frame.GetRawResult(), result)]: an absent result is an error. *)
Definition unmarshal_raw {A} (c : codec A) (zero : A) (raw : option json) : option A :=
  match raw with
  | None => None
  | Some j => let '(x, ok) := Unmarshal c j zero in if ok : bool then Some x else None
  end.

Definition agent_handleResponse (frame : FrameMsg) : go agent unit :=
  pending ← gets pendingPrepares;
  match pending !! f_Id (Common frame) with
  | None => mret ()
  | Some pending =>
      if committing pending then
        match unmarshal_raw c_commit_result zero_commit_result (RawResult frame) with
        | None => mret ()
        | Some result => handlePollerCommitResponse frame result pending
        end
      else
        match unmarshal_raw c_prepare_result zero_prepare_result (RawResult frame) with
        | None => mret ()
        | Some result => handlePollerPrepareResponse frame result pending
        end
  end.

(** ** The directory of the checks

    An entry is a name, whether it is a directory, and the document that the
    file holds, when it can be read and parsed. *)
Definition CheckFileSuffix : string := ".json".
Definition dir_entry : Type := string * bool * option json.

(** [strings.HasSuffix] *)
Definition HasSuffix (s suffix : string) : bool :=
  let n := String.length suffix in let m := String.length s in
  bool_decide (n ≤ m) && bool_decide (String.substring (m - n) n s = suffix).

(** The format [%08X]. *)
Definition hex_digit (d : Z) : string := String.substring (Z.to_nat d) 1 "0123456789ABCDEF".
Fixpoint hex_digits (n : nat) (z : Z) (acc : string) : string :=
  match n with
  | O => acc
  | S n' =>
      let acc := (hex_digit (z mod 16) +:+ acc)%string in
      if bool_decide (z / 16 = 0)%Z then acc else hex_digits n' (z / 16) acc
  end.
Definition format_08X (z : Z) : string :=
  let d := hex_digits 16 z "" in zeros (8 - String.length d) d.

Definition decodeCheck (doc : option json) : go agent (Check + check_error) :=
  ctx ← gets a_ctx;
  match doc with
  | Some doc => agent_context_op (NewCheck ctx doc)
  | None => _ ← agent_context_op (WithCancel ctx); mret (inr BadDetails)
  end.

Definition load_entry (startChecks : list Check) (e : dir_entry) : go agent (list Check) :=
  let '(name, is_dir, doc) := e in
  if negb is_dir && HasSuffix name CheckFileSuffix then
    r ← decodeCheck doc;
    match r with
    | inr _ => mret startChecks
    | inl ch =>
        modify (λ a, put_checkId (to_u64 (checkId a + 1)) a);;
        n ← gets checkId;
        mret (startChecks ++ [SetID ("ch" +:+ format_08X n)%string ch])
    end
  else mret startChecks.

(** [None] is a directory that cannot be opened or read. *)
Definition loadChecks (contents : option (list dir_entry)) : go agent (option (list Check)) :=
  match contents with
  | None => mret None
  | Some contents => startChecks ← for_fold contents [] load_entry; mret (Some startChecks)
  end.

Definition applyInitialChecks (pathToChecks zone : string) (contents : option (list dir_entry))
    : go agent unit :=
  r ← loadChecks contents;
  match r with
  | None => mret ()
  | Some startChecks =>
      modify (λ a, put_a_preparations (a_preparations a ++
        [{| checksToStart := startChecks; checksToRestart := []; unclassified := None |}]) a);;
      modify (λ a, put_a_watching (a_watching a ++ [(pathToChecks, zone)]) a)
  end.

(** One event of the watcher; [relevant] is the test of its operation. *)
Definition runFileWatcher (relevant : bool) (contents : option (list dir_entry)) : go agent unit :=
  when relevant (
    r ← loadChecks contents;
    match r with
    | None => mret ()
    | Some checks =>
        modify (λ a, put_a_preparations (a_preparations a ++
          [{| checksToStart := []; checksToRestart := []; unclassified := Some checks |}]) a)
    end).

(** ** The coordinator *)
Definition classify_one (acc : list Check * list Check) (ch : Check)
    : go agent (list Check * list Check) :=
  committed ← gets committedChecks;
  committed ← deref committed;
  mret (if bool_decide (GetID ch ∈ committed) then (acc.1 ++ [ch], acc.2)
        else (acc.1, acc.2 ++ [ch])).

Definition classify (bundle : prepareBundle) : go agent (list Check * list Check) :=
  match unclassified bundle with
  | None => mret (checksToStart bundle, checksToRestart bundle)
  | Some l => for_fold l ([], []) classify_one
  end.

Definition take_bundle (now : Z) : go agent unit :=
  q ← gets a_preparations;
  match q with
  | [] => halt Blocked
  | bundle :: q' =>
      modify (put_a_preparations q');;
      '(start, restart) ← classify bundle;
      prepareChecks now start restart
  end.

Definition take_response : go agent unit :=
  q ← gets a_responses;
  match q with
  | [] => halt Blocked
  | frame :: q' => modify (put_a_responses q');; agent_handleResponse frame
  end.

(** What happens to an agent: turns of [runPrepareResponseCoordinator], of the
    goroutines of its directory, and calls of the server. *)
Inductive agent_event :=
| EvBundle (now : Z)
| EvResponse
| EvInitial (pathToChecks zone : string) (contents : option (list dir_entry))
| EvWatch (relevant : bool) (contents : option (list dir_entry))
| EvDeliver (frame : FrameMsg)
| EvClose.

Definition agent_turn (e : agent_event) : go agent unit :=
  match e with
  | EvBundle now => take_bundle now
  | EvResponse => take_response
  | EvInitial path zone contents => applyInitialChecks path zone contents
  | EvWatch relevant contents =>
      watching ← gets a_watching;
      match watching with
      | [] => halt Blocked
      | _ => runFileWatcher relevant contents
      end
  | EvDeliver frame => HandleResponse frame
  | EvClose => agent_Close
  end.

Definition agent_run (es : list agent_event) : go agent unit := for_each es agent_turn.

(** The entries of the directories read, which bound the identifiers given. *)
Definition entries_read (e : agent_event) : nat :=
  match e with
  | EvInitial _ _ (Some contents) | EvWatch _ (Some contents) => length contents
  | _ => 0
  end.

(** ** Blocks *)
Section chunks.
Context {A : Type}.

(** The blocks of a list, filled in order up to [k] elements. *)
Fixpoint chunk_from (k : nat) (cur l : list A) : list (list A) :=
  match l with
  | [] => match cur with [] => [] | _ => [cur] end
  | x :: l' =>
      if bool_decide (k ≤ length (cur ++ [x])) then (cur ++ [x]) :: chunk_from k [] l'
      else chunk_from k (cur ++ [x]) l'
  end.
Definition chunks (k : nat) (l : list A) : list (list A) := chunk_from k [] l.

Lemma concat_chunk_from k cur l : concat (chunk_from k cur l) = cur ++ l.
Proof.
  revert cur. induction l as [|x l IH]; intros cur; cbn.
  - destruct cur; [done|]. cbn. by rewrite app_nil_r.
  - case_bool_decide; cbn; rewrite IH; cbn; by rewrite <- ?(assoc_L (++)).
Qed.

Lemma chunk_from_sizes k cur l :
  0 < k → length cur < k → Forall (λ b, 0 < length b ≤ k) (chunk_from k cur l).
Proof.
  intros Hk. revert cur. induction l as [|x l IH]; intros cur Hc; cbn.
  - destruct cur; constructor; [|done]. cbn in *. lia.
  - case_bool_decide as Hb; rewrite length_app in Hb; cbn in Hb.
    + constructor; [rewrite length_app; cbn; lia|]. apply IH. cbn. lia.
    + apply IH. rewrite length_app. cbn. lia.
Qed.

Lemma length_chunk_from k cur l :
  0 < k → length cur < k →
  length (chunk_from k cur l) = Nat.div (length cur + length l + (k - 1)) k.
Proof.
  intros Hk. revert cur. induction l as [|x l IH]; intros cur Hc.
  - cbn [chunk_from length]. destruct cur as [|y cur].
    + cbn [length] in *. symmetry. apply Nat.div_small. lia.
    + cbn [length] in *. apply (Nat.div_unique _ _ 1 (length cur)); lia.
  - cbn [chunk_from]. case_bool_decide as Hb; rewrite length_app in Hb; cbn [length] in *.
    + rewrite IH by (cbn; lia). cbn [length].
      replace (length cur + S (length l) + (k - 1)) with (0 + length l + (k - 1) + 1 * k) by lia.
      rewrite Nat.div_add by lia. lia.
    + rewrite IH by (rewrite length_app; cbn; lia). rewrite length_app. cbn [length].
      f_equal. lia.
Qed.
End chunks.

(** ** What is sent *)
Definition sent (fs : list FrameMsg) (a : agent) : agent :=
  put_outMsgId (outMsgId a + Z.of_nat (length fs))
    (put_a_responder (a_responder a ++ ((λ f, Encode (FMsg f)) <$> fs)) a).

Lemma sent_nil a : sent [] a = a.
Proof. unfold sent. cbn. rewrite app_nil_r, Z.add_0_r. by destruct a. Qed.

Lemma sent_app fs gs a : sent gs (sent fs a) = sent (fs ++ gs) a.
Proof.
  unfold sent, put_outMsgId, put_a_responder. cbn. f_equal.
  - by rewrite fmap_app, (assoc_L (++)).
  - rewrite length_app. lia.
Qed.

(** Identifiers stay below 2^64 while [n] more messages are sent. *)
Definition ids_left (a : agent) (n : nat) : Prop :=
  (0 ≤ outMsgId a ∧ outMsgId a + Z.of_nat n < 2 ^ 64)%Z.

Lemma alloc_send a method params :
  ids_left a 1 →
  (msgId ← allocateMsgId; sendTo msgId method params) a
    = Ret () (sent [agent_frame (outMsgId a + 1) method params] a).
Proof.
  intros [H0 H1]. rewrite bind_app. unfold allocateMsgId. rewrite bind_app. cbn [modify gets].
  rewrite (to_u64_id (outMsgId a + 1)) by (unfold is_u64; lia). by destruct a.
Qed.

Definition block_params (version : Z) (b : list Check) : PollerPrepareBlockParams :=
  {| ppb_ZoneId := ""; ppb_Version := version; ppb_Block := Some <$> (GetCheckIn <$> b) |}.

Definition block_frames (version id : Z) (bs : list (list Check)) : list FrameMsg :=
  imap (λ i b, agent_frame (id + Z.of_nat i) MethodPollerPrepareBlock
                 (enc c_prepare_block (block_params version b))) bs.

Lemma block_frames_cons version id b bs :
  block_frames version id (b :: bs) =
    agent_frame id MethodPollerPrepareBlock (enc c_prepare_block (block_params version b))
    :: block_frames version (id + 1) bs.
Proof.
  unfold block_frames. cbn. rewrite Z.add_0_r. f_equal. apply imap_ext.
  intros i x _. cbn. f_equal. lia.
Qed.

(** The block being filled holds the checks [cur]. *)
Definition filling (version : Z) (cur : list Check) : option PollerPrepareBlockParams :=
  match cur with [] => None | _ => Some (block_params version cur) end.

(** The loop over the definitions and the block that it leaves. *)
Definition send_blocks (l : list Check) (p : option PollerPrepareBlockParams) : go agent unit :=
  p ← for_fold l p fill_block;
  match p with
  | Some p =>
      msgId ← allocateMsgId;
      sendTo msgId MethodPollerPrepareBlock (enc c_prepare_block p)
  | None => mret ()
  end.

Lemma block_params_snoc version cur ch :
  {| ppb_ZoneId := ppb_ZoneId (block_params version cur);
     ppb_Version := ppb_Version (block_params version cur);
     ppb_Block := ppb_Block (block_params version cur) ++ [Some (GetCheckIn ch)] |}
  = block_params version (cur ++ [ch]).
Proof. unfold block_params. cbn. by rewrite !fmap_app. Qed.

Lemma fill_block_cases cur ch a :
  (0 < prepareBlockSize a)%Z → ids_left a 1 →
  fill_block (filling (to_i64 (checksVersion a)) cur) ch a =
    let cur' := cur ++ [ch] in
    if bool_decide (Z.to_nat (prepareBlockSize a) ≤ length cur')
    then Ret None (sent [agent_frame (outMsgId a + 1) MethodPollerPrepareBlock
           (enc c_prepare_block (block_params (to_i64 (checksVersion a)) cur'))] a)
    else Ret (filling (to_i64 (checksVersion a)) cur') a.
Proof.
  intros Hsize Hids. unfold fill_block. rewrite bind_app. cbn [gets].
  rewrite bind_app. cbn [gets]. rewrite bind_app.
  assert ((match filling (to_i64 (checksVersion a)) cur with
    | Some p => mret (M := go agent) p
    | None => block ← make_with_cap (prepareBlockSize a);
        mret {| ppb_ZoneId := ""; ppb_Version := to_i64 (checksVersion a); ppb_Block := block |}
    end) a = Ret (block_params (to_i64 (checksVersion a)) cur) a) as ->.
  { destruct cur; [|done]. cbn. unfold make_with_cap.
    by rewrite bind_app, bool_decide_false by lia. }
  cbv beta iota zeta. rewrite block_params_snoc.
  change (ppb_Block (block_params ?v ?l)) with (Some <$> (GetCheckIn <$> l)).
  rewrite !length_fmap.
  destruct (decide (Z.to_nat (prepareBlockSize a) ≤ length (cur ++ [ch]))) as [Hk|Hk].
  - rewrite !bool_decide_true by lia.
    pose proof (alloc_send a MethodPollerPrepareBlock
      (enc c_prepare_block (block_params (to_i64 (checksVersion a)) (cur ++ [ch]))) Hids) as E.
    rewrite bind_app in E. rewrite bind_app. destruct (allocateMsgId a) as [m a'|]; [|done].
    by rewrite bind_app, E.
  - rewrite !bool_decide_false by lia. by destruct cur.
Qed.

Lemma send_blocks_app l cur a :
  (0 < prepareBlockSize a)%Z → ids_left a (S (length l)) →
  send_blocks l (filling (to_i64 (checksVersion a)) cur) a =
    Ret () (sent (block_frames (to_i64 (checksVersion a)) (outMsgId a + 1)
      (chunk_from (Z.to_nat (prepareBlockSize a)) cur l)) a).
Proof.
  revert cur a. induction l as [|ch l IH]; intros cur a Hsize Hids.
  - unfold send_blocks. rewrite bind_app. cbn [for_fold]. cbn [mret go_ret].
    destruct cur as [|c cur]; cbn [filling chunk_from].
    + cbn. by rewrite sent_nil.
    + rewrite block_frames_cons. by rewrite alloc_send.
  - unfold send_blocks. cbn [for_fold]. rewrite bind_app, bind_app.
    assert (ids_left a 1) as H1 by (unfold ids_left in *; cbn [length] in *; lia).
    rewrite fill_block_cases by done. cbv zeta. cbn [chunk_from].
    case_bool_decide.
    + set (a' := sent _ a). pose proof (IH [] a') as E. cbn [filling] in E.
      change (checksVersion a') with (checksVersion a) in E.
      change (prepareBlockSize a') with (prepareBlockSize a) in E.
      unfold send_blocks in E. rewrite bind_app in E. rewrite E; [|done|].
      * rewrite block_frames_cons. subst a'. rewrite sent_app. done.
      * unfold ids_left in *. cbn in *. lia.
    + pose proof (IH (cur ++ [ch]) a Hsize) as E. unfold send_blocks in E. rewrite bind_app in E.
      rewrite E; [done|]. unfold ids_left in *. cbn in *. lia.
Qed.

(** The frames of a preparation. *)
Definition manifest_of (start restart : list Check) : list PollerPrepareManifest :=
  ((λ ch, newManifest ch PrepareActionStart) <$> start)
  ++ ((λ ch, newManifest ch PrepareActionRestart) <$> restart).

Definition blocks_of (a : agent) (l : list Check) : list (list Check) :=
  chunks (Z.to_nat (prepareBlockSize a)) l.

Definition prepare_frames (version id : Z) (manifest : list PollerPrepareManifest)
    (blocks : list (list Check)) : list FrameMsg :=
  agent_frame id MethodPollerPrepare (enc c_prepare_start
    {| pps_ZoneId := ""; pps_Version := version; pps_Manifest := manifest |})
  :: block_frames version (id + 1) blocks
  ++ [agent_frame (id + 1 + Z.of_nat (length blocks)) MethodPollerPrepareEnd (enc c_prepare_end
        {| ppe_ZoneId := ""; ppe_Version := version;
           ppe_Directive := PrepareDirectivePrepare |})].

(** The agent after a preparation of [start] and [restart]. *)
Definition announced (now : Z) (start restart : list Check) (a : agent) : agent :=
  let version := to_u64 (checksVersion a + 1) in
  sent (prepare_frames (to_i64 version) (outMsgId a + 1) (manifest_of start restart)
          (blocks_of a (start ++ restart)))
    (put_pendingPrepares (<[(outMsgId a + 1)%Z :=
        {| pp_version := version; pp_checkIds := GetID <$> start ++ restart;
           committing := false; pp_sent := now |}]> (pendingPrepares a))
      (put_checksVersion version a)).

Lemma length_block_frames version id bs : length (block_frames version id bs) = length bs.
Proof. apply length_imap. Qed.

Lemma length_chunks_le {A} k (l : list A) : 0 < k → length (chunks k l) ≤ length l.
Proof.
  intros Hk. unfold chunks. rewrite length_chunk_from by (cbn; lia). cbn [length].
  destruct (length l) as [|n]; [rewrite Nat.div_small; lia|].
  apply Nat.Div0.div_le_upper_bound. nia.
Qed.

Lemma prepare_checks_app now start restart a :
  (0 < prepareBlockSize a)%Z → ids_left a (length (start ++ restart) + 3) →
  prepareChecks now start restart a = Ret () (announced now start restart a).
Proof.
  intros Hsize Hids. unfold prepareChecks.
  rewrite bind_app. cbn [modify]. rewrite bind_app. cbn [gets].
  set (version := checksVersion _). set (a1 := put_checksVersion _ a).
  rewrite bind_app. unfold allocateMsgId at 1. rewrite bind_app. cbn [modify gets].
  assert (ids_left a 1) as [H0 H1] by (unfold ids_left in *; lia).
  change (outMsgId a1) with (outMsgId a).
  rewrite (to_u64_id (outMsgId a + 1)) by (unfold is_u64; lia).
  cbn [outMsgId put_outMsgId].
  rewrite bind_app. cbn [modify]. rewrite bind_app. unfold sendTo at 1. cbn [modify].
  set (a2 := put_a_responder _ _).
  pose proof (send_blocks_app (start ++ restart) [] a2) as E. cbn [filling] in E.
  unfold send_blocks in E. rewrite bind_app in E. rewrite bind_app.
  change (checksVersion a2) with version in E.
  change (outMsgId a2) with (outMsgId a + 1)%Z in E.
  change (prepareBlockSize a2) with (prepareBlockSize a) in E.
  specialize (E Hsize).
  assert (ids_left a2 (S (length (start ++ restart)))) as H2 by (unfold ids_left in *; cbn; lia).
  specialize (E H2).
  destruct (for_fold (start ++ restart) None fill_block a2) as [p a3|]; [|done].
  rewrite bind_app. rewrite E. clear E.
  rewrite alloc_send.
  - rewrite sent_app. change (chunk_from ?k [] ?l) with (chunks k l).
    fold (blocks_of a (start ++ restart)). set (bs := blocks_of a (start ++ restart)).
    set (a0 := put_pendingPrepares (<[(outMsgId a + 1)%Z :=
      {| pp_version := version; pp_checkIds := GetID <$> start ++ restart;
         committing := false; pp_sent := now |}]> (pendingPrepares a)) (put_checksVersion version a)).
    assert (a2 = sent [agent_frame (outMsgId a + 1) MethodPollerPrepare (enc c_prepare_start
      {| pps_ZoneId := ""; pps_Version := to_i64 version;
         pps_Manifest := manifest_of start restart |})] a0) as -> by done.
    rewrite sent_app. unfold announced. fold version bs a0. do 2 f_equal.
    unfold prepare_frames. cbn [app outMsgId sent put_outMsgId put_a_responder length].
    rewrite length_block_frames.
    change (outMsgId a0) with (outMsgId a).
    by replace (outMsgId a + Z.of_nat 1 + Z.of_nat (length bs) + 1)%Z
      with (outMsgId a + 1 + 1 + Z.of_nat (length bs))%Z by lia.
  - unfold ids_left in *. cbn. rewrite length_block_frames.
    pose proof (length_chunks_le (Z.to_nat (prepareBlockSize a)) (start ++ restart)).
    unfold chunks in *. lia.
Qed.

(** ** Responses *)
Lemma unmarshal_raw_rt {A} (c : codec A) zero P `{!RoundTrips c zero P} x :
  P x → unmarshal_raw c zero (Some (enc c x)) = Some x.
Proof. intros Hx. unfold unmarshal_raw, Unmarshal. by rewrite (round_trip x Hx). Qed.

Definition to_commit (p : pendingPrepare) : pendingPrepare :=
  {| pp_version := pp_version p; pp_checkIds := pp_checkIds p; committing := true;
     pp_sent := pp_sent p |}.

Lemma prepared_response frame result p a :
  pendingPrepares a !! f_Id (Common frame) = Some p → committing p = false →
  RawResult frame = Some (enc c_prepare_result result) → is_i64 (ppr_Version result) →
  ids_left a 1 →
  agent_handleResponse frame a = Ret () (
    if bool_decide (ppr_Status result = PrepareResultStatusPrepared)
    then sent [agent_frame (outMsgId a + 1) MethodPollerCommit
           (enc c_commit {| pcp_ZoneId := ""; pcp_Version := to_i64 (pp_version p) |})]
         (put_pendingPrepares (<[(outMsgId a + 1)%Z := to_commit p]>
            (delete (f_Id (Common frame)) (pendingPrepares a))) a)
    else put_pendingPrepares (delete (f_Id (Common frame)) (pendingPrepares a)) a).
Proof.
  intros Hp Hc Hr Hv [H0 H1]. unfold agent_handleResponse. rewrite bind_app. cbn [gets].
  rewrite Hp, Hc, Hr, (unmarshal_raw_rt _ _ _ result Hv).
  unfold handlePollerPrepareResponse. case_bool_decide; [|done].
  rewrite bind_app. unfold allocateMsgId. rewrite bind_app. cbn [modify gets].
  by rewrite (to_u64_id (outMsgId a + 1)) by (unfold is_u64; lia).
Qed.

Lemma committed_response frame result p a :
  pendingPrepares a !! f_Id (Common frame) = Some p → committing p = true →
  RawResult frame = Some (enc c_commit_result result) → is_i64 (pcr_Version result) →
  agent_handleResponse frame a = Ret () (
    if bool_decide (pcr_Status result = PrepareResultStatusCommitted)
    then put_pendingPrepares (delete (f_Id (Common frame)) (pendingPrepares a))
           (put_committedChecks (Some (list_to_set (pp_checkIds p))) a)
    else a).
Proof.
  intros Hp Hc Hr Hv. unfold agent_handleResponse. rewrite bind_app. cbn [gets].
  rewrite Hp, Hc, Hr, (unmarshal_raw_rt _ _ _ result Hv).
  unfold handlePollerCommitResponse, when. by case_bool_decide.
Qed.

(** ** The checks of a directory *)

(** A definition that a file gave: it can be sent and it initiates. *)
Definition loaded (ch : Check) : Prop :=
  checkin_ok (GetCheckIn ch) ∧ initiation_of (GetCheckIn ch) = Initiated.

Lemma SetID_loaded id ch : loaded ch → loaded (SetID id ch).
Proof.
  unfold loaded, checkin_ok, initiation_of, GetCheckIn. by destruct ch as [[[] ?]|[[] ?]|[[] ?]|[[] ?]].
Qed.

Lemma GetID_SetID id ch : GetID (SetID id ch) = id.
Proof. by destruct ch. Qed.

Lemma zero_checkin_ok : checkin_ok zero_checkin.
Proof. by repeat split. Qed.

Lemma NewCheck_loaded parent raw (s s' : Contexts) ch :
  NewCheck parent raw s = Ret (inl ch) s' → loaded ch.
Proof.
  unfold NewCheck. rewrite bind_app. cbn [WithCancel]. unfold Unmarshal.
  assert (∀ p, (dec (c_ptr c_checkin zero_checkin) raw (Some zero_checkin)).1 = Some p →
    checkin_ok p) as Hok.
  { assert (∀ j p, ((let '(a, ok) := dec c_checkin j zero_checkin in (Some a, ok))
      : option CheckIn * bool).1 = Some p → checkin_ok p) as H.
    { intros j p. pose proof (checkin_decoded j zero_checkin zero_checkin_ok) as H.
      destruct (dec c_checkin j zero_checkin) as [c ok]. cbn in *. by intros [= ->]. }
    intros p. destruct raw; [done|..]; match goal with |- (dec _ ?j _).1 = _ → _ => exact (H j p) end. }
  destruct (dec (c_ptr c_checkin zero_checkin) raw (Some zero_checkin)) as [[ci|] []];
    cbn [deref]; try done.
  rewrite bind_ret_l. set (b := {| base_CheckIn := ci; base_context := _ |}).
  match goal with |- resolveCheckType _ ?st = _ → _ => pose proof (resolve_cases b st) as H end.
  change (base_CheckIn b) with ci in H.
  destruct (initiation_of ci) eqn:Ei.
  - destruct H as (ch' & -> & Hb). intros [= <- <-]. unfold loaded, GetCheckIn. rewrite Hb.
    split; [by apply Hok|done].
  - by rewrite H.
  - by rewrite H.
Qed.

(** The identifiers given to the checks. *)
Definition check_id (n : Z) : string := ("ch" +:+ format_08X n)%string.

(** The value of a hexadecimal number. *)
Fixpoint digit_of (c : ascii) (digits : string) : Z :=
  match digits with
  | EmptyString => 0
  | String d digits' => if bool_decide (c = d) then 0 else 1 + digit_of c digits'
  end.
Fixpoint hex_value (acc : Z) (s : string) : Z :=
  match s with
  | EmptyString => acc
  | String c s' => hex_value (16 * acc + digit_of c "0123456789ABCDEF") s'
  end.

Lemma hex_value_digit d acc s :
  (0 ≤ d < 16)%Z → hex_value acc (hex_digit d +:+ s) = hex_value (16 * acc + d) s.
Proof.
  intros Hd. assert (d ∈ seqZ 0 16) as Hin by (apply elem_of_seqZ; lia).
  cbn in Hin. repeat (apply elem_of_cons in Hin as [->|Hin]; [reflexivity|]).
  by apply elem_of_nil in Hin.
Qed.

Lemma hex_value_digits n z acc :
  (0 ≤ z < 16 ^ Z.of_nat (S n))%Z → hex_value 0 (hex_digits (S n) z acc) = hex_value z acc.
Proof.
  revert z acc. induction n as [|n IH]; intros z acc Hz.
  - assert (0 ≤ z < 16)%Z by (cbn in Hz; lia). cbn [hex_digits].
    rewrite bool_decide_true by (apply Z.div_small; lia).
    rewrite Z.mod_small by lia. by rewrite hex_value_digit.
  - remember (S n) as n'. cbn [hex_digits]. case_bool_decide as Hd.
    + rewrite hex_value_digit by (apply Z.mod_pos_bound; lia).
      f_equal. pose proof (Z.div_mod z 16). lia.
    + subst n'. rewrite IH.
      * rewrite hex_value_digit by (apply Z.mod_pos_bound; lia).
        f_equal. pose proof (Z.div_mod z 16). lia.
      * rewrite Nat2Z.inj_succ, Z.pow_succ_r in Hz by lia.
        split; [apply Z.div_pos; lia|]. apply Z.div_lt_upper_bound; lia.
Qed.

Lemma hex_value_zeros n s : hex_value 0 (zeros n s) = hex_value 0 s.
Proof. by induction n. Qed.

Lemma format_08X_value n : is_u64 n → hex_value 0 (format_08X n) = n.
Proof.
  intros Hn. unfold format_08X. rewrite hex_value_zeros, hex_value_digits; [done|].
  unfold is_u64 in Hn. cbn. lia.
Qed.

Lemma check_id_inj n m : is_u64 n → is_u64 m → check_id n = check_id m → n = m.
Proof.
  intros Hn Hm E%(inj (String.append "ch")).
  by rewrite <- (format_08X_value n Hn), E, format_08X_value.
Qed.

(** ** Loading *)

(** [b] is [a] with new contexts and [n] more identifiers given. *)
Definition loading (n : nat) (a b : agent) : Prop :=
  b = put_checkId (checkId a + Z.of_nat n) (put_a_contexts (a_contexts b) a).

(** The checks [l] that loading added from the state [a]. *)
Definition fresh_checks (a : agent) (l : list Check) : Prop :=
  Forall loaded l ∧ GetID <$> l = check_id <$> seqZ (checkId a + 1) (Z.of_nat (length l)).

Lemma loading_refl a : loading 0 a a.
Proof. unfold loading. rewrite Z.add_0_r. by destruct a. Qed.

Lemma loading_trans n m a b c : loading n a b → loading m b c → loading (n + m) a c.
Proof.
  unfold loading. intros Hb Hc. rewrite Hb in Hc at 1. rewrite Hc at 1.
  rewrite Hb. cbn. unfold put_checkId. cbn. f_equal. lia.
Qed.

Lemma decode_check_cases doc a r b :
  decodeCheck doc a = Ret r b →
  b = put_a_contexts (a_contexts b) a ∧ ∀ ch, r = inl ch → loaded ch.
Proof.
  unfold decodeCheck. rewrite bind_app. cbn [gets].
  destruct doc as [doc|].
  - unfold agent_context_op, zoom.
    destruct (NewCheck (a_ctx a) doc (a_contexts a)) as [r' c|] eqn:E; [|done].
    intros [= <- <-]. split; [by destruct a|]. intros ch ->. by apply NewCheck_loaded in E.
  - rewrite bind_app. cbn. intros [= <- <-]. split; [by destruct a|done].
Qed.

Lemma load_entry_cases acc e a r b :
  (0 ≤ checkId a)%Z → (checkId a + 1 < 2 ^ 64)%Z →
  load_entry acc e a = Ret r b →
  ∃ l, r = acc ++ l ∧ length l ≤ 1 ∧ loading (length l) a b ∧ fresh_checks a l.
Proof.
  intros H0 H1. unfold load_entry. destruct e as [[name is_dir] doc].
  destruct (negb is_dir && HasSuffix name CheckFileSuffix).
  2:{ intros [= <- <-]. exists []. rewrite app_nil_r. split_and!; [done|cbn; lia| |by split].
      apply loading_refl. }
  rewrite bind_app. destruct (decodeCheck doc a) as [r' b'|] eqn:E; [|done].
  apply decode_check_cases in E as [Hb Hl]. destruct r' as [ch|err].
  - rewrite bind_app. cbn [modify]. rewrite bind_app. cbn [gets]. intros [= <- <-].
    exists [SetID (check_id (checkId a + 1)) ch].
    assert (checkId b' = checkId a) as Hid by (by rewrite Hb).
    cbn [checkId put_checkId]. rewrite Hid, to_u64_id by (unfold is_u64; lia).
    split_and!; [done|cbn; lia| |].
    + unfold loading. cbn [length]. rewrite Hb. done.
    + split; [by apply Forall_singleton, SetID_loaded, Hl|].
      cbn. by rewrite GetID_SetID.
  - intros [= <- <-]. exists []. rewrite app_nil_r. split_and!; [done|cbn; lia| |by split].
    unfold loading. cbn [length]. rewrite Z.add_0_r. rewrite Hb at 1. by destruct a.
Qed.

Lemma fresh_checks_app a b l l' :
  fresh_checks a l → loading (length l) a b → fresh_checks b l' → fresh_checks a (l ++ l').
Proof.
  intros [Hl Hi] Hab [Hl' Hi']. split; [by apply Forall_app|].
  assert (checkId b = checkId a + Z.of_nat (length l))%Z as Hb by (rewrite Hab; done).
  rewrite fmap_app, Hi, Hi', Hb, length_app, <- fmap_app, Nat2Z.inj_add.
  rewrite seqZ_app by lia. do 3 f_equal. lia.
Qed.

Lemma load_loop contents acc a r b :
  (0 ≤ checkId a)%Z → (checkId a + Z.of_nat (length contents) < 2 ^ 64)%Z →
  for_fold contents acc load_entry a = Ret r b →
  ∃ l, r = acc ++ l ∧ length l ≤ length contents ∧ loading (length l) a b ∧ fresh_checks a l.
Proof.
  revert acc a. induction contents as [|e contents IH]; intros acc a H0 H1.
  - intros [= <- <-]. exists []. rewrite app_nil_r. split_and!; [done|done| |by split].
    apply loading_refl.
  - cbn [for_fold]. rewrite bind_app. cbn [length] in H1.
    destruct (load_entry acc e a) as [acc' a'|] eqn:E; [|done].
    apply load_entry_cases in E as (l & -> & Hn & Hab & Hf); [|lia..].
    assert (checkId a' = checkId a + Z.of_nat (length l))%Z as Ha' by (rewrite Hab; done).
    intros (l' & -> & Hn' & Hab' & Hf')%IH; [|lia..].
    exists (l ++ l'). rewrite (assoc_L (++)), length_app. split_and!; [done|cbn; lia| |].
    + by eapply loading_trans.
    + by eapply fresh_checks_app.
Qed.

(** ** The identifiers in use *)
Definition checks_of_bundle (b : prepareBundle) : list Check :=
  checksToStart b ++ checksToRestart b ++ default [] (unclassified b).
Definition waiting (a : agent) : list Check := concat (checks_of_bundle <$> a_preparations a).

(** The identifiers up to the [m]-th. *)
Definition given (m : Z) (id : string) : Prop := ∃ n, (0 < n ≤ m)%Z ∧ id = check_id n.

Definition pending_given (m : Z) (a : agent) : Prop :=
  map_Forall (λ _ p, Forall (given m) (pp_checkIds p)) (pendingPrepares a).

(** The first [m] identifiers are those of prepared bundles, the others those of
    the bundles that wait, in order. *)
Record numbered (m : Z) (a : agent) : Prop := {
  num_bounds : (0 ≤ m ≤ checkId a)%Z;
  num_committed : ∀ X id, committedChecks a = Some X → id ∈ X → given m id;
  num_pending : pending_given m a;
  num_waiting : GetID <$> waiting a = check_id <$> seqZ (m + 1) (checkId a - m);
  num_loaded : Forall loaded (waiting a)
}.

Lemma given_mono m m' id : (m ≤ m')%Z → given m id → given m' id.
Proof. intros Hm (n & Hn & ->). exists n. split; [lia|done]. Qed.

Lemma given_next m n id : (0 ≤ m ≤ n)%Z → id ∈ check_id <$> seqZ (m + 1) (n - m) → given n id.
Proof.
  intros Hm (k & -> & Hk)%list_elem_of_fmap. apply elem_of_seqZ in Hk. exists k. split; [lia|done].
Qed.

(** What preparing and responding leave alone. *)
Record books (m : Z) (a b : agent) : Prop := {
  books_checkId : checkId b = checkId a;
  books_queue : a_preparations b = a_preparations a;
  books_committed : committedChecks b = committedChecks a;
  books_pending : pending_given m b
}.

Lemma pending_given_insert m id p (a : agent) :
  pending_given m a → Forall (given m) (pp_checkIds p) →
  map_Forall (λ _ p, Forall (given m) (pp_checkIds p)) (<[id := p]> (pendingPrepares a)).
Proof. intros Ha Hp. by apply map_Forall_insert_2. Qed.
Lemma pending_given_delete m id (a : agent) :
  pending_given m a →
  map_Forall (λ _ p, Forall (given m) (pp_checkIds p)) (delete id (pendingPrepares a)).
Proof. apply map_Forall_delete. Qed.

Lemma allocate_keeps_books m a : keeps (books m a) allocateMsgId.
Proof. intros b [? ? ? ?]. by split. Qed.
Lemma sendTo_keeps_books m a id method p : keeps (books m a) (sendTo id method p).
Proof. intros b [? ? ? ?]. by split. Qed.
Lemma make_keeps {A} (I : agent → Prop) n : keeps I (@make_with_cap agent A n).
Proof. unfold make_with_cap. case_bool_decide; [apply keeps_halt|apply keeps_ret]. Qed.

Lemma fill_block_keeps_books m a p ch : keeps (books m a) (fill_block p ch).
Proof.
  unfold fill_block. apply keeps_bind; [apply keeps_gets|intros version].
  apply keeps_bind; [apply keeps_gets|intros size]. apply keeps_bind.
  - destruct p; [apply keeps_ret|]. apply keeps_bind; [apply make_keeps|]. intros. apply keeps_ret.
  - intros p'. cbv zeta. case_bool_decide; [|apply keeps_ret].
    apply keeps_bind; [apply allocate_keeps_books|intros id].
    apply keeps_bind; [apply sendTo_keeps_books|]. intros. apply keeps_ret.
Qed.

Lemma prepareChecks_keeps_books m a now start restart :
  Forall (given m) (GetID <$> start ++ restart) →
  keeps (books m a) (prepareChecks now start restart).
Proof.
  intros Hids. unfold prepareChecks.
  apply keeps_bind; [by apply keeps_modify; intros b [? ? ? ?]|intros _].
  apply keeps_bind; [apply keeps_gets|intros version].
  apply keeps_bind; [apply allocate_keeps_books|intros id].
  apply keeps_bind; [apply keeps_modify; intros b [? ? ? Hp]; split; try done;
    by apply pending_given_insert|intros _].
  apply keeps_bind; [apply sendTo_keeps_books|intros _].
  apply keeps_bind; [apply keeps_for_fold; intros; apply fill_block_keeps_books|intros p].
  apply keeps_bind.
  - destruct p; [|apply keeps_ret].
    apply keeps_bind; [apply allocate_keeps_books|intros; apply sendTo_keeps_books].
  - intros _. apply keeps_bind; [apply allocate_keeps_books|intros; apply sendTo_keeps_books].
Qed.

Lemma classify_one_app acc ch a :
  classify_one acc ch a =
    match committedChecks a with
    | None => Halt NilDeref a
    | Some X => Ret (if bool_decide (GetID ch ∈ X) then (acc.1 ++ [ch], acc.2)
                     else (acc.1, acc.2 ++ [ch])) a
    end.
Proof. unfold classify_one. rewrite bind_app. cbn [gets]. by destruct (committedChecks a). Qed.

(** The start and restart lists of a bundle have its checks. *)
Lemma classify_loop l acc r a b :
  for_fold l acc classify_one a = Ret r b → b = a ∧ r.1 ++ r.2 ≡ₚ acc.1 ++ acc.2 ++ l.
Proof.
  revert acc. induction l as [|ch l IH]; intros acc.
  - intros [= <- <-]. by rewrite app_nil_r.
  - cbn [for_fold]. rewrite bind_app, classify_one_app.
    destruct (committedChecks a) as [X|]; [|done].
    case_bool_decide; intros (-> & Hp)%IH; split; try done; rewrite Hp; cbn; solve_Permutation.
Qed.

Lemma classify_fresh l acc X a :
  committedChecks a = Some X → Forall (λ ch, GetID ch ∉ X) l →
  for_fold l acc classify_one a = Ret (acc.1, acc.2 ++ l) a.
Proof.
  intros HX Hl. revert acc. induction Hl as [|ch l Hch _ IH]; intros acc.
  - cbn. rewrite app_nil_r. by destruct acc.
  - cbn [for_fold]. rewrite bind_app, classify_one_app, HX, bool_decide_false by done.
    rewrite IH. cbn. by rewrite <- (assoc_L (++)).
Qed.

Lemma classify_cases bundle a r b :
  classify bundle a = Ret r b → b = a ∧ r.1 ++ r.2 ⊆+ checks_of_bundle bundle.
Proof.
  unfold classify, checks_of_bundle. destruct (unclassified bundle) as [l|]; cbn [default].
  - intros (-> & Hp)%classify_loop. cbn in *. split; [done|]. rewrite Hp.
    by apply submseteq_inserts_l, submseteq_inserts_l.
  - intros [= <- <-]. cbn. by rewrite app_nil_r.
Qed.

(** ** The invariant *)
Lemma numbered_books m a b :
  numbered m a → (∀ X id, committedChecks b = Some X → id ∈ X → given m id) →
  checkId b = checkId a → a_preparations b = a_preparations a → pending_given m b →
  numbered m b.
Proof.
  intros [Hb _ _ Hw Hl] Hc Hid Hq Hp. split; try done; unfold waiting in *; by rewrite ?Hid, ?Hq.
Qed.

Lemma take_bundle_numbered m now a b :
  numbered m a → take_bundle now a = Ret () b → ∃ m', numbered m' b ∧ checkId b = checkId a.
Proof.
  intros [Hb Hc Hp Hw Hl]. unfold take_bundle. rewrite bind_app. cbn [gets].
  destruct (a_preparations a) as [|bundle q] eqn:Eq; [done|].
  rewrite bind_app. cbn [modify]. set (a1 := put_a_preparations q a).
  rewrite bind_app. destruct (classify bundle a1) as [[start restart] a2|] eqn:E; [|done].
  apply classify_cases in E as [-> Hsub]. cbn in Hsub. intros Eb.
  unfold waiting in Hw, Hl. rewrite Eq in Hw, Hl. cbn in Hw, Hl.
  set (cs := checks_of_bundle bundle) in *. set (m' := (m + Z.of_nat (length cs))%Z).
  assert (length cs + length (concat (checks_of_bundle <$> q)) = Z.to_nat (checkId a - m)) as Hlen.
  { apply (f_equal length) in Hw. by rewrite !length_fmap, length_app, length_seqZ in Hw. }
  assert (seqZ (m + 1) (checkId a - m) =
    seqZ (m + 1) (m' - m) ++ seqZ (m' + 1) (checkId a - m')) as Hseq.
  { replace (checkId a - m)%Z with ((m' - m) + (checkId a - m'))%Z by lia.
    rewrite seqZ_app by lia. do 2 f_equal. lia. }
  rewrite Hseq, !fmap_app in Hw.
  apply app_inj_1 in Hw as [Hcs Hq]; [|rewrite !length_fmap, length_seqZ; lia].
  assert (Forall (given m') (GetID <$> start ++ restart)) as Hnew.
  { apply Forall_fmap, Forall_forall. intros ch Hch. cbn.
    apply (given_next m); [lia|]. rewrite <- Hcs. apply list_elem_of_fmap_2.
    by apply (elem_of_submseteq _ _ _ Hch Hsub). }
  pose proof (prepareChecks_keeps_books m' a1 now start restart Hnew a1) as H.
  rewrite Eb in H. destruct H as [Hb1 Hb2 Hb3 Hb4].
  { split; try done. intros k p Hk. eapply Forall_impl; [exact (Hp k p Hk)|].
    intros id. apply given_mono. lia. }
  cbn in Hb1, Hb2, Hb3, Hb4. exists m'. split; [|done].
  assert (waiting b = concat (checks_of_bundle <$> q)) as Hwb by (unfold waiting; by rewrite Hb2).
  split.
  - lia.
  - intros X id HX Hid. rewrite Hb3 in HX. eapply given_mono; [|by eapply Hc]. lia.
  - done.
  - by rewrite Hwb, Hb1, Hq.
  - rewrite Hwb. by apply Forall_app in Hl as [_ ?].
Qed.

Lemma handle_response_books m frame a b :
  numbered m a → agent_handleResponse frame a = Ret () b →
  numbered m b ∧ checkId b = checkId a.
Proof.
  intros Hn. pose proof (num_committed m a Hn) as Hc. pose proof (num_pending m a Hn) as Hp.
  unfold agent_handleResponse. rewrite bind_app. cbn [gets].
  destruct (pendingPrepares a !! f_Id (Common frame)) as [p|] eqn:Ep; [|by intros [= <-]].
  specialize (Hp _ p Ep) as Hids. cbn in Hids. destruct (committing p).
  - destruct (unmarshal_raw _ _ _) as [r|]; [|by intros [= <-]].
    unfold handlePollerCommitResponse, when. case_bool_decide; [|by intros [= <-]].
    intros [= <-]. split; [|done].
    apply (numbered_books m a); try done; [|by apply pending_given_delete].
    intros X id [= <-] Hid. apply elem_of_list_to_set in Hid.
    rewrite Forall_forall in Hids. by apply Hids.
  - destruct (unmarshal_raw _ _ _) as [r|]; [|by intros [= <-]].
    unfold handlePollerPrepareResponse. case_bool_decide.
    + intros [= <-]. split; [|done]. apply (numbered_books m a); try done. unfold pending_given.
      cbn. apply map_Forall_insert_2; [done|]. by apply pending_given_delete.
    + intros [= <-]. split; [|done].
      apply (numbered_books m a); try done. by apply pending_given_delete.
Qed.

(** A bundle of freshly loaded checks joins the queue. *)
Lemma load_numbered m l bundle (a a' b : agent) :
  numbered m a → loading (length l) a a' → fresh_checks a l → checks_of_bundle bundle = l →
  checkId b = checkId a' → committedChecks b = committedChecks a' →
  pendingPrepares b = pendingPrepares a' → a_preparations b = a_preparations a' ++ [bundle] →
  numbered m b.
Proof.
  intros [Hb Hc Hp Hw Hl] Ha' [Hll Hids] Hcs Hid Hcm Hpp Hq.
  unfold loading in Ha'. rewrite Ha' in Hid, Hcm, Hpp, Hq. cbn in Hid, Hcm, Hpp, Hq.
  assert (waiting b = waiting a ++ l) as Hwb.
  { unfold waiting. rewrite Hq, fmap_app, concat_app. cbn. by rewrite app_nil_r, Hcs. }
  split.
  - lia.
  - rewrite Hcm. exact Hc.
  - unfold pending_given. rewrite Hpp. exact Hp.
  - rewrite Hwb, Hid, fmap_app, Hw, Hids, <- fmap_app.
    replace (checkId a + Z.of_nat (length l) - m)%Z
      with ((checkId a - m) + Z.of_nat (length l))%Z by lia.
    rewrite seqZ_app by lia. do 3 f_equal. lia.
  - rewrite Hwb. by apply Forall_app.
Qed.

Definition room_for (n : nat) (a : agent) : Prop := (checkId a + Z.of_nat n < 2 ^ 64)%Z.

Lemma agent_turn_numbered m e a b :
  numbered m a → room_for (entries_read e) a → agent_turn e a = Ret () b →
  ∃ m', numbered m' b ∧ (checkId b ≤ checkId a + Z.of_nat (entries_read e))%Z.
Proof.
  intros Hn Hroom. pose proof (num_bounds m a Hn) as Hb. unfold room_for in Hroom.
  assert (∀ (contents : list dir_entry) (r : list Check) a', (checkId a + Z.of_nat (length contents) < 2 ^ 64)%Z →
    for_fold contents [] load_entry a = Ret r a' →
    length r ≤ length contents ∧ loading (length r) a a' ∧ fresh_checks a r) as Hload.
  { intros contents r a' H1 (l & -> & H2 & H3 & H4)%load_loop; [|lia..]. by split_and!. }
  destruct e as [now| |path zone contents|relevant contents|frame|]; cbn [agent_turn entries_read] in *.
  - intros E. destruct (take_bundle_numbered m now a b Hn E) as (m' & ? & ->). exists m'.
    split; [done|lia].
  - unfold take_response. rewrite bind_app. cbn [gets]. destruct (a_responses a) as [|f q]; [done|].
    rewrite bind_app. cbn [modify]. intros E.
    apply (handle_response_books m) in E as [? E]; [exists m; split; [done|]; cbn in E; lia|].
    destruct Hn. by split.
  - unfold applyInitialChecks, loadChecks. rewrite bind_app.
    destruct contents as [contents|]; [|intros [= <-]; exists m; split; [done|lia]].
    rewrite bind_app. destruct (for_fold contents [] load_entry a) as [r a'|] eqn:E; [|done].
    apply Hload in E as (H1 & H2 & H3); [|done]. intros [= <-]. exists m. split.
    + eapply (load_numbered m r _ a a'); try done. cbn. by rewrite app_nil_r.
    + cbn. unfold loading in H2. rewrite H2. cbn. lia.
  - rewrite bind_app. cbn [gets]. destruct (a_watching a); [done|].
    unfold runFileWatcher, when, loadChecks. destruct relevant; [|intros [= <-]; exists m; split; [done|lia]].
    rewrite bind_app. destruct contents as [contents|]; [|intros [= <-]; exists m; split; [done|lia]].
    rewrite bind_app. destruct (for_fold contents [] load_entry a) as [r a'|] eqn:E; [|done].
    apply Hload in E as (H1 & H2 & H3); [|done]. intros [= <-]. exists m. split.
    + by apply (load_numbered m r {| checksToStart := []; checksToRestart := [];
        unclassified := Some r |} a a').
    + cbn. unfold loading in H2. rewrite H2. cbn. lia.
  - intros [= <-]. exists m. split; [destruct Hn; by split|cbn; lia].
  - unfold agent_Close. rewrite bind_app. cbn [gets]. intros [= <-]. exists m.
    split; [destruct Hn; by split|cbn; lia].
Qed.

Lemma agent_run_numbered m es a b :
  numbered m a → room_for (sum_list (entries_read <$> es)) a → agent_run es a = Ret () b →
  ∃ m', numbered m' b ∧ (checkId b ≤ checkId a + Z.of_nat (sum_list (entries_read <$> es)))%Z.
Proof.
  unfold agent_run. revert m a. induction es as [|e es IH]; intros m a Hn Hroom.
  - intros [= <-]. exists m. split; [done|lia].
  - cbn [for_each]. rewrite bind_app. unfold room_for in *. cbn in Hroom.
    destruct (agent_turn e a) as [[] a'|] eqn:E; [|done].
    apply (agent_turn_numbered m) in E as (m' & Hn' & Hle); [|done|unfold room_for; lia].
    intros Eb. apply (IH m') in Eb as (m2 & Hn2 & Hle2); [|done|lia]. exists m2.
    split; [done|]. cbn. lia.
Qed.

Lemma new_agent_numbered parent source params size s a errs s' :
  newAgent parent source params size s = Ret (Some a, errs) s' → numbered 0 a.
Proof.
  unfold newAgent. destruct (hp_ZoneIds params) as [|z zs] eqn:Ez; [done|].
  rewrite bind_app. cbn [WithCancel]. rewrite bind_app. intros [= <- _ _].
  by split.
Qed.

(** ** Properties *)

(** C22: a preparation sends, in this order and under consecutive identifiers,
    the manifest (the checks to start, then those to restart), the definitions
    of all these checks in their order, in as few blocks of at most
    [prepareBlockSize] as possible and none empty, and the end; it remembers
    the preparation under the identifier of the manifest, with the next
    version, as not committing, and changes nothing else. *)
Theorem prepare_checks_spec now start restart a :
  (0 < prepareBlockSize a)%Z → ids_left a (length (start ++ restart) + 3) →
  let k := Z.to_nat (prepareBlockSize a) in
  let version := to_u64 (checksVersion a + 1) in
  let id := (outMsgId a + 1)%Z in
  runs (prepareChecks now start restart) a (λ _ b, ∃ blocks,
    concat blocks = start ++ restart
    ∧ Forall (λ block, 0 < length block ≤ k) blocks
    ∧ length blocks = Nat.div (length (start ++ restart) + (k - 1)) k
    ∧ b = sent (prepare_frames (to_i64 version) id (manifest_of start restart) blocks)
        (put_pendingPrepares (<[id :=
            {| pp_version := version; pp_checkIds := GetID <$> start ++ restart;
               committing := false; pp_sent := now |}]> (pendingPrepares a))
          (put_checksVersion version a))).
Proof.
  intros Hsize Hids k version id. unfold runs. rewrite prepare_checks_app by done.
  exists (blocks_of a (start ++ restart)). split_and!; [exact (concat_chunk_from _ [] _)|..|done].
  - apply (chunk_from_sizes k [] (start ++ restart)); cbn; lia.
  - apply (length_chunk_from k [] (start ++ restart)); cbn; lia.
Qed.

Lemma run_numbered parent source params size s a0 errs s' es a :
  newAgent parent source params size s = Ret (Some a0, errs) s' →
  (Z.of_nat (sum_list (entries_read <$> es)) < 2 ^ 64)%Z →
  agent_run es a0 = Ret () a → ∃ m, numbered m a ∧ (checkId a < 2 ^ 64)%Z.
Proof.
  intros H Hn Hrun. assert (checkId a0 = 0%Z) as E.
  { unfold newAgent in H. destruct (hp_ZoneIds params); [done|].
    rewrite bind_app in H. cbn [WithCancel] in H. rewrite bind_app in H.
    by injection H as <- _ _. }
  destruct (agent_run_numbered 0 es a0 a) as (m & ? & ?); [by eapply new_agent_numbered| |done|].
  - unfold room_for. rewrite E. lia.
  - exists m. split; [done|]. lia.
Qed.

(** C23: an update from the directory only restarts checks the poller does not
    have.  Whatever has happened to an agent whose directories held fewer than
    2^64 files in all, when the next bundle is an update and checks have been
    committed, none of the checks of the update is among the committed ones and
    every check of it can be sent; and what the agent sends when it takes the
    bundle is a preparation of all of them, whose manifest says for each to
    restart it. *)
Theorem updates_restart_unknown parent source params size s a0 errs s' es a bundle q l X :
  newAgent parent source params size s = Ret (Some a0, errs) s' →
  (Z.of_nat (sum_list (entries_read <$> es)) < 2 ^ 64)%Z →
  agent_run es a0 = Ret () a →
  a_preparations a = bundle :: q → unclassified bundle = Some l → committedChecks a = Some X →
  Forall (λ ch, (GetID ch ∉ X) ∧ loaded ch) l
  ∧ ∀ now, (0 < prepareBlockSize a)%Z → ids_left a (length l + 3) →
      let version := to_u64 (checksVersion a + 1) in
      let id := (outMsgId a + 1)%Z in
      runs (take_bundle now) a (λ _ b, ∃ blocks, concat blocks = l
        ∧ b = sent (prepare_frames (to_i64 version) id
                      ((λ ch, newManifest ch PrepareActionRestart) <$> l) blocks)
            (put_pendingPrepares (<[id :=
                {| pp_version := version; pp_checkIds := GetID <$> l; committing := false;
                   pp_sent := now |}]> (pendingPrepares a))
              (put_checksVersion version (put_a_preparations q a)))).
Proof.
  intros Hnew Hlen Hrun Hq Hl HX. destruct (run_numbered _ _ _ _ _ _ _ _ _ _ Hnew Hlen Hrun)
    as (m & [Hb Hc _ Hw Hld] & Hmax).
  assert (l ⊆ waiting a) as Hin.
  { unfold waiting. rewrite Hq. cbn. unfold checks_of_bundle. rewrite Hl. cbn.
    intros ch Hch. set_solver. }
  assert (Forall (λ ch, GetID ch ∉ X) l) as Hfresh.
  { apply Forall_forall. intros ch Hch Hid. destruct (Hc X _ HX Hid) as (n & Hn & E).
    assert (GetID ch ∈ GetID <$> waiting a) as Hg by (by apply list_elem_of_fmap_2, Hin).
    rewrite Hw in Hg. apply list_elem_of_fmap in Hg as (n' & E' & Hn'). apply elem_of_seqZ in Hn'.
    rewrite E in E'. apply check_id_inj in E'; unfold is_u64; lia. }
  split.
  - apply Forall_and. split; [done|]. apply Forall_forall. intros ch Hch.
    rewrite Forall_forall in Hld. by apply Hld, Hin.
  - intros now Hsize Hids version id. unfold runs, take_bundle. rewrite bind_app. cbn [gets].
    rewrite Hq, bind_app. cbn [modify]. rewrite bind_app. unfold classify.
    rewrite Hl, (classify_fresh l ([], []) X (put_a_preparations q a) HX Hfresh).
    rewrite (prepare_checks_app now [] l) by done.
    eexists (blocks_of a l). split; [exact (concat_chunk_from _ [] _)|reflexivity].
Qed.
