(* ===== verification/AgentSafety.v ===== *)
(** The turns in which an agent of the endpoint panics, exactly: a definition
    without details in a file of checks, an update of the checks before the
    first commit, a negative size of the blocks. *)
From S2P Require Export Agent.

(** ** Loading *)

(** A document from which [NewCheck] panics: [null], or a definition of a known
    type without details. *)
Definition crashing_document (doc : json) : Prop :=
  match Unmarshal (c_ptr c_checkin zero_checkin) doc (Some zero_checkin) with
  | (None, true) => True
  | (Some ci, true) => initiation_of ci = Crashed
  | (_, false) => False
  end.
Definition crashing_entry (e : dir_entry) : Prop :=
  ∃ name doc, e = (name, false, Some doc) ∧ HasSuffix name CheckFileSuffix = true
    ∧ crashing_document doc.
Definition crashing_dir (contents : option (list dir_entry)) : Prop :=
  Exists crashing_entry (default [] contents).

Lemma new_check_reacts ctx doc (s : Contexts) : reacts (crashing_document doc) (NewCheck ctx doc s).
Proof.
  unfold NewCheck, crashing_document. rewrite bind_app. cbn [WithCancel].
  destruct (Unmarshal _ doc _) as [[ci|] []].
  - rewrite bind_app. cbn [deref].
    change (mret (M := go Contexts) ci ?x) with (Ret (S := Contexts) ci x). cbv beta iota.
    match goal with |- reacts _ (resolveCheckType ?b ?st) => pose proof (resolve_cases b st) as H end.
    cbn [base_CheckIn] in H. destruct (initiation_of ci).
    + destruct H as (ch & -> & _). by right.
    + rewrite H. by right.
    + rewrite H. by left.
  - right. split; [by intros []|done].
  - left. by split.
  - right. split; [by intros []|done].
Qed.

Lemma load_entry_reacts acc e a : reacts (crashing_entry e) (load_entry acc e a).
Proof.
  destruct e as [[name is_dir] doc]. unfold load_entry.
  destruct (negb is_dir && HasSuffix name CheckFileSuffix) eqn:Ef.
  - apply andb_prop in Ef as [Hd%negb_true_iff Hf]. subst is_dir.
    apply reacts_bind.
    + unfold decodeCheck. rewrite bind_app. cbn [gets]. destruct doc as [doc|].
      * apply (reacts_change (crashing_document doc)); [unfold crashing_entry; naive_solver|].
        unfold agent_context_op, zoom. pose proof (new_check_reacts (a_ctx a) doc (a_contexts a)) as H.
        by destruct (NewCheck _ _ _).
      * right. split; [by intros (? & ? & ? & _)|done].
    + by intros [ch|err] b _ _.
  - right. split; [|done]. intros (n & d & [= -> -> ->] & Hs & _). by rewrite Hs in Ef.
Qed.

Lemma load_reacts contents a : reacts (crashing_dir contents) (loadChecks contents a).
Proof.
  destruct contents as [contents|]; unfold crashing_dir; cbn [loadChecks default].
  - apply reacts_bind; [|done]. apply reacts_for_fold. intros. apply load_entry_reacts.
  - right. split; [by intros ?%Exists_nil|done].
Qed.

(** ** Preparing *)
Definition to_prepare (b : prepareBundle) : list Check :=
  match unclassified b with Some l => l | None => checksToStart b ++ checksToRestart b end.

(** Before the first commit there is nothing to classify an update by. *)
Definition premature (b : prepareBundle) (a : agent) : Prop :=
  committedChecks a = None ∧ ∃ ch l, unclassified b = Some (ch :: l).

Lemma classify_reacts b a : reacts (premature b a) (classify b a).
Proof.
  unfold classify, premature. destruct (unclassified b) as [l|] eqn:El.
  - destruct (committedChecks a) as [X|] eqn:Ec.
    + right. split; [by intros [? _]|]. clear El. generalize (([], []) : list Check * list Check).
      induction l as [|ch l IH]; intros acc; [done|].
      cbn [for_fold]. rewrite bind_app, classify_one_app, Ec. apply IH.
    + destruct l as [|ch l]; [right; split; [naive_solver|done]|].
      left. split; [by eauto|]. cbn [for_fold]. by rewrite bind_app, classify_one_app, Ec.
  - right. split; [naive_solver|done].
Qed.

Lemma fill_block_returns p ch a :
  (0 ≤ prepareBlockSize a)%Z ∨ p ≠ None →
  runs (fill_block p ch) a (λ _ b, prepareBlockSize b = prepareBlockSize a).
Proof.
  intros Hs. cbv beta iota zeta delta [fill_block make_with_cap runs mbind go_bind gets mret go_ret halt].
  destruct p as [p|].
  - by case_bool_decide.
  - destruct Hs as [Hs|]; [|done]. rewrite bool_decide_false by lia. by case_bool_decide.
Qed.

Lemma fill_blocks_return p l a :
  (0 ≤ prepareBlockSize a)%Z → returns (for_fold l p fill_block a) = true.
Proof.
  revert p a. induction l as [|ch l IH]; intros p a Hs; [done|]. cbn [for_fold]. rewrite bind_app.
  pose proof (fill_block_returns p ch a (or_introl Hs)) as H. unfold runs in H.
  destruct (fill_block p ch a) as [p' b|]; [|done]. apply IH. by rewrite H.
Qed.

Definition bad_size (l : list Check) (a : agent) : Prop := (prepareBlockSize a < 0)%Z ∧ l ≠ [].

Lemma fill_blocks_react l a : reacts (bad_size l a) (for_fold l None fill_block a).
Proof.
  destruct (decide (0 ≤ prepareBlockSize a)%Z) as [Hs|Hs].
  - right. split; [unfold bad_size; lia|]. by apply fill_blocks_return.
  - destruct l as [|ch l]; [right; split; [by intros []|done]|].
    left. split; [split; [lia|done]|]. cbn [for_fold].
    cbv beta iota zeta delta [fill_block make_with_cap mbind go_bind gets mret go_ret halt].
    by rewrite bool_decide_true by lia.
Qed.

Lemma prepare_reacts_to_size now start restart a :
  reacts (bad_size (start ++ restart) a) (prepareChecks now start restart a).
Proof.
  unfold prepareChecks. rewrite bind_app. cbn [modify]. rewrite bind_app. cbn [gets].
  set (a1 := put_checksVersion _ a). rewrite bind_app. unfold allocateMsgId at 1.
  rewrite bind_app. cbn [modify gets]. rewrite bind_app. cbn [modify]. rewrite bind_app.
  unfold sendTo at 1. cbn [modify]. set (a2 := put_a_responder _ _).
  apply reacts_bind; [exact (fill_blocks_react _ a2)|]. by intros [p|] b _ _.
Qed.

Lemma take_bundle_reacts now a b q :
  a_preparations a = b :: q →
  reacts (premature b a ∨ bad_size (to_prepare b) a) (take_bundle now a).
Proof.
  intros Eq. unfold take_bundle, reacts. rewrite bind_app. cbn [gets]. rewrite Eq, bind_app.
  cbn [modify]. set (a1 := put_a_preparations q a). rewrite bind_app.
  destruct (classify_reacts b a1) as [[Hp Hpan]|[Hp Hret]].
  - left. split; [by left|]. by destruct (classify b a1).
  - destruct (classify b a1) as [[start restart] a1'|] eqn:Ec; [|done].
    assert (a1' = a1 ∧ start ++ restart ≡ₚ to_prepare b) as [-> Hl].
    { unfold classify in Ec. unfold to_prepare. destruct (unclassified b) as [l|].
      - apply (classify_loop l ([], [])) in Ec. by destruct Ec.
      - by injection Ec as <- <- <-. }
    assert (bad_size (start ++ restart) a1 ↔ bad_size (to_prepare b) a) as Hb.
    { unfold bad_size. split; intros [Hs Hn]; split; try done; intros E; rewrite E in Hl.
      - by apply Permutation_nil_r in Hl.
      - by apply symmetry, Permutation_nil_r in Hl. }
    destruct (prepare_reacts_to_size now start restart a1) as [[]|[]]; [left|right]; [tauto|].
    split; [|done]. intros [|]; tauto.
Qed.

Lemma handle_response_returns frame a : returns (agent_handleResponse frame a) = true.
Proof.
  unfold agent_handleResponse. rewrite bind_app. cbn [gets].
  destruct (pendingPrepares a !! _) as [p|]; [|done]. destruct (committing p).
  - destruct (unmarshal_raw _ _ _) as [r|]; [|done].
    unfold handlePollerCommitResponse, when. by case_bool_decide.
  - destruct (unmarshal_raw _ _ _) as [r|]; [|done].
    unfold handlePollerPrepareResponse. by case_bool_decide.
Qed.

(** ** Turns *)
Definition turn_panics (e : agent_event) (a : agent) : Prop :=
  match e with
  | EvBundle _ =>
      match a_preparations a with
      | b :: _ => premature b a ∨ bad_size (to_prepare b) a
      | [] => False
      end
  | EvInitial _ _ contents => crashing_dir contents
  | EvWatch relevant contents => relevant = true ∧ a_watching a ≠ [] ∧ crashing_dir contents
  | _ => False
  end.

Lemma agent_turn_panics e a : panics (agent_turn e a) ↔ turn_panics e a.
Proof.
  destruct e as [now| |path zone contents|relevant contents|frame|]; cbn [agent_turn turn_panics];
    [| | | |done..].
  - destruct (a_preparations a) as [|b q] eqn:Eq.
    + unfold take_bundle. rewrite bind_app. cbn [gets]. by rewrite Eq.
    + by apply reacts_iff, take_bundle_reacts with q.
  - unfold take_response. rewrite bind_app. cbn [gets]. destruct (a_responses a) as [|f q]; [naive_solver|].
    rewrite bind_app. cbn [modify].
    pose proof (handle_response_returns f (put_a_responses q a)) as H.
    destruct (agent_handleResponse f _); naive_solver.
  - apply reacts_iff. unfold applyInitialChecks. apply reacts_bind; [apply load_reacts|]. by intros [l|].
  - rewrite bind_app. cbn [gets]. destruct (a_watching a) as [|w ws]; [naive_solver|].
    destruct relevant; [|naive_solver]. unfold runFileWatcher, when. apply reacts_iff.
    apply (reacts_change (crashing_dir contents)); [naive_solver|].
    apply reacts_bind; [apply load_reacts|]. by intros [l|].
Qed.
