(* ===== verification/Server.v ===== *)
(** Component: the server of the endpoint (src/endpoint/agent_tracker.go,
    basic_server.go, metrics_router.go, src/config/endpoint_config.go): the
    frames of the connections, the agents by source and by connection, and the
    metrics they post. *)
From S2P Require Export Agent.

(** ** Configuration *)
Record EndpointConfig := {
  CertFile : string; KeyFile : string; BindAddr : string; StatsDAddr : string;
  AgentsConfigDir : string; PrepareBlockSize : Z
}.
Definition c_endpoint_config : codec EndpointConfig := c_struct [
  mk_field "CertFile" c_string "" CertFile (λ x c, Build_EndpointConfig x (KeyFile c)
    (BindAddr c) (StatsDAddr c) (AgentsConfigDir c) (PrepareBlockSize c));
  mk_field "KeyFile" c_string "" KeyFile (λ x c, Build_EndpointConfig (CertFile c) x
    (BindAddr c) (StatsDAddr c) (AgentsConfigDir c) (PrepareBlockSize c));
  mk_field "BindAddr" c_string "" BindAddr (λ x c, Build_EndpointConfig (CertFile c) (KeyFile c)
    x (StatsDAddr c) (AgentsConfigDir c) (PrepareBlockSize c));
  mk_field "StatsDAddr" c_string "" StatsDAddr (λ x c, Build_EndpointConfig (CertFile c)
    (KeyFile c) (BindAddr c) x (AgentsConfigDir c) (PrepareBlockSize c));
  mk_field "AgentsConfigDir" c_string "" AgentsConfigDir (λ x c, Build_EndpointConfig (CertFile c)
    (KeyFile c) (BindAddr c) (StatsDAddr c) x (PrepareBlockSize c));
  mk_field "PrepareBlockSize" c_int 0%Z PrepareBlockSize (λ x c, Build_EndpointConfig (CertFile c)
    (KeyFile c) (BindAddr c) (StatsDAddr c) (AgentsConfigDir c) x)].

Definition NewEndpointConfig : EndpointConfig :=
  {| CertFile := ""; KeyFile := ""; BindAddr := ""; StatsDAddr := ""; AgentsConfigDir := "";
     PrepareBlockSize := 2 |}.

(** The document of the file, when it can be read and parsed; a failure keeps
    what has been decoded. *)
Definition LoadEndpointConfig (doc : option json) (cfg : EndpointConfig)
    : EndpointConfig * option error :=
  match doc with
  | None => (cfg, Some "unreadable configuration")
  | Some doc =>
      let '(cfg, ok) := Unmarshal c_endpoint_config doc cfg in
      (cfg, if ok : bool then None else Some "unreadable configuration")
  end.

Definition DefaultPort : string := "50041".

(** The address that [ApplyConfig] binds ([net.JoinHostPort("", port)]). *)
Definition bind_address (cfg : EndpointConfig) : string :=
  if bool_decide (BindAddr cfg = "") then (":" +:+ DefaultPort)%string else BindAddr cfg.

(** [LoadCertificateFromConfig]; [LoadX509KeyPair] is the library's. *)
Definition LoadCertificateFromConfig {Certificate} (LoadX509KeyPair : string → string → Certificate + error)
    (cfg : EndpointConfig) : Certificate + error :=
  if bool_decide (CertFile cfg = "") then inr "Missing CertFile"
  else if bool_decide (KeyFile cfg = "") then inr "Missing KeyFile"
  else LoadX509KeyPair (CertFile cfg) (KeyFile cfg).

(** ** State

    [at_agents] is the store of the agents, of which the tracker holds
    references.  A connection is a number, which is also its remote address: an
    interface that holds a pointer, compared by identity.  [at_greeted] are the
    agents whose initial checks a goroutine applies; [at_conns] holds what the
    handler of a connection has written itself and whether it is closed. *)
Definition GreeterChanSize : nat := 10.
Definition MetricsPostsChanSize : nat := 50.
Definition MetricsStoreChanSize : nat := 50.
Definition IncomingChanSize : nat := 100.

Record metricsToStore := { store_agent : nat; store_params : MetricsPostContent }.
Record metricsPost := { post_params : MetricsPostContent; post_frame : FrameMsg }.
Record RouterMetric := { rm_Name : string; rm_Value : string; rm_MetricType : string }.
Record server_conn := { sc_written : list json; sc_closed : bool }.

Record AgentTracker := {
  at_cfg : EndpointConfig; agentsBySource : gmap string nat; agentsByAddr : gmap nat nat;
  at_agents : gmap nat agent; at_ctx : Context; at_contexts : Contexts; agentsToGreet : list nat;
  metricsPosts : list metricsPost; at_metrics : list metricsToStore; metricsRouter : option (list
  RouterMetric); at_greeted : list nat; at_conns : gmap nat server_conn
}.

Definition put_agentsBySource (x : gmap string nat) (s : AgentTracker) : AgentTracker :=
  {| at_cfg := at_cfg s; agentsBySource := x; agentsByAddr := agentsByAddr s; at_agents :=
  at_agents s; at_ctx := at_ctx s; at_contexts := at_contexts s; agentsToGreet := agentsToGreet s;
  metricsPosts := metricsPosts s; at_metrics := at_metrics s; metricsRouter := metricsRouter s;
  at_greeted := at_greeted s; at_conns := at_conns s |}.
Definition put_agentsByAddr (x : gmap nat nat) (s : AgentTracker) : AgentTracker :=
  {| at_cfg := at_cfg s; agentsBySource := agentsBySource s; agentsByAddr := x; at_agents :=
  at_agents s; at_ctx := at_ctx s; at_contexts := at_contexts s; agentsToGreet := agentsToGreet s;
  metricsPosts := metricsPosts s; at_metrics := at_metrics s; metricsRouter := metricsRouter s;
  at_greeted := at_greeted s; at_conns := at_conns s |}.
Definition put_at_agents (x : gmap nat agent) (s : AgentTracker) : AgentTracker :=
  {| at_cfg := at_cfg s; agentsBySource := agentsBySource s; agentsByAddr := agentsByAddr s;
  at_agents := x; at_ctx := at_ctx s; at_contexts := at_contexts s; agentsToGreet := agentsToGreet
  s; metricsPosts := metricsPosts s; at_metrics := at_metrics s; metricsRouter := metricsRouter s;
  at_greeted := at_greeted s; at_conns := at_conns s |}.
Definition put_at_contexts (x : Contexts) (s : AgentTracker) : AgentTracker :=
  {| at_cfg := at_cfg s; agentsBySource := agentsBySource s; agentsByAddr := agentsByAddr s;
  at_agents := at_agents s; at_ctx := at_ctx s; at_contexts := x; agentsToGreet := agentsToGreet
  s; metricsPosts := metricsPosts s; at_metrics := at_metrics s; metricsRouter := metricsRouter s;
  at_greeted := at_greeted s; at_conns := at_conns s |}.
Definition put_agentsToGreet (x : list nat) (s : AgentTracker) : AgentTracker :=
  {| at_cfg := at_cfg s; agentsBySource := agentsBySource s; agentsByAddr := agentsByAddr s;
  at_agents := at_agents s; at_ctx := at_ctx s; at_contexts := at_contexts s; agentsToGreet := x;
  metricsPosts := metricsPosts s; at_metrics := at_metrics s; metricsRouter := metricsRouter s;
  at_greeted := at_greeted s; at_conns := at_conns s |}.
Definition put_metricsPosts (x : list metricsPost) (s : AgentTracker) : AgentTracker :=
  {| at_cfg := at_cfg s; agentsBySource := agentsBySource s; agentsByAddr := agentsByAddr s;
  at_agents := at_agents s; at_ctx := at_ctx s; at_contexts := at_contexts s; agentsToGreet :=
  agentsToGreet s; metricsPosts := x; at_metrics := at_metrics s; metricsRouter := metricsRouter
  s; at_greeted := at_greeted s; at_conns := at_conns s |}.
Definition put_at_metrics (x : list metricsToStore) (s : AgentTracker) : AgentTracker :=
  {| at_cfg := at_cfg s; agentsBySource := agentsBySource s; agentsByAddr := agentsByAddr s;
  at_agents := at_agents s; at_ctx := at_ctx s; at_contexts := at_contexts s; agentsToGreet :=
  agentsToGreet s; metricsPosts := metricsPosts s; at_metrics := x; metricsRouter := metricsRouter
  s; at_greeted := at_greeted s; at_conns := at_conns s |}.
Definition put_metricsRouter (x : option (list RouterMetric)) (s : AgentTracker) : AgentTracker :=
  {| at_cfg := at_cfg s; agentsBySource := agentsBySource s; agentsByAddr := agentsByAddr s;
  at_agents := at_agents s; at_ctx := at_ctx s; at_contexts := at_contexts s; agentsToGreet :=
  agentsToGreet s; metricsPosts := metricsPosts s; at_metrics := at_metrics s; metricsRouter := x;
  at_greeted := at_greeted s; at_conns := at_conns s |}.
Definition put_at_greeted (x : list nat) (s : AgentTracker) : AgentTracker :=
  {| at_cfg := at_cfg s; agentsBySource := agentsBySource s; agentsByAddr := agentsByAddr s;
  at_agents := at_agents s; at_ctx := at_ctx s; at_contexts := at_contexts s; agentsToGreet :=
  agentsToGreet s; metricsPosts := metricsPosts s; at_metrics := at_metrics s; metricsRouter :=
  metricsRouter s; at_greeted := x; at_conns := at_conns s |}.
Definition put_at_conns (x : gmap nat server_conn) (s : AgentTracker) : AgentTracker :=
  {| at_cfg := at_cfg s; agentsBySource := agentsBySource s; agentsByAddr := agentsByAddr s;
  at_agents := at_agents s; at_ctx := at_ctx s; at_contexts := at_contexts s; agentsToGreet :=
  agentsToGreet s; metricsPosts := metricsPosts s; at_metrics := at_metrics s; metricsRouter :=
  metricsRouter s; at_greeted := at_greeted s; at_conns := x |}.

Definition NewAgentTracker (cfg : EndpointConfig) (ctx : Context) (contexts : Contexts)
    : AgentTracker :=
  {| at_cfg := cfg; agentsBySource := ∅; agentsByAddr := ∅; at_agents := ∅; at_ctx := ctx;
     at_contexts := contexts; agentsToGreet := []; metricsPosts := []; at_metrics := [];
     metricsRouter := None; at_greeted := []; at_conns := ∅ |}.

Definition NewMetricsRouter : list RouterMetric := [].
Definition UseMetricsRouter (mr : list RouterMetric) : go AgentTracker unit :=
  modify (put_metricsRouter (Some mr)).

Definition on_agent {A} (i : nat) (c : go agent A) : go AgentTracker A := λ s,
  match at_agents s !! i with
  | None => Halt NilDeref s
  | Some a =>
      match c a with
      | Ret r a' => Ret r (put_at_agents (<[i := a']> (at_agents s)) s)
      | Halt f a' => Halt f (put_at_agents (<[i := a']> (at_agents s)) s)
      end
  end.

(** A send on a channel of [n] places. *)
Definition send_on {A} (n : nat) (queue : AgentTracker → list A)
    (put : list A → AgentTracker → AgentTracker) (x : A) : go AgentTracker unit :=
  q ← gets queue;
  if bool_decide (length q < n) then modify (put (q ++ [x])) else halt Blocked.

(** ** Agents *)

(** The answer of [NewAgentFromHello] is the channel of the errors of the new
    agent, or one that already holds an error. *)
Definition NewAgentFromHello (frame : FrameMsg) (params : HandshakeParameters) (addr : nat)
    : go AgentTracker (nat + list error) :=
  ctx ← gets at_ctx;
  cfg ← gets at_cfg;
  '(newAgent, errors) ← zoom at_contexts put_at_contexts
    (newAgent ctx (f_Source (Common frame)) params (PrepareBlockSize cfg));
  match newAgent with
  | None => mret (inr errors)
  | Some a =>
      agents ← gets at_agents;
      let i := fresh (dom agents) in
      modify (put_at_agents (<[i := a]> agents));;
      send_on GreeterChanSize agentsToGreet put_agentsToGreet i;;
      modify (λ s, put_agentsByAddr (<[addr := i]> (agentsByAddr s)) s);;
      mret (inl i)
  end.

Definition CloseAgentByAddr (addr : nat) : go AgentTracker unit :=
  byAddr ← gets agentsByAddr;
  match byAddr !! addr with
  | None => mret ()
  | Some i =>
      modify (put_agentsByAddr (delete addr byAddr));;
      source ← on_agent i (gets a_sourceId);
      modify (λ s, put_agentsBySource (delete source (agentsBySource s)) s);;
      on_agent i agent_Close
  end.

Definition AgentTrackingError (SourceId Message : string) : error :=
  ("An error occurred while tracking an agent " +:+ SourceId +:+ ": " +:+ Message)%string.

(** [greetedAgent.errors <- err] *)
Definition report_error (err : error) : go agent unit :=
  errors ← gets a_errors;
  if bool_decide (length errors < AgentErrorChanSize) then modify (put_a_errors (errors ++ [err]))
  else halt Blocked.

Definition handleGreetedAgent (i : nat) : go AgentTracker unit :=
  sourceId ← on_agent i (gets a_sourceId);
  bySource ← gets agentsBySource;
  match bySource !! sourceId with
  | Some _ => on_agent i (report_error (AgentTrackingError sourceId "already observed"))
  | None =>
      modify (put_agentsBySource (<[sourceId := i]> bySource));;
      modify (λ s, put_at_greeted (at_greeted s ++ [i]) s)
  end.

(** [path.Clean] and [path.Join] *)
Definition clean_step (rooted : bool) (out : list string) (elem : string) : list string :=
  if bool_decide (elem = "") || bool_decide (elem = ".") then out
  else if bool_decide (elem = "..") then
    match reverse out with
    | last :: rest => if bool_decide (last = "..") then out ++ [".."] else reverse rest
    | [] => if rooted then out else [".."]
    end
  else out ++ [elem].
Definition path_Clean (p : string) : string :=
  let rooted := HasPrefix p "/" in
  let out := Join (foldl (clean_step rooted) [] (Split p "/")) "/" in
  if rooted then ("/" +:+ out)%string else if bool_decide (out = "") then "." else out.
Definition path_Join (elems : list string) : string :=
  let elems := filter (λ e, e ≠ "") elems in
  match elems with [] => "" | _ => path_Clean (Join elems "/") end.

(** The directory of an agent; [dir] reads it. *)
Definition checks_path (cfg : EndpointConfig) (zone id : string) : string :=
  path_Join [AgentsConfigDir cfg; zone; id; "checks"].

Definition tracker_applyInitialChecks (dir : string → option (list dir_entry)) (i : nat)
    : go AgentTracker unit :=
  zones ← on_agent i (gets a_zones);
  match zones with
  | [] => halt OutOfRange
  | zone :: _ =>
      cfg ← gets at_cfg;
      id ← on_agent i (gets a_id);
      let pathToChecks := checks_path cfg zone id in
      on_agent i (applyInitialChecks pathToChecks zone (dir pathToChecks))
  end.

Definition tracker_handleResponse (frame : FrameMsg) : go AgentTracker unit :=
  bySource ← gets agentsBySource;
  match bySource !! f_Source (Common frame) with
  | None => mret ()
  | Some i => on_agent i (HandleResponse frame)
  end.

(** ** Metrics *)
Definition handleCheckMetricsPost (post : metricsPost) : go AgentTracker unit :=
  send_on MetricsPostsChanSize metricsPosts put_metricsPosts post.

Definition handleMetricsPostReq (post : metricsPost) : go AgentTracker unit :=
  bySource ← gets agentsBySource;
  match bySource !! f_Source (Common (post_frame post)) with
  | None => mret ()
  | Some i =>
      send_on MetricsStoreChanSize at_metrics put_at_metrics
        {| store_agent := i; store_params := post_params post |}
  end.

Definition BuildMetricName (entityId agentId checkType checkId field : string) : string :=
  Join [entityId; agentId; checkType; checkId; field] ".".

(** [mr.metrics <- &metric] of a router that may be nil; the router drains its
    channel, so that a send waits but does not stay blocked. *)
Definition Route (m : RouterMetric) : go AgentTracker unit :=
  mr ← gets metricsRouter;
  mr ← deref mr;
  modify (put_metricsRouter (Some (mr ++ [m]))).

Section metrics.
Context `{MapRange}.

Definition route_entry (params : MetricsPostContent) (agentId : string)
    (kv : string * option MetricTVU) : go AgentTracker unit :=
  entry ← deref kv.2;
  Route {| rm_Name := BuildMetricName (mpc_EntityId params) agentId (mpc_CheckType params)
                        (mpc_CheckId params) kv.1;
           rm_Value := tvu_Value entry; rm_MetricType := tvu_Type entry |}.

(** One turn of [runMetricsDecomposer]; a nil map has no entries. *)
Definition decompose (metric : metricsToStore) : go AgentTracker unit :=
  agentId ← on_agent (store_agent metric) (gets a_id);
  let params := store_params metric in
  for_each (mpc_Metrics params) (λ outerWraps,
    for_each outerWraps (λ metricWrap,
      for_each (range (default ∅ metricWrap)) (route_entry params agentId))).

Definition take_metric : go AgentTracker unit :=
  q ← gets at_metrics;
  match q with
  | [] => halt Blocked
  | metric :: q' => modify (put_at_metrics q');; decompose metric
  end.
End metrics.

Definition zero_metrics_post_content : MetricsPostContent :=
  Build_MetricsPostContent "" "" "" [] 0 "" "" 0.

(** The two other turns of the tracker ([runAgentInteractions]). *)
Definition take_greeted : go AgentTracker unit :=
  q ← gets agentsToGreet;
  match q with
  | [] => halt Blocked
  | i :: q' => modify (put_agentsToGreet q');; handleGreetedAgent i
  end.
Definition take_post : go AgentTracker unit :=
  q ← gets metricsPosts;
  match q with
  | [] => halt Blocked
  | post :: q' => modify (put_metricsPosts q');; handleMetricsPostReq post
  end.

(** ** Connections *)
Definition ExpectedAgentHeartbeatSec : Z := 60.

Definition WriteJSON (addr : nat) (doc : json) : go AgentTracker unit :=
  conns ← gets at_conns;
  c ← deref (conns !! addr);
  modify (put_at_conns
    (<[addr := {| sc_written := sc_written c ++ [doc]; sc_closed := sc_closed c |}]> conns)).
Definition close_conn (addr : nat) : go AgentTracker unit :=
  conns ← gets at_conns;
  c ← deref (conns !! addr);
  modify (put_at_conns (<[addr := {| sc_written := sc_written c; sc_closed := true |}]> conns)).

(** A response whose own [result] hides the raw one. *)
Definition encode_response (id : Z) (result : json) : json :=
  add_member (enc c_frame {|
    Common := {| f_Version := ""; f_Id := id; f_Target := ""; f_Source := "";
                 f_Method := MethodEmpty; f_Error := None |};
    RawParams := None; RawResult := None |}) "result" result.

Definition sendHeartbeatResponse (now : Z) (addr : nat) (frame : FrameMsg) : go AgentTracker unit :=
  WriteJSON addr (encode_response (f_Id (Common frame))
    (enc c_heartbeat_result {| hbr_Timestamp := now |})).
Definition sendHandshakeResponse (addr : nat) (frame : FrameMsg) : go AgentTracker unit :=
  WriteJSON addr (encode_response (f_Id (Common frame))
    (enc c_handshake_result {| HeartbeatInterval := ExpectedAgentHeartbeatSec * 1000;
                               hr_EntityId := ""; hr_Channel := "" |})).

(** [waitOnAgentError] of a connection is a goroutine: it waits on the errors of
    an agent, or on a channel that holds an error already. *)
Definition waitOnAgentError (addr : nat) (errors : nat + list error) : go AgentTracker unit :=
  match errors with
  | inr [] => halt Blocked
  | inr (_ :: _) => close_conn addr
  | inl i =>
      errs ← on_agent i (gets a_errors);
      match errs with
      | [] => halt Blocked
      | _ :: errs' => on_agent i (modify (put_a_errors errs'));; close_conn addr
      end
  end.

(** [now] is the clock; the answer is the error, or the goroutine to start. *)
Definition server_handleFrame (now : Z) (addr : nat) (frame : FrameMsg)
    : go AgentTracker (option (nat + list error) + error) :=
  let method := f_Method (Common frame) in
  if bool_decide (method = MethodHandshakeHello) then
    match unmarshal_raw c_handshake_params zero_handshake_params (RawParams frame) with
    | None => mret (inr "unmarshal")
    | Some params =>
        sendHandshakeResponse addr frame;;
        agentErrors ← NewAgentFromHello frame params addr;
        mret (inl (Some agentErrors))
    end
  else if bool_decide (method = MethodCheckMetricsPostMulti) then
    match unmarshal_raw c_metrics_post_content zero_metrics_post_content (RawParams frame) with
    | None => mret (inr "unmarshal")
    | Some params =>
        handleCheckMetricsPost {| post_params := params; post_frame := frame |};;
        mret (inl None)
    end
  else if bool_decide (method = MethodHeartbeatPost) then
    sendHeartbeatResponse now addr frame;;
    mret (inl None)
  else if bool_decide (method = "") then
    tracker_handleResponse frame;;
    mret (inl None)
  else mret (inr ("Unsupported method: " +:+ method)%string).

(** One frame of [runConnectionHandler]: whether the handler goes on.  When it
    does not, it closes the connection. *)
Definition connection_frame (now : Z) (addr : nat) (frame : FrameMsg) : go AgentTracker bool :=
  if IsFinished frame then
    CloseAgentByAddr addr;; close_conn addr;; mret false
  else
    r ← server_handleFrame now addr frame;
    match r with
    | inr _ => close_conn addr;; mret false
    | inl _ => mret true
    end.

(** What happens to the server: a frame of a connection, a turn of one of the
    goroutines, the coordinator of an agent at work, a new connection. *)
Inductive server_event :=
| SvFrame (now : Z) (addr : nat) (frame : FrameMsg)
| SvGreet
| SvPost
| SvMetric
| SvInitial (dir : string → option (list dir_entry)) (i : nat)
| SvAgent (i : nat) (e : agent_event)
| SvError (addr : nat) (errors : nat + list error)
| SvAccept (addr : nat)
| SvRouter.

Section turns.
Context `{MapRange}.

Definition server_turn (e : server_event) : go AgentTracker unit :=
  match e with
  | SvFrame now addr frame => _ ← connection_frame now addr frame; mret ()
  | SvGreet => take_greeted
  | SvPost => take_post
  | SvMetric => take_metric
  | SvInitial dir i => tracker_applyInitialChecks dir i
  | SvAgent i e => on_agent i (agent_turn e)
  | SvError addr errors => waitOnAgentError addr errors
  | SvAccept addr =>
      modify (λ s, put_at_conns
        (<[addr := {| sc_written := []; sc_closed := false |}]> (at_conns s)) s)
  | SvRouter => UseMetricsRouter NewMetricsRouter
  end.

Definition server_run (es : list server_event) : go AgentTracker unit := for_each es server_turn.
End turns.

(** ** Agents in the store *)
Lemma on_agent_app {A} i (c : go agent A) s a r a' :
  at_agents s !! i = Some a → c a = Ret r a' →
  on_agent i c s = Ret r (put_at_agents (<[i := a']> (at_agents s)) s).
Proof. intros Hi Hc. unfold on_agent. by rewrite Hi, Hc. Qed.

Lemma on_agent_gets {A} i (f : agent → A) s a :
  at_agents s !! i = Some a → on_agent i (gets f) s = Ret (f a) s.
Proof.
  intros Hi. rewrite (on_agent_app i (gets f) s a (f a) a Hi eq_refl), insert_id by done. by destruct s.
Qed.

(** No operation of an agent changes its source or its zones. *)
Definition identity (a : agent) : string * list string := (a_sourceId a, a_zones a).

Section identity.
Context (x : string * list string).
Let I (a : agent) : Prop := identity a = x.

Lemma allocate_identity : keeps I allocateMsgId.
Proof. unfold allocateMsgId. keeps_auto. Qed.
Lemma sendTo_identity id m p : keeps I (sendTo id m p).
Proof. unfold sendTo. keeps_auto. Qed.

Lemma fill_block_identity p ch : keeps I (fill_block p ch).
Proof.
  unfold fill_block.
  repeat first [apply allocate_identity | apply sendTo_identity | apply make_keeps | progress keeps_auto].
Qed.

Lemma prepareChecks_identity now l l' : keeps I (prepareChecks now l l').
Proof.
  unfold prepareChecks.
  repeat first [apply allocate_identity | apply sendTo_identity
    | apply keeps_for_fold; intros; apply fill_block_identity | progress keeps_auto].
Qed.

Lemma loadChecks_identity contents : keeps I (loadChecks contents).
Proof.
  destruct contents as [contents|]; cbn; [|apply keeps_ret].
  apply keeps_bind; [|intros; apply keeps_ret].
  apply keeps_for_fold. intros acc [[name is_dir] doc] _. unfold load_entry, decodeCheck, agent_context_op.
  keeps_auto.
Qed.

Lemma handleResponse_identity frame : keeps I (agent_handleResponse frame).
Proof.
  unfold agent_handleResponse, handlePollerPrepareResponse, handlePollerCommitResponse.
  repeat first [apply allocate_identity | apply sendTo_identity | progress keeps_auto].
Qed.

Lemma agent_turn_identity e : keeps I (agent_turn e).
Proof.
  destruct e as [now| |path zone contents|relevant contents|frame|]; cbn [agent_turn].
  - unfold take_bundle. apply keeps_bind; [keeps_auto|intros q]. destruct q as [|b q]; [keeps_auto|].
    apply keeps_bind; [keeps_auto|intros _]. apply keeps_bind.
    + unfold classify. destruct (unclassified b); [|keeps_auto].
      apply keeps_for_fold. intros. unfold classify_one. keeps_auto.
    + intros [start restart]. apply prepareChecks_identity.
  - unfold take_response. apply keeps_bind; [keeps_auto|intros q]. destruct q; [keeps_auto|].
    apply keeps_bind; [keeps_auto|intros _]. apply handleResponse_identity.
  - unfold applyInitialChecks. apply keeps_bind; [apply loadChecks_identity|]. intros [l|]; keeps_auto.
  - apply keeps_bind; [keeps_auto|]. intros [|w ws]; [keeps_auto|]. unfold runFileWatcher.
    apply keeps_when, keeps_bind; [apply loadChecks_identity|]. intros [l|]; keeps_auto.
  - unfold HandleResponse. keeps_auto.
  - unfold agent_Close, agent_context_op. keeps_auto.
Qed.
Lemma report_error_identity err : keeps I (report_error err).
Proof. unfold report_error. keeps_auto. Qed.

Lemma HandleResponse_identity frame : keeps I (HandleResponse frame).
Proof. exact (agent_turn_identity (EvDeliver frame)). Qed.
Lemma Close_identity : keeps I agent_Close.
Proof. exact (agent_turn_identity EvClose). Qed.
End identity.

(** ** Every registered agent has the source it is registered under *)
Definition sources_right (s : AgentTracker) : Prop :=
  ∀ source i, agentsBySource s !! source = Some i →
    ∃ a, at_agents s !! i = Some a ∧ a_sourceId a = source.

Lemma on_agent_sources {A} i (c : go agent A) :
  (∀ x, keeps (λ a, identity a = x) c) → keeps sources_right (on_agent i c).
Proof.
  intros Hc s Hs. unfold on_agent. destruct (at_agents s !! i) as [a|] eqn:Hi; [|done].
  specialize (Hc (identity a) a eq_refl).
  assert (∀ a', identity a' = identity a →
    sources_right (put_at_agents (<[i := a']> (at_agents s)) s)) as Hput.
  { intros a' [= Ha' _] source j Hj. cbn in Hj. destruct (Hs source j Hj) as (b & Hb & Hsrc). cbn.
    destruct (decide (i = j)) as [->|Hne].
    - exists a'. rewrite lookup_insert_eq. split; [done|]. congruence.
    - exists b. by rewrite lookup_insert_ne. }
  destruct (c a) as [r a'|f a']; by apply Hput.
Qed.

Lemma send_on_sources {A} n queue put (x : A) :
  (∀ q s, agentsBySource (put q s) = agentsBySource s ∧ at_agents (put q s) = at_agents s) →
  keeps sources_right (send_on n queue put x).
Proof.
  intros Hput. unfold send_on. apply keeps_bind; [keeps_auto|intros q].
  case_bool_decide; [|keeps_auto]. apply keeps_modify. intros s Hs source i.
  destruct (Hput (q ++ [x]) s) as [-> ->]. apply Hs.
Qed.

Lemma newAgentFromHello_sources frame params addr :
  keeps sources_right (NewAgentFromHello frame params addr).
Proof.
  unfold NewAgentFromHello. apply keeps_bind; [keeps_auto|intros ctx].
  apply keeps_bind; [keeps_auto|intros cfg].
  apply keeps_bind; [by apply keeps_zoom|]. intros [[a|] errs]; [|keeps_auto].
  intros s Hs. rewrite bind_app. cbn [gets]. rewrite bind_app. cbn [modify].
  set (s1 := put_at_agents _ s). assert (sources_right s1) as Hs1.
  { intros source i Hi. destruct (Hs source i Hi) as (b & Hb & Hsrc). exists b. split; [|done].
    cbn. rewrite lookup_insert_ne; [done|]. intros E.
    apply (is_fresh (dom (at_agents s))). rewrite E. by apply elem_of_dom. }
  revert s1 Hs1. apply (keeps_bind sources_right); [by apply send_on_sources|intros _].
  by keeps_auto.
Qed.

Lemma sources_delete source s :
  sources_right s → sources_right (put_agentsBySource (delete source (agentsBySource s)) s).
Proof.
  intros Hs source' i Hi. cbn in Hi. apply lookup_delete_Some in Hi as [_ Hi]. by apply Hs.
Qed.

Lemma closeAgentByAddr_sources addr : keeps sources_right (CloseAgentByAddr addr).
Proof.
  unfold CloseAgentByAddr. apply keeps_bind; [keeps_auto|intros byAddr].
  destruct (byAddr !! addr) as [i|]; [|keeps_auto].
  apply keeps_bind; [keeps_auto|intros _].
  apply keeps_bind; [apply on_agent_sources; intros; keeps_auto|intros source].
  apply keeps_bind; [apply keeps_modify, sources_delete|intros _].
  apply on_agent_sources. apply Close_identity.
Qed.

Lemma handleGreetedAgent_sources i : keeps sources_right (handleGreetedAgent i).
Proof.
  intros s Hs. unfold handleGreetedAgent. rewrite bind_app.
  destruct (at_agents s !! i) as [a|] eqn:Hi; [|by unfold on_agent; rewrite Hi].
  rewrite (on_agent_gets i a_sourceId s a Hi). rewrite bind_app. cbn [gets].
  destruct (agentsBySource s !! a_sourceId a) as [j|] eqn:Hj.
  - apply on_agent_sources; [|done]. intros x. apply report_error_identity.
  - rewrite bind_app. intros source k Hk. cbn in Hk.
    apply lookup_insert_Some in Hk as [[<- <-]|[Hne Hk]].
    + by exists a.
    + by apply Hs.
Qed.

Section run.
Context `{MapRange}.

Lemma decompose_sources m : keeps sources_right (decompose m).
Proof.
  unfold decompose. apply keeps_bind; [apply on_agent_sources; intros; keeps_auto|intros id].
  do 3 (apply keeps_for_each; intros ? _). unfold route_entry, Route. keeps_auto.
Qed.

Lemma WriteJSON_sources addr doc : keeps sources_right (WriteJSON addr doc).
Proof. unfold WriteJSON. keeps_auto. Qed.

Lemma close_conn_sources addr : keeps sources_right (close_conn addr).
Proof. unfold close_conn. keeps_auto. Qed.

Lemma handleFrame_sources now addr frame : keeps sources_right (server_handleFrame now addr frame).
Proof.
  unfold server_handleFrame, sendHandshakeResponse, sendHeartbeatResponse. cbv zeta.
  repeat case_bool_decide; [| | | |keeps_auto].
  - case_match; [|keeps_auto]. apply keeps_bind; [apply WriteJSON_sources|intros _].
    apply keeps_bind; [apply newAgentFromHello_sources|]. intros; apply keeps_ret.
  - case_match; [|keeps_auto].
    apply keeps_bind; [by apply send_on_sources|]. intros; apply keeps_ret.
  - apply keeps_bind; [apply WriteJSON_sources|]. intros; apply keeps_ret.
  - apply keeps_bind; [|intros; apply keeps_ret]. unfold tracker_handleResponse.
    apply keeps_bind; [keeps_auto|intros bySource]. case_match; [|keeps_auto].
    apply on_agent_sources. intros x. apply HandleResponse_identity.
Qed.

Lemma server_turn_sources e : keeps sources_right (server_turn e).
Proof.
  destruct e as [now addr frame| | | |dir i|i e|addr errors|addr|]; cbn [server_turn].
  - apply keeps_bind; [|intros; apply keeps_ret]. unfold connection_frame.
    case_match.
    + apply keeps_bind; [apply closeAgentByAddr_sources|intros _].
      apply keeps_bind; [apply close_conn_sources|]. intros; apply keeps_ret.
    + apply keeps_bind; [apply handleFrame_sources|intros [r|err]]; [apply keeps_ret|].
      apply keeps_bind; [apply close_conn_sources|]. intros; apply keeps_ret.
  - unfold take_greeted. apply keeps_bind; [keeps_auto|intros [|i q]]; [keeps_auto|].
    apply keeps_bind; [keeps_auto|intros _]. apply handleGreetedAgent_sources.
  - unfold take_post, handleMetricsPostReq. apply keeps_bind; [keeps_auto|intros [|post q]];
      [keeps_auto|]. apply keeps_bind; [keeps_auto|intros _].
    apply keeps_bind; [keeps_auto|intros bySource]. case_match; [|keeps_auto].
    by apply send_on_sources.
  - unfold take_metric. apply keeps_bind; [keeps_auto|intros [|m q]]; [keeps_auto|].
    apply keeps_bind; [keeps_auto|intros _]. apply decompose_sources.
  - unfold tracker_applyInitialChecks.
    apply keeps_bind; [apply on_agent_sources; intros; keeps_auto|intros [|zone zs]]; [keeps_auto|].
    apply keeps_bind; [keeps_auto|intros cfg].
    apply keeps_bind; [apply on_agent_sources; intros; keeps_auto|intros id].
    apply on_agent_sources. intros x. exact (agent_turn_identity x (EvInitial _ _ _)).
  - apply on_agent_sources. intros x. apply agent_turn_identity.
  - unfold waitOnAgentError. destruct errors as [i|[|err errs]];
      [|keeps_auto|apply close_conn_sources].
    apply keeps_bind; [apply on_agent_sources; intros; keeps_auto|intros [|err errs]]; [keeps_auto|].
    apply keeps_bind; [apply on_agent_sources; intros; keeps_auto|intros _].
    apply close_conn_sources.
  - keeps_auto.
  - unfold UseMetricsRouter. keeps_auto.
Qed.

Lemma server_run_sources es : keeps sources_right (server_run es).
Proof. apply keeps_for_each. intros e _. apply server_turn_sources. Qed.

(** C33: a response only reaches the agent that said hello from its source.
    Whatever has happened to a server since it started, a response frame is
    queued on one agent whose handshake had the source of the frame, or dropped
    when no agent is registered under that source; nothing else changes. *)
Theorem responses_reach_their_agent cfg ctx contexts es s frame :
  server_run es (NewAgentTracker cfg ctx contexts) = Ret () s →
  let source := f_Source (Common frame) in
  match agentsBySource s !! source with
  | None => tracker_handleResponse frame s = Ret () s
  | Some i => ∃ a, at_agents s !! i = Some a ∧ a_sourceId a = source
      ∧ tracker_handleResponse frame s =
          Ret () (put_at_agents (<[i := put_a_responses (a_responses a ++ [frame]) a]>
                    (at_agents s)) s)
  end.
Proof.
  intros Hrun source. pose proof (server_run_sources es (NewAgentTracker cfg ctx contexts)) as Hk.
  rewrite Hrun in Hk. unfold tracker_handleResponse, source.
  change (gets agentsBySource ≫= ?k) with (λ s', k (agentsBySource s') s'). cbv beta.
  destruct (agentsBySource s !! f_Source (Common frame)) as [i|] eqn:Hi; [|done].
  destruct (Hk ltac:(by intros ? ? ?) _ _ Hi) as (a & Ha & Hsource).
  exists a. split_and!; [done..|]. unfold on_agent. cbn [state_of] in Ha. by rewrite Ha.
Qed.
End run.

(** A frame with a method is not the last one. *)
Lemma method_unfinished frame : f_Method (Common frame) ≠ "" → IsFinished frame = false.
Proof.
  intros Hm. unfold IsFinished. by rewrite (bool_decide_false (f_Method _ = "")), andb_false_r.
Qed.

(** ** A second hello from a source *)
Lemma newAgent_app ctx source params size contexts :
  hp_ZoneIds params ≠ [] →
  ∃ a contexts', newAgent ctx source params size contexts = Ret (Some a, []) contexts'
    ∧ a_sourceId a = source ∧ a_errors a = [].
Proof.
  intros Hz. unfold newAgent. destruct (hp_ZoneIds params) eqn:E; [done|].
  rewrite bind_app. cbn. eauto.
Qed.

(** [s] after a hello whose agent, [j], waits to be greeted. *)
Definition introduced (addr j : nat) (a : agent) (contexts : Contexts) (c : server_conn)
    (s : AgentTracker) : AgentTracker :=
  put_agentsByAddr (<[addr := j]> (agentsByAddr s))
    (put_agentsToGreet [j] (put_at_agents (<[j := a]> (at_agents s))
      (put_at_contexts contexts (put_at_conns (<[addr := c]> (at_conns s)) s)))).

Lemma hello_app now addr frame params s c :
  f_Method (Common frame) = MethodHandshakeHello →
  unmarshal_raw c_handshake_params zero_handshake_params (RawParams frame) = Some params →
  hp_ZoneIds params ≠ [] → at_conns s !! addr = Some c → agentsToGreet s = [] →
  ∃ a contexts c', connection_frame now addr frame s =
      Ret true (introduced addr (fresh (dom (at_agents s))) a contexts c' s)
    ∧ a_sourceId a = f_Source (Common frame) ∧ a_errors a = [] ∧ sc_closed c' = sc_closed c.
Proof.
  intros Hm Hp Hz Hc Hg.
  destruct (newAgent_app (at_ctx s) (f_Source (Common frame)) params (PrepareBlockSize (at_cfg s))
    (at_contexts s) Hz) as (a & contexts & Ea & Hs & He).
  exists a, contexts. eexists. split_and!; [|done|done|].
  - unfold connection_frame.
    rewrite (method_unfinished frame) by (by rewrite Hm).
    unfold server_handleFrame. rewrite Hm. cbv zeta. rewrite bool_decide_true by done. rewrite Hp.
    unfold sendHandshakeResponse, WriteJSON. rewrite bind_app. rewrite bind_app. rewrite bind_app.
    cbn [gets]. rewrite Hc. rewrite bind_app. cbn [deref mret go_ret].
    change (mret (M := go AgentTracker) c s) with (Ret (S := AgentTracker) c s).
    cbv beta iota. cbn [modify]. unfold NewAgentFromHello. rewrite bind_app. rewrite bind_app.
    cbn [gets]. rewrite bind_app. cbn [gets]. rewrite bind_app. unfold zoom.
    cbn [at_ctx at_cfg at_contexts put_at_conns]. rewrite Ea. cbv beta iota.
    rewrite bind_app. cbn [gets]. rewrite bind_app. cbn [modify]. rewrite bind_app.
    unfold send_on. rewrite bind_app. cbn [gets agentsToGreet put_at_agents put_at_contexts put_at_conns].
    rewrite Hg. reflexivity.
  - done.
Qed.

Lemma greet_known addr j a contexts c s i :
  agentsBySource s !! a_sourceId a = Some i → a_errors a = [] →
  take_greeted (introduced addr j a contexts c s) =
    Ret () (put_agentsToGreet [] (put_at_agents
      (<[j := put_a_errors [AgentTrackingError (a_sourceId a) "already observed"] a]> (at_agents s))
      (introduced addr j a contexts c s))).
Proof.
  intros Hi He. unfold take_greeted. rewrite bind_app. cbn [gets introduced agentsToGreet
    put_agentsByAddr put_agentsToGreet].
  rewrite bind_app. cbn [modify]. unfold handleGreetedAgent. rewrite bind_app.
  set (s1 := put_agentsToGreet [] _).
  assert (at_agents s1 !! j = Some a) as Hj by apply lookup_insert_eq.
  rewrite (on_agent_gets j a_sourceId s1 a Hj), bind_app. cbn [gets].
  change (agentsBySource s1) with (agentsBySource s). rewrite Hi.
  rewrite (on_agent_app j _ s1 a () (put_a_errors
    [AgentTrackingError (a_sourceId a) "already observed"] a) Hj).
  - f_equal. subst s1. cbn [at_agents put_agentsToGreet introduced put_agentsByAddr put_at_agents].
    by rewrite insert_insert_eq.
  - unfold report_error. rewrite bind_app. cbn [gets]. by rewrite He.
Qed.

(** A poller that comes back after a frame its connection could not handle
    is refused.  When a frame of a registered poller has a method that the
    server does not know, the handler of the connection ends without
    unregistering the agent, and the hello of the next connection of the poller
    gets the error that its source has been observed already. *)
Theorem reconnect_refused now addr bad addr' hello params s i c c' :
  let source := f_Source (Common hello) in
  f_Method (Common bad) ∉ [""; MethodHandshakeHello; MethodCheckMetricsPostMulti; MethodHeartbeatPost] →
  f_Method (Common hello) = MethodHandshakeHello →
  unmarshal_raw c_handshake_params zero_handshake_params (RawParams hello) = Some params →
  hp_ZoneIds params ≠ [] → agentsBySource s !! source = Some i → agentsToGreet s = [] →
  at_conns s !! addr = Some c → at_conns s !! addr' = Some c' → addr ≠ addr' →
  let j := fresh (dom (at_agents s)) in
  runs (connection_frame now addr bad) s (λ goes_on t, goes_on = false ∧
    runs (connection_frame now addr' hello;; take_greeted) t (λ _ u,
      agentsBySource u !! source = Some i
      ∧ ∃ a, at_agents u !! j = Some a
          ∧ a_errors a = [AgentTrackingError source "already observed"])).
Proof.
  intros source Hbad Hm Hp Hz Hi Hg Hc Hc' Hne j.
  rewrite !not_elem_of_cons in Hbad. destruct Hbad as (B1 & B2 & B3 & B4 & _).
  set (t := put_at_conns (<[addr := {| sc_written := sc_written c; sc_closed := true |}]>
    (at_conns s)) s).
  assert (connection_frame now addr bad s = Ret false t) as E1.
  { unfold connection_frame.
    rewrite (method_unfinished bad) by done.
    unfold server_handleFrame. rewrite !bool_decide_false by done. cbv zeta. rewrite bind_app.
    change (mret (M := go AgentTracker) ?x s) with (Ret (S := AgentTracker) x s). cbv beta iota.
    unfold close_conn. rewrite bind_app, bind_app. cbn [gets]. by rewrite Hc. }
  apply (runs_ret _ _ _ _ _ E1). split; [done|].
  destruct (hello_app now addr' hello params t c' Hm Hp Hz) as (a & contexts & c2 & E2 & Hs & He & _);
    [by cbn; rewrite lookup_insert_ne|done|].
  apply runs_bind, (runs_ret _ _ _ _ _ E2).
  assert (agentsBySource t !! a_sourceId a = Some i) as Hi' by (rewrite Hs; exact Hi).
  apply (runs_ret _ _ _ _ _ (greet_known addr' _ a contexts c2 t i Hi' He)).
  split; [exact Hi|]. eexists. split; [apply lookup_insert_eq|]. cbn. by rewrite Hs.
Qed.

(** ** Losing the duplicate *)
Lemma wait_error_app addr j a err s c :
  at_agents s !! j = Some a → a_errors a = [err] → at_conns s !! addr = Some c →
  waitOnAgentError addr (inl j) s = Ret () (put_at_conns
    (<[addr := {| sc_written := sc_written c; sc_closed := true |}]> (at_conns s))
    (put_at_agents (<[j := put_a_errors [] a]> (at_agents s)) s)).
Proof.
  intros Hj He Hc. unfold waitOnAgentError. rewrite bind_app, (on_agent_gets j a_errors s a Hj), He.
  rewrite bind_app, (on_agent_app j _ s a () (put_a_errors [] a) Hj eq_refl).
  unfold close_conn. rewrite bind_app. cbn [gets at_conns put_at_agents]. by rewrite bind_app, Hc.
Qed.

Lemma finished_app now addr j a s c :
  agentsByAddr s !! addr = Some j → at_agents s !! j = Some a → at_conns s !! addr = Some c →
  connection_frame now addr NewFinishedFrame s = Ret false (put_at_conns
    (<[addr := {| sc_written := sc_written c; sc_closed := true |}]> (at_conns s))
    (put_at_agents (<[j := put_a_contexts (cancel_in (a_ctx a) (a_contexts a)) a]> (at_agents s))
      (put_agentsBySource (delete (a_sourceId a) (agentsBySource s))
        (put_agentsByAddr (delete addr (agentsByAddr s)) s)))).
Proof.
  intros Hj Ha Hc. unfold connection_frame.
  change (IsFinished NewFinishedFrame) with true. cbv iota. rewrite bind_app.
  unfold CloseAgentByAddr. rewrite bind_app. cbn [gets]. rewrite Hj, bind_app. cbn [modify].
  set (s1 := put_agentsByAddr _ s). rewrite bind_app, (on_agent_gets j a_sourceId s1 a Ha), bind_app.
  cbn [modify]. set (s2 := put_agentsBySource _ s1).
  rewrite (on_agent_app j agent_Close s2 a () (put_a_contexts (cancel_in (a_ctx a) (a_contexts a)) a)
    Ha eq_refl).
  rewrite bind_app. unfold close_conn. rewrite bind_app.
  cbn [gets at_conns put_at_agents s1 s2 put_agentsBySource put_agentsByAddr].
  by rewrite bind_app, Hc.
Qed.

(** A duplicate hello unregisters the original.  When a second connection
    says hello from the source of a registered agent, the error closes that
    connection, whose end then removes the entry of the source: the original
    agent, on its own connection, is neither closed nor told, and its poller's
    responses and metrics are dropped from then on. *)
Theorem duplicate_unregisters_original now addr hello params s i a c :
  let source := f_Source (Common hello) in
  f_Method (Common hello) = MethodHandshakeHello →
  unmarshal_raw c_handshake_params zero_handshake_params (RawParams hello) = Some params →
  hp_ZoneIds params ≠ [] → agentsBySource s !! source = Some i → at_agents s !! i = Some a →
  agentsToGreet s = [] → at_conns s !! addr = Some c →
  let j := fresh (dom (at_agents s)) in
  runs (connection_frame now addr hello;; take_greeted;; waitOnAgentError addr (inl j);;
        connection_frame now addr NewFinishedFrame) s (λ _ t,
    agentsBySource t = delete source (agentsBySource s)
    ∧ at_agents t !! i = Some a
    ∧ (∀ frame, f_Source (Common frame) = source → tracker_handleResponse frame t = Ret () t)).
Proof.
  intros source Hm Hp Hz Hi Ha Hg Hc j.
  destruct (hello_app now addr hello params s c Hm Hp Hz Hc Hg) as (b & contexts & c2 & E & Hs & He & _).
  apply runs_bind, (runs_ret _ _ _ _ _ E). clear E. fold j.
  assert (agentsBySource s !! a_sourceId b = Some i) as Hi' by (rewrite Hs; exact Hi).
  apply runs_bind, (runs_ret _ _ _ _ _ (greet_known addr j b contexts c2 s i Hi' He)).
  assert (i ≠ j) as Hij.
  { intros ->. apply (is_fresh (dom (at_agents s))). fold j. apply elem_of_dom. by exists a. }
  set (b1 := put_a_errors _ b). set (s1 := put_agentsToGreet [] _).
  assert (at_agents s1 !! j = Some b1) as Hj by apply lookup_insert_eq.
  assert (at_conns s1 !! addr = Some c2) as Hc2 by apply lookup_insert_eq.
  apply runs_bind, (runs_ret _ _ _ _ _ (wait_error_app addr j b1 _ s1 c2 Hj eq_refl Hc2)).
  set (s2 := put_at_conns _ _).
  assert (agentsByAddr s2 !! addr = Some j) as Hj2 by apply lookup_insert_eq.
  assert (at_agents s2 !! j = Some (put_a_errors [] b1)) as Hb2 by apply lookup_insert_eq.
  assert (∃ c3, at_conns s2 !! addr = Some c3) as [c3 Hc3] by (eexists; apply lookup_insert_eq).
  apply (runs_ret _ _ _ _ _ (finished_app now addr j _ s2 c3 Hj2 Hb2 Hc3)).
  split_and!.
  - change (a_sourceId (put_a_errors [] b1)) with (a_sourceId b). by rewrite Hs.
  - cbn. rewrite !lookup_insert_ne by done. exact Ha.
  - intros frame Hf. unfold tracker_handleResponse. rewrite bind_app. cbn [gets]. rewrite Hf.
    cbn [agentsBySource put_at_conns put_at_agents put_agentsBySource].
    change (a_sourceId (put_a_errors [] b1)) with (a_sourceId b). rewrite Hs. fold source.
    by rewrite lookup_delete_eq.
Qed.

(** ** Decomposing a post *)
Definition router_metric (params : MetricsPostContent) (agentId : string)
    (kv : string * option MetricTVU) : list RouterMetric :=
  match kv.2 with
  | Some entry => [{| rm_Name := BuildMetricName (mpc_EntityId params) agentId
                                   (mpc_CheckType params) (mpc_CheckId params) kv.1;
                      rm_Value := tvu_Value entry; rm_MetricType := tvu_Type entry |}]
  | None => []
  end.

(** The metrics of a post, map by map. *)
Definition metrics_of (params : MetricsPostContent) (agentId : string) : list RouterMetric :=
  concat (mpc_Metrics params) ≫= λ wrap,
    map_to_list (default ∅ wrap) ≫= router_metric params agentId.

Definition no_nil_entry (params : MetricsPostContent) : Prop :=
  Forall (Forall (λ wrap : option (gmap string (option MetricTVU)),
    map_Forall (λ _ e, is_Some e) (default ∅ wrap))) (mpc_Metrics params).

Definition with_router (s : AgentTracker) (mr : list RouterMetric) : AgentTracker :=
  put_metricsRouter (Some mr) s.

Lemma routes_for_each {A} (body : A → go AgentTracker unit) (f : A → list RouterMetric) l s mr :
  (∀ x mr, x ∈ l → body x (with_router s mr) = Ret () (with_router s (mr ++ f x))) →
  for_each l body (with_router s mr) = Ret () (with_router s (mr ++ (l ≫= f))).
Proof.
  revert mr. induction l as [|x l IH]; intros mr Hb; cbn.
  - by rewrite app_nil_r.
  - rewrite bind_app, Hb by by left. rewrite IH; [by rewrite (assoc_L (++))|].
    intros y mr' Hy. apply Hb. by right.
Qed.

Section decompose.
Context `{MapRange}.

Lemma route_entry_app params agentId s mr kv :
  is_Some kv.2 →
  route_entry params agentId kv (with_router s mr) =
    Ret () (with_router s (mr ++ router_metric params agentId kv)).
Proof. destruct kv as [k [e|]]; [reflexivity|by intros [? ?]]. Qed.

Lemma decompose_app m s a mr :
  at_agents s !! store_agent m = Some a → metricsRouter s = Some mr → no_nil_entry (store_params m) →
  decompose m s = Ret () (with_router s (mr ++ (mpc_Metrics (store_params m) ≫= λ outer,
    outer ≫= λ wrap, range (default ∅ wrap) ≫= router_metric (store_params m) (a_id a)))).
Proof.
  intros Ha Hr Hn. unfold decompose. rewrite bind_app, (on_agent_gets _ a_id s a Ha). cbv zeta.
  assert (s = with_router s mr) as Es by (unfold with_router; destruct s; cbn in *; by subst).
  rewrite Es at 1. unfold no_nil_entry in Hn. rewrite Forall_forall in Hn.
  apply routes_for_each. intros outer mr1 Ho. specialize (Hn outer Ho). rewrite Forall_forall in Hn.
  apply routes_for_each. intros wrap mr2 Hw. specialize (Hn wrap Hw).
  apply routes_for_each. intros [k e] mr3 Hk%elem_of_range.
  apply route_entry_app. exact (Hn k e Hk).
Qed.

(** The order of the maps does not matter. *)
Lemma decomposed_metrics params agentId :
  (mpc_Metrics params ≫= λ outer, outer ≫= λ wrap, range (default ∅ wrap) ≫= router_metric params agentId)
    ≡ₚ metrics_of params agentId.
Proof.
  unfold metrics_of. induction (mpc_Metrics params) as [|outer outers IH]; [done|].
  cbn. rewrite list.bind_app, IH. apply Permutation_app; [|done].
  clear IH. induction outer as [|wrap wraps IH]; [done|]. cbn.
  rewrite IH. apply Permutation_app; [|done]. by apply bind_Permutation, range_perm.
Qed.

(** A post is decomposed completely.  When the agent is known, a router is
    in use and no entry of the maps is null, the router is given exactly one
    metric per entry of each map, with the value and the type of the entry and
    a name made of the entity, the agent, the type and the id of the check and
    the field; and nothing else changes. *)
Theorem decompose_spec m s a mr :
  at_agents s !! store_agent m = Some a → metricsRouter s = Some mr → no_nil_entry (store_params m) →
  runs (decompose m) s (λ _ t, ∃ l,
    t = put_metricsRouter (Some (mr ++ l)) s ∧ l ≡ₚ metrics_of (store_params m) (a_id a)).
Proof.
  intros Ha Hr Hn. apply (runs_ret _ _ _ _ _ (decompose_app m s a mr Ha Hr Hn)).
  eexists. split; [reflexivity|]. apply decomposed_metrics.
Qed.
End decompose.
