(* ===== verification/ServerSafety.v ===== *)
(** The endpoint's server is well formed at every turn: its maps and queues
    refer to agents that exist, under their sources, and its goroutines do not
    panic on them.  What is left is stated exactly: the turns that end the
    process are those that decompose a post with a null entry, or in which the
    agent at work panics itself. *)
From S2P Require Export AgentSafety Server.

(** ** Well-formed servers *)
Abbreviation known s i := (i ∈ dom (at_agents s)) (only parsing).
Abbreviation accepted s addr := (addr ∈ dom (at_conns s)) (only parsing).

Record server_wf (s : AgentTracker) : Prop := {
  wf_sources : sources_right s;
  wf_zones : map_Forall (λ _ a, a_zones a ≠ []) (at_agents s);
  wf_addrs : map_Forall (λ addr i, known s i ∧ accepted s addr) (agentsByAddr s);
  wf_greet : Forall (λ i, known s i) (agentsToGreet s);
  wf_greeted : Forall (λ i, known s i) (at_greeted s);
  wf_metrics : Forall (λ m, known s (store_agent m)) (at_metrics s);
  wf_router : is_Some (metricsRouter s)
}.

(** Agents and connections stay. *)
Record extends (s t : AgentTracker) : Prop := {
  more_agents : dom (at_agents s) ⊆ dom (at_agents t);
  more_conns : dom (at_conns s) ⊆ dom (at_conns t)
}.
#[export] Instance extends_preorder : PreOrder extends.
Proof. split; [by intros s|]. intros s t u [H1 H2] [H3 H4]. split; by etrans. Qed.

(** What a computation of the server that does not panic leads to. *)
Definition sound {A} (P : A → AgentTracker → Prop) (c : go AgentTracker A) (s : AgentTracker) : Prop :=
  safe c s (λ r t, server_wf t ∧ extends s t ∧ P r t).
Abbreviation any := (λ _ _, True) (only parsing).

Lemma sound_bind {A B} P Q (c : go AgentTracker A) (k : A → go AgentTracker B) s :
  sound P c s → (∀ r t, server_wf t → extends s t → P r t → sound Q (k r) t) → sound Q (c ≫= k) s.
Proof.
  intros Hc Hk. apply safe_bind. eapply safe_mono; [exact Hc|]. intros r t (Hw & He & Hp).
  eapply safe_mono; [by apply Hk|]. intros r' u (? & ? & ?). split_and!; [done|by etrans|done].
Qed.

Lemma sound_gets {A} (f : AgentTracker → A) s :
  server_wf s → sound (λ r t, r = f s ∧ t = s) (gets f) s.
Proof. by intros Hw. Qed.

Lemma sound_ret {A} (r : A) (P : A → AgentTracker → Prop) s :
  server_wf s → P r s → sound P (mret r) s.
Proof. by intros Hw Hp. Qed.

Lemma sound_weaken {A} (P Q : A → AgentTracker → Prop) c s :
  sound P c s → (∀ r t, P r t → Q r t) → sound Q c s.
Proof. intros Hc Hpq. eapply safe_mono; [exact Hc|]. naive_solver. Qed.

Lemma sound_modify f s : server_wf (f s) → extends s (f s) → sound any (modify f) s.
Proof. by intros. Qed.

(** After a change of the fields. *)
Lemma sound_change {A} f (k : go AgentTracker A) P s :
  extends s (f s) → (server_wf (f s)) → sound P k (f s) → sound P (modify f;; k) s.
Proof.
  intros He Hw Hk. apply safe_bind, safe_modify. eapply safe_mono; [exact Hk|].
  intros r t (? & ? & ?). split_and!; [done|by etrans|done].
Qed.

(** An agent of the store at work. *)
Lemma sound_on_agent {A} i (c : go agent A) s a P :
  server_wf s → at_agents s !! i = Some a → (∀ x, keeps (λ a, identity a = x) c) →
  safe c a (λ r _, P r) → sound (λ r _, P r) (on_agent i c) s.
Proof.
  intros Hw Ha Hid Hc. unfold sound, safe.
  pose proof (on_agent_sources i c Hid s (wf_sources s Hw)) as Hsrc. revert Hsrc.
  specialize (Hid _ a eq_refl). unfold on_agent. rewrite Ha. unfold safe in Hc.
  destruct (c a) as [r b|f b]; [|done]. cbn in Hid |- *. intros Hsrc.
  assert (dom (<[i := b]> (at_agents s)) = dom (at_agents s)) as Hd by (by apply dom_insert_lookup_L).
  destruct Hw as [_ Hz Hby Hg Hgd Hm Hr]. split_and!; [split; cbn; rewrite ?Hd; try done|split; cbn; by rewrite ?Hd|done].
  apply map_Forall_insert_2; [|done]. injection Hid as _ ->. by apply (Hz i).
Qed.

Lemma sound_known {A} i (c : go agent A) s (P : A → Prop) :
  server_wf s → known s i → (∀ x, keeps (λ a, identity a = x) c) →
  (∀ a, at_agents s !! i = Some a → safe c a (λ r _, P r)) → sound (λ r _, P r) (on_agent i c) s.
Proof. intros Hw [a Ha]%elem_of_dom Hid Hc. apply (sound_on_agent i c s a); auto. Qed.

Lemma sound_agent_gets {A} i (f : agent → A) s :
  server_wf s → known s i →
  sound (λ r t, t = s ∧ ∃ a, at_agents s !! i = Some a ∧ r = f a) (on_agent i (gets f)) s.
Proof.
  intros Hw [a Ha]%elem_of_dom. unfold sound, safe. rewrite (on_agent_gets i f s a Ha).
  split_and!; [done..|]. by exists a.
Qed.

(** ** Fields *)
Lemma sound_send {A} n queue put (x : A) s :
  server_wf s → server_wf (put (queue s ++ [x]) s) → extends s (put (queue s ++ [x]) s) → sound any (send_on n queue put x) s.
Proof.
  intros Hw Hw' He. unfold send_on. apply safe_bind, safe_gets.
  case_bool_decide; [|apply safe_blocked]. by apply sound_modify.
Qed.

Lemma wf_put_greet q s : server_wf s → Forall (λ i, known s i) q → server_wf (put_agentsToGreet q s).
Proof. intros [] Hq. by split. Qed.
Lemma wf_put_posts q s : server_wf s → server_wf (put_metricsPosts q s).
Proof. intros []. by split. Qed.
Lemma wf_put_metrics q s :
  server_wf s → Forall (λ m, known s (store_agent m)) q → server_wf (put_at_metrics q s).
Proof. intros [] Hq. by split. Qed.
Lemma wf_put_router mr s : server_wf s → server_wf (put_metricsRouter (Some mr) s).
Proof. intros []. by split; eauto. Qed.
Lemma wf_put_addrs m s :
  server_wf s → map_Forall (λ addr i, known s i ∧ accepted s addr) m → server_wf (put_agentsByAddr m s).
Proof. intros [] Hm. by split. Qed.
Lemma wf_put_contexts c s : server_wf s → server_wf (put_at_contexts c s).
Proof. intros []. by split. Qed.
Lemma wf_put_conn addr c s :
  server_wf s → server_wf (put_at_conns (<[addr := c]> (at_conns s)) s).
Proof.
  intros [Hs Hz Hby Hg Hgd Hm Hr]. split; try done. intros x i Hi.
  destruct (Hby x i Hi) as [H1 H2]. split; [done|]. cbn. rewrite dom_insert. set_solver.
Qed.
Lemma extends_conn addr c s : extends s (put_at_conns (<[addr := c]> (at_conns s)) s).
Proof. split; [done|]. cbn. rewrite dom_insert. set_solver. Qed.

Lemma wf_new_agent i a s :
  server_wf s → at_agents s !! i = None → a_zones a ≠ [] →
  server_wf (put_at_agents (<[i := a]> (at_agents s)) s)
  ∧ extends s (put_at_agents (<[i := a]> (at_agents s)) s).
Proof.
  intros [Hs Hz Hby Hg Hgd Hm Hr] Hi Ha.
  assert (dom (at_agents s) ⊆ dom (<[i := a]> (at_agents s))) as Hd by (rewrite dom_insert; set_solver).
  split; [split|split]; cbn; try done.
  - intros source j Hj. destruct (Hs source j Hj) as (b & Hb & Hsrc). exists b. split; [|done].
    cbn. rewrite lookup_insert_ne; [done|]. congruence.
  - by apply map_Forall_insert_2.
  - eapply map_Forall_impl; [exact Hby|]. cbn. intros ? ? []. by split; [apply Hd|].
  - eapply Forall_impl; [exact Hg|]. cbn. set_solver.
  - eapply Forall_impl; [exact Hgd|]. cbn. set_solver.
  - eapply Forall_impl; [exact Hm|]. cbn. set_solver.
Qed.

(** ** Operations *)
Lemma newAgent_zones ctx source params size contexts r errs c :
  newAgent ctx source params size contexts = Ret (r, errs) c →
  match r with Some a => a_zones a ≠ [] | None => errs ≠ [] end.
Proof.
  unfold newAgent. destruct (hp_ZoneIds params) eqn:E; [by intros [= <- <-]|].
  rewrite bind_app. cbn. intros [= <- <-]. done.
Qed.

(** What a goroutine that waits on the errors of an agent holds. *)
Definition errors_known (s : AgentTracker) (errors : nat + list error) : Prop :=
  match errors with inl i => known s i | inr errs => errs ≠ [] end.

Lemma hello_sound frame params addr s :
  server_wf s → accepted s addr →
  sound (λ r t, errors_known t r) (NewAgentFromHello frame params addr) s.
Proof.
  intros Hw Hc. unfold NewAgentFromHello. do 2 (apply safe_bind, safe_gets). apply safe_bind.
  unfold zoom, safe. destruct (newAgent _ _ _ _ _) as [[[a|] errs] c|] eqn:E;
    [| |unfold newAgent in E; destruct (hp_ZoneIds params); cbn in E; discriminate E].
  2: { apply newAgent_zones in E. split_and!; [by apply wf_put_contexts|by split|done]. }
  apply newAgent_zones in E. apply safe_bind, safe_gets. set (i := fresh _). cbn [at_agents put_at_contexts].
  apply safe_bind, safe_modify. set (s1 := put_at_agents _ _).
  assert (server_wf s1 ∧ extends (put_at_contexts c s) s1) as [Hw1 [Ha1 Hc1]].
  { apply (wf_new_agent i a (put_at_contexts c s)); [by apply wf_put_contexts| |done].
    apply not_elem_of_dom, is_fresh. }
  assert (known s1 i) as Hi by (apply elem_of_dom_2 with a, lookup_insert_eq).
  apply safe_bind. unfold send_on. apply safe_bind, safe_gets.
  case_bool_decide; [|apply safe_blocked].
  apply safe_modify, safe_bind, safe_modify, safe_ret. split_and!.
  - apply wf_put_addrs.
    + apply wf_put_greet; [done|]. apply Forall_app. split; [apply (wf_greet s1 Hw1)|by repeat constructor].
    + apply map_Forall_insert_2; [by split; [|apply Hc1]|]. apply (wf_addrs s1 Hw1).
  - by split.
  - exact Hi.
Qed.

Lemma wf_forget m source s :
  server_wf s → m ⊆ agentsByAddr s →
  server_wf (put_agentsBySource (delete source (agentsBySource s)) (put_agentsByAddr m s)).
Proof.
  intros [Hs Hz Hby Hg Hgd Hm Hr] Hsub. split; try done.
  - by apply (sources_delete source s).
  - intros x i Hi. apply (Hby x i). by eapply lookup_weaken.
Qed.

Lemma close_agent_sound addr s : server_wf s → sound any (CloseAgentByAddr addr) s.
Proof.
  intros Hw. unfold CloseAgentByAddr. apply safe_bind, safe_gets.
  destruct (agentsByAddr s !! addr) as [i|] eqn:Hi; [|by apply sound_ret].
  destruct (wf_addrs s Hw addr i Hi) as [Hk _].
  set (s1 := put_agentsByAddr (delete addr (agentsByAddr s)) s).
  assert (server_wf s1) as Hw1.
  { apply wf_put_addrs; [done|]. apply map_Forall_delete, (wf_addrs s Hw). }
  apply sound_change; [by split|done|]. fold s1.
  eapply sound_bind; [by apply (sound_agent_gets i a_sourceId s1 Hw1)|].
  intros source ? _ _ [-> _].
  assert (server_wf (put_agentsBySource (delete source (agentsBySource s1)) s1)) as Hw2
    by apply (wf_forget _ source s Hw), delete_subseteq.
  apply sound_change; [by split|done|].
  by apply (sound_known i _ _ (λ _, True)); [|done|apply Close_identity|].
Qed.

Lemma report_error_safe err a : safe (report_error err) a any.
Proof.
  unfold report_error. apply safe_bind, safe_gets. case_bool_decide; [by apply safe_modify|apply safe_blocked].
Qed.

Lemma greet_sound s : server_wf s → sound any take_greeted s.
Proof.
  intros Hw. unfold take_greeted. apply safe_bind, safe_gets.
  pose proof (wf_greet s Hw) as Hq. destruct (agentsToGreet s) as [|i q]; [apply safe_blocked|].
  apply Forall_cons in Hq as [Hi Hq]. set (s1 := put_agentsToGreet q s).
  assert (server_wf s1) as Hw1 by (by apply wf_put_greet).
  apply sound_change; [by split|done|]. fold s1.
  unfold handleGreetedAgent. eapply sound_bind; [by apply (sound_agent_gets i a_sourceId s1)|].
  intros source ? _ _ [-> (a & Ha & ->)]. apply safe_bind, safe_gets.
  destruct (agentsBySource s1 !! a_sourceId a) eqn:E.
  - apply (sound_known i _ _ (λ _, True)); [done..|intros; apply report_error_identity|].
    intros. apply report_error_safe.
  - destruct Hw1 as [Hs Hz Hby Hg Hgd Hm Hr].
    assert (server_wf (put_agentsBySource (<[a_sourceId a := i]> (agentsBySource s1)) s1)) as Hw2.
    2: { apply sound_change; [by split|done|]. destruct Hw2. apply sound_modify; [split; try done|by split].
         apply Forall_app. split; [done|]. by repeat constructor. }
    split; try done.
    intros x j Hj. cbn in Hj. apply lookup_insert_Some in Hj as [[<- <-]|[_ Hj]]; [by exists a|by apply Hs].
Qed.

Lemma response_sound frame s : server_wf s → sound any (tracker_handleResponse frame) s.
Proof.
  intros Hw. unfold tracker_handleResponse. apply safe_bind, safe_gets.
  destruct (agentsBySource s !! _) as [i|] eqn:Hi; [|by apply sound_ret].
  destruct (wf_sources s Hw _ _ Hi) as (a & Ha & _).
  apply (sound_on_agent i _ s a (λ _, True)); [done..|intros; apply HandleResponse_identity|done].
Qed.

Lemma post_sound s : server_wf s → sound any take_post s.
Proof.
  intros Hw. unfold take_post. apply safe_bind, safe_gets.
  destruct (metricsPosts s) as [|post q]; [apply safe_blocked|].
  set (s1 := put_metricsPosts q s). assert (server_wf s1) as Hw1 by (by apply wf_put_posts).
  apply sound_change; [by split|done|]. fold s1.
  unfold handleMetricsPostReq. apply safe_bind, safe_gets.
  destruct (agentsBySource s1 !! _) as [i|] eqn:Hi; [|by apply sound_ret].
  destruct (wf_sources s1 Hw1 _ _ Hi) as (a & Ha & _).
  apply sound_send; [done| |by split]. apply wf_put_metrics; [done|]. apply Forall_app.
  split; [apply (wf_metrics s1 Hw1)|]. repeat constructor. by apply elem_of_dom_2 with a.
Qed.

(** A write on a connection, or its end. *)
Lemma on_conn_sound addr (f : server_conn → server_conn) s :
  server_wf s → accepted s addr →
  sound any (conns ← gets at_conns; c ← deref (conns !! addr);
    modify (put_at_conns (<[addr := f c]> conns))) s.
Proof.
  intros Hw [c Hc]%elem_of_dom. apply safe_bind, safe_gets. rewrite Hc.
  apply safe_bind, safe_ret, sound_modify; [by apply wf_put_conn|apply extends_conn].
Qed.
Lemma write_sound addr doc s : server_wf s → accepted s addr → sound any (WriteJSON addr doc) s.
Proof. exact (on_conn_sound addr (λ c, {| sc_written := sc_written c ++ [doc]; sc_closed := sc_closed c |}) s). Qed.
Lemma close_conn_sound addr s : server_wf s → accepted s addr → sound any (close_conn addr) s.
Proof. exact (on_conn_sound addr (λ c, {| sc_written := sc_written c; sc_closed := true |}) s). Qed.

Lemma extends_accepted s t addr : extends s t → accepted s addr → accepted t addr.
Proof. intros [_ Hc]. apply Hc. Qed.

(** The goroutine that a frame starts waits on errors that exist. *)
Lemma handle_frame_sound now addr frame s :
  server_wf s → accepted s addr →
  sound (λ r t, match r with inl (Some errors) => errors_known t errors | _ => True end)
    (server_handleFrame now addr frame) s.
Proof.
  intros Hw Hc. unfold server_handleFrame. cbv zeta.
  case_bool_decide; [|case_bool_decide; [|case_bool_decide; [|case_bool_decide]]].
  - destruct (unmarshal_raw _ _ _) as [params|]; [|by apply sound_ret].
    eapply sound_bind; [by apply write_sound|]. intros _ t Hwt Het _.
    eapply sound_bind; [apply hello_sound; [done|by eapply extends_accepted]|].
    intros errors u Hwu _ He. by apply sound_ret.
  - destruct (unmarshal_raw _ _ _) as [params|]; [|by apply sound_ret].
    eapply (sound_bind any); [|intros; by apply sound_ret]. apply sound_send; [done|by apply wf_put_posts|by split].
  - eapply (sound_bind any); [by apply write_sound|intros; by apply sound_ret].
  - eapply (sound_bind any); [by apply response_sound|intros; by apply sound_ret].
  - by apply sound_ret.
Qed.

Lemma connection_frame_sound now addr frame s :
  server_wf s → accepted s addr → sound any (connection_frame now addr frame) s.
Proof.
  intros Hw Hc. unfold connection_frame. destruct (IsFinished frame).
  - eapply sound_bind; [by apply close_agent_sound|]. intros _ t Hwt Het _.
    eapply (sound_bind any); [apply close_conn_sound; [done|by eapply extends_accepted]|].
    intros. by apply sound_ret.
  - eapply sound_bind; [by apply handle_frame_sound|]. intros r t Hwt Het _.
    destruct r as [|err]; [by apply sound_ret|].
    eapply (sound_bind any); [apply close_conn_sound; [done|by eapply extends_accepted]|].
    intros. by apply sound_ret.
Qed.

Lemma wait_sound addr errors s :
  server_wf s → accepted s addr → errors_known s errors → sound any (waitOnAgentError addr errors) s.
Proof.
  intros Hw Hc He. unfold waitOnAgentError. destruct errors as [i|[|err errs]];
    [|done|by apply close_conn_sound].
  eapply sound_bind; [by apply (sound_agent_gets i a_errors s Hw He)|].
  intros errs ? _ _ [-> _]. destruct errs as [|err errs]; [apply safe_blocked|].
  eapply sound_bind; [apply (sound_known i _ _ (λ _, True)); [done..|intros; keeps_auto|done]|].
  intros _ t Hwt Het _. apply close_conn_sound; [done|by eapply extends_accepted].
Qed.

(** ** Posts with null entries *)
Section posts.
Context `{MapRange}.

Lemma routes_panic {A} (body : A → go AgentTracker unit) (f : A → list RouterMetric) (ok : A → Prop)
    `{!∀ x, Decision (ok x)} l s mr :
  (∀ x mr, x ∈ l → ok x → body x (with_router s mr) = Ret () (with_router s (mr ++ f x))) →
  (∀ x mr, x ∈ l → ¬ ok x → panics (body x (with_router s mr))) →
  ¬ Forall ok l → panics (for_each l body (with_router s mr)).
Proof.
  intros Hok Hno. revert mr. induction l as [|x l IH]; intros mr Hn; [by destruct Hn|].
  cbn [for_each]. rewrite bind_app. destruct (decide (ok x)) as [Hx|Hx].
  - rewrite Hok by (done || by left). apply IH.
    + intros y mr' Hy. apply Hok. by right.
    + intros y mr' Hy. apply Hno. by right.
    + intros Hl. by apply Hn, Forall_cons.
  - specialize (Hno x mr ltac:(by left) Hx). by destruct (body x _).
Qed.

Definition wrap_ok (wrap : option (gmap string (option MetricTVU))) : Prop :=
  map_Forall (λ _ e, is_Some e) (default ∅ wrap).
#[local] Instance wrap_ok_dec wrap : Decision (wrap_ok wrap) := _.
#[local] Instance no_nil_entry_dec params : Decision (no_nil_entry params) := _.

Lemma wrap_ok_range wrap : wrap_ok wrap ↔ Forall (λ kv, is_Some kv.2) (range (default ∅ wrap)).
Proof.
  rewrite Forall_forall. split.
  - intros Hw [k e] Hk%elem_of_range. exact (Hw k e Hk).
  - intros Hf k e Hk. apply (Hf (k, e)). by apply elem_of_range.
Qed.

Lemma decompose_panics m s a mr :
  at_agents s !! store_agent m = Some a → metricsRouter s = Some mr → ¬ no_nil_entry (store_params m) →
  panics (decompose m s).
Proof.
  intros Ha Hr Hn. unfold decompose. rewrite bind_app, (on_agent_gets _ a_id s a Ha). cbv zeta.
  assert (s = with_router s mr) as Es by (unfold with_router; destruct s; cbn in *; by subst).
  rewrite Es at 1. unfold no_nil_entry in Hn. revert Hn.
  set (routed := router_metric (store_params m) (a_id a)).
  assert (∀ kv mr1, is_Some kv.2 → route_entry (store_params m) (a_id a) kv (with_router s mr1) =
    Ret () (with_router s (mr1 ++ routed kv))) as Hentry by (intros; by apply route_entry_app).
  assert (∀ wrap mr1, wrap_ok wrap →
    for_each (range (default ∅ wrap)) (route_entry (store_params m) (a_id a)) (with_router s mr1) =
      Ret () (with_router s (mr1 ++ (range (default ∅ wrap) ≫= routed)))) as Hwrap.
  { intros wrap mr1 Hw. apply routes_for_each. intros kv mr2 Hk. apply Hentry.
    apply wrap_ok_range in Hw. rewrite Forall_forall in Hw. by apply Hw. }
  apply (routes_panic _ (λ outer, outer ≫= λ wrap, range (default ∅ wrap) ≫= routed) (Forall wrap_ok)).
  - intros outer mr1 _ Ho. apply routes_for_each. intros wrap mr2 Hk. apply Hwrap.
    rewrite Forall_forall in Ho. by apply Ho.
  - intros outer mr1 _. apply (routes_panic _ (λ wrap, range (default ∅ wrap) ≫= routed) wrap_ok).
    + intros wrap mr2 _. apply Hwrap.
    + intros wrap mr2 _. rewrite wrap_ok_range. apply (routes_panic _ routed (λ kv, is_Some kv.2)).
      * intros kv mr3 _. apply Hentry.
      * intros [k [e|]] mr3 _ Hk; [by destruct Hk|done].
Qed.

Lemma metric_turn s :
  server_wf s →
  match at_metrics s with
  | [] => take_metric s = Halt Blocked s
  | m :: _ => (no_nil_entry (store_params m) → sound any take_metric s)
      ∧ (¬ no_nil_entry (store_params m) → panics (take_metric s))
  end.
Proof.
  intros Hw. unfold take_metric, sound, safe. rewrite bind_app. cbn [gets].
  pose proof (wf_metrics s Hw) as Hm. destruct (at_metrics s) as [|m q] eqn:Eq; [done|].
  apply Forall_cons in Hm as [Hm Hq]. rewrite bind_app. cbn [modify].
  apply elem_of_dom in Hm as [a Ha]. destruct (wf_router s Hw) as [mr Hr].
  set (s1 := put_at_metrics q s). assert (server_wf s1) as Hw1 by (by apply wf_put_metrics). split; intros Hn.
  - rewrite (decompose_app m s1 a mr) by done. split_and!; [by apply wf_put_router|by split|done].
  - by apply (decompose_panics m s1 a mr).
Qed.

(** ** Turns *)
Definition event_ok (s : AgentTracker) (e : server_event) : Prop :=
  match e with
  | SvFrame _ addr _ => accepted s addr
  | SvInitial _ i | SvAgent i _ => known s i
  | SvError addr errors => accepted s addr ∧ errors_known s errors
  | _ => True
  end.

Definition null_entry (e : server_event) (s : AgentTracker) : Prop :=
  e = SvMetric ∧ ∃ m q, at_metrics s = m :: q ∧ ¬ no_nil_entry (store_params m).

(** The agent whose turn an event is. *)
Definition agent_at_work (e : server_event) (s : AgentTracker) : option (agent * agent_event) :=
  match e with
  | SvAgent i e' => a ← at_agents s !! i; Some (a, e')
  | SvInitial dir i =>
      a ← at_agents s !! i;
      zone ← head (a_zones a);
      let path := checks_path (at_cfg s) zone (a_id a) in
      Some (a, EvInitial path zone (dir path))
  | _ => None
  end.
Definition agent_panics (e : server_event) (s : AgentTracker) : Prop :=
  ∃ a e', agent_at_work e s = Some (a, e') ∧ panics (agent_turn e' a).

(** An agent at work panics or not by itself. *)
Lemma on_agent_turn i (e : agent_event) s a :
  server_wf s → at_agents s !! i = Some a →
  (panics (on_agent i (agent_turn e) s) ↔ panics (agent_turn e a))
  ∧ ∀ t, on_agent i (agent_turn e) s = Ret () t → server_wf t ∧ extends s t.
Proof.
  intros Hw Ha. unfold panics, on_agent at 1. rewrite Ha. split; [by destruct (agent_turn e a)|].
  intros t Et. destruct (agent_turn e a) as [u b|f b] eqn:Ee;
    [|unfold on_agent in Et; by rewrite Ha, Ee in Et].
  assert (sound (λ _ _, True) (on_agent i (agent_turn e)) s) as Hs.
  { apply (sound_on_agent i _ s a (λ _, True)); [done..|intros; apply agent_turn_identity|].
    unfold safe. by rewrite Ee. }
  unfold sound, safe in Hs. rewrite Et in Hs. naive_solver.
Qed.

Lemma initial_turn dir i s a zone :
  at_agents s !! i = Some a → head (a_zones a) = Some zone →
  server_turn (SvInitial dir i) s =
    on_agent i (agent_turn (EvInitial (checks_path (at_cfg s) zone (a_id a)) zone
      (dir (checks_path (at_cfg s) zone (a_id a))))) s.
Proof.
  intros Ha Hz. cbn [server_turn]. unfold tracker_applyInitialChecks.
  rewrite bind_app, (on_agent_gets i a_zones s a Ha).
  destruct (a_zones a) as [|z zs]; [done|]. injection Hz as ->.
  rewrite bind_app. cbn [gets]. by rewrite bind_app, (on_agent_gets i a_id s a Ha).
Qed.

Lemma sound_turn P (c : go AgentTracker unit) s :
  sound P c s → ¬ panics (c s) ∧ ∀ t, c s = Ret () t → server_wf t ∧ extends s t.
Proof.
  intros Hs. split; [by eapply safe_no_panic|]. intros t Et. unfold sound, safe in Hs.
  rewrite Et in Hs. naive_solver.
Qed.

Lemma quiet_turn_sound e s :
  server_wf s → event_ok s e → agent_at_work e s = None → ¬ null_entry e s → sound any (server_turn e) s.
Proof.
  intros Hw He Hq Hn. destruct e as [now addr frame| | | |dir i|i e|addr errors|addr|];
    cbn [server_turn event_ok] in *.
  - eapply (sound_bind any); [by apply connection_frame_sound|]. intros. by apply sound_ret.
  - by apply greet_sound.
  - by apply post_sound.
  - pose proof (metric_turn s Hw) as Hm. destruct (at_metrics s) as [|m q] eqn:Eq;
      [unfold sound, safe; by rewrite Hm|].
    destruct (decide (no_nil_entry (store_params m))) as [Hnil|Hnil]; [by apply Hm|].
    destruct Hn. split; [done|]. by exists m, q.
  - apply elem_of_dom in He as [a Ha]. pose proof (wf_zones s Hw i a Ha) as Hz.
    exfalso. revert Hq Hz. cbn. rewrite Ha. cbn. destruct (a_zones a); cbn; naive_solver.
  - apply elem_of_dom in He as [a Ha]. cbn in Hq. rewrite Ha in Hq. cbn in Hq. discriminate.
  - destruct He. by apply wait_sound.
  - apply sound_modify; [by apply wf_put_conn|apply extends_conn].
  - by apply sound_modify; [apply wf_put_router|split].
Qed.

Lemma server_turn_sound e s :
  server_wf s → event_ok s e →
  (panics (server_turn e s) ↔ null_entry e s ∨ agent_panics e s)
  ∧ ∀ t, server_turn e s = Ret () t → server_wf t ∧ extends s t.
Proof.
  intros Hw He. destruct (agent_at_work e s) as [[a e']|] eqn:Ew.
  - assert (∃ i, server_turn e s = on_agent i (agent_turn e') s ∧ at_agents s !! i = Some a) as (i & Et & Ha).
    { destruct e as [| | | |dir i|i e|addr errors|addr|]; try done; cbn in Ew; exists i.
      - destruct (at_agents s !! i) as [b|] eqn:Ha; [|done]. cbn in Ew.
        destruct (head (a_zones b)) as [zone|] eqn:Ez; [|done]. injection Ew as <- <-.
        split; [by apply initial_turn|done].
      - destruct (at_agents s !! i) as [b|] eqn:Ha; [|done]. by injection Ew as <- <-. }
    rewrite Et. destruct (on_agent_turn i e' s a Hw Ha) as [Hp Hk]. split; [|exact Hk]. rewrite Hp.
    split; [intros; right; by exists a, e'|]. intros [[-> _]|(b & e2 & Hb & Hpb)]; [done|]. congruence.
  - assert (¬ agent_panics e s) as Ha by (intros (a & e' & Ha & _); congruence).
    assert (null_entry e s ∨ ¬ null_entry e s) as [Hn|Hn].
    { destruct e; try (by right; intros [? _]). destruct (at_metrics s) as [|m q] eqn:Eq.
      - right. intros [_ (m & q & ? & _)]. congruence.
      - destruct (decide (no_nil_entry (store_params m))).
        + right. intros [_ (m' & q' & E & ?)]. rewrite Eq in E. by injection E as <- <-.
        + left. split; [done|]. by exists m, q. }
    + destruct Hn as [-> (m & q & Eq & Hn)]. pose proof (metric_turn s Hw) as Hm. rewrite Eq in Hm.
      destruct Hm as [_ Hm]. specialize (Hm Hn). cbn [server_turn].
      split; [split; [intros _; left; split; [done|by exists m, q]|done]|].
      intros t Et. by rewrite Et in Hm.
    + destruct (sound_turn _ _ _ (quiet_turn_sound e s Hw He Ew Hn)) as [Hp Hk].
      split; [|exact Hk]. naive_solver.
Qed.
End posts.
