(* ===== verification/Endpoint.v ===== *)
(** Component: the process of the endpoint (src/endpoint/entry.go, server.go,
    basic_server.go, src/commands/endpoint.go, [Die] of src/utils/process.go):
    its start, the connections it accepts, and for each connection the two
    goroutines that decode and handle its frames. *)
From S2P Require Export ServerSafety.

(** ** Start

    Reading the file of the configuration and the pair of keys, and listening,
    are arguments; [read_config] gives the document of a file that has one. *)
Section start.
Context {Certificate : Type}.

Record endpoint_env := {
  read_config : string → option json;
  LoadX509KeyPair : string → string → Certificate + error;
  tls_Listen : Certificate → string → option error
}.

Record BasicServer := {
  bs_Certificate : option Certificate;
  bs_BindAddr : string;
  bs_AgentTracker : option AgentTracker
}.
Definition zero_server : BasicServer :=
  {| bs_Certificate := None; bs_BindAddr := ""; bs_AgentTracker := None |}.
Definition put_bs_AgentTracker (t : option AgentTracker) (s : BasicServer) : BasicServer :=
  {| bs_Certificate := bs_Certificate s; bs_BindAddr := bs_BindAddr s; bs_AgentTracker := t |}.

(** The contexts of a process that has made none; the one of the tracker is its
    first. *)
Definition no_contexts : Contexts := {| ctx_next := 0; ctx_canceled := ∅ |}.
Definition new_tracker (cfg : EndpointConfig) : AgentTracker :=
  NewAgentTracker cfg [ctx_next no_contexts] (allocated no_contexts).

Lemma new_tracker_context :
  WithCancel Background no_contexts = Ret [ctx_next no_contexts] (allocated no_contexts).
Proof. reflexivity. Qed.

Definition ApplyConfig (env : endpoint_env) (cfg : EndpointConfig) : go BasicServer (option error) :=
  match LoadCertificateFromConfig (LoadX509KeyPair env) cfg with
  | inr err => mret (Some err)
  | inl cert =>
      modify (λ _, {| bs_Certificate := Some cert; bs_BindAddr := bind_address cfg;
                      bs_AgentTracker := Some (new_tracker cfg) |});;
      mret None
  end.

Definition server_UseMetricsRouter (mr : list RouterMetric) : go BasicServer unit :=
  t ← gets bs_AgentTracker;
  t ← deref t;
  modify (put_bs_AgentTracker (Some (state_of (UseMetricsRouter mr t)))).

Definition NewEndpointServer (env : endpoint_env) (configFilePath : string)
    : go BasicServer (option error) :=
  let '(cfg, err) := LoadEndpointConfig (read_config env configFilePath) NewEndpointConfig in
  match err with
  | Some err => mret (Some err)
  | None =>
      err ← ApplyConfig env cfg;
      match err with
      | Some err => mret (Some err)
      | None => server_UseMetricsRouter NewMetricsRouter;; mret None
      end
  end.

(** Up to the loop that accepts connections, which an error of [Accept] ends
    with the process. *)
Definition ListenAndServe (env : endpoint_env) : go BasicServer (option error) :=
  cert ← gets bs_Certificate;
  cert ← deref cert;
  addr ← gets bs_BindAddr;
  mret (tls_Listen env cert addr).

(** The message and the error with which [Die] ends the process; [None] is an
    endpoint that serves. *)
Definition endpoint_Run (env : endpoint_env) (configFilePath : string)
    : go BasicServer (option (string * error)) :=
  err ← NewEndpointServer env configFilePath;
  match err with
  | Some err => mret (Some ("Invalid endpoint setup", err))
  | None =>
      err ← ListenAndServe env;
      mret match err with Some err => Some ("Endpoint serving failed", err) | None => None end
  end.

(** What [endpoint_Run] needs. *)
Definition serves_with (env : endpoint_env) (path : string) (cfg : EndpointConfig) (cert : Certificate)
    : Prop :=
  LoadEndpointConfig (read_config env path) NewEndpointConfig = (cfg, None)
  ∧ CertFile cfg ≠ "" ∧ KeyFile cfg ≠ "" ∧ LoadX509KeyPair env (CertFile cfg) (KeyFile cfg) = inl cert
  ∧ tls_Listen env cert (bind_address cfg) = None.

(** The server that has started. *)
Definition started_server (cfg : EndpointConfig) (cert : Certificate) : BasicServer :=
  {| bs_Certificate := Some cert; bs_BindAddr := bind_address cfg;
     bs_AgentTracker := Some (with_router (new_tracker cfg) []) |}.

Lemma endpoint_run_cases env path :
  runs (endpoint_Run env path) zero_server (λ r s,
    match r with
    | None => ∃ cfg cert, serves_with env path cfg cert ∧ s = started_server cfg cert
    | Some _ => ∀ cfg cert, ¬ serves_with env path cfg cert
    end).
Proof.
  unfold endpoint_Run, NewEndpointServer, ApplyConfig, ListenAndServe, LoadCertificateFromConfig, serves_with.
  destruct (LoadEndpointConfig _ _) as [cfg [err|]] eqn:Ec; [by intros ? ? [? _]|].
  case_bool_decide as Hc; [by intros ? ? ([= <-] & ? & _)|].
  case_bool_decide as Hk; [by intros ? ? ([= <-] & _ & ? & _)|].
  destruct (LoadX509KeyPair _ _ _) as [cert|err] eqn:Ex.
  - unfold runs. cbv beta iota zeta delta [mbind go_bind mret go_ret modify gets server_UseMetricsRouter
      deref bs_AgentTracker bs_Certificate bs_BindAddr UseMetricsRouter state_of put_bs_AgentTracker].
    destruct (tls_Listen env cert (bind_address cfg)) eqn:El.
    + intros ? ? ([= <-] & _ & _ & Ex' & El'). congruence.
    + exists cfg, cert. by split_and!.
  - intros ? ? ([= <-] & _ & _ & Ex' & _). congruence.
Qed.
End start.
Arguments endpoint_env Certificate : clear implicits.
Arguments BasicServer Certificate : clear implicits.

(** ** Connections

    What the decoder of a connection finds next: a value, text that is not one,
    the read failing in its middle included, or a closing bracket, at which
    [More] is false. *)
Inductive incoming :=
| Value (doc : json)
| Broken
| Bracket.

(** [var frame protocol.FrameMsg; decoder.Decode(&frame)] *)
Definition decode_frame (doc : json) : option FrameMsg :=
  let '(frame, ok) := Unmarshal c_frame doc zero_frame in if ok : bool then Some frame else None.

(** The goroutine that decodes: it reads, waits to send a frame, the last one
    or not, or has returned. *)
Inductive decoder :=
| Decoding
| SendingFrame (frame : FrameMsg) (is_last : bool)
| DecoderDone.

Definition framesChanSize : nat := 10.

(** [cn_incoming] has all that has arrived, [cn_read] says how much of it has
    been decoded, and [cn_ended] that nothing more comes: the end of the
    connection, or an error of it, its deadline for one.  [cn_frames] is the
    channel between the goroutines, [cn_handling] says whether the handler runs,
    and [cn_handled] what it has received.  [cn_waits] are the goroutines of
    [waitOnAgentError]. *)
Record connection := {
  cn_incoming : list incoming; cn_ended : bool; cn_read : nat; cn_decoder : decoder;
  cn_frames : list FrameMsg; cn_handling : bool; cn_handled : list FrameMsg;
  cn_waits : list (nat + list error)
}.
Definition new_connection : connection :=
  {| cn_incoming := []; cn_ended := false; cn_read := 0; cn_decoder := Decoding;
     cn_frames := []; cn_handling := true; cn_handled := []; cn_waits := [] |}.

Definition arrives (x : incoming) (c : connection) : connection :=
  {| cn_incoming := cn_incoming c ++ [x]; cn_ended := cn_ended c; cn_read := cn_read c;
     cn_decoder := cn_decoder c; cn_frames := cn_frames c; cn_handling := cn_handling c;
     cn_handled := cn_handled c; cn_waits := cn_waits c |}.
Definition conn_ends (c : connection) : connection :=
  {| cn_incoming := cn_incoming c; cn_ended := true; cn_read := cn_read c;
     cn_decoder := cn_decoder c; cn_frames := cn_frames c; cn_handling := cn_handling c;
     cn_handled := cn_handled c; cn_waits := cn_waits c |}.
Definition put_decoder (n : nat) (d : decoder) (c : connection) : connection :=
  {| cn_incoming := cn_incoming c; cn_ended := cn_ended c; cn_read := n; cn_decoder := d;
     cn_frames := cn_frames c; cn_handling := cn_handling c; cn_handled := cn_handled c;
     cn_waits := cn_waits c |}.
Definition sends_frame (frame : FrameMsg) (d : decoder) (c : connection) : connection :=
  {| cn_incoming := cn_incoming c; cn_ended := cn_ended c; cn_read := cn_read c; cn_decoder := d;
     cn_frames := cn_frames c ++ [frame]; cn_handling := cn_handling c; cn_handled := cn_handled c;
     cn_waits := cn_waits c |}.
Definition handles_frame (frame : FrameMsg) (q : list FrameMsg) (goes_on : bool)
    (waits : list (nat + list error)) (c : connection) : connection :=
  {| cn_incoming := cn_incoming c; cn_ended := cn_ended c; cn_read := cn_read c;
     cn_decoder := cn_decoder c; cn_frames := q; cn_handling := goes_on;
     cn_handled := cn_handled c ++ [frame]; cn_waits := cn_waits c ++ waits |}.
Definition put_waits (l : list (nat + list error)) (c : connection) : connection :=
  {| cn_incoming := cn_incoming c; cn_ended := cn_ended c; cn_read := cn_read c;
     cn_decoder := cn_decoder c; cn_frames := cn_frames c; cn_handling := cn_handling c;
     cn_handled := cn_handled c; cn_waits := l |}.

(** One turn of [runFrameDecoder]: the next frame, or its end; on a full
    channel it waits. *)
Definition decoder_turn (c : connection) : option connection :=
  let finish := Some (put_decoder (cn_read c) (SendingFrame NewFinishedFrame true) c) in
  match cn_decoder c with
  | Decoding =>
      match cn_incoming c !! cn_read c with
      | Some (Value doc) =>
          Some (put_decoder (S (cn_read c))
            match decode_frame doc with Some frame => SendingFrame frame false | None => DecoderDone end c)
      | Some Broken => Some (put_decoder (S (cn_read c)) DecoderDone c)
      | Some Bracket => finish
      | None => if cn_ended c then finish else None
      end
  | SendingFrame frame is_last =>
      if bool_decide (length (cn_frames c) < framesChanSize) then
        Some (sends_frame frame (if is_last : bool then DecoderDone else Decoding) c)
      else None
  | DecoderDone => None
  end.

(** A frame that [runConnectionHandler] takes: whether it goes on, and the
    goroutine that the frame starts. *)
Definition handler_turn (now : Z) (addr : nat) (frame : FrameMsg)
    : go AgentTracker (bool * list (nat + list error)) :=
  if IsFinished frame then
    CloseAgentByAddr addr;; close_conn addr;; mret (false, [])
  else
    r ← server_handleFrame now addr frame;
    match r with
    | inr _ => close_conn addr;; mret (false, [])
    | inl (Some errors) => mret (true, [errors])
    | inl None => mret (true, [])
    end.

Lemma handler_turn_frame now addr frame s :
  connection_frame now addr frame s = (r ← handler_turn now addr frame; mret r.1) s.
Proof.
  unfold connection_frame, handler_turn. destruct (IsFinished frame).
  - rewrite !bind_app. destruct (CloseAgentByAddr addr s) as [[] s1|]; [|done].
    rewrite !bind_app. by destruct (close_conn addr s1).
  - rewrite !bind_app. destruct (server_handleFrame now addr frame s) as [[[e|]|err] s1|]; try done.
    rewrite !bind_app. by destruct (close_conn addr s1).
Qed.

(** ** The endpoint at work *)
Record endpoint := { ep_tracker : AgentTracker; ep_conns : gmap nat connection }.

(** The answer and the state of a computation that returns. *)
Definition did {S A} (o : outcome S A) : option (A * S) :=
  match o with Ret a s => Some (a, s) | Halt _ _ => None end.

Inductive endpoint_event :=
| EpAccept (addr : nat) (started : bool)  (** a connection; its first deadline can be set or not *)
| EpArrives (addr : nat) (x : incoming)   (** something arrives on it *)
| EpEnds (addr : nat)                     (** nothing more will *)
| EpDecoder (addr : nat)                  (** a turn of its decoder *)
| EpHandler (now : Z) (addr : nat)        (** its handler takes a frame *)
| EpWaiter (addr n : nat)                 (** one of its other goroutines *)
| EpTurn (e : server_event).              (** a goroutine of the tracker or of an agent *)

(** The turns of the goroutines of the tracker, of the one that reads the checks
    of a greeted agent, and of those of the agents. *)
Definition goroutine_turn (e : server_event) (s : AgentTracker) : bool :=
  match e with
  | SvGreet | SvPost | SvMetric => true
  | SvInitial _ i => bool_decide (i ∈ at_greeted s)
  | SvAgent i (EvBundle _ | EvResponse | EvWatch _ _) => bool_decide (i ∈ dom (at_agents s))
  | _ => false
  end.

(** The turn of the server that an event is. *)
Definition turn_of (e : endpoint_event) (s : endpoint) : option server_event :=
  match e with
  | EpAccept addr _ => Some (SvAccept addr)
  | EpHandler now addr =>
      c ← ep_conns s !! addr;
      if cn_handling c then SvFrame now addr <$> head (cn_frames c) else None
  | EpWaiter addr n => c ← ep_conns s !! addr; SvError addr <$> cn_waits c !! n
  | EpTurn e => if goroutine_turn e (ep_tracker s) then Some e else None
  | _ => None
  end.

Section endpoint.
Context `{MapRange}.

Definition endpoint_step (e : endpoint_event) (s : endpoint) : option endpoint :=
  let put_conn addr c := {| ep_tracker := ep_tracker s; ep_conns := <[addr := c]> (ep_conns s) |} in
  match e with
  | EpAccept addr started =>
      match at_conns (ep_tracker s) !! addr with
      | Some _ => None
      | None =>
          '(_, t) ← did (server_turn (SvAccept addr) (ep_tracker s));
          if started : bool then
            Some {| ep_tracker := t; ep_conns := <[addr := new_connection]> (ep_conns s) |}
          else '(_, t) ← did (close_conn addr t); Some {| ep_tracker := t; ep_conns := ep_conns s |}
      end
  | EpArrives addr x =>
      c ← ep_conns s !! addr;
      if cn_ended c then None else Some (put_conn addr (arrives x c))
  | EpEnds addr => c ← ep_conns s !! addr; Some (put_conn addr (conn_ends c))
  | EpDecoder addr => c ← ep_conns s !! addr; c ← decoder_turn c; Some (put_conn addr c)
  | EpHandler now addr =>
      c ← ep_conns s !! addr;
      match cn_handling c, cn_frames c with
      | true, frame :: q =>
          '(r, t) ← did (handler_turn now addr frame (ep_tracker s));
          Some {| ep_tracker := t;
                  ep_conns := <[addr := handles_frame frame q r.1 r.2 c]> (ep_conns s) |}
      | _, _ => None
      end
  | EpWaiter addr n =>
      c ← ep_conns s !! addr;
      errors ← cn_waits c !! n;
      '(_, t) ← did (waitOnAgentError addr errors (ep_tracker s));
      Some {| ep_tracker := t;
              ep_conns := <[addr := put_waits (delete n (cn_waits c)) c]> (ep_conns s) |}
  | EpTurn e =>
      if goroutine_turn e (ep_tracker s) then
        '(_, t) ← did (server_turn e (ep_tracker s));
        Some {| ep_tracker := t; ep_conns := ep_conns s |}
      else None
  end.

Fixpoint endpoint_steps (es : list endpoint_event) (s : endpoint) : option endpoint :=
  match es with
  | [] => Some s
  | e :: es' => s' ← endpoint_step e s; endpoint_steps es' s'
  end.

(** What an endpoint can come to after its start. *)
Definition endpoint_reachable (s : endpoint) : Prop :=
  ∃ Certificate (env : endpoint_env Certificate) path srv tracker es,
    endpoint_Run env path zero_server = Ret None srv
    ∧ bs_AgentTracker srv = Some tracker
    ∧ endpoint_steps es {| ep_tracker := tracker; ep_conns := ∅ |} = Some s.

(** Invariants of the steps. *)
Lemma steps_ind (P : endpoint → Prop) :
  (∀ cfg, P {| ep_tracker := with_router (new_tracker cfg) []; ep_conns := ∅ |}) →
  (∀ e s t, P s → endpoint_step e s = Some t → P t) →
  ∀ s, endpoint_reachable s → P s.
Proof.
  intros H0 Hs s (C & env & path & srv & tracker & es & Er & Et & Es).
  pose proof (endpoint_run_cases env path) as Hr. unfold runs in Hr. rewrite Er in Hr.
  destruct Hr as (cfg & cert & _ & ->). injection Et as <-.
  specialize (H0 cfg). revert Es H0. generalize {| ep_tracker := with_router (new_tracker cfg) []; ep_conns := ∅ |}.
  induction es as [|e es IH]; intros s0; cbn; [by intros [= ->]|].
  destruct (endpoint_step e s0) as [s1|] eqn:E; [|done]. cbn. intros Es Hp. eapply IH; [exact Es|].
  by eapply Hs.
Qed.
End endpoint.
