(* ===== verification/EndpointSafety.v ===== *)
(** The endpoint from its start on, its goroutines in any order: its tracker
    stays well formed and the process ends only in the cases that are named;
    and for each connection, which frames its handler gets and whether it
    returns. *)
From S2P Require Export Endpoint.

(** ** Frames

    The frames that the decoder sends for what arrives. *)
Fixpoint frames_of (l : list incoming) (ended : bool) : list FrameMsg :=
  match l with
  | Value doc :: l' =>
      match decode_frame doc with Some frame => frame :: frames_of l' ended | None => [] end
  | Broken :: _ => []
  | Bracket :: _ => [NewFinishedFrame]
  | [] => if ended then [NewFinishedFrame] else []
  end.

Definition decoded (x : incoming) : option FrameMsg :=
  match x with Value doc => decode_frame doc | _ => None end.

(** All of it is frames. *)
Abbreviation all_frames l := (Forall (λ x, is_Some (decoded x)) l) (only parsing).

Lemma frames_of_app l l' ended : all_frames l → frames_of (l ++ l') ended = omap decoded l ++ frames_of l' ended.
Proof.
  induction 1 as [|x l [f Hf] _ IH]; [done|]. destruct x as [doc| |]; try done.
  cbn in *. rewrite Hf. cbn. by rewrite IH.
Qed.

(** What comes after the first thing that is no frame does not matter. *)
Lemma frames_of_decided l l' ended ended' : ¬ all_frames l → frames_of (l ++ l') ended' = frames_of l ended.
Proof.
  induction l as [|x l IH]; intros Hn; [by destruct Hn|]. destruct x as [doc| |]; [|done..].
  cbn. destruct (decode_frame doc) as [f|] eqn:Ef; [|done]. f_equal. apply IH. intros Hl.
  apply Hn. constructor; [by exists f|done].
Qed.

(** The handler stops at a frame that is the last one, or that it refuses. *)
Definition refused (f : FrameMsg) : bool :=
  let method := f_Method (Common f) in
  if bool_decide (method = MethodHandshakeHello) then
    bool_decide (unmarshal_raw c_handshake_params zero_handshake_params (RawParams f) = None)
  else if bool_decide (method = MethodCheckMetricsPostMulti) then
    bool_decide (unmarshal_raw c_metrics_post_content zero_metrics_post_content (RawParams f) = None)
  else negb (bool_decide (method = MethodHeartbeatPost) || bool_decide (method = "")).
Definition stops (f : FrameMsg) : bool := IsFinished f || refused f.

Lemma bind_ret {S A B} (c : go S A) (k : A → go S B) s b t :
  (c ≫= k) s = Ret b t → ∃ a u, c s = Ret a u ∧ k a u = Ret b t.
Proof. rewrite bind_app. destruct (c s) as [a u|]; [by eauto|done]. Qed.

Lemma handler_turn_goes_on now addr frame s r t :
  handler_turn now addr frame s = Ret r t → r.1 = negb (stops frame).
Proof.
  unfold handler_turn, stops. destruct (IsFinished frame) eqn:Ef.
  - intros (? & ? & _ & (? & ? & _ & [= <- _])%bind_ret)%bind_ret. done.
  - intros (res & u & Hf & Hres)%bind_ret. cbn [orb].
    assert (refused frame = match res with inr _ => true | inl _ => false end) as ->.
    { unfold server_handleFrame in Hf. cbv zeta in Hf. unfold refused. cbv zeta.
      case_bool_decide; [|case_bool_decide; [|case_bool_decide; [|case_bool_decide]]].
      - destruct (unmarshal_raw _ _ _); [|by injection Hf as <- _].
        apply bind_ret in Hf as (? & ? & _ & (? & ? & _ & [= <- _])%bind_ret). done.
      - destruct (unmarshal_raw _ _ _); [|by injection Hf as <- _].
        apply bind_ret in Hf as (? & ? & _ & [= <- _]). done.
      - apply bind_ret in Hf as (? & ? & _ & [= <- _]). done.
      - apply bind_ret in Hf as (? & ? & _ & [= <- _]). done.
      - by injection Hf as <- _. }
    destruct res as [[e|]|err]; [by injection Hres as <- _..|].
    apply bind_ret in Hres as (? & ? & _ & [= <- _]). done.
Qed.

(** ** The goroutines of a connection *)
Definition pending (d : decoder) : list FrameMsg :=
  match d with SendingFrame frame _ => [frame] | _ => [] end.
Definition sent_frames (c : connection) : list FrameMsg :=
  cn_handled c ++ cn_frames c ++ pending (cn_decoder c).

(** The decoder goes on, having sent what it has read, or nothing that comes
    changes what it sends. *)
Definition decoder_inv (c : connection) : Prop :=
  match cn_decoder c with
  | Decoding | SendingFrame _ false =>
      cn_read c ≤ length (cn_incoming c) ∧ all_frames (take (cn_read c) (cn_incoming c))
      ∧ sent_frames c = omap decoded (take (cn_read c) (cn_incoming c))
  | _ => (cn_ended c = true ∨ ¬ all_frames (cn_incoming c))
      ∧ sent_frames c = frames_of (cn_incoming c) (cn_ended c)
  end.
Definition handler_inv (c : connection) : Prop :=
  if cn_handling c then Forall (λ f, stops f = false) (cn_handled c)
  else ∃ l f, cn_handled c = l ++ [f] ∧ stops f = true ∧ Forall (λ f, stops f = false) l.

Record conn_inv (c : connection) : Prop := {
  ci_decoder : decoder_inv c;
  ci_handler : handler_inv c
}.

Lemma new_connection_inv : conn_inv new_connection.
Proof. by repeat constructor. Qed.

Lemma arrives_inv x c : conn_inv c → cn_ended c = false → conn_inv (arrives x c).
Proof.
  intros [Hd Hh] He. split; [|done]. unfold decoder_inv in *.
  change (cn_decoder (arrives x c)) with (cn_decoder c). change (sent_frames (arrives x c)) with (sent_frames c).
  cbn [cn_incoming cn_read cn_ended arrives].
  assert (∀ n, n ≤ length (cn_incoming c) → take n (cn_incoming c ++ [x]) = take n (cn_incoming c)) as Ht
    by (intros; by rewrite take_app_le).
  destruct (cn_decoder c) as [|f [|]|].
  - destruct Hd as (Hn & Ha & Hs). rewrite length_app, Ht by done. split_and!; [lia|done..].
  - destruct Hd as [[Hd|Hd] Hs]; [congruence|]. split; [right; rewrite Forall_app; tauto|].
    by rewrite (frames_of_decided _ _ (cn_ended c)).
  - destruct Hd as (Hn & Ha & Hs). rewrite length_app, Ht by done. split_and!; [lia|done..].
  - destruct Hd as [[Hd|Hd] Hs]; [congruence|]. split; [right; rewrite Forall_app; tauto|].
    by rewrite (frames_of_decided _ _ (cn_ended c)).
Qed.

Lemma frames_of_ended l ended : ¬ all_frames l → frames_of l ended = frames_of l true.
Proof. intros Hn. pose proof (frames_of_decided l [] true ended Hn) as E. by rewrite app_nil_r in E. Qed.

Lemma ends_inv c : conn_inv c → conn_inv (conn_ends c).
Proof.
  intros [Hd Hh]. split; [|done]. unfold decoder_inv in *.
  change (cn_decoder (conn_ends c)) with (cn_decoder c). change (sent_frames (conn_ends c)) with (sent_frames c).
  cbn [cn_incoming cn_read cn_ended conn_ends].
  assert ((cn_ended c = true ∨ ¬ all_frames (cn_incoming c)) →
    frames_of (cn_incoming c) (cn_ended c) = frames_of (cn_incoming c) true) as He.
  { intros [->|Hn]; [done|]. by apply frames_of_ended. }
  destruct (cn_decoder c) as [|f [|]|]; [done| |done|]; destruct Hd as [Hd Hs]; split; try (by left);
    by rewrite <- He.
Qed.

Lemma take_next c x :
  cn_incoming c !! cn_read c = Some x →
  take (S (cn_read c)) (cn_incoming c) = take (cn_read c) (cn_incoming c) ++ [x].
Proof. apply take_S_r. Qed.

(** The decoder reads on from frames only. *)
Lemma frames_from c l :
  all_frames (take (cn_read c) (cn_incoming c)) → drop (cn_read c) (cn_incoming c) = l →
  frames_of (cn_incoming c) (cn_ended c) =
    omap decoded (take (cn_read c) (cn_incoming c)) ++ frames_of l (cn_ended c).
Proof. intros Ha <-. by rewrite <- frames_of_app, take_drop. Qed.

Lemma decoder_turn_inv c c' : conn_inv c → decoder_turn c = Some c' → conn_inv c'.
Proof.
  intros [Hd Hh] Ec. assert (cn_handling c' = cn_handling c ∧ cn_handled c' = cn_handled c) as [E1 E2].
  { unfold decoder_turn in Ec. repeat case_match; by simplify_eq. }
  split; [|unfold handler_inv; by rewrite E1, E2]. clear E1 E2 Hh.
  unfold decoder_turn in Ec. unfold decoder_inv in Hd.
  destruct (cn_decoder c) as [|f is_last|] eqn:Ed; [| |done].
  - destruct Hd as (Hn & Ha & Hs).
    destruct (cn_incoming c !! cn_read c) as [x|] eqn:Ex.
    + pose proof (drop_S _ _ _ Ex) as Hdrop. pose proof (frames_from c _ Ha Hdrop) as Hf.
      pose proof (lookup_lt_Some _ _ _ Ex) as Hlt.
      assert (decoded x = None → ¬ all_frames (cn_incoming c)) as Hno.
      { intros Hx Hall. rewrite Forall_lookup in Hall. specialize (Hall _ _ Ex). rewrite Hx in Hall.
        by destruct Hall. }
      unfold sent_frames in Hs. rewrite Ed in Hs. cbn [pending] in Hs. rewrite app_nil_r in Hs.
      destruct x as [doc| |]; [destruct (decode_frame doc) as [f|] eqn:Ef|..]; injection Ec as <-;
        unfold decoder_inv, sent_frames; cbn [cn_decoder put_decoder cn_incoming cn_read cn_ended cn_handled
          cn_frames pending]; rewrite ?app_nil_r, ?Hf, ?(take_next _ _ Ex).
      * split_and!; [lia| |].
        -- apply Forall_app. split; [done|]. repeat constructor. by exists f.
        -- rewrite omap_app, (assoc_L (++)), Hs. cbn. by rewrite Ef.
      * split; [right; by apply Hno|]. rewrite Hs. cbn. by rewrite Ef, app_nil_r.
      * split; [right; by apply Hno|]. by rewrite Hs, app_nil_r.
      * split; [right; by apply Hno|]. by rewrite (assoc_L (++)), Hs.
    + destruct (cn_ended c) eqn:Ee; [|done]. injection Ec as <-.
      unfold decoder_inv, sent_frames. cbn [cn_decoder put_decoder cn_incoming cn_ended cn_handled
        cn_frames pending]. split; [by left|].
      apply lookup_ge_None in Ex. rewrite (frames_from c []) by (done || by apply drop_ge).
      rewrite Ee, (assoc_L (++)). unfold sent_frames in Hs. rewrite Ed in Hs. cbn [pending] in Hs.
      rewrite app_nil_r in Hs. by rewrite Hs.
  - case_bool_decide; [|done]. injection Ec as <-.
    assert (sent_frames (sends_frame f (if is_last then DecoderDone else Decoding) c) = sent_frames c) as Es.
    { unfold sent_frames. rewrite Ed. destruct is_last; cbn; by rewrite app_nil_r, ?(assoc_L (++)). }
    unfold decoder_inv. rewrite Es. by destruct is_last.
Qed.

Lemma decoder_turn_waits c c' : decoder_turn c = Some c' → cn_waits c' = cn_waits c.
Proof. unfold decoder_turn. intros Ec. repeat case_match; by simplify_eq. Qed.

Lemma handles_inv frame q goes_on waits c :
  conn_inv c → cn_handling c = true → cn_frames c = frame :: q → goes_on = negb (stops frame) →
  conn_inv (handles_frame frame q goes_on waits c).
Proof.
  intros [Hd Hh] Hg Eq ->.
  assert (sent_frames (handles_frame frame q (negb (stops frame)) waits c) = sent_frames c) as Es.
  { unfold sent_frames. cbn. rewrite Eq. cbn. by rewrite <- !(assoc_L (++)). }
  split; [unfold decoder_inv; by rewrite Es|]. unfold handler_inv in *. rewrite Hg in Hh. cbn.
  destruct (stops frame) eqn:Ef; cbn; [by eauto|].
  apply Forall_app. split; [done|]. by repeat constructor.
Qed.

(** The frames are those that arrived, in order. *)
Lemma sent_prefix c : conn_inv c → sent_frames c `prefix_of` frames_of (cn_incoming c) (cn_ended c).
Proof.
  intros [Hd _]. unfold decoder_inv in Hd.
  assert (all_frames (take (cn_read c) (cn_incoming c)) →
    omap decoded (take (cn_read c) (cn_incoming c)) `prefix_of` frames_of (cn_incoming c) (cn_ended c)) as Hp.
  { intros Ha. eexists. by rewrite (frames_from c _ Ha eq_refl). }
  destruct (cn_decoder c) as [|f [|]|]; [| | |].
  - destruct Hd as (_ & Ha & ->). by apply Hp.
  - by destruct Hd as [_ ->].
  - destruct Hd as (_ & Ha & ->). by apply Hp.
  - by destruct Hd as [_ ->].
Qed.

(** Nothing more can happen in the goroutines of a connection. *)
Definition resting (c : connection) : Prop :=
  decoder_turn c = None ∧ (cn_handling c = true → cn_frames c = []).

Lemma handler_stopped c :
  conn_inv c → cn_handling c = false → ∃ l f l', frames_of (cn_incoming c) (cn_ended c) = l ++ f :: l'
    ∧ cn_handled c = l ++ [f] ∧ stops f = true ∧ Forall (λ f, stops f = false) l.
Proof.
  intros Hi Hg. pose proof (ci_handler c Hi) as Hh. unfold handler_inv in Hh. rewrite Hg in Hh.
  destruct Hh as (l & f & Hl & Hf & Hno). destruct (sent_prefix c Hi) as [l' El'].
  unfold sent_frames in El'. rewrite Hl in El'. exists l, f. eexists. split_and!; [|done..].
  rewrite El'. by rewrite <- !(assoc_L (++)).
Qed.

Lemma resting_handler c :
  conn_inv c → cn_ended c = true → resting c →
  cn_handling c = false ↔ Exists (λ f, stops f = true) (frames_of (cn_incoming c) true).
Proof.
  intros Hi He [Hr Hq]. split.
  - intros Hg. destruct (handler_stopped c Hi Hg) as (l & f & l' & E & _ & Hf & _).
    rewrite He in E. rewrite E. apply Exists_app. right. by left.
  - intros Hex. destruct (cn_handling c) eqn:Hg; [exfalso|done]. specialize (Hq eq_refl).
    pose proof (ci_decoder c Hi) as Hd. unfold decoder_inv in Hd. unfold decoder_turn in Hr.
    destruct (cn_decoder c) as [|f b|] eqn:Ed.
    + destruct (cn_incoming c !! cn_read c) as [[doc| |]|]; try done. by rewrite He in Hr.
    + rewrite Hq in Hr. cbn in Hr. done.
    + destruct Hd as [_ Hs]. unfold sent_frames in Hs. rewrite Ed, Hq, He in Hs. cbn in Hs.
      rewrite app_nil_r in Hs. rewrite <- Hs in Hex.
      pose proof (ci_handler c Hi) as Hh. unfold handler_inv in Hh. rewrite Hg in Hh.
      apply Exists_exists in Hex as (f & Hin & Hf). rewrite Forall_forall in Hh.
      by rewrite (Hh f Hin) in Hf.
Qed.

(** ** The endpoint *)
Section safety.
Context `{MapRange}.

Lemma handler_turn_sound now addr frame s :
  server_wf s → accepted s addr →
  sound (λ r t, Forall (errors_known t) r.2) (handler_turn now addr frame) s.
Proof.
  intros Hw Hc. unfold handler_turn. destruct (IsFinished frame).
  - eapply sound_bind; [by apply close_agent_sound|]. intros _ t Hwt Het _.
    eapply (sound_bind any); [apply close_conn_sound; [done|by eapply extends_accepted]|].
    intros. by apply sound_ret.
  - eapply sound_bind; [by apply handle_frame_sound|]. intros r t Hwt Het Hr.
    destruct r as [[errors|]|err]; [by apply sound_ret, Forall_singleton|by apply sound_ret|].
    eapply (sound_bind any); [apply close_conn_sound; [done|by eapply extends_accepted]|].
    intros. by apply sound_ret.
Qed.

Definition conn_ok (t : AgentTracker) (addr : nat) (c : connection) : Prop :=
  accepted t addr ∧ Forall (errors_known t) (cn_waits c) ∧ conn_inv c.

Record endpoint_inv (s : endpoint) : Prop := {
  ei_tracker : server_wf (ep_tracker s);
  ei_conns : map_Forall (conn_ok (ep_tracker s)) (ep_conns s)
}.

Lemma errors_known_extends s t errors : extends s t → errors_known s errors → errors_known t errors.
Proof. intros [Ha _]. destruct errors; [apply Ha|done]. Qed.

Lemma conns_extend s t (m : gmap nat connection) : extends s t → map_Forall (conn_ok s) m → map_Forall (conn_ok t) m.
Proof.
  intros He Hm. eapply map_Forall_impl; [exact Hm|]. intros addr c (Hc & Hw & Hi). split_and!; [|..|done].
  - by eapply extends_accepted.
  - eapply Forall_impl; [exact Hw|]. intros errors. by apply errors_known_extends.
Qed.

Lemma turn_event_ok e e' s : endpoint_inv s → turn_of e s = Some e' → event_ok (ep_tracker s) e'.
Proof.
  intros [Hw Hc]. destruct e as [addr started|addr x|addr|addr|now addr|addr n|e]; cbn; try done.
  - by intros [= <-].
  - destruct (ep_conns s !! addr) as [c|] eqn:Ec; [|done]. cbn. destruct (Hc addr c Ec) as [Ha _].
    destruct (cn_handling c); [|done]. destruct (head _); [|done]. by intros [= <-].
  - destruct (ep_conns s !! addr) as [c|] eqn:Ec; [|done]. cbn. destruct (Hc addr c Ec) as (Ha & He & _).
    destruct (cn_waits c !! n) as [errors|] eqn:En; [|done]. intros [= <-]. split; [done|].
    rewrite Forall_lookup in He. by eapply He.
  - destruct (goroutine_turn e (ep_tracker s)) eqn:Eg; [|done]. intros [= <-]. revert Eg.
    destruct e as [| | | |dir i|i [| | | | |]| | |]; cbn; try done; intros Hi%bool_decide_eq_true_1; [|done..].
    pose proof (wf_greeted _ Hw) as Hg. rewrite Forall_forall in Hg. by apply Hg.
Qed.

Lemma did_some {S A} (o : outcome S A) r : did o = Some r → o = Ret r.1 r.2.
Proof. destruct o; [|done]. by intros [= <-]. Qed.

(** A connection that is accepted, and a frame that is handled. *)
Lemma accept_inv addr started s t :
  endpoint_inv s → endpoint_step (EpAccept addr started) s = Some t → endpoint_inv t.
Proof.
  intros [Hw Hc]. cbn [endpoint_step].
  destruct (at_conns (ep_tracker s) !! addr); [done|]. cbn [did server_turn modify mbind option_bind].
  set (t1 := put_at_conns _ _). assert (server_wf t1 ∧ extends (ep_tracker s) t1) as [Hw1 He1].
  { split; [by apply wf_put_conn|apply extends_conn]. }
  assert (accepted t1 addr) as Ha by (eapply elem_of_dom_2, lookup_insert_eq).
  destruct started.
  + intros [= <-]. split; [done|]. apply map_Forall_insert_2; [|by eapply conns_extend].
    split_and!; [done|constructor|apply new_connection_inv].
  + pose proof (sound_turn _ _ _ (close_conn_sound addr t1 Hw1 Ha)) as [_ Hk].
    destruct (close_conn addr t1) as [[] t2|]; [|done]. destruct (Hk t2 eq_refl) as [Hw2 He2].
    intros [= <-]. split; [done|]. eapply conns_extend; [|exact Hc]. by etrans.
Qed.

Lemma handler_inv_step now addr s t :
  endpoint_inv s → endpoint_step (EpHandler now addr) s = Some t → endpoint_inv t.
Proof.
  intros [Hw Hc]. cbn [endpoint_step].
  destruct (ep_conns s !! addr) as [c|] eqn:Ec; [|done]. cbn.
  destruct (Hc addr c Ec) as (Ha & Hwa & Hci).
  destruct (cn_handling c) eqn:Eg; [|done]. destruct (cn_frames c) as [|frame q] eqn:Eq; [done|].
  pose proof (handler_turn_sound now addr frame _ Hw Ha) as Hs. unfold sound, safe in Hs.
  destruct (handler_turn now addr frame (ep_tracker s)) as [r u|] eqn:Er; [|done].
  destruct Hs as (Hwu & Heu & Hr). intros [= <-]. split; [done|].
  apply map_Forall_insert_2; [|by eapply conns_extend]. split_and!.
  + by eapply extends_accepted.
  + apply Forall_app. split; [|done]. eapply Forall_impl; [exact Hwa|].
    intros errors. by apply errors_known_extends.
  + apply handles_inv; try done. by eapply handler_turn_goes_on.
Qed.

Lemma endpoint_step_inv e s t : endpoint_inv s → endpoint_step e s = Some t → endpoint_inv t.
Proof.
  intros Hi. pose proof Hi as [Hw Hc].
  destruct e as [addr started|addr x|addr|addr|now addr|addr n|e]; cbn [endpoint_step].
  - by apply (accept_inv addr started s).
  - destruct (ep_conns s !! addr) as [c|] eqn:Ec; [|done]. cbn. destruct (cn_ended c) eqn:Ee; [done|].
    intros [= <-]. split; [done|]. apply map_Forall_insert_2; [|done].
    destruct (Hc addr c Ec) as (? & ? & ?). split_and!; [done..|by apply arrives_inv].
  - destruct (ep_conns s !! addr) as [c|] eqn:Ec; [|done]. cbn.
    intros [= <-]. split; [done|]. apply map_Forall_insert_2; [|done].
    destruct (Hc addr c Ec) as (? & ? & ?). split_and!; [done..|by apply ends_inv].
  - destruct (ep_conns s !! addr) as [c|] eqn:Ec; [|done]. cbn.
    destruct (decoder_turn c) as [c'|] eqn:Ed; [|done].
    intros [= <-]. split; [done|]. apply map_Forall_insert_2; [|done].
    destruct (Hc addr c Ec) as (? & Hwa & ?). split_and!; [done| |by eapply decoder_turn_inv].
    by rewrite (decoder_turn_waits c c' Ed).
  - by apply (handler_inv_step now addr s).
  - destruct (ep_conns s !! addr) as [c|] eqn:Ec; [|done]. cbn.
    destruct (Hc addr c Ec) as (Ha & Hwa & Hci).
    destruct (cn_waits c !! n) as [errors|] eqn:En; [|done]. cbn.
    pose proof Hwa as Hwn. rewrite Forall_lookup in Hwn. specialize (Hwn n errors En).
    pose proof (sound_turn _ _ _ (wait_sound addr errors _ Hw Ha Hwn)) as [_ Hk].
    destruct (waitOnAgentError addr errors (ep_tracker s)) as [[] u|]; [|done].
    destruct (Hk u eq_refl) as [Hwu Heu]. intros [= <-]. split; [done|].
    apply map_Forall_insert_2; [|by eapply conns_extend]. split_and!; [by eapply extends_accepted| |by destruct Hci].
    apply Forall_delete. eapply Forall_impl; [exact Hwa|]. intros. by eapply errors_known_extends.
  - destruct (goroutine_turn e (ep_tracker s)) eqn:Eg; [|done].
    assert (event_ok (ep_tracker s) e) as He.
    { apply (turn_event_ok (EpTurn e) e s Hi). cbn. by rewrite Eg. }
    pose proof (server_turn_sound e _ Hw He) as [_ Hk].
    destruct (server_turn e (ep_tracker s)) as [[] u|]; [|done].
    destruct (Hk u eq_refl) as [Hwu Heu]. intros [= <-]. split; [done|]. by eapply conns_extend.
Qed.

Lemma reachable_endpoint_inv s : endpoint_reachable s → endpoint_inv s.
Proof.
  apply steps_ind; [|intros e s1 s2; apply endpoint_step_inv]. intros cfg. split; [|by intros ? ?].
  split; [by intros ? ?|by intros ? ?|by intros ? ?|constructor..|by eexists].
Qed.

(** ** Properties *)

(** The cases in which a turn ends the process: a post with a null entry, a file
    with a definition that crashes, and what an agent's own turn panics on. *)
Definition process_ends (e : server_event) (s : AgentTracker) : Prop :=
  match e with
  | SvMetric => ∃ m q, at_metrics s = m :: q ∧ ¬ no_nil_entry (store_params m)
  | SvInitial dir i => ∃ a zone zones, at_agents s !! i = Some a ∧ a_zones a = zone :: zones
      ∧ crashing_dir (dir (checks_path (at_cfg s) zone (a_id a)))
  | SvAgent i e' => ∃ a, at_agents s !! i = Some a ∧ turn_panics e' a
  | _ => False
  end.

(** C9: the endpoint is well formed whatever happens, and this is all that
    panics in it.  From its start on, however the goroutines of its connections,
    of its tracker and of its agents take turns, each agent is registered under
    its own source, every map, queue and goroutine refers to agents and
    connections that exist, every agent has a zone and a router is in use; and a
    goroutine panics exactly when it decomposes a post with a null entry, reads
    a file of checks that has a definition without details, classifies an update
    before the first commit, or makes blocks of a negative size. *)
Theorem endpoint_panics_iff s :
  endpoint_reachable s →
  server_wf (ep_tracker s)
  ∧ ∀ e e', turn_of e s = Some e' →
      panics (server_turn e' (ep_tracker s)) ↔ process_ends e' (ep_tracker s).
Proof.
  intros Hi%reachable_endpoint_inv. split; [apply Hi|]. intros e e' Ht.
  pose proof (turn_event_ok e e' s Hi Ht) as He. destruct Hi as [Hw _].
  destruct (server_turn_sound e' _ Hw He) as [-> _]. unfold null_entry, agent_panics.
  setoid_rewrite agent_turn_panics. split.
  - intros [[-> Hn]|(a & ev & Ha & Hp)]; [done|]. destruct e'; try done; cbn in Ha |- *.
    + destruct (at_agents _ !! i) as [b|] eqn:Eb; [|done]. cbn in Ha.
      destruct (a_zones b) as [|zone zones] eqn:Ez; [done|]. cbn in Ha. injection Ha as <- <-.
      by exists b, zone, zones.
    + destruct (at_agents _ !! i) as [b|] eqn:Eb; [|done]. cbn in Ha. injection Ha as <- <-. by exists b.
  - destruct e'; cbn; try done.
    + by left.
    + intros (a & zone & zones & Ha & Hz & Hp). right. exists a. eexists. rewrite Ha. cbn. rewrite Hz. cbn.
      split; [done|exact Hp].
    + intros (a & Ha & Hp). right. exists a. eexists. rewrite Ha. cbn. by split.
Qed.

(** C10: which connections end.  The handler of a connection gets the frames
    that arrive on it in their order, each once, and returns at the first one
    that it refuses or that is the last.  When a connection has ended and its
    goroutines can do nothing more, the handler has returned exactly when such a
    frame was among them: a document that does not decode silences the decoder,
    so that the handler waits for ever. *)
Theorem handler_ends_iff s addr c :
  endpoint_reachable s → ep_conns s !! addr = Some c →
  cn_handled c ++ cn_frames c `prefix_of` frames_of (cn_incoming c) (cn_ended c)
  ∧ (cn_handling c = false ↔ ∃ l f, cn_handled c = l ++ [f] ∧ stops f = true)
  ∧ (cn_ended c = true → resting c →
      cn_handling c = false ↔ Exists (λ f, stops f = true) (frames_of (cn_incoming c) true)).
Proof.
  intros [_ Hc]%reachable_endpoint_inv Ec. destruct (Hc addr c Ec) as (_ & _ & Hi). split_and!.
  - etrans; [|by apply sent_prefix]. exists (pending (cn_decoder c)). unfold sent_frames.
    by rewrite (assoc_L (++)).
  - pose proof (ci_handler c Hi) as Hh. unfold handler_inv in Hh. destruct (cn_handling c).
    + split; [done|]. intros (l & f & E & Hf). rewrite E in Hh. apply Forall_app in Hh as [_ Hh].
      rewrite Forall_singleton in Hh. congruence.
    + split; [|done]. intros _. destruct Hh as (l & f & ? & ? & _). by exists l, f.
  - by apply resting_handler.
Qed.
End safety.

(** The start of the endpoint.  It ends with one of its two messages or
    serves, and never panics; it serves exactly when the configuration can be
    read, names a certificate and a key that load, and the address - its own, or
    the default port on every interface - can be listened on.  The tracker of
    agents then is empty and has its router. *)
Theorem endpoint_run_spec {Certificate} (env : endpoint_env Certificate) path :
  runs (endpoint_Run env path) zero_server (λ r s,
    match r with
    | None => ∃ cfg cert, serves_with env path cfg cert ∧ s = started_server cfg cert
    | Some _ => ∀ cfg cert, ¬ serves_with env path cfg cert
    end).
Proof. apply endpoint_run_cases. Qed.
