(* ===== verification/TwoPhase.v ===== *)
(** The two-phase commit of a set of checks, from the frames of the endpoint to
    the tables of the schedulers: the session (Session, Participant), the
    stream (Stream) and the schedulers (Scheduler) together. *)
From S2P Require Export Participant Stream Agent.

Record transaction := {
  tx_zone : string;
  tx_version : Z;
  tx_manifest : list PollerPrepareManifest;
  tx_blocks : list (list CheckIn)
}.

Definition prepare_frame (tx : transaction) (id : Z) : FrameMsg :=
  agent_frame id MethodPollerPrepare (enc c_prepare_start
    {| pps_ZoneId := tx_zone tx; pps_Version := tx_version tx; pps_Manifest := tx_manifest tx |}).
Definition block_frame (tx : transaction) (id : Z) (block : list CheckIn) : FrameMsg :=
  agent_frame id MethodPollerPrepareBlock (enc c_prepare_block
    {| ppb_ZoneId := tx_zone tx; ppb_Version := tx_version tx; ppb_Block := Some <$> block |}).
Definition end_frame (tx : transaction) (id : Z) : FrameMsg :=
  agent_frame id MethodPollerPrepareEnd (enc c_prepare_end
    {| ppe_ZoneId := tx_zone tx; ppe_Version := tx_version tx;
       ppe_Directive := PrepareDirectivePrepare |}).
Definition commit_frame (tx : transaction) (id : Z) : FrameMsg :=
  agent_frame id MethodPollerCommit (enc c_commit
    {| pcp_ZoneId := tx_zone tx; pcp_Version := tx_version tx |}).

(** The frames in the order they are sent, with consecutive identifiers. *)
Definition announcement (tx : transaction) (id : Z) : list FrameMsg :=
  let n := Z.of_nat (length (tx_blocks tx)) in
  prepare_frame tx id
  :: imap (λ i b, block_frame tx (id + 1 + Z.of_nat i) b) (tx_blocks tx)
  ++ [end_frame tx (id + 1 + n)]%Z.

Definition transaction_frames (tx : transaction) (id : Z) : list FrameMsg :=
  announcement tx id ++ [commit_frame tx (id + 2 + Z.of_nat (length (tx_blocks tx)))]%Z.

Definition tx_definitions (tx : transaction) : list CheckIn := concat (tx_blocks tx).

(** What a well-formed transaction is: the numbers fit their types, the actions
    are known, each check to start or restart is defined, and nothing else. *)
Record tx_ok (tx : transaction) : Prop := {
  tx_version_ok : (0 < tx_version tx < 2 ^ 63)%Z;
  tx_supported : Forall supported (tx_manifest tx);
  tx_encodable : Forall checkin_ok (tx_definitions tx);
  tx_declared : ∀ c, c ∈ tx_definitions tx → is_Some (declared (tx_manifest tx) (ch_Id (Header c)));
  tx_complete : ∀ id m, declared (tx_manifest tx) id = Some m →
    man_Action m ≠ PrepareActionContinue → is_Some (defined (tx_definitions tx) id)
}.

Section session_side.
Context {R : Type} `{!ChecksReconciler R} `{MapRange}.
Implicit Types s t u : EleSession R.

(** The loop of the handling goroutine on frames that come one after another. *)
Definition handle_all (fs : list FrameMsg) : go (EleSession R) unit :=
  for_each fs (λ f, _ ← handleFrame f; mret ()).

Lemma handle_ret f s t e l :
  handleFrame f s = Ret e t → handle_all (f :: l) s = handle_all l t.
Proof. intros E. unfold handle_all. cbn. rewrite bind_app, bind_app, E. done. Qed.

Lemma handle_prepare_frame tx id s :
  handleFrame (prepare_frame tx id) s =
    (handlePollerPrepare (prepare_frame tx id);; mret (M := go _) (@None error)) s.
Proof. reflexivity. Qed.
Lemma handle_block_frame tx id b s :
  handleFrame (block_frame tx id b) s =
    (handlePollerPrepareBlock (block_frame tx id b);; mret (M := go _) (@None error)) s.
Proof. reflexivity. Qed.
Lemma handle_end_frame tx id s :
  handleFrame (end_frame tx id) s =
    (handlePollerPrepareEnd (end_frame tx id);; mret (M := go _) (@None error)) s.
Proof. reflexivity. Qed.
Lemma handle_commit_frame tx id s :
  handleFrame (commit_frame tx id) s =
    (handlePollerCommit (commit_frame tx id);; mret (M := go _) (@None error)) s.
Proof. reflexivity. Qed.

(** What the session reads in the frames of a transaction. *)
Section decoded.
Context (tx : transaction) (Hok : tx_ok tx).

Lemma tx_version_i64 : is_i64 (tx_version tx).
Proof. destruct (tx_version_ok tx Hok). unfold is_i64. lia. Qed.

Lemma prepare_decoded id :
  decode_raw c_prepare_start zero_prepare_start (RawParams (prepare_frame tx id)) =
    {| pps_ZoneId := tx_zone tx; pps_Version := tx_version tx; pps_Manifest := tx_manifest tx |}.
Proof. apply (decode_raw_rt _ _ (λ p, is_i64 (pps_Version p))). exact tx_version_i64. Qed.

Lemma block_decoded id b :
  Forall checkin_ok b →
  block_request (block_frame tx id b) =
    {| ppb_ZoneId := tx_zone tx; ppb_Version := tx_version tx; ppb_Block := Some <$> b |}.
Proof.
  intros Hb. apply (decode_raw_rt _ _ (λ p, is_i64 (ppb_Version p) ∧
    Forall (λ c, ∀ c', c = Some c' → checkin_ok c') (ppb_Block p))).
  split; [exact tx_version_i64|]. cbn.
  apply Forall_fmap. eapply Forall_impl; [exact Hb|]. intros c Hc c' [= <-]. exact Hc.
Qed.

Lemma end_decoded id :
  end_of_prepare (end_frame tx id) =
    {| ppe_ZoneId := tx_zone tx; ppe_Version := tx_version tx;
       ppe_Directive := PrepareDirectivePrepare |}.
Proof. apply (decode_raw_rt _ _ (λ p, is_i64 (ppe_Version p))). exact tx_version_i64. Qed.

Lemma commit_decoded id :
  decode_raw c_commit zero_commit (RawParams (commit_frame tx id)) =
    {| pcp_ZoneId := tx_zone tx; pcp_Version := tx_version tx |}.
Proof. apply (decode_raw_rt _ _ (λ p, is_i64 (pcp_Version p))). exact tx_version_i64. Qed.

(** The participant's reactions to them. *)
Lemma on_prepare_tx accepts guid id cp :
  NewChecksPreparation (tx_zone tx) (tx_version tx) (tx_manifest tx) = inl cp →
  accepts cp = None →
  on_prepare accepts guid (prepare_frame tx id) None = (Some (prepare_frame tx id, cp), [], None).
Proof.
  intros Hnew Hacc. unfold on_prepare. rewrite prepare_decoded. cbn.
  rewrite bool_decide_false by (destruct (tx_version_ok tx Hok); lia).
  by rewrite Hnew, Hacc.
Qed.

Lemma on_block_tx id b src cp :
  Forall checkin_ok b → cp_Version cp = tx_version tx →
  on_block (block_frame tx id b) (Some (src, cp)) = (Some (src, add_definitions b cp), [], None).
Proof.
  intros Hb Hv. unfold on_block. fold (block_request (block_frame tx id b)).
  rewrite block_decoded by done. cbn. by rewrite bool_decide_true, block_of_definitions.
Qed.

Lemma on_end_tx guid id src cp :
  cp_ZoneId cp = tx_zone tx → ValidatePreparation cp (tx_version tx) = None →
  on_end guid (end_frame tx id) (Some (src, cp)) =
    (Some (src, cp), [prepare_answer guid src (tx_zone tx) (tx_version tx)
                        PrepareResultStatusPrepared ""], None).
Proof.
  intros Hz Hval. unfold on_end. fold (end_of_prepare (end_frame tx id)).
  rewrite end_decoded. cbn. by rewrite Hval, Hz.
Qed.

Lemma on_commit_tx guid id src cp :
  cp_Version cp = tx_version tx →
  on_commit guid (commit_frame tx id) (Some (src, cp)) =
    (None, [commit_answer guid (commit_frame tx id) (tx_zone tx) (tx_version tx)
              PrepareResultStatusCommitted ""], Some cp).
Proof. intros Hv. unfold on_commit. rewrite commit_decoded. cbn. by rewrite bool_decide_true. Qed.
End decoded.

(** [s] is collecting the definitions of a preparation. *)
Record collecting (src : FrameMsg) (cp : ChecksPreparation) (s0 s : EleSession R) : Prop := {
  col_inv : session_inv s;
  col_part : part_of s = Some (src, cp);
  col_timer : ∃ d, prepareToEndTimer (ss_prep s) = Some (Armed d);
  col_sendCh : ss_sendCh s = ss_sendCh s0;
  col_guid : ss_guid s = ss_guid s0;
  col_reconciler : ss_reconciler s = ss_reconciler s0
}.

Lemma prepare_step tx id s cp :
  tx_ok tx → session_inv s → part_of s = None →
  NewChecksPreparation (tx_zone tx) (tx_version tx) (tx_manifest tx) = inl cp →
  ValidateChecks cp (ss_reconciler s) = None →
  ∃ t, handleFrame (prepare_frame tx id) s = Ret None t
    ∧ collecting (prepare_frame tx id) cp s t.
Proof.
  intros Hok Hi Hidle Hnew Hval.
  destruct (prepare_reacts (prepare_frame tx id) s Hi) as (t & E & Hr & Htimer).
  rewrite Hidle, (on_prepare_tx tx Hok _ _ id cp Hnew Hval) in Hr.
  destruct Hr as (Hti & Hp & Hs & Hg & Hc & Hrec). rewrite app_nil_r in Hs.
  exists t. split; [by rewrite handle_prepare_frame, bind_app, E|].
  split; try done. eexists. by eapply Htimer.
Qed.

Lemma block_step tx id b src cp s0 s :
  tx_ok tx → Forall checkin_ok b → cp_Version cp = tx_version tx → collecting src cp s0 s →
  ∃ t, handleFrame (block_frame tx id b) s = Ret None t
    ∧ collecting src (add_definitions b cp) s0 t.
Proof.
  intros Hok Hb Hv [Hi Hp [d Ht] Hs Hg Hc].
  pose proof (on_block_tx tx Hok id b src cp Hb Hv) as Hon.
  pose proof (block_decoded tx Hok id b Hb) as Hreq.
  destruct (block_reacts (block_frame tx id b) s Hi) as [_ Hr].
  destruct Hr as (t & E & Hr & Htimer).
  { unfold block_faults. rewrite Ht, Hreq. cbn. intros (_ & [Hn|[?|?]]); [|done|done].
    apply list_elem_of_fmap in Hn. by destruct Hn as (? & ? & _). }
  rewrite Hp, Hon in Hr. destruct Hr as (Hti & Hp' & Hs' & Hg' & Hc' & Hrec).
  rewrite app_nil_r in Hs'. exists t. split; [by rewrite handle_block_frame, bind_app, E|].
  split; [done|done| |congruence|congruence|congruence].
  eexists. apply Htimer. rewrite (active_part s Hi), Hp, Hreq. cbn. by apply bool_decide_eq_true_2.
Qed.

Lemma block_steps tx fs blocks rest src cp s0 s :
  tx_ok tx → Forall2 (λ f b, ∃ id, f = block_frame tx id b) fs blocks →
  Forall checkin_ok (concat blocks) → cp_Version cp = tx_version tx → collecting src cp s0 s →
  ∃ t, handle_all (fs ++ rest) s = handle_all rest t
    ∧ collecting src (add_definitions (concat blocks) cp) s0 t.
Proof.
  intros Hok Hfs. revert cp s. induction Hfs as [|f b fs blocks [id ->] _ IH]; intros cp s Hb Hv Hcol.
  - by exists s.
  - cbn in Hb. apply Forall_app in Hb as [Hb Hbs].
    destruct (block_step tx id b src cp s0 s Hok Hb Hv Hcol) as (t & E & Ht).
    destruct (IH (add_definitions b cp) t Hbs) as (u & Eu & Hu); [|done|].
    { by rewrite (proj2 (add_definitions_header b cp)). }
    exists u. cbn [app]. rewrite (handle_ret _ _ _ _ _ E), Eu. split; [done|].
    cbn [concat]. unfold add_definitions in *. by rewrite foldl_app.
Qed.

Lemma end_step tx id src cp s0 s :
  tx_ok tx → cp_ZoneId cp = tx_zone tx → ValidatePreparation cp (tx_version tx) = None →
  collecting src cp s0 s →
  ∃ t, handleFrame (end_frame tx id) s = Ret None t ∧ session_inv t
    ∧ part_of t = Some (src, cp) ∧ ss_guid t = ss_guid s0 ∧ ss_reconciler t = ss_reconciler s0
    ∧ ss_sendCh t = ss_sendCh s0 ++ [prepare_answer (ss_guid s0) src (tx_zone tx)
        (tx_version tx) PrepareResultStatusPrepared ""].
Proof.
  intros Hok Hz Hval [Hi Hp [d Ht] Hs Hg Hc].
  pose proof (on_end_tx tx Hok (ss_guid s) id src cp Hz Hval) as Hon.
  pose proof (end_decoded tx Hok id) as Hreq.
  destruct (end_reacts (end_frame tx id) s Hi) as [_ Hr].
  destruct Hr as (t & E & Hr).
  { unfold end_faults. rewrite (active_part s Hi), Hp, Ht. cbn. by intros (_ & _ & ?). }
  rewrite Hp, Hon in Hr. destruct Hr as (Hti & Hp' & Hs' & Hg' & Hc' & Hrec).
  exists t. split; [by rewrite handle_end_frame, bind_app, E|].
  split_and!; [done|done|congruence|congruence|]. by rewrite Hs', Hs, Hg.
Qed.

Lemma commit_step tx id src cp s :
  tx_ok tx → cp_Version cp = tx_version tx → session_inv s → part_of s = Some (src, cp) →
  has_room (ss_reconciler s) = true →
  ∃ t, handleFrame (commit_frame tx id) s = Ret None t ∧ part_of t = None
    ∧ ReconcileChecks cp (ss_reconciler s) = Ret () (ss_reconciler t)
    ∧ ss_sendCh t = ss_sendCh s ++ [commit_answer (ss_guid s) (commit_frame tx id) (tx_zone tx)
        (tx_version tx) PrepareResultStatusCommitted ""].
Proof.
  intros Hok Hv Hi Hp Hroom. destruct (commit_reacts (commit_frame tx id) s Hi) as [Hret Hr].
  specialize (Hret Hroom). destruct (handlePollerCommit (commit_frame tx id) s) as [[] t|] eqn:E;
    [|done].
  specialize (Hr t eq_refl). rewrite Hp, (on_commit_tx tx Hok _ id src cp Hv) in Hr.
  destruct Hr as (Hti & Hp' & Hs' & Hg' & Hc' & Hrec). exists t.
  by rewrite handle_commit_frame, bind_app, E.
Qed.

Lemma transaction_complete tx cp :
  tx_ok tx → NewChecksPreparation (tx_zone tx) (tx_version tx) (tx_manifest tx) = inl cp →
  ValidatePreparation (add_definitions (tx_definitions tx) cp) (tx_version tx) = None.
Proof.
  intros Hok Hnew. apply (prepared_cases _ _ _ _ _ _ Hnew).
  split_and!; [done|apply (tx_declared tx Hok)|apply (tx_complete tx Hok)].
Qed.

Lemma announcement_runs tx id rest s cp :
  tx_ok tx → session_inv s → part_of s = None →
  NewChecksPreparation (tx_zone tx) (tx_version tx) (tx_manifest tx) = inl cp →
  ValidateChecks cp (ss_reconciler s) = None →
  ∃ t, handle_all (announcement tx id ++ rest) s = handle_all rest t ∧ session_inv t
    ∧ part_of t = Some (prepare_frame tx id, add_definitions (tx_definitions tx) cp)
    ∧ ss_guid t = ss_guid s ∧ ss_reconciler t = ss_reconciler s
    ∧ ss_sendCh t = ss_sendCh s ++ [prepare_answer (ss_guid s) (prepare_frame tx id) (tx_zone tx)
        (tx_version tx) PrepareResultStatusPrepared ""].
Proof.
  intros Hok Hi Hidle Hnew Hval. unfold announcement.
  set (n := Z.of_nat (length (tx_blocks tx))). set (src := prepare_frame tx id).
  destruct (prepare_step tx id s cp Hok Hi Hidle Hnew Hval) as (s1 & E1 & H1).
  rewrite <- app_comm_cons, (handle_ret _ _ _ _ _ E1), <- (assoc_L (++)).
  destruct (new_preparation_ok _ _ _ _ Hnew) as (_ & Hz & Hv & _).
  destruct (block_steps tx (imap (λ i b, block_frame tx (id + 1 + Z.of_nat i) b) (tx_blocks tx))
    (tx_blocks tx) ([end_frame tx (id + 1 + n)%Z] ++ rest) src cp s s1 Hok)
    as (s2 & -> & H2); [|exact (tx_encodable tx Hok)|done|done|].
  { apply Forall2_same_length_lookup_2; [by rewrite length_imap|].
    intros i f b Hf Hb. rewrite list_lookup_imap, Hb in Hf. injection Hf as <-. by eexists. }
  change (concat (tx_blocks tx)) with (tx_definitions tx) in H2.
  destruct (add_definitions_header (tx_definitions tx) cp) as [Hz' Hv'].
  destruct (end_step tx (id + 1 + n) src _ s s2 Hok (eq_trans Hz' Hz)
    (transaction_complete tx cp Hok Hnew) H2) as (s3 & E3 & Hi3 & Hp3 & Hg3 & Hc3 & Hs3).
  rewrite <- app_comm_cons, (handle_ret _ _ _ _ _ E3). by exists s3.
Qed.

Lemma transaction_runs tx id s cp :
  tx_ok tx → session_inv s → part_of s = None →
  NewChecksPreparation (tx_zone tx) (tx_version tx) (tx_manifest tx) = inl cp →
  ValidateChecks cp (ss_reconciler s) = None → has_room (ss_reconciler s) = true →
  ∃ t commit_id, handle_all (transaction_frames tx id) s = Ret () t ∧ part_of t = None
    ∧ ss_sendCh t = ss_sendCh s ++
        [prepare_answer (ss_guid s) (prepare_frame tx id) (tx_zone tx) (tx_version tx)
           PrepareResultStatusPrepared "";
         commit_answer (ss_guid s) (commit_frame tx commit_id) (tx_zone tx) (tx_version tx)
           PrepareResultStatusCommitted ""]
    ∧ ReconcileChecks (add_definitions (tx_definitions tx) cp) (ss_reconciler s)
        = Ret () (ss_reconciler t).
Proof.
  intros Hok Hi Hidle Hnew Hval Hroom. unfold transaction_frames. set (cid := (_ + _)%Z).
  destruct (announcement_runs tx id [commit_frame tx cid] s cp Hok Hi Hidle Hnew Hval)
    as (s3 & -> & Hi3 & Hp3 & Hg3 & Hc3 & Hs3).
  destruct (new_preparation_ok _ _ _ _ Hnew) as (_ & _ & Hv & _).
  destruct (add_definitions_header (tx_definitions tx) cp) as [_ Hv'].
  destruct (commit_step tx cid _ _ s3 Hok (eq_trans Hv' Hv) Hi3 Hp3)
    as (s4 & E4 & Hp4 & Hc4 & Hs4); [by rewrite Hc3|].
  rewrite (handle_ret _ _ _ _ _ E4). exists s4, cid. split_and!; try done.
  - rewrite Hs4, Hs3, Hg3. by rewrite <- (assoc_L (++)).
  - by rewrite <- Hc3.
Qed.
End session_side.

(** ** The prepared entries *)
Definition tx_entry (tx : transaction) (id : string) : option ActionableCheck :=
  (λ m, match defined (tx_definitions tx) id with
        | Some c => populated_entry c (manifest_entry m)
        | None => manifest_entry m
        end) <$> declared (tx_manifest tx) id.

Lemma tx_entries tx cp id :
  tx_ok tx → NewChecksPreparation (tx_zone tx) (tx_version tx) (tx_manifest tx) = inl cp →
  cp_Actions (add_definitions (tx_definitions tx) cp) !! id = tx_entry tx id.
Proof.
  intros Hok (_ & _ & _ & Ha)%new_preparation_ok. unfold tx_entry.
  destruct (declared (tx_manifest tx) id) as [m|] eqn:Hm.
  - rewrite (add_definitions_lookup _ _ _ (manifest_entry m)); [done|]. by rewrite Ha, Hm.
  - pose proof (add_definitions_undeclared (tx_definitions tx) cp id) as Hu.
    rewrite Ha, Hm in Hu. specialize (Hu eq_refl).
    destruct (defined (tx_definitions tx) id) as [c|] eqn:Hd; [|done].
    apply last_filter_some in Hd as [Hin <-]. destruct (tx_declared tx Hok c Hin). congruence.
Qed.

Lemma entry_to_initiate tx id m ac :
  tx_ok tx → declared (tx_manifest tx) id = Some m → tx_entry tx id = Some ac →
  (to_initiate ac ↔ man_Action m ≠ PrepareActionContinue)
  ∧ ac_Action ac ≠ ActionTypeUnknown
  ∧ (ac_Action ac = ActionTypeStart ↔ man_Action m = PrepareActionStart)
  ∧ ac_Id ac = id.
Proof.
  intros Hok Hm Hac. unfold tx_entry in Hac. rewrite Hm in Hac. injection Hac as <-.
  pose proof Hm as Hm'. unfold declared in Hm'. apply last_filter_some in Hm' as [Hin Hid].
  pose proof (proj1 (Forall_forall _ _) (tx_supported tx Hok) m Hin) as Hsup.
  assert (∀ a, a = mapToActionType (man_Action m) →
    ((a = ActionTypeStart ∨ a = ActionTypeRestart) ↔ man_Action m ≠ PrepareActionContinue)
    ∧ a ≠ ActionTypeUnknown ∧ (a = ActionTypeStart ↔ man_Action m = PrepareActionStart)) as Ha.
  { assert (PrepareActionStart ≠ PrepareActionContinue) as D1 by done.
    assert (PrepareActionRestart ≠ PrepareActionContinue) as D2 by done.
    assert (PrepareActionRestart ≠ PrepareActionStart) as D3 by done.
    intros a ->. unfold supported in Hsup. unfold mapToActionType in *.
    revert Hsup D1 D2 D3. clear.
    repeat case_decide; intros; split_and!; intuition congruence. }
  unfold to_initiate, ac_Id.
  destruct (defined (tx_definitions tx) id) as [c|] eqn:Hd; cbn;
    destruct (Ha _ eq_refl) as (H1 & H2 & H3); split_and!; try done.
  by apply (last_filter_id (tx_definitions tx)).
Qed.

Lemma entry_initiated tx id ac :
  tx_ok tx → (∀ c, c ∈ tx_definitions tx → initiation_of c = Initiated) →
  tx_entry tx id = Some ac → to_initiate ac →
  initiation_of (ac_CheckIn ac) = Initiated ∧ defined (tx_definitions tx) id = Some (ac_CheckIn ac).
Proof.
  intros Hok Hin Hac Hact. destruct (declared (tx_manifest tx) id) as [m|] eqn:Hm.
  2:{ unfold tx_entry in Hac. by rewrite Hm in Hac. }
  destruct (entry_to_initiate tx id m ac Hok Hm Hac) as (H1 & _).
  destruct (tx_complete tx Hok id m Hm) as [c Hc]; [by apply H1|].
  unfold tx_entry in Hac. rewrite Hm, Hc in Hac. injection Hac as <-. cbn.
  split; [|done]. apply Hin. by apply last_filter_some in Hc as [? _].
Qed.

(** A scheduler that has what the transaction restarts or continues. *)
Definition scheduler_fits `{MapRange} (tx : transaction) (sched : EleScheduler) : Prop :=
  sched_reachable sched ∧ s_preparations sched = [] ∧
  ∀ id m, declared (tx_manifest tx) id = Some m → man_Action m ≠ PrepareActionStart →
    is_Some (s_checks sched !! id).

(** The table that the transaction asks for. *)
Definition table_of (tx : transaction) (old new : EleScheduler) : Prop :=
  (∀ id, is_Some (s_checks new !! id) ↔ is_Some (declared (tx_manifest tx) id))
  ∧ (∀ id m, declared (tx_manifest tx) id = Some m → man_Action m ≠ PrepareActionContinue →
       ∃ ch, s_checks new !! id = Some ch ∧ defined (tx_definitions tx) id = Some (GetCheckIn ch)
         ∧ done_in new ch = closed old)
  ∧ (∀ id m, declared (tx_manifest tx) id = Some m → man_Action m = PrepareActionContinue →
       s_checks new !! id = s_checks old !! id).

Section end_to_end.
Context `{MapRange}.

Lemma fits_accepts tx cp sched :
  tx_ok tx → NewChecksPreparation (tx_zone tx) (tx_version tx) (tx_manifest tx) = inl cp →
  scheduler_fits tx sched → scheduler_ValidateChecks cp sched = None.
Proof.
  intros Hok (_ & _ & _ & Ha)%new_preparation_ok (_ & _ & Hhas).
  apply validate_checks_none. intros id action (key & ac & Hac & <- & <-) Hact.
  rewrite Ha in Hac. destruct (declared (tx_manifest tx) key) as [m|] eqn:Hm; [|done].
  injection Hac as <-. pose proof Hm as Hm'. apply last_filter_some in Hm' as [_ Hid].
  change (ac_Id (manifest_entry m)) with (man_Id m). rewrite Hid.
  apply (Hhas key m Hm). intros Hst. cbn in Hact. rewrite Hst in Hact. by destruct Hact.
Qed.

Lemma reconcile_table tx cp sched :
  tx_ok tx → (∀ c, c ∈ tx_definitions tx → initiation_of c = Initiated) →
  NewChecksPreparation (tx_zone tx) (tx_version tx) (tx_manifest tx) = inl cp →
  scheduler_fits tx sched →
  runs take_preparation (with_preparation (add_definitions (tx_definitions tx) cp) sched)
    (λ _ u, table_of tx sched u).
Proof.
  intros Hok Hin Hnew (Hreach & Hq & Hhas). set (cp' := add_definitions (tx_definitions tx) cp).
  assert (∀ id, cp_Actions cp' !! id = tx_entry tx id) as He by (intros id; by apply tx_entries).
  assert (∀ id ac, tx_entry tx id = Some ac → ∃ m, declared (tx_manifest tx) id = Some m) as Hdecl.
  { intros id ac Hac. unfold tx_entry in Hac. destruct (declared _ id) as [m|]; [by exists m|done]. }
  unfold take_preparation. apply runs_bind. unfold runs at 1. cbn [gets].
  unfold with_preparation. cbn [s_preparations set_preparations]. rewrite Hq. cbn [app].
  apply runs_bind. unfold runs at 1. cbn [modify].
  replace (set_preparations (set_preparations sched [cp']) []) with sched
    by (destruct sched; cbn in *; by subst).
  eapply runs_mono; [apply reconcile_runs; [by apply reachable_inv| |]|].
  - intros id ac Hac. rewrite He in Hac. destruct (Hdecl id ac Hac) as [m Hm].
    by destruct (entry_to_initiate tx id m ac Hok Hm Hac) as (_ & _ & _ & ?).
  - intros id ac Hac Hact. rewrite He in Hac. apply initiated_details.
    by destruct (entry_initiated tx id ac Hok Hin Hac Hact).
  - cbn. intros _ u (_ & _ & Hdone & Hgone).
    assert (∀ id m ac, declared (tx_manifest tx) id = Some m → tx_entry tx id = Some ac →
      entry_done ac sched u ∧ ac_Id ac = id ∧ (to_initiate ac ↔ man_Action m ≠ PrepareActionContinue))
      as Hent.
    { intros id m ac Hm Hac. destruct (entry_to_initiate tx id m ac Hok Hm Hac) as (H1 & _ & _ & H4).
      split_and!; [|done|done..]. apply (Hdone id). by rewrite He. }
    assert (∀ id m, declared (tx_manifest tx) id = Some m → is_Some (tx_entry tx id)) as Hsome.
    { intros id m Hm. unfold tx_entry. by rewrite Hm. }
    split_and!.
    + intros id. destruct (declared (tx_manifest tx) id) as [m|] eqn:Hm.
      * split; [done|]. intros _. destruct (Hsome id m Hm) as [ac Hac].
        destruct (Hent id m ac Hm Hac) as (Hd & Hid & Hact). unfold entry_done in Hd.
        rewrite Hid in Hd. case_decide as Hti.
        -- destruct Hd as [_ Hd]. destruct (entry_initiated tx id ac Hok Hin Hac Hti) as [Hi _].
           rewrite Hi in Hd. destruct Hd as (ch & -> & _). done.
        -- destruct Hd as [-> _]. apply (Hhas id m Hm). intros Hst. apply Hti, Hact.
           by rewrite Hst.
      * destruct (Hgone id) as [-> _]; [|done]. rewrite He. unfold tx_entry. by rewrite Hm.
    + intros id m Hm Hact. destruct (Hsome id m Hm) as [ac Hac].
      destruct (Hent id m ac Hm Hac) as (Hd & Hid & Hti). unfold entry_done in Hd.
      rewrite Hid, decide_True in Hd by by apply Hti. destruct Hd as [_ Hd].
      destruct (entry_initiated tx id ac Hok Hin Hac) as [Hi Hdef]; [by apply Hti|].
      rewrite Hi in Hd. destruct Hd as (ch & H1 & H2 & H3). exists ch. by rewrite H2.
    + intros id m Hm Hact. destruct (Hsome id m Hm) as [ac Hac].
      destruct (Hent id m ac Hm Hac) as (Hd & Hid & Hti). unfold entry_done in Hd.
      rewrite Hid, decide_False in Hd by (intros Hc; by apply Hti in Hc). apply Hd.
Qed.
End end_to_end.

(** ** A stream whose schedulers fit *)
Section fitting_stream.
Context {C : Type} `{!Connection C} `{MapRange}.
Implicit Types cs : EleConnectionStream C.

Lemma stream_fits tx cs :
  tx_ok tx → map_Forall (λ _ sched, scheduler_fits tx sched) (cs_schedulers cs) →
  ∃ cp, NewChecksPreparation (tx_zone tx) (tx_version tx) (tx_manifest tx) = inl cp
    ∧ stream_ValidateChecks cp cs = None ∧ stream_room cs = true.
Proof.
  intros Hok Hfit.
  destruct (new_preparation_started (tx_manifest tx) (tx_zone tx) (tx_version tx)
    (tx_supported tx Hok)) as [cp Hcp].
  exists cp. split_and!; [done| |].
  - apply stream_validate_none. intros z sched Hz. by apply (fits_accepts tx), (Hfit z).
  - apply bool_decide_eq_true_2. intros z sched Hz. destruct (Hfit z sched Hz) as (_ & Hq & _).
    unfold scheduler_room. rewrite Hq. done.
Qed.

Lemma stream_tables tx cp cs cs' :
  tx_ok tx → (∀ c, c ∈ tx_definitions tx → initiation_of c = Initiated) →
  map_Forall (λ _ sched, scheduler_fits tx sched) (cs_schedulers cs) →
  NewChecksPreparation (tx_zone tx) (tx_version tx) (tx_manifest tx) = inl cp →
  ReconcileChecks (add_definitions (tx_definitions tx) cp) cs = Ret () cs' → stream_room cs = true →
  ∀ zone sched, cs_schedulers cs !! zone = Some sched →
    ∃ sched', cs_schedulers cs' !! zone = Some sched'
      ∧ runs take_preparation sched' (λ _ u, table_of tx sched u).
Proof.
  intros Hok Hin Hfit Hnew Hrec Hroom zone sched Hz. cbn in Hrec.
  rewrite (stream_reconcile_app _ _ Hroom) in Hrec. injection Hrec as <-.
  exists (with_preparation (add_definitions (tx_definitions tx) cp) sched).
  split; [|apply reconcile_table; [done..|by apply (Hfit zone)]].
  cbn. by rewrite lookup_fmap, Hz.
Qed.
End fitting_stream.

(** ** Properties *)
Section properties.
Context {C : Type} `{!Connection C} `{MapRange}.

(** C1: the whole of a transaction.  When an idle session receives the frames of
    a well-formed transaction whose definitions initiate, and every scheduler
    of the stream is idle and runs the checks that the transaction restarts or
    continues, then no frame faults; the endpoint is answered "prepared" for
    the announcement and "committed" for the commit, and nothing else; and each
    scheduler, at its next turn, returns with a table of exactly the checks of
    the manifest: those to start or restart with the definitions received and
    running, those that continue untouched. *)
Theorem two_phase_end_to_end tx id (s : EleSession (EleConnectionStream C)) :
  session_reachable s → part_of s = None → tx_ok tx →
  (∀ c, c ∈ tx_definitions tx → initiation_of c = Initiated) →
  map_Forall (λ _ sched, scheduler_fits tx sched) (cs_schedulers (ss_reconciler s)) →
  runs (handle_all (transaction_frames tx id)) s (λ _ t,
    part_of t = None
    ∧ (∃ commit_id, ss_sendCh t = ss_sendCh s ++
        [prepare_answer (ss_guid s) (prepare_frame tx id) (tx_zone tx) (tx_version tx)
           PrepareResultStatusPrepared "";
         commit_answer (ss_guid s) (commit_frame tx commit_id) (tx_zone tx) (tx_version tx)
           PrepareResultStatusCommitted ""])
    ∧ ∀ zone sched, cs_schedulers (ss_reconciler s) !! zone = Some sched →
        ∃ sched', cs_schedulers (ss_reconciler t) !! zone = Some sched'
          ∧ runs take_preparation sched' (λ _ u, table_of tx sched u)).
Proof.
  intros Hr%reachable_session_inv Hidle Hok Hin Hfit.
  destruct (stream_fits tx (ss_reconciler s) Hok Hfit) as (cp & Hnew & Hval & Hroom).
  destruct (transaction_runs tx id s cp Hok Hr Hidle Hnew Hval Hroom) as (t & cid & E & Hp & Hs & Hrec).
  apply (runs_ret _ _ _ _ _ E). split_and!; [done|by exists cid|].
  by apply (stream_tables tx cp (ss_reconciler s)).
Qed.
End properties.
