(* ===== verification/Agreement.v ===== *)
(** The two programs of the repository together: an agent of the endpoint
    (Agent) on one end of the connection, a session of the poller with its
    stream and schedulers (TwoPhase) on the other. *)
From S2P Require Export TwoPhase.

(** What the far end reads from the documents written. *)
Definition received (js : list json) : list FrameMsg :=
  (λ j, (Unmarshal c_frame j zero_frame).1) <$> js.

Lemma received_frames (fs : list FrameMsg) :
  Forall (λ f, common_ok (Common f)) fs → received ((λ f, Encode (FMsg f)) <$> fs) = fs.
Proof.
  intros Hfs. unfold received. rewrite <- list_fmap_compose.
  etrans; [|apply list_fmap_id]. apply Forall_fmap_ext_1. eapply Forall_impl; [exact Hfs|].
  intros f Hf. unfold compose, Unmarshal, id. cbn [Encode]. by rewrite (round_trip f Hf).
Qed.

(** ** The frames of an agent are a transaction *)
Definition agent_tx (version : Z) (manifest : list PollerPrepareManifest)
    (blocks : list (list Check)) : transaction := {|
  tx_zone := ""; tx_version := version; tx_manifest := manifest;
  tx_blocks := (λ b : list Check, GetCheckIn <$> b) <$> blocks
|}.

Lemma prepare_frames_announcement version id manifest blocks :
  prepare_frames version id manifest blocks = announcement (agent_tx version manifest blocks) id.
Proof.
  unfold prepare_frames, announcement, block_frames. cbn [agent_tx tx_blocks].
  rewrite length_fmap, imap_fmap. done.
Qed.

Lemma declared_in l id m : declared l id = Some m → m ∈ l ∧ man_Id m = id.
Proof. apply (last_filter_some (λ m, man_Id m = id)). Qed.

Lemma concat_blocks (blocks : list (list Check)) :
  concat ((λ b : list Check, GetCheckIn <$> b) <$> blocks) = GetCheckIn <$> concat blocks.
Proof. induction blocks as [|b bs IH]; [done|]. cbn. by rewrite fmap_app, IH. Qed.

Lemma manifest_ids start restart :
  man_Id <$> manifest_of start restart = GetID <$> start ++ restart.
Proof. unfold manifest_of. by rewrite !fmap_app, <- !list_fmap_compose. Qed.

Section transaction.
Context (version : Z) (start restart : list Check) (blocks : list (list Check)).
Context (Hversion : (0 < version < 2 ^ 63)%Z).
Context (Hblocks : concat blocks = start ++ restart).
Context (Hloaded : Forall loaded (start ++ restart)).
Let tx := agent_tx version (manifest_of start restart) blocks.

Lemma agent_tx_definitions : tx_definitions tx = GetCheckIn <$> start ++ restart.
Proof. unfold tx_definitions. cbn. by rewrite concat_blocks, Hblocks. Qed.

Lemma agent_tx_declared id : is_Some (declared (tx_manifest tx) id) ↔ id ∈ GetID <$> start ++ restart.
Proof.
  change (tx_manifest tx) with (manifest_of start restart).
  rewrite <- manifest_ids. split.
  - intros [m [Hm <-]%declared_in]. by apply list_elem_of_fmap_2.
  - intros (m & -> & Hm)%list_elem_of_fmap. by eapply last_filter_is_some.
Qed.

Lemma agent_tx_ok : tx_ok tx.
Proof.
  split.
  - done.
  - cbn. unfold manifest_of. apply Forall_app. split; apply Forall_fmap, Forall_true; intros ch; done.
  - rewrite agent_tx_definitions. apply Forall_fmap. eapply Forall_impl; [exact Hloaded|].
    by intros ch [? _].
  - rewrite agent_tx_definitions. intros c (ch & -> & Hch)%list_elem_of_fmap.
    apply agent_tx_declared. exact (list_elem_of_fmap_2 GetID _ _ Hch).
  - rewrite agent_tx_definitions. intros id m Hm _.
    assert (id ∈ GetID <$> start ++ restart) as Hid by (apply agent_tx_declared; by eexists).
    apply list_elem_of_fmap in Hid as (ch & -> & Hch).
    eapply (last_filter_is_some _ _ (GetCheckIn ch)); [by apply list_elem_of_fmap_2|done].
Qed.

Lemma agent_tx_initiates c : c ∈ tx_definitions tx → initiation_of c = Initiated.
Proof.
  rewrite agent_tx_definitions. intros (ch & -> & Hch)%list_elem_of_fmap.
  rewrite Forall_forall in Hloaded. by apply Hloaded.
Qed.

Lemma agent_tx_fits `{MapRange} sched :
  sched_reachable sched → s_preparations sched = [] →
  Forall (λ ch, is_Some (s_checks sched !! GetID ch)) restart → scheduler_fits tx sched.
Proof.
  intros Hr Hq Hre. split_and!; [done..|]. intros id m [Hm <-]%declared_in Hact.
  cbn in Hm. apply elem_of_app in Hm as [Hm|Hm]; apply list_elem_of_fmap in Hm as (ch & -> & Hch).
  - by destruct Hact.
  - rewrite Forall_forall in Hre. by apply Hre.
Qed.
End transaction.

(** ** Frames on the wire *)
Lemma agent_frame_ok id method params : is_u64 id → common_ok (Common (agent_frame id method params)).
Proof. intros Hid. by split. Qed.

Lemma prepare_frames_ok version id manifest blocks :
  (0 ≤ id)%Z → (id + 1 + Z.of_nat (length blocks) < 2 ^ 64)%Z →
  Forall (λ f, common_ok (Common f)) (prepare_frames version id manifest blocks).
Proof.
  intros H0 H1. unfold prepare_frames.
  apply Forall_cons. split; [apply agent_frame_ok; unfold is_u64; lia|].
  apply Forall_app. split; [|by apply Forall_singleton, agent_frame_ok; unfold is_u64; lia].
  apply Forall_lookup_2. intros i f Hf. unfold block_frames in Hf.
  rewrite list_lookup_imap in Hf. destruct (blocks !! i) eqn:Hi; [|done].
  apply lookup_lt_Some in Hi. injection Hf as <-. apply agent_frame_ok. unfold is_u64. lia.
Qed.

Lemma wire_frame f : common_ok (Common f) → received [Encode (FMsg f)] = [f].
Proof. intros Hf. apply (received_frames [f]). by apply Forall_singleton. Qed.

Lemma answer_frame guid src result :
  common_ok (Common src) →
  received (Encode <$> [answer guid src result]) =
    [{| Common := {| f_Version := f_Version (Common src); f_Id := f_Id (Common src);
                     f_Target := "endpoint"; f_Source := guid; f_Method := "";
                     f_Error := f_Error (Common src) |};
        RawParams := None; RawResult := Some result |}].
Proof. intros [Hid He]. by apply wire_frame. Qed.

(** ** The exchange *)
Section exchange.
Context {C : Type} `{!Connection C} `{MapRange}.
Implicit Types (a b : agent) (s t : EleSession (EleConnectionStream C)).

(** What an agent wrote since [a], as the session reads it, and conversely. *)
Definition to_poller a b : list FrameMsg :=
  received (drop (length (a_responder a)) (a_responder b)).
Definition to_endpoint s t : list FrameMsg :=
  received (Encode <$> drop (length (ss_sendCh s)) (ss_sendCh t)).

Definition agent_takes (fs : list FrameMsg) : go agent unit := for_each fs agent_handleResponse.

Lemma to_poller_sent a0 a fs :
  a_responder a = a_responder a0 → Forall (λ f, common_ok (Common f)) fs →
  to_poller a0 (sent fs a) = fs.
Proof.
  intros E Hfs. unfold to_poller. cbn [sent a_responder put_outMsgId put_a_responder].
  by rewrite E, drop_app_length, received_frames.
Qed.

Lemma to_endpoint_app s t fs :
  ss_sendCh t = ss_sendCh s ++ fs → to_endpoint s t = received (Encode <$> fs).
Proof. intros E. unfold to_endpoint. by rewrite E, drop_app_length. Qed.

(** A preparation that the schedulers of the session can follow. *)
Definition poller_ready (restart : list Check) s : Prop :=
  session_reachable s ∧ part_of s = None ∧
  map_Forall (λ _ sched, sched_reachable sched ∧ s_preparations sched = []
    ∧ Forall (λ ch, is_Some (s_checks sched !! GetID ch)) restart) (cs_schedulers (ss_reconciler s)).

(** The last step: the endpoint believes what the poller does. *)
Definition agreement (ids : list string) a s b t : Prop :=
  committedChecks b = Some (list_to_set ids)
  ∧ pendingPrepares b = delete (outMsgId b) (delete (outMsgId a + 1)%Z (pendingPrepares a))
  ∧ part_of t = None
  ∧ ∀ zone sched, cs_schedulers (ss_reconciler s) !! zone = Some sched →
      ∃ sched', cs_schedulers (ss_reconciler t) !! zone = Some sched'
        ∧ runs take_preparation sched' (λ _ u, ∀ id, is_Some (s_checks u !! id) ↔ id ∈ ids).

Lemma takes_one f a b : agent_handleResponse f a = Ret () b → agent_takes [f] a = Ret () b.
Proof. intros E. unfold agent_takes. cbn. by rewrite bind_app, E. Qed.

Lemma handle_one f s t e : handleFrame f s = Ret e t → handle_all [f] s = Ret () t.
Proof. intros E. by rewrite (handle_ret _ _ _ _ _ E). Qed.

(** The prepared answer makes the agent commit. *)
Lemma prepared_then_commit tx now start restart guid a :
  let id := (outMsgId a + 1)%Z in
  let a1 := announced now start restart a in
  let version := to_i64 (to_u64 (checksVersion a + 1)) in
  is_u64 id → ids_left a1 1 → is_i64 version → tx_zone tx = "" → tx_version tx = version →
  ∃ ans, received (Encode <$> [prepare_answer guid (prepare_frame tx id) (tx_zone tx)
           (tx_version tx) PrepareResultStatusPrepared ""]) = [ans]
    ∧ agent_takes [ans] a1 = Ret () (sent [commit_frame tx (outMsgId a1 + 1)]
        (put_pendingPrepares (<[(outMsgId a1 + 1)%Z :=
            {| pp_version := to_u64 (checksVersion a + 1); pp_checkIds := GetID <$> start ++ restart;
               committing := true; pp_sent := now |}]> (delete id (pendingPrepares a))) a1)).
Proof.
  intros id a1 version Hid Hids Hv Hz Htv. unfold prepare_answer. rewrite answer_frame by done.
  eexists. split; [done|]. apply takes_one.
  set (p := {| pp_version := to_u64 (checksVersion a + 1); pp_checkIds := GetID <$> start ++ restart;
    committing := false; pp_sent := now |}).
  assert (pendingPrepares a1 = <[id := p]> (pendingPrepares a)) as Hpend by done.
  rewrite (prepared_response _ {| ppr_ZoneId := tx_zone tx; ppr_Version := tx_version tx;
    ppr_Status := PrepareResultStatusPrepared; ppr_Details := "" |} p).
  - rewrite bool_decide_true by done. unfold commit_frame. rewrite Hz, Htv.
    cbn [Common f_Id prepare_frame agent_frame]. by rewrite Hpend, delete_insert_eq.
  - cbn [Common f_Id prepare_frame agent_frame]. by rewrite Hpend, lookup_insert_eq.
  - done.
  - done.
  - cbn [ppr_Version]. by rewrite Htv.
  - done.
Qed.

(** The committed answer makes the agent record what is committed. *)
Lemma committed_then_recorded tx cid guid p a2 :
  pendingPrepares a2 !! cid = Some p → committing p = true → is_u64 cid → is_i64 (tx_version tx) →
  ∃ ans, received (Encode <$> [commit_answer guid (commit_frame tx cid) (tx_zone tx)
           (tx_version tx) PrepareResultStatusCommitted ""]) = [ans]
    ∧ agent_takes [ans] a2 = Ret () (put_pendingPrepares (delete cid (pendingPrepares a2))
        (put_committedChecks (Some (list_to_set (pp_checkIds p))) a2)).
Proof.
  intros Hp Hc Hid Hv. unfold commit_answer. rewrite answer_frame by done.
  eexists. split; [done|]. apply takes_one.
  rewrite (committed_response _ {| pcr_ZoneId := tx_zone tx; pcr_Version := tx_version tx;
    pcr_Status := PrepareResultStatusCommitted; pcr_Details := "" |} p); try done.
Qed.

(** What the agent has sent is the announcement of its transaction. *)
Lemma announced_sent now start restart a :
  (0 < prepareBlockSize a)%Z → ids_left a (length (start ++ restart) + 4) →
  (0 ≤ checksVersion a < 2 ^ 63 - 1)%Z →
  let version := (checksVersion a + 1)%Z in
  let bs := blocks_of a (start ++ restart) in
  let a1 := announced now start restart a in
  to_i64 (to_u64 version) = version ∧ length bs ≤ length (start ++ restart)
  ∧ outMsgId a1 = (outMsgId a + 2 + Z.of_nat (length bs))%Z
  ∧ to_poller a a1 = announcement (agent_tx version (manifest_of start restart) bs) (outMsgId a + 1).
Proof.
  intros Hsize Hids Hver version bs a1.
  assert (to_i64 (to_u64 version) = version) as Hv.
  { subst version. rewrite to_u64_id, to_i64_id; unfold is_u64, is_i64; lia. }
  assert (length bs ≤ length (start ++ restart)) as Hlen by (apply length_chunks_le; lia).
  split; [done|]. split; [done|]. subst a1. unfold announced. split.
  - unfold prepare_frames. fold bs. cbn [outMsgId sent put_outMsgId put_a_responder length].
    rewrite length_app, length_block_frames. cbn. lia.
  - fold version bs. rewrite Hv. rewrite to_poller_sent; [apply prepare_frames_announcement|done|].
    apply prepare_frames_ok; unfold ids_left in Hids; lia.
Qed.

End exchange.
