(* ===== verification/Delivery.v ===== *)
(** The way of a measurement, from the result set of a check in the poller to
    the router of the endpoint: the post made of it (CheckResult), a session
    that sends it (Session), the frame on the wire (Protocol), the connection,
    the tracker and the decomposer of the endpoint (Server). *)
From S2P Require Export Agreement Server.

(** The metrics of a result set, as a router names them. *)
Definition measured (crs : ResultSet) (agentId : string) : list RouterMetric :=
  let ch := rs_Check crs in
  rs_Metrics crs ≫= λ cr,
    (λ '(name, m), {| rm_Name := BuildMetricName (GetEntityID ch) agentId (GetCheckType ch) (GetID ch) name;
                      rm_Value := Sprint (m_Value m); rm_MetricType := m_TypeString m |})
      <$> map_to_list (cr : gmap string Metric).

(** ** What is posted *)
Lemma metric_entries params agentId (cr : Result) :
  map_to_list ((λ m, Some (tvu_of m)) <$> cr : gmap string (option MetricTVU)) ≫= router_metric params agentId
    ≡ₚ (λ '(name, m), {| rm_Name := BuildMetricName (mpc_EntityId params) agentId (mpc_CheckType params)
                                     (mpc_CheckId params) name;
                        rm_Value := Sprint (m_Value m); rm_MetricType := m_TypeString m |})
        <$> map_to_list (cr : gmap string Metric).
Proof.
  rewrite map_to_list_fmap. generalize (map_to_list (cr : gmap string Metric)). intros l.
  induction l as [|[name m] l IH]; [done|]. cbn. by apply Permutation_skip.
Qed.

Lemma posted_metrics params crs agentId :
  mpc_Metrics params = ConvertToMetricResults <$> rs_Metrics crs →
  mpc_EntityId params = GetEntityID (rs_Check crs) → mpc_CheckId params = GetID (rs_Check crs) →
  mpc_CheckType params = GetCheckType (rs_Check crs) →
  metrics_of params agentId ≡ₚ measured crs agentId ∧ no_nil_entry params.
Proof.
  intros Hm He Hi Ht. unfold metrics_of, measured, no_nil_entry. rewrite Hm, <- He, <- Hi, <- Ht. split.
  - clear. induction (rs_Metrics crs) as [|cr l IH]; [done|].
    cbn [fmap list_fmap concat ConvertToMetricResults]. rewrite list.bind_app, IH. cbn [mbind list_bind].
    apply Permutation_app; [|done]. unfold ConvertToMetricResults, default.
    cbn [mbind list_bind from_option id]. rewrite map_to_list_empty. cbn [app]. rewrite app_nil_r.
    apply metric_entries.
  - apply Forall_fmap, Forall_true. intros cr. repeat constructor; cbn.
    + apply map_Forall_empty.
    + intros name e (m & <- & _)%lookup_fmap_Some. by eexists.
Qed.

(** ** The connection *)

(** The frame that the endpoint reads of a post. *)
Lemma post_received req :
  is_u64 (f_Id (Common (mpr_Frame req))) → f_Error (Common (mpr_Frame req)) = None →
  received [Encode (FMetricsPost req)] = [wire (FMetricsPost req)].
Proof.
  intros Hid He. unfold received. cbn [fmap list_fmap]. f_equal. unfold Unmarshal. cbn [Encode wire].
  by rewrite encode_request_rt by (split; [done|by rewrite He]).
Qed.

Section delivery.
Context {R : Type} `{!ChecksReconciler R} `{MapRange}.

(** The session sends a post as one message. *)
Lemma session_posts now offset crs (p : EleSession R) :
  ∃ content req p', PopulateMetricsPostContent now offset crs p = Ret content p
    ∧ (req ← NewMetricsPostRequest now crs offset; Send (FMetricsPost req)) p = Ret () p'
    ∧ ss_sendCh p' = ss_sendCh p ++ [FMetricsPost req] ∧ mpr_Params req = content
    ∧ is_u64 (f_Id (Common (mpr_Frame req))) ∧ f_Error (Common (mpr_Frame req)) = None
    ∧ f_Version (Common (mpr_Frame req)) = "1"
    ∧ f_Method (Common (mpr_Frame req)) = MethodCheckMetricsPostMulti
    ∧ f_Source (Common (mpr_Frame req)) = ss_guid p.
Proof.
  destruct (populate_always now offset crs p) as [content Ec].
  eexists content, _, _. split; [done|]. split.
  - rewrite bind_app. unfold NewMetricsPostRequest. rewrite bind_app, Ec. cbn [mret go_ret].
    unfold Send. rewrite bind_app, bool_decide_true by done. reflexivity.
  - cbn. split_and!; try done. apply to_u64_range.
Qed.

(** The three turns of the endpoint for a post. *)
Lemma endpoint_routes snow addr frame params (s : AgentTracker) i a mr :
  f_Version (Common frame) = "1" → f_Method (Common frame) = MethodCheckMetricsPostMulti →
  RawParams frame = Some (enc c_metrics_post_content params) →
  is_u64 (mpc_MinCheckPeriod params) → is_i64 (mpc_Timestamp params) → no_nil_entry params →
  agentsBySource s !! f_Source (Common frame) = Some i → at_agents s !! i = Some a →
  metricsRouter s = Some mr → metricsPosts s = [] → at_metrics s = [] →
  runs (server_run [SvFrame snow addr frame; SvPost; SvMetric]) s (λ _ t, ∃ l,
    t = with_router s (mr ++ l) ∧ l ≡ₚ metrics_of params (a_id a)).
Proof.
  intros Hv Hm Hp Hper Hts Hnil Hsrc Ha Hr Hq1 Hq2.
  set (post := {| post_params := params; post_frame := frame |}).
  set (job := {| store_agent := i; store_params := params |}).
  assert (connection_frame snow addr frame s = Ret true (put_metricsPosts [post] s)) as E1.
  { unfold connection_frame. assert (IsFinished frame = false) as ->.
    { unfold IsFinished. by rewrite Hv. }
    rewrite bind_app. unfold server_handleFrame. rewrite Hm.
    rewrite bool_decide_false, bool_decide_true by done. rewrite Hp.
    unfold zero_metrics_post_content. rewrite (unmarshal_raw_rt _ _ _ params (conj Hper Hts)).
    rewrite bind_app. unfold handleCheckMetricsPost, send_on. rewrite bind_app. cbn [gets].
    by rewrite Hq1. }
  assert (take_post (put_metricsPosts [post] s) = Ret () (put_at_metrics [job] s)) as E2.
  { unfold take_post. rewrite bind_app. cbn [gets metricsPosts put_metricsPosts].
    rewrite bind_app. cbn [modify]. unfold handleMetricsPostReq. rewrite bind_app. cbn [gets].
    cbn [agentsBySource put_metricsPosts post post_frame]. rewrite Hsrc. unfold send_on.
    rewrite bind_app. cbn [gets at_metrics put_metricsPosts]. rewrite Hq2. cbn.
    unfold put_at_metrics, put_metricsPosts. cbn. by rewrite <- Hq1. }
  unfold server_run. cbn [for_each server_turn].
  apply runs_bind. eapply runs_ret; [rewrite bind_app, E1; reflexivity|].
  apply runs_bind. apply (runs_ret _ _ _ _ _ E2).
  apply runs_bind. unfold take_metric. apply runs_bind. eapply runs_ret; [reflexivity|].
  cbn [at_metrics put_at_metrics]. apply runs_bind. eapply runs_ret; [reflexivity|].
  assert (put_at_metrics [] (put_at_metrics [job] s) = s) as ->.
  { unfold put_at_metrics. destruct s; cbn in *. by subst. }
  pose proof (decompose_app job s a mr Ha Hr Hnil) as E3.
  apply (runs_ret _ _ _ _ _ E3). eexists. split; [reflexivity|].
  apply decomposed_metrics.
Qed.

(** C11: a measurement reaches the router.  When a session of a poller sends a
    result set and the endpoint, which knows the poller by its guid, reads the
    frame and has nothing else to do, the router is given exactly one metric
    for each metric of the result set, with its value as text, its type, and a
    name made of the entity, the agent, the type and the id of the check and
    the name of the metric; and nothing else of the endpoint changes. *)
Theorem metrics_delivered now offset snow addr crs (p : EleSession R) (s : AgentTracker) i a mr :
  agentsBySource s !! ss_guid p = Some i → at_agents s !! i = Some a →
  metricsRouter s = Some mr → metricsPosts s = [] → at_metrics s = [] →
  runs (req ← NewMetricsPostRequest now crs offset; Send (FMetricsPost req)) p (λ _ p',
    ∃ msg frame, ss_sendCh p' = ss_sendCh p ++ [msg] ∧ received [Encode msg] = [frame]
      ∧ runs (server_run [SvFrame snow addr frame; SvPost; SvMetric]) s (λ _ t,
          ∃ l, t = put_metricsRouter (Some (mr ++ l)) s ∧ l ≡ₚ measured crs (a_id a))).
Proof.
  intros Hsrc Ha Hr Hq1 Hq2.
  destruct (populate_content now offset crs p) as (content & Ec & Hms & He & Hi & Ht & Hper & Hts).
  destruct (session_posts now offset crs p) as (content' & req & p' & Ec' & Er & Hch & Hpar & Hid & Herr & Hv & Hm & Hs).
  rewrite Ec in Ec'. injection Ec' as <-.
  destruct (posted_metrics content crs (a_id a) Hms He Hi Ht) as [Hmeas Hnil].
  apply (runs_ret _ _ _ _ _ Er). exists (FMetricsPost req), (wire (FMetricsPost req)).
  split; [done|]. split; [by apply post_received|].
  eapply runs_mono; [apply (endpoint_routes snow addr _ content s i a mr)|]; try done.
  - cbn. by rewrite Hpar.
  - cbn [wire Common]. by rewrite Hs.
  - intros _ t (l & -> & Hl). exists l. split; [done|]. by rewrite Hl.
Qed.
End delivery.
