(* ===== verification/Network.v ===== *)
(** An agent of the endpoint and a session of the poller over a connection, in
    any interleaving of their goroutines: where Agreement follows one
    transaction, here bundles may be announced while others are under way,
    timers expire, and other requests and responses share the connection.

    The connection loses nothing and keeps the order.  Both ends write to a
    list that only grows ([a_responder], [ss_written]); the state of the
    connection is how much of each has been read. *)
From S2P Require Export Agreement.

(** ** A reconciler that keeps a log

    The preparations handed over, in order, beside the state of any other
    reconciler. *)
Record logged {R : Type} := Logged { inner : R; handed : list ChecksPreparation }.
Arguments logged R : clear implicits.

Definition put_inner {R} (r : R) (l : logged R) : logged R := Logged _ r (handed l).

Section logged.
Context {R : Type} `{!ChecksReconciler R}.

Definition log_reconcile (cp : ChecksPreparation) : go (logged R) unit :=
  zoom inner put_inner (ReconcileChecks cp);;
  modify (λ l, Logged _ (inner l) (handed l ++ [cp])).

Lemma log_reconcile_room cp r : has_room (inner r) = true → returns (log_reconcile cp r) = true.
Proof.
  intros Hr%(reconcile_room cp). unfold log_reconcile, zoom. rewrite bind_app.
  by destruct (ReconcileChecks cp (inner r)).
Qed.

#[export] Instance logged_reconciler : ChecksReconciler (logged R) := {
  ValidateChecks cp l := ValidateChecks cp (inner l);
  ReconcileChecks := log_reconcile;
  has_room l := has_room (inner l);
  reconcile_room := log_reconcile_room;
  validate_plan l := validate_plan (inner l)
}.

Lemma log_reconcile_handed cp r r' :
  ReconcileChecks cp r = Ret () r' → handed r' = handed r ++ [cp].
Proof.
  cbn. unfold log_reconcile, zoom. rewrite bind_app.
  destruct (ReconcileChecks cp (inner r)); [|done]. by intros [= <-].
Qed.
End logged.

(** ** The two ends and the connection *)
Definition is_response (f : FrameMsg) : Prop := f_Method (Common f) = MethodEmpty.
#[export] Instance is_response_dec f : Decision (is_response f) := decide (_ = _).

Section network.
Context {R : Type} `{!ChecksReconciler R} `{MapRange}.
Abbreviation session := (EleSession (logged R)).

Record network := Network {
  net_agent : agent; net_session : session;
  net_read : nat;   (** documents of the agent that the poller has read *)
  net_taken : nat   (** documents of the poller that the endpoint has read *)
}.

(** The turns of the session that do not read what the agent sent.  Its other
    requests are handshakes, heartbeats and metrics; the frames that the server
    itself sends are the responses to these. *)
Inductive poller_turn : session → session → Prop :=
| turn_handle s t : handle_read_frame s = Ret () t → poller_turn s t
| turn_fires s d :
    prepareToEndTimer (ss_prep s) = Some (Armed d) →
    poller_turn s (put_ss_prep (put_prepareToEndTimer (Some Fired) (ss_prep s)) s)
| turn_expired s t :
    ChannelOfTimer (prepareToEndTimer (ss_prep s)) = true →
    prepare_to_end_expired s = Ret () t → poller_turn s t
| turn_heartbeat now s t : heartbeat_tick now s = Ret () t → poller_turn s t
| turn_heartbeat_response now s t : heartbeat_receive now s = Ret () t → poller_turn s t
| turn_request msg s t :
    GetId msg = 0%Z → GetMethod msg ≠ MethodEmpty → f_Error (frame_common msg) = None →
    Send msg s = Ret () t → poller_turn s t
| turn_send s t : send_frame true s = Ret () t → poller_turn s t
| turn_response f s t :
    is_response f → read_frame (ReadFrame f) s = Ret () t → poller_turn s t
| turn_read_ends r s t :
    r = ReadEOF ∨ r = ReadFailed → read_frame r s = Ret () t → poller_turn s t
| turn_auth_expired s t : auth_expired s = Ret () t → poller_turn s t
| turn_close s t : session_Close s = Ret () t → poller_turn s t.

(** The identifiers of the agent's messages do not come near 2^63. *)
Definition ids_ample (a : agent) : Prop :=
  (outMsgId a + Z.of_nat (length (waiting a)) + 4 < 2 ^ 63)%Z.
#[local] Instance ids_ample_dec a : Decision (ids_ample a) := decide (_ < _)%Z.

(** The endpoint gives a response to the agent of its source, and keeps the
    requests to itself (Server). *)
Definition endpoint_reads (f : FrameMsg) : go agent unit :=
  if decide (is_response f) then HandleResponse f else mret ().

Definition is_delivery (e : agent_event) : bool :=
  match e with EvDeliver _ => true | _ => false end.

Inductive exchange_step : network → network → Prop :=
| net_turn e a b s n m :
    is_delivery e = false → ids_ample a → agent_turn e a = Ret () b →
    exchange_step (Network a s n m) (Network b s n m)
| net_to_poller f a s t n m :
    received (a_responder a) !! n = Some f → read_frame (ReadFrame f) s = Ret () t →
    exchange_step (Network a s n m) (Network a t (S n) m)
| net_poller a s t n m : poller_turn s t → exchange_step (Network a s n m) (Network a t n m)
| net_to_endpoint f a b s n m :
    received (ss_written s) !! m = Some f → endpoint_reads f a = Ret () b →
    exchange_step (Network a s n m) (Network b s n (S m)).

(** Beside these, the reconciler may do anything of its own. *)
Inductive net_step : network → network → Prop :=
| net_exchange net net' : exchange_step net net' → net_step net net'
| net_reconciler r a s n m :
    net_step (Network a s n m) (Network a (put_ss_reconciler (put_inner r (ss_reconciler s)) s) n m).

(** A new agent and a new session, with a log that is empty. *)
Definition net_initial (net : network) : Prop :=
  ∃ parent source params size contexts errs contexts' guid cfg r ctx sc,
    newAgent parent source params size contexts = Ret (Some (net_agent net), errs) contexts'
    ∧ (0 < size)%Z
    ∧ NewSession guid cfg (Logged R r []) ctx sc = Ret () (net_session net)
    ∧ net_read net = 0 ∧ net_taken net = 0.

Definition net_reachable (net : network) : Prop :=
  ∃ net0, net_initial net0 ∧ rtc net_step net0 net.

(** The steps of a run, to execute it. *)
Inductive net_action :=
| DoTurn (e : agent_event)   (** a turn of the agent *)
| DoRead                     (** the poller reads a document *)
| DoHandle                   (** the session handles a frame *)
| DoFire                     (** the timer of a preparation fires *)
| DoExpire                   (** the session notices *)
| DoSend                     (** the session writes a frame *)
| DoTake.                    (** the endpoint reads a document *)

Definition returned {S} (o : outcome S unit) : option S :=
  match o with Ret _ s => Some s | Halt _ _ => None end.

Definition net_do (act : net_action) (net : network) : option network :=
  let '(Network a s n m) := net in
  match act with
  | DoTurn e =>
      guard (is_delivery e = false);; guard (ids_ample a);;
      b ← returned (agent_turn e a); Some (Network b s n m)
  | DoRead =>
      f ← received (a_responder a) !! n;
      t ← returned (read_frame (ReadFrame f) s); Some (Network a t (S n) m)
  | DoHandle => t ← returned (handle_read_frame s); Some (Network a t n m)
  | DoFire =>
      match prepareToEndTimer (ss_prep s) with
      | Some (Armed _) =>
          Some (Network a (put_ss_prep (put_prepareToEndTimer (Some Fired) (ss_prep s)) s) n m)
      | _ => None
      end
  | DoExpire =>
      guard (ChannelOfTimer (prepareToEndTimer (ss_prep s)) = true);;
      t ← returned (prepare_to_end_expired s); Some (Network a t n m)
  | DoSend => t ← returned (send_frame true s); Some (Network a t n m)
  | DoTake =>
      f ← received (ss_written s) !! m;
      b ← returned (endpoint_reads f a); Some (Network b s n (S m))
  end.

Lemma returned_some {S} (o : outcome S unit) s : returned o = Some s → o = Ret () s.
Proof. destruct o as [[] t|]; [|done]. by intros [= ->]. Qed.

Lemma net_do_step act net net' : net_do act net = Some net' → exchange_step net net'.
Proof.
  destruct net as [a s n m]. destruct act; cbn [net_do]; intros E; simplify_option_eq;
    repeat match goal with Hr : returned _ = Some _ |- _ => apply returned_some in Hr end;
    try (by econstructor); try (by apply net_poller; econstructor).
  destruct (prepareToEndTimer (ss_prep s)) as [[d| |]|] eqn:Et; [|done..].
  injection E as <-. apply net_poller. by apply (turn_fires s d).
Qed.

Fixpoint net_run (acts : list net_action) (net : network) : option network :=
  match acts with
  | [] => Some net
  | act :: acts' => net' ← net_do act net; net_run acts' net'
  end.

Lemma net_run_exchange acts net net' : net_run acts net = Some net' → rtc exchange_step net net'.
Proof.
  revert net. induction acts as [|act acts IH]; intros net; cbn; [by intros [= ->]|].
  destruct (net_do act net) as [net1|] eqn:E; [|done]. cbn. intros Hr.
  eapply rtc_l; [by eapply net_do_step|by apply IH].
Qed.

Lemma net_run_steps acts net net' : net_run acts net = Some net' → rtc net_step net net'.
Proof.
  intros Hr%net_run_exchange. eapply rtc_subrel; [|exact Hr]. intros x y. apply net_exchange.
Qed.

(** ** What the answers say *)

(** The identifier of the commit that a frame says is done. *)
Definition committed_id (f : FrameMsg) : option Z :=
  r ← unmarshal_raw c_commit_result zero_commit_result (RawResult f);
  guard (pcr_Status r = PrepareResultStatusCommitted);; Some (f_Id (Common f)).

(** The responses that the agent has yet to handle, the oldest first: given to
    it, written, queued. *)
Definition answers_ahead (a : agent) (s : session) (m : nat) : list FrameMsg :=
  a_responses a ++ filter is_response
    (received (drop m (ss_written s) ++ (Encode <$> ss_sendCh s))).

Definition in_transit (net : network) : nat :=
  length (omap committed_id (answers_ahead (net_agent net) (net_session net) (net_taken net))).

(** The checks of a preparation, and those of each preparation handed over. *)
Definition prepared_ids (cp : ChecksPreparation) : gset string := dom (cp_Actions cp).
Definition handed_ids (net : network) : list (gset string) :=
  prepared_ids <$> handed (ss_reconciler (net_session net)).
End network.
Arguments network R : clear implicits.
