(* ===== verification/Dialogue.v ===== *)
(** The invariant of the agent and the session of Network: which frames have
    been sent, which of them the session has handled, what its preparation is
    made of, and which answers are on their way. *)
From Stdlib Require Import Sorted.
From stdpp Require Import sorting.
From S2P Require Export Network.

(** ** The frames of a transaction, in order *)

(** A frame of a preparation has a weight: its version and its place among the
    manifest, the blocks and the end. *)
Definition weight (f : FrameMsg) : option Z :=
  let m := f_Method (Common f) in
  if decide (m = MethodPollerPrepare) then
    Some (3 * pps_Version (decode_raw c_prepare_start zero_prepare_start (RawParams f)))%Z
  else if decide (m = MethodPollerPrepareBlock) then
    Some (3 * ppb_Version (block_request f) + 1)%Z
  else if decide (m = MethodPollerPrepareEnd) then
    Some (3 * ppe_Version (end_of_prepare f) + 2)%Z
  else None.

(** Only a block may be followed by one of the same weight. *)
Definition follows (x y : Z) : Prop := (x < y ∨ x = y ∧ x mod 3 = 1)%Z.

(** The kinds of frames that an agent sends of the transactions [txs]. *)
Inductive sent_of (txs : list transaction) (id : Z) : FrameMsg → Prop :=
| sent_prepare tx : tx ∈ txs → sent_of txs id (prepare_frame tx id)
| sent_block tx b : tx ∈ txs → b ∈ tx_blocks tx → sent_of txs id (block_frame tx id b)
| sent_end tx : tx ∈ txs → sent_of txs id (end_frame tx id)
| sent_commit tx : tx ∈ txs → sent_of txs id (commit_frame tx id).

Section weights.
Context (tx : transaction) (Hok : tx_ok tx).

Lemma weight_prepare id : weight (prepare_frame tx id) = Some (3 * tx_version tx)%Z.
Proof.
  change (weight (prepare_frame tx id)) with (Some (3 * pps_Version (decode_raw c_prepare_start
    zero_prepare_start (RawParams (prepare_frame tx id))))%Z). by rewrite prepare_decoded.
Qed.

Lemma tx_block_ok b : b ∈ tx_blocks tx → Forall checkin_ok b.
Proof.
  intros Hb. destruct Hok as [_ _ Henc _ _]. unfold tx_definitions in Henc.
  induction (tx_blocks tx) as [|b' bs IH]; [by apply elem_of_nil in Hb|].
  cbn in Henc. apply Forall_app in Henc as [H1 H2]. apply elem_of_cons in Hb as [->|Hb]; auto.
Qed.

Lemma weight_block id b : b ∈ tx_blocks tx → weight (block_frame tx id b) = Some (3 * tx_version tx + 1)%Z.
Proof.
  intros Hb. change (weight (block_frame tx id b))
    with (Some (3 * ppb_Version (block_request (block_frame tx id b)) + 1)%Z).
  rewrite block_decoded; [done|done|by apply tx_block_ok].
Qed.

Lemma weight_end id : weight (end_frame tx id) = Some (3 * tx_version tx + 2)%Z.
Proof.
  change (weight (end_frame tx id))
    with (Some (3 * ppe_Version (end_of_prepare (end_frame tx id)) + 2)%Z).
  by rewrite end_decoded.
Qed.

Lemma weight_commit id : weight (commit_frame tx id) = None.
Proof. reflexivity. Qed.

(** The weights of an announcement. *)
Lemma announcement_weights id :
  omap weight (announcement tx id) =
    (3 * tx_version tx)%Z :: replicate (length (tx_blocks tx)) (3 * tx_version tx + 1)%Z
    ++ [3 * tx_version tx + 2]%Z.
Proof.
  unfold announcement. set (n := (id + 1 + Z.of_nat (length (tx_blocks tx)))%Z). clearbody n.
  cbn [omap list_omap]. rewrite weight_prepare. f_equal. rewrite omap_app.
  cbn [omap list_omap]. rewrite weight_end. f_equal.
  assert (∀ l f, l ⊆ tx_blocks tx →
    omap weight (imap (λ i b, block_frame tx (f i) b) l) =
      replicate (length l) (3 * tx_version tx + 1)%Z) as H; [|by apply H].
  induction l as [|b l IH]; intros f Hl; [done|]. cbn [imap omap list_omap].
  rewrite weight_block by (apply Hl; by left). cbn. f_equal.
  apply (IH (f ∘ S)). intros x Hx. apply Hl. by right.
Qed.

Lemma announcement_sorted id : StronglySorted follows (omap weight (announcement tx id)).
Proof.
  rewrite announcement_weights. unfold follows. constructor.
  - induction (length (tx_blocks tx)) as [|k IH]; cbn; constructor; try done; try constructor.
    apply Forall_app. split; [|apply Forall_singleton; lia].
    apply Forall_replicate. right. split; [done|].
    rewrite Z.add_comm, Z.mul_comm, Z.mod_add by done. done.
  - apply Forall_app. split; [apply Forall_replicate; lia|apply Forall_singleton; lia].
Qed.

Lemma announcement_bounds id :
  Forall (λ w, 3 * tx_version tx ≤ w ≤ 3 * tx_version tx + 2)%Z (omap weight (announcement tx id)).
Proof.
  rewrite announcement_weights. constructor; [lia|].
  apply Forall_app. split; [apply Forall_replicate; lia|apply Forall_singleton; lia].
Qed.

Lemma announcement_no_commit id :
  Forall (λ f, f_Method (Common f) ≠ MethodPollerCommit) (announcement tx id).
Proof.
  unfold announcement. constructor; [done|]. apply Forall_app. split; [|by apply Forall_singleton].
  apply Forall_lookup_2. intros i f. rewrite list_lookup_imap.
  destruct (tx_blocks tx !! i); [|done]. by intros [= <-].
Qed.

(** An announcement sends what it should, under consecutive identifiers. *)
Lemma announcement_sent txs id i f :
  tx ∈ txs → announcement tx id !! i = Some f → sent_of txs (id + Z.of_nat i)%Z f.
Proof.
  intros Htx. unfold announcement. cbv zeta. rewrite lookup_cons. destruct i as [|i].
  - intros [= <-]. rewrite Z.add_0_r. by constructor.
  - rewrite lookup_app, list_lookup_imap. destruct (tx_blocks tx !! i) as [b|] eqn:Eb; cbn [fmap option_fmap option_map].
    + intros [= <-]. replace (id + 1 + Z.of_nat i)%Z with (id + Z.of_nat (S i))%Z by lia.
      constructor; [done|by eapply list_elem_of_lookup_2].
    + rewrite length_imap. apply lookup_ge_None in Eb.
      destruct (i - length (tx_blocks tx)) as [|k] eqn:Ei; [|done]. intros [= <-].
      replace (id + 1 + Z.of_nat (length (tx_blocks tx)))%Z with (id + Z.of_nat (S i))%Z by lia.
      by constructor.
Qed.
End weights.

Lemma sent_of_mono txs txs' id f : txs ⊆ txs' → sent_of txs id f → sent_of txs' id f.
Proof. intros Hs []; constructor; auto. Qed.

Lemma sent_two_phase txs id f : sent_of txs id f → two_phase_method (f_Method (Common f)).
Proof. intros []; cbn; unfold two_phase_method; set_solver. Qed.

Lemma sent_id txs id f : sent_of txs id f → f_Id (Common f) = id ∧ f_Error (Common f) = None.
Proof. by intros []. Qed.

Lemma sent_common_ok txs id f : sent_of txs id f → is_u64 id → common_ok (Common f).
Proof. intros []%sent_id ?. split; [congruence|]. intros e He. congruence. Qed.

(** ** The checks of a transaction *)
Definition tx_ids (tx : transaction) : gset string := list_to_set (man_Id <$> tx_manifest tx).

Lemma new_preparation_ids zone version man cp :
  NewChecksPreparation zone version man = inl cp →
  cp_Version cp = version ∧ prepared_ids cp = list_to_set (man_Id <$> man).
Proof.
  intros (_ & _ & Hv & Hl)%new_preparation_ok. split; [done|]. apply set_eq. intros id.
  unfold prepared_ids. rewrite elem_of_dom, Hl, fmap_is_Some, elem_of_list_to_set. split.
  - intros [m [Hm <-]%declared_in]. by apply list_elem_of_fmap_2.
  - intros (m & -> & Hm)%list_elem_of_fmap. by eapply last_filter_is_some.
Qed.

Lemma add_definitions_ids defs cp :
  Forall (λ c, ch_Id (Header c) ∈ prepared_ids cp) defs →
  prepared_ids (add_definitions defs cp) = prepared_ids cp.
Proof.
  intros Hd. apply set_eq. intros id. unfold prepared_ids in *. rewrite !elem_of_dom.
  destruct (cp_Actions cp !! id) as [ac|] eqn:E.
  - rewrite (add_definitions_lookup _ _ _ _ E). split; by eexists.
  - pose proof (add_definitions_undeclared defs cp id E) as Hu.
    destruct (defined defs id) as [c|] eqn:Ec; [|by rewrite Hu].
    pose proof (last_filter_id _ _ _ Ec) as <-. apply last_filter_some in Ec as [Hc _].
    rewrite Forall_forall in Hd. specialize (Hd c Hc). apply elem_of_dom in Hd as [? Hd]. congruence.
Qed.

Lemma tx_block_ids tx b :
  tx_ok tx → b ∈ tx_blocks tx → Forall (λ c, ch_Id (Header c) ∈ tx_ids tx) b.
Proof.
  intros [_ _ _ Hdec _] Hb. apply Forall_forall. intros c Hc.
  assert (c ∈ tx_definitions tx) as Hin.
  { unfold tx_definitions. clear Hdec. induction (tx_blocks tx) as [|b' bs IH].
    - by apply elem_of_nil in Hb.
    - cbn. apply elem_of_app. apply elem_of_cons in Hb as [->|Hb]; [by left|right; auto]. }
  destruct (Hdec c Hin) as [m [Hm <-]%declared_in].
  apply elem_of_list_to_set. by apply list_elem_of_fmap_2.
Qed.

(** ** The blocks heard

    The blocks of a version among frames, as the session decodes them. *)
Definition block_of_version (v : Z) (f : FrameMsg) : option (list CheckIn) :=
  if decide (f_Method (Common f) = MethodPollerPrepareBlock ∧ ppb_Version (block_request f) = v)
  then Some (omap id (ppb_Block (block_request f))) else None.
Definition heard (v : Z) (l : list FrameMsg) : list (list CheckIn) := omap (block_of_version v) l.

Lemma heard_app v l l' : heard v (l ++ l') = heard v l ++ heard v l'.
Proof. apply omap_app. Qed.

Lemma heard_next v l k f : l !! k = Some f → heard v (take (S k) l) = heard v (take k l) ++ heard v [f].
Proof. intros Hk. by rewrite (take_S_r _ _ _ Hk), heard_app. Qed.

Lemma heard_other v l :
  Forall (λ f, f_Method (Common f) ≠ MethodPollerPrepareBlock) l → heard v l = [].
Proof.
  unfold heard, block_of_version. induction 1 as [|f l Hf _ IH]; [done|]. cbn.
  rewrite decide_False by naive_solver. exact IH.
Qed.

Lemma heard_block v tx id b :
  tx_ok tx → b ∈ tx_blocks tx →
  heard v [block_frame tx id b] = if decide (tx_version tx = v) then [b] else [].
Proof.
  intros Hok Hb. unfold heard, block_of_version. cbn [omap list_omap].
  rewrite (block_decoded tx Hok id b) by (by apply (tx_block_ok tx)). cbn [ppb_Version ppb_Block].
  rewrite block_of_definitions. destruct (decide (tx_version tx = v)) as [Hv|Hv].
  - by rewrite decide_True.
  - by rewrite decide_False by naive_solver.
Qed.

Lemma heard_announcement v tx id :
  tx_ok tx → heard v (announcement tx id) = if decide (tx_version tx = v) then tx_blocks tx else [].
Proof.
  intros Hok. unfold announcement. set (n := (id + 1 + Z.of_nat (length (tx_blocks tx)))%Z). clearbody n.
  change (prepare_frame tx id :: ?l ++ ?l') with ([prepare_frame tx id] ++ l ++ l').
  rewrite !heard_app, (heard_other v [_]), (heard_other v [end_frame tx n]) by (by apply Forall_singleton).
  rewrite app_nil_r. cbn [app].
  assert (∀ l f, l ⊆ tx_blocks tx → heard v (imap (λ i b, block_frame tx (f i) b) l) =
    if decide (tx_version tx = v) then l else []) as Hl; [|by apply Hl].
  induction l as [|b l IH]; intros f Hsub; [by case_decide|]. cbn [imap].
  change (block_frame tx (f 0) b :: ?l) with ([block_frame tx (f 0) b] ++ l).
  rewrite heard_app, heard_block by (done || (apply Hsub; by left)).
  change (λ i b, block_frame tx (f (S i)) b) with (λ i b, block_frame tx ((f ∘ S) i) b).
  etrans; [apply (f_equal (app _)), (IH (f ∘ S)); intros x Hx; apply Hsub; by right|].
  by case_decide.
Qed.

(** A preparation with all that a transaction says. *)
Definition complete (tx : transaction) (cp : ChecksPreparation) : Prop :=
  ∃ cp0, NewChecksPreparation (tx_zone tx) (tx_version tx) (tx_manifest tx) = inl cp0
    ∧ cp = add_definitions (tx_definitions tx) cp0.

Lemma complete_ids tx cp : tx_ok tx → complete tx cp → prepared_ids cp = tx_ids tx.
Proof.
  intros Hok (cp0 & Hnew & ->). apply new_preparation_ids in Hnew as [_ Hids].
  rewrite add_definitions_ids; [exact Hids|]. rewrite Hids. apply Forall_forall. intros c Hc.
  destruct (tx_declared tx Hok c Hc) as [m [Hm <-]%declared_in].
  apply elem_of_list_to_set. by apply list_elem_of_fmap_2.
Qed.

(** ** What the agent has said

    [H] are the frames it has sent and [txs] the transactions it has announced,
    under versions that count from 1. *)
Definition issued (H : list FrameMsg) (i : Z) (f : FrameMsg) : Prop :=
  (0 < i)%Z ∧ H !! Z.to_nat (i - 1) = Some f.

Definition pending_of (H : list FrameMsg) (txs : list transaction) (i : Z) (p : pendingPrepare) : Prop :=
  ∃ tx, tx ∈ txs ∧ pp_checkIds p = man_Id <$> tx_manifest tx ∧ pp_version p = tx_version tx
    ∧ issued H i (if committing p then commit_frame tx i else prepare_frame tx i).

(** Every check is to be started or restarted, from a definition that can be. *)
Definition all_fresh (tx : transaction) : Prop :=
  Forall (λ m, man_Action m ≠ PrepareActionContinue) (tx_manifest tx)
  ∧ ∀ c, c ∈ tx_definitions tx → initiation_of c = Initiated.

Lemma agent_tx_fresh version start restart blocks :
  concat blocks = start ++ restart → Forall loaded (start ++ restart) →
  all_fresh (agent_tx version (manifest_of start restart) blocks).
Proof.
  intros Hb Hl. split; [|by apply agent_tx_initiates].
  cbn. unfold manifest_of. apply Forall_app. by split; apply Forall_fmap, Forall_true.
Qed.

Record said (H : list FrameMsg) (txs : list transaction) : Prop := {
  said_room : (Z.of_nat (length H) < 2 ^ 63)%Z;
  said_count : length txs ≤ length H;
  said_versions : tx_version <$> txs = seqZ 1 (Z.of_nat (length txs));
  said_ok : Forall tx_ok txs;
  said_zones : Forall (λ tx, tx_zone tx = "") txs;
  said_frames : ∀ i f, H !! i = Some f → sent_of txs (Z.of_nat i + 1) f;
  said_sorted : StronglySorted follows (omap weight H);
  said_blocks : ∀ tx, tx ∈ txs → heard (tx_version tx) H = tx_blocks tx;
  said_before : ∀ tx k id, tx ∈ txs → H !! k = Some (commit_frame tx id) →
    heard (tx_version tx) (take k H) = tx_blocks tx;
  said_fresh : Forall all_fresh txs
}.

Record speaker (H : list FrameMsg) (txs : list transaction) (a : agent) : Prop := {
  sp_said : said H txs;
  sp_responder : a_responder a = (λ f, Encode (FMsg f)) <$> H;
  sp_next : outMsgId a = Z.of_nat (length H);
  sp_size : (0 < prepareBlockSize a)%Z;
  sp_loaded : Forall loaded (waiting a);
  sp_version : checksVersion a = Z.of_nat (length txs);
  sp_pending : map_Forall (pending_of H txs) (pendingPrepares a)
}.

Lemma issued_app H H' i f : issued H i f → issued (H ++ H') i f.
Proof. intros [Hi E]. split; [done|]. by apply lookup_app_l_Some. Qed.

Lemma issued_next H f H' : issued (H ++ f :: H') (Z.of_nat (length H) + 1) f.
Proof.
  split; [lia|]. replace (Z.to_nat (Z.of_nat (length H) + 1 - 1)) with (length H) by lia.
  by rewrite list_lookup_middle.
Qed.

Lemma issued_lt H i f : issued H i f → (0 < i ≤ Z.of_nat (length H))%Z.
Proof. intros [Hi E%lookup_lt_Some]. lia. Qed.

Lemma issued_fun H i f g : issued H i f → issued H i g → f = g.
Proof. intros [_ E1] [_ E2]. congruence. Qed.

Lemma pending_of_app H H' txs txs' i p :
  pending_of H txs i p → pending_of (H ++ H') (txs ++ txs') i p.
Proof.
  intros (tx & Htx & H1 & H2 & H3). exists tx.
  split_and!; [by apply elem_of_app; left|done|done|by apply issued_app].
Qed.

(** A commit names the version of its transaction. *)
Lemma commit_frame_version tx tx' i i' :
  tx_ok tx → tx_ok tx' → commit_frame tx i = commit_frame tx' i' → tx_version tx = tx_version tx'.
Proof.
  intros Hok Hok' E. pose proof (commit_decoded tx Hok i) as E1.
  rewrite E, (commit_decoded tx' Hok') in E1. by injection E1.
Qed.

Lemma sent_commit_frame txs id f tx i :
  sent_of txs id f → f = commit_frame tx i →
  ∃ tx', tx' ∈ txs ∧ commit_frame tx' id = commit_frame tx id.
Proof.
  intros [tx' Htx'|tx' ? Htx'|tx' Htx'|tx' Htx'] E; [done..|]. exists tx'. split; [done|].
  unfold commit_frame, agent_frame in *. congruence.
Qed.

Section said.
Context {H : list FrameMsg} {txs : list transaction} (Hsaid : said H txs).

Lemma said_tx_ok tx : tx ∈ txs → tx_ok tx.
Proof. pose proof (said_ok _ _ Hsaid) as Hok. rewrite Forall_forall in Hok. apply Hok. Qed.

Lemma said_version_bounds tx : tx ∈ txs → (1 ≤ tx_version tx ≤ Z.of_nat (length txs))%Z.
Proof.
  intros Htx. assert (tx_version tx ∈ tx_version <$> txs) as Hin by (by apply list_elem_of_fmap_2).
  rewrite (said_versions _ _ Hsaid) in Hin. apply elem_of_seqZ in Hin. lia.
Qed.

Lemma said_version_inj tx tx' :
  tx ∈ txs → tx' ∈ txs → tx_version tx = tx_version tx' → tx = tx'.
Proof.
  intros [i Hi]%list_elem_of_lookup_1 [j Hj]%list_elem_of_lookup_1 E.
  assert (∀ k x, txs !! k = Some x → tx_version x = (1 + Z.of_nat k)%Z) as Hk.
  { intros k x Hx. assert ((tx_version <$> txs) !! k = Some (tx_version x)) as Ek.
    { rewrite list_lookup_fmap. by rewrite Hx. }
    rewrite (said_versions _ _ Hsaid) in Ek. apply lookup_seqZ in Ek. lia. }
  apply Hk in Hi as Ei. apply Hk in Hj as Ej. assert (i = j) as -> by lia. congruence.
Qed.


Lemma said_common_ok f : f ∈ H → common_ok (Common f).
Proof.
  intros [i Hi]%list_elem_of_lookup_1. pose proof (said_frames _ _ Hsaid i f Hi) as Hs.
  apply (sent_common_ok _ _ _ Hs). apply lookup_lt_Some in Hi.
  pose proof (said_room _ _ Hsaid). unfold is_u64. lia.
Qed.

Lemma said_weights : Forall (λ w, w ≤ 3 * Z.of_nat (length txs) + 2)%Z (omap weight H).
Proof.
  apply Forall_forall. intros w (f & Hf & Hw)%list_elem_of_omap.
  apply list_elem_of_lookup_1 in Hf as [i Hi]. pose proof (said_frames _ _ Hsaid i f Hi) as Hs.
  destruct Hs as [tx Htx|tx b Htx Hb|tx Htx|tx Htx];
    pose proof (said_version_bounds tx Htx); pose proof (said_tx_ok tx Htx) as Hok.
  - rewrite weight_prepare in Hw by done. injection Hw as <-. lia.
  - rewrite weight_block in Hw by done. injection Hw as <-. lia.
  - rewrite weight_end in Hw by done. injection Hw as <-. lia.
  - done.
Qed.

Lemma commit_frame_inj tx tx' i i' :
  tx ∈ txs → tx' ∈ txs → commit_frame tx i = commit_frame tx' i' → tx = tx'.
Proof.
  intros Htx Htx' E. apply said_version_inj; [done..|].
  by apply (commit_frame_version _ _ i i'); [apply said_tx_ok..|].
Qed.

(** Nothing has been said of a version to come. *)
Lemma heard_nothing v : (Z.of_nat (length txs) < v)%Z → heard v H = [].
Proof.
  intros Hv. apply elem_of_nil_inv. intros b (f & Hf & Hb)%list_elem_of_omap.
  unfold block_of_version in Hb. case_decide as Hc; [|done]. destruct Hc as [Hm Hver].
  pose proof said_weights as Hw. rewrite Forall_forall in Hw.
  assert (3 * v + 1 ≤ 3 * Z.of_nat (length txs) + 2)%Z; [|lia]. apply (Hw (3 * v + 1)%Z).
  apply list_elem_of_omap. exists f. split; [done|]. unfold weight. rewrite Hm, Hver.
  by rewrite decide_False, decide_True.
Qed.

(** One more transaction, or one more commit. *)
Lemma said_announcement tx :
  tx_ok tx → all_fresh tx → tx_zone tx = "" → tx_version tx = Z.of_nat (S (length txs)) →
  let new := announcement tx (Z.of_nat (length H) + 1) in
  (Z.of_nat (length H + length new) < 2 ^ 63)%Z → said (H ++ new) (txs ++ [tx]).
Proof.
  intros Hok Hfresh Hz Hv new Hroom. pose proof heard_nothing as Hnone.
  pose proof said_version_bounds as Hbounds. pose proof said_tx_ok as Htxok.
  destruct Hsaid as [_ Hcount Hvs Hoks Hzs Hfr Hso Hbl Hbe Hfs]. split.
  - by rewrite length_app.
  - rewrite !length_app. unfold new, announcement. cbn [length]. lia.
  - rewrite fmap_app, Hvs, length_app, Nat.add_1_r, seqZ_S. cbn [fmap list_fmap]. rewrite Hv.
    do 2 f_equal. lia.
  - by apply Forall_app; split; [|apply Forall_singleton].
  - by apply Forall_app; split; [|apply Forall_singleton].
  - intros i f [Hi|[Hge Hi]]%lookup_app_Some.
    + eapply sent_of_mono; [|by apply Hfr]. intros x Hx. apply elem_of_app. by left.
    + apply (announcement_sent tx (txs ++ [tx])) in Hi.
      2:{ apply elem_of_app. right. apply list_elem_of_here. }
      by replace (Z.of_nat (length H) + 1 + Z.of_nat (i - length H))%Z with (Z.of_nat i + 1)%Z in Hi by lia.
  - rewrite omap_app. apply StronglySorted_app_2; [|done|by apply announcement_sorted].
    intros x y Hx Hy. pose proof said_weights as Hw. rewrite Forall_forall in Hw.
    pose proof (announcement_bounds tx Hok (Z.of_nat (length H) + 1)) as Hb.
    rewrite Forall_forall in Hb. left. specialize (Hw x Hx). specialize (Hb y Hy). cbn in Hb. lia.
  - intros tx' [Htx'| ->%list_elem_of_singleton]%elem_of_app; rewrite heard_app.
    + rewrite Hbl by done. unfold new. rewrite heard_announcement, decide_False, app_nil_r; [done| |done].
      specialize (Hbounds tx' Htx'). lia.
    + rewrite Hnone by lia. unfold new. by rewrite heard_announcement, decide_True.
  - intros tx' k id Htx' [Hk|[Hge Hk]]%lookup_app_Some.
    + pose proof (lookup_lt_Some _ _ _ Hk). rewrite take_app_le by lia.
      apply (Hbe tx' k id); [|done]. apply elem_of_app in Htx' as [?| ->%list_elem_of_singleton]; [done|].
      exfalso. destruct (sent_commit_frame _ _ _ _ _ (Hfr k _ Hk) eq_refl) as (tx1 & Hin & E1).
      apply commit_frame_version in E1; [|by apply Htxok|done]. specialize (Hbounds tx1 Hin). lia.
    + exfalso. pose proof (announcement_no_commit tx (Z.of_nat (length H) + 1)) as Hno.
      rewrite Forall_lookup in Hno. by apply (Hno _ _ Hk).
  - by apply Forall_app; split; [|apply Forall_singleton].
Qed.

Lemma said_commit tx :
  tx ∈ txs → (Z.of_nat (S (length H)) < 2 ^ 63)%Z →
  said (H ++ [commit_frame tx (Z.of_nat (length H) + 1)]) txs.
Proof.
  intros Htx Hroom. pose proof commit_frame_inj as Hinj.
  destruct Hsaid as [_ Hcount Hvs Hoks Hzs Hfr Hso Hbl Hbe Hfs]. split; try done.
  - rewrite length_app. cbn. lia.
  - rewrite length_app. lia.
  - intros i f [Hi|[Hge Hi]]%lookup_app_Some; [by apply Hfr|].
    apply list_lookup_singleton_Some in Hi as [Hi <-].
    replace (Z.of_nat i + 1)%Z with (Z.of_nat (length H) + 1)%Z by lia. by constructor.
  - by rewrite omap_app, app_nil_r.
  - intros tx' Htx'. rewrite heard_app, Hbl, (heard_other _ [_]), app_nil_r by (done || by apply Forall_singleton).
    done.
  - intros tx' k id Htx' [Hk|[Hge Hk]]%lookup_app_Some.
    + pose proof (lookup_lt_Some _ _ _ Hk). rewrite take_app_le by lia. by apply (Hbe tx' k id).
    + apply list_lookup_singleton_Some in Hk as [Hk E]. rewrite take_app_le, take_ge by lia.
      assert (tx = tx') as <-; [|by apply Hbl]. apply (Hinj tx tx' id id); [done..|].
      unfold commit_frame, agent_frame in *. congruence.
Qed.
End said.

(** ** The turns of the agent *)

(** The commit of [tx] under [i] waits for its answer. *)
Definition awaits (a : agent) (i : Z) (tx : transaction) : Prop :=
  ∃ p, pendingPrepares a !! i = Some p ∧ committing p = true
    ∧ pp_checkIds p = man_Id <$> tx_manifest tx.

(** Loading changes the identifiers given and the contexts only. *)
Definition only_loaded (a b : agent) : Prop :=
  b = put_checkId (checkId b) (put_a_contexts (a_contexts b) a).

Lemma load_loop_loaded contents acc a r b :
  Forall loaded acc → for_fold contents acc load_entry a = Ret r b →
  Forall loaded r ∧ only_loaded a b.
Proof.
  unfold only_loaded. revert acc a. induction contents as [|e contents IH]; intros acc a Hacc.
  - intros [= <- <-]. split; [done|by destruct a].
  - cbn [for_fold]. rewrite bind_app.
    assert (∀ acc' a', load_entry acc e a = Ret acc' a' → Forall loaded acc' ∧ only_loaded a a') as He.
    { unfold load_entry, only_loaded. intros acc' a'. destruct e as [[name is_dir] doc].
      destruct (negb is_dir && HasSuffix name CheckFileSuffix);
        [|intros [= <- <-]; split; [done|by destruct a]].
      rewrite bind_app. destruct (decodeCheck doc a) as [r' c|] eqn:E; [|done].
      apply decode_check_cases in E as [Hc Hl]. rewrite Hc. destruct r' as [ch|err]; intros [= <- <-].
      - split; [|done]. apply Forall_app. by split; [|apply Forall_singleton, SetID_loaded, Hl].
      - split; [done|by destruct a]. }
    destruct (load_entry acc e a) as [acc' a'|] eqn:E; [|done]. specialize (He acc' a' eq_refl).
    destruct He as [Hacc' Ha']. intros [Hr Hb]%IH; [|done]. split; [done|].
    unfold only_loaded in Ha'. rewrite Ha' in Hb. rewrite Hb. done.
Qed.

Section turns.
Context {H : list FrameMsg} {txs : list transaction}.

(** What every turn leaves: [new] frames and transactions are added, after all
    the others, and the new commits are awaited. *)
Definition speaks (new : list FrameMsg) (txs' : list transaction) (b : agent) : Prop :=
  speaker (H ++ new) (txs ++ txs') b
  ∧ Forall (λ w, 3 * Z.of_nat (length txs) + 2 < w)%Z (omap weight new)
  ∧ ∀ i tx, tx ∈ txs ++ txs' → issued (H ++ new) i (commit_frame tx i) →
      (Z.of_nat (length H) < i)%Z → awaits b i tx.

Lemma speaks_nothing b : speaker H txs b → speaks [] [] b.
Proof.
  intros Hb. unfold speaks. rewrite !app_nil_r. split; [done|]. split; [done|].
  intros i tx _ Hi%issued_lt Hlt. lia.
Qed.

(** A turn that touches nothing that is said. *)
Lemma speaker_same a b :
  speaker H txs a → a_responder b = a_responder a → outMsgId b = outMsgId a →
  prepareBlockSize b = prepareBlockSize a → Forall loaded (waiting b) →
  checksVersion b = checksVersion a → map_Forall (pending_of H txs) (pendingPrepares b) →
  speaker H txs b.
Proof. intros [? ? ? ? ? ? ?] E1 E2 E3 ? E4 ?. split; try done; congruence. Qed.

(** The announcement of a transaction that comes next. *)
Lemma announcement_speaks tx pend a a1 :
  speaker H txs a → a1 = put_a_preparations (a_preparations a1) a → Forall loaded (waiting a1) →
  tx_ok tx → all_fresh tx → tx_zone tx = "" → tx_version tx = Z.of_nat (S (length txs)) →
  pp_checkIds pend = man_Id <$> tx_manifest tx → pp_version pend = tx_version tx →
  committing pend = false →
  let new := announcement tx (Z.of_nat (length H) + 1) in
  let b := sent new (put_pendingPrepares (<[(outMsgId a + 1)%Z := pend]> (pendingPrepares a))
    (put_checksVersion (tx_version tx) a1)) in
  (Z.of_nat (length H + length new) < 2 ^ 63)%Z →
  speaks new [tx] b ∧ ∀ i p, pendingPrepares a !! i = Some p → pendingPrepares b !! i = Some p.
Proof.
  intros Ha Ha1 Hld1 Hok Hfresh Hz Hv Hids Hpv Hpc new b Hroom.
  destruct Ha as [Hsaid Hresp Hnext Hsize Hld Hver Hpend].
  assert (outMsgId a1 = outMsgId a ∧ prepareBlockSize a1 = prepareBlockSize a
    ∧ a_responder a1 = a_responder a) as (E1 & E3 & E5) by (by rewrite Ha1).
  pose proof (said_announcement Hsaid tx Hok Hfresh Hz Hv Hroom) as Hsaid'. fold new in Hsaid'.
  pose proof (announcement_no_commit tx (Z.of_nat (length H) + 1)) as Hno. fold new in Hno.
  pose proof (announcement_bounds tx Hok (Z.of_nat (length H) + 1)) as Hws. fold new in Hws.
  assert (issued (H ++ new) (outMsgId a + 1) (prepare_frame tx (outMsgId a + 1))) as Hprep.
  { rewrite Hnext. apply issued_next. }
  clearbody new. unfold b. split; [split; [split|split]|].
  - done.
  - cbn [sent a_responder put_outMsgId put_a_responder put_pendingPrepares put_checksVersion].
    by rewrite E5, Hresp, fmap_app.
  - change (outMsgId (sent new ?x)) with (outMsgId a1 + Z.of_nat (length new))%Z.
    rewrite E1, Hnext, length_app. lia.
  - change (0 < prepareBlockSize a1)%Z. lia.
  - exact Hld1.
  - change (tx_version tx = Z.of_nat (length (txs ++ [tx]))). rewrite length_app. cbn [length]. lia.
  - apply map_Forall_insert_2.
    + exists tx. rewrite Hpc. split_and!; [apply elem_of_app; right; by left|done..].
    + intros i p Hi. apply pending_of_app. by apply (Hpend i p).
  - eapply Forall_impl; [exact Hws|]. intros w Hw. cbn beta in Hw. lia.
  - intros i tx' _ [Hi Hf] Hlt. rewrite lookup_app_r in Hf by lia.
    rewrite Forall_forall in Hno. by apply list_elem_of_lookup_2, Hno in Hf.
  - intros i p Hi. change (pendingPrepares (sent new (put_pendingPrepares ?m ?x))) with m.
    rewrite lookup_insert_ne; [done|].
    destruct (Hpend i p Hi) as (tx' & _ & _ & _ & Hi'%issued_lt). lia.
Qed.

Lemma announced_speaks now start restart a :
  speaker H txs a → ids_ample a → length (start ++ restart) ≤ length (waiting a) →
  Forall loaded (start ++ restart) → ∀ a1, a1 = put_a_preparations (a_preparations a1) a →
  Forall loaded (waiting a1) →
  ∃ new tx, prepareChecks now start restart a1 = Ret () (announced now start restart a1)
    ∧ speaks new [tx] (announced now start restart a1)
    ∧ ∀ i p, pendingPrepares a !! i = Some p →
        pendingPrepares (announced now start restart a1) !! i = Some p.
Proof.
  intros Ha Hids Hlen Hloaded a1 Ha1 Hld1. unfold ids_ample in Hids. set (l := start ++ restart) in *.
  pose proof Ha as [Hsaid _ Hnext Hsize _ Hver _].
  assert (outMsgId a1 = outMsgId a ∧ checksVersion a1 = checksVersion a
    ∧ prepareBlockSize a1 = prepareBlockSize a ∧ pendingPrepares a1 = pendingPrepares a)
    as (E1 & E2 & E3 & E4) by (by rewrite Ha1).
  set (version := (checksVersion a + 1)%Z). set (bs := blocks_of a1 l).
  assert (length bs ≤ length l) as Hbs by (apply length_chunks_le; lia).
  pose proof (said_count _ _ Hsaid) as Hcount. pose proof (said_room _ _ Hsaid) as Hroom.
  assert (to_u64 version = version ∧ to_i64 version = version) as [Ev Ei].
  { split; [apply to_u64_id|apply to_i64_id]; unfold is_u64, is_i64; lia. }
  set (tx := agent_tx version (manifest_of start restart) bs).
  assert (concat bs = start ++ restart) as Hconcat by exact (concat_chunk_from _ [] _).
  assert (tx_ok tx) as Hok by (apply agent_tx_ok; [lia|done|done]).
  set (pend := {| pp_version := version; pp_checkIds := GetID <$> l; committing := false; pp_sent := now |}).
  assert (announced now start restart a1 = sent (announcement tx (Z.of_nat (length H) + 1))
    (put_pendingPrepares (<[(outMsgId a + 1)%Z := pend]> (pendingPrepares a))
       (put_checksVersion (tx_version tx) a1))) as Ea.
  { unfold announced. rewrite E1, E2, E4. fold version l. rewrite Ev, Ei. fold bs.
    by rewrite prepare_frames_announcement, Hnext. }
  eexists _, tx. split; [apply prepare_checks_app; [lia|fold l; unfold ids_left; lia]|].
  rewrite Ea. apply announcement_speaks; try done.
  - by apply agent_tx_fresh.
  - change (tx_version tx) with version. lia.
  - change (GetID <$> l = man_Id <$> manifest_of start restart). by rewrite manifest_ids.
  - unfold announcement. cbn [length]. rewrite length_app, length_imap. cbn.
    rewrite length_fmap. lia.
Qed.

Definition is_handling (e : agent_event) : bool := match e with EvResponse => true | _ => false end.

(** What such a turn leaves: what is committed and pending is as it was. *)
Definition undisturbed (a b : agent) : Prop :=
  ∃ new txs', speaks new txs' b ∧ committedChecks b = committedChecks a
    ∧ a_responses b = a_responses a
    ∧ ∀ i p, pendingPrepares a !! i = Some p → pendingPrepares b !! i = Some p.

Lemma undisturbed_same a : speaker H txs a → undisturbed a a.
Proof. intros Ha. exists [], []. split; [by apply speaks_nothing|done]. Qed.

(** Definitions that were loaded are queued as one more bundle. *)
Lemma bundle_undisturbed contents bundle watching a r c :
  speaker H txs a → for_fold contents [] load_entry a = Ret r c → checks_of_bundle bundle = r →
  undisturbed a (put_a_watching watching (put_a_preparations (a_preparations c ++ [bundle]) c)).
Proof.
  intros Ha E Hb. apply load_loop_loaded in E as [Hr Hc]; [|done]. unfold only_loaded in Hc. rewrite Hc.
  exists [], []. split; [|done]. apply speaks_nothing, (speaker_same a); try done; [|apply Ha].
  unfold waiting. cbn. rewrite fmap_app, concat_app. cbn. rewrite app_nil_r, Hb.
  apply Forall_app. by split; [apply Ha|].
Qed.

(** A turn that handles no response keeps what is committed and pending. *)
Lemma quiet_turn e a b :
  speaker H txs a → is_delivery e = false → is_handling e = false → ids_ample a →
  agent_turn e a = Ret () b → undisturbed a b.
Proof.
  intros Ha Hnd Hnh Hids. pose proof (sp_loaded _ _ _ Ha) as Hld.
  assert (∀ c, c = a → undisturbed a c) as Hsame by (intros c ->; by apply undisturbed_same).
  destruct e as [now| |path zone contents|relevant contents|frame|]; try done; cbn [agent_turn].
  - unfold take_bundle. rewrite bind_app. cbn [gets].
    destruct (a_preparations a) as [|bundle q] eqn:Eq; [done|].
    rewrite bind_app. cbn [modify]. set (a1 := put_a_preparations q a).
    rewrite bind_app. destruct (classify bundle a1) as [[start restart] a2|] eqn:E; [|done].
    apply classify_cases in E as [-> Hsub]. cbn [fst snd] in Hsub.
    assert (waiting a = checks_of_bundle bundle ++ waiting a1) as Hw by (unfold waiting; by rewrite Eq).
    rewrite Hw in Hld. apply Forall_app in Hld as [Hl1 Hl2].
    destruct (announced_speaks now start restart a Ha Hids) with (a1 := a1)
      as (new & tx & -> & Hsp & Hpend); [| |done|done|].
    + apply submseteq_length in Hsub. rewrite Hw, (length_app _ (waiting a1)). lia.
    + rewrite Forall_forall in Hl1 |- *. intros ch Hch. by apply Hl1, (elem_of_submseteq _ _ _ Hch Hsub).
    + intros [= <-]. exists new, [tx]. by split_and!.
  - unfold applyInitialChecks, loadChecks. rewrite bind_app.
    destruct contents as [contents|]; [|by intros [= <-]; apply Hsame].
    rewrite bind_app. destruct (for_fold contents [] load_entry a) as [r c|] eqn:E; [|done].
    intros [= <-]. eapply bundle_undisturbed; [done..|].
    unfold checks_of_bundle. cbn. by rewrite app_nil_r.
  - rewrite bind_app. cbn [gets]. destruct (a_watching a) as [|w ws] eqn:Ew; [done|].
    unfold runFileWatcher, when, loadChecks. destruct relevant; [|by intros [= <-]; apply Hsame].
    rewrite bind_app. destruct contents as [contents|]; [|by intros [= <-]; apply Hsame].
    rewrite bind_app. destruct (for_fold contents [] load_entry a) as [r c|] eqn:E; [|done].
    intros [= <-]. by apply (bundle_undisturbed contents {| checksToStart := [];
      checksToRestart := []; unclassified := Some r |} (a_watching c) a r).
  - unfold agent_Close. rewrite bind_app. cbn [gets]. intros [= <-]. exists [], [].
    split; [|done]. apply speaks_nothing, (speaker_same a); try done. exact (sp_pending _ _ _ Ha).
Qed.

Lemma committed_id_is f i : committed_id f = Some i → i = f_Id (Common f).
Proof.
  unfold committed_id. destruct (unmarshal_raw _ _ _); cbn; [|done]. case_guard; cbn; congruence.
Qed.

(** What a response does to the agent. *)
Inductive handled (f : FrameMsg) (a : agent) : agent → Prop :=
| handled_not :
    (∀ p, pendingPrepares a !! f_Id (Common f) = Some p → committing p = true → committed_id f = None) →
    handled f a a
| handled_committed p :
    pendingPrepares a !! f_Id (Common f) = Some p → committing p = true →
    committed_id f = Some (f_Id (Common f)) →
    handled f a (put_pendingPrepares (delete (f_Id (Common f)) (pendingPrepares a))
      (put_committedChecks (Some (list_to_set (pp_checkIds p))) a))
| handled_refused p :
    pendingPrepares a !! f_Id (Common f) = Some p → committing p = false →
    handled f a (put_pendingPrepares (delete (f_Id (Common f)) (pendingPrepares a)) a)
| handled_prepared p :
    pendingPrepares a !! f_Id (Common f) = Some p → committing p = false →
    handled f a (sent [agent_frame (outMsgId a + 1) MethodPollerCommit
        (enc c_commit {| pcp_ZoneId := ""; pcp_Version := to_i64 (pp_version p) |})]
      (put_pendingPrepares (<[(outMsgId a + 1)%Z := to_commit p]>
         (delete (f_Id (Common f)) (pendingPrepares a))) a)).

Lemma response_handled f a b : ids_left a 1 → agent_handleResponse f a = Ret () b → handled f a b.
Proof.
  intros [H0 H1]. unfold agent_handleResponse. rewrite bind_app. cbn [gets].
  destruct (pendingPrepares a !! f_Id (Common f)) as [p|] eqn:Ep.
  2:{ intros [= <-]. apply handled_not. congruence. }
  destruct (committing p) eqn:Ec.
  - assert (committed_id f = None → handled f a a) as Hnot by (intros ?; by apply handled_not).
    unfold committed_id in Hnot.
    destruct (unmarshal_raw c_commit_result _ _) as [r|] eqn:Er; [|intros [= <-]; by apply Hnot].
    unfold handlePollerCommitResponse, when. cbn [mbind option_bind] in Hnot. case_bool_decide as Hst.
    + intros [= <-]. apply (handled_committed _ _ p); [done..|].
      unfold committed_id. rewrite Er. cbn [mbind option_bind]. by case_guard.
    + intros [= <-]. apply Hnot. by case_guard.
  - destruct (unmarshal_raw c_prepare_result _ _) as [r|].
    2:{ intros [= <-]. apply handled_not. congruence. }
    unfold handlePollerPrepareResponse. case_bool_decide.
    + rewrite bind_app. unfold allocateMsgId. rewrite bind_app. cbn [modify gets].
      rewrite (to_u64_id (outMsgId a + 1)) by (unfold is_u64; lia).
      intros [= <-]. by apply (handled_prepared f a p).
    + intros [= <-]. by apply (handled_refused f a p).
Qed.

(** The commit of a preparation that is pending. *)
Lemma commit_speaks a id p :
  speaker H txs a → ids_ample a → pendingPrepares a !! id = Some p → committing p = false →
  speaks [agent_frame (outMsgId a + 1) MethodPollerCommit
      (enc c_commit {| pcp_ZoneId := ""; pcp_Version := to_i64 (pp_version p) |})] []
    (sent [agent_frame (outMsgId a + 1) MethodPollerCommit
      (enc c_commit {| pcp_ZoneId := ""; pcp_Version := to_i64 (pp_version p) |})]
      (put_pendingPrepares (<[(outMsgId a + 1)%Z := to_commit p]> (delete id (pendingPrepares a))) a)).
Proof.
  intros [Hsaid Hresp Hnext Hsize Hld Hver Hpend] Hids Ep Ec.
  destruct (Hpend id p Ep) as (tx & Htx & Hci & Hv & _).
  pose proof (said_room _ _ Hsaid). unfold ids_ample in Hids. set (cid := (outMsgId a + 1)%Z).
  pose proof (said_version_bounds Hsaid tx Htx). pose proof (said_count _ _ Hsaid).
  assert (agent_frame cid MethodPollerCommit (enc c_commit {| pcp_ZoneId := "";
    pcp_Version := to_i64 (pp_version p) |}) = commit_frame tx cid) as ->.
  { unfold commit_frame. pose proof (said_zones _ _ Hsaid) as Hz. rewrite Forall_forall in Hz.
    rewrite (Hz tx Htx), Hv, to_i64_id; [done|unfold is_i64; lia]. }
  assert (issued (H ++ [commit_frame tx cid]) cid (commit_frame tx cid)) as Hnew.
  { replace cid with (Z.of_nat (length H) + 1)%Z by (unfold cid; lia). apply issued_next. }
  split; [split|split; [done|]].
  - unfold cid. rewrite app_nil_r, Hnext. apply said_commit; [done|done|lia].
  - cbn [sent a_responder put_outMsgId put_a_responder put_pendingPrepares].
    by rewrite Hresp, fmap_app.
  - change (outMsgId (sent ?l ?x)) with (outMsgId a + Z.of_nat (length l))%Z.
    rewrite length_app. cbn [length]. lia.
  - exact Hsize.
  - exact Hld.
  - by rewrite app_nil_r.
  - rewrite app_nil_r. apply map_Forall_insert_2; [by exists tx|].
    apply map_Forall_delete. intros i p' Hi. rewrite <- (app_nil_r txs). apply pending_of_app.
    by apply (Hpend i p').
  - intros i tx' Htx' Hi Hlt. assert (i = cid) as ->.
    { apply issued_lt in Hi. rewrite length_app in Hi. cbn in Hi. unfold cid. lia. }
    rewrite app_nil_r in Htx'. pose proof (issued_fun _ _ _ _ Hnew Hi) as Ef.
    apply (commit_frame_inj Hsaid) in Ef as <-; [|done..].
    exists (to_commit p). split; [|done]. apply lookup_insert_eq.
Qed.

(** What a response settles: the commit it is about, or no commit at all. *)
Definition settles (f : FrameMsg) (a b : agent) (new : list FrameMsg) : Prop :=
  match committed_id f with
  | Some i => ∀ tx, tx ∈ txs → awaits a i tx →
      committedChecks b = Some (tx_ids tx) ∧ new = []
      ∧ pendingPrepares b = delete i (pendingPrepares a)
  | None => committedChecks b = committedChecks a
      ∧ ∀ i tx, awaits a i tx → awaits b i tx
  end.

Lemma awaits_delete a b i tx id p :
  pendingPrepares a !! id = Some p → committing p = false →
  (∀ j, j ≠ id → is_Some (pendingPrepares a !! j) → pendingPrepares b !! j = pendingPrepares a !! j) →
  awaits a i tx → awaits b i tx.
Proof.
  intros Hp Hc Hb (p' & Hp' & Hrest). exists p'. split; [|done]. rewrite Hb; [done| |done].
  intros ->. destruct Hrest. congruence.
Qed.

(** The response that the agent handles: it commits, or no commit is affected. *)
Lemma handled_speaks f a b :
  speaker H txs a → ids_ample a → handled f a b →
  ∃ new, speaks new [] b ∧ a_responses b = a_responses a ∧ settles f a b new.
Proof.
  intros Ha Hids Hh.
  assert (∀ c, speaks [] [] (put_pendingPrepares (delete (f_Id (Common f)) (pendingPrepares a))
    (put_committedChecks c a))) as Hless.
  { intros c. apply speaks_nothing, (speaker_same a); try done; [apply Ha|].
    apply map_Forall_delete, Ha. }
  assert (∀ p new, pendingPrepares a !! f_Id (Common f) = Some p → committing p = false →
    speaks new [] b → a_responses b = a_responses a → committedChecks b = committedChecks a →
    (∀ j, j ≠ f_Id (Common f) → is_Some (pendingPrepares a !! j) →
       pendingPrepares b !! j = pendingPrepares a !! j) →
    ∃ new, speaks new [] b ∧ a_responses b = a_responses a ∧ settles f a b new) as Hfree.
  { intros p new Hp Hc Hs Hr Hcc Hb. exists new. split_and!; [done..|]. unfold settles.
    destruct (committed_id f) as [i|] eqn:Ei.
    - intros tx _ (p' & Hp' & Hc' & _). apply committed_id_is in Ei as ->. congruence.
    - split; [done|]. intros i tx. by apply (awaits_delete a b i tx (f_Id (Common f)) p). }
  destruct Hh as [Hno|p Hp Hc Hi|p Hp Hc|p Hp Hc].
  - exists []. split; [by apply speaks_nothing|]. split; [done|].
    unfold settles. destruct (committed_id f) as [i|] eqn:Ei; [|done]. intros tx _ (p & Hp & Hc & _).
    apply committed_id_is in Ei as Ei'. subst i. by specialize (Hno p Hp Hc).
  - exists []. split; [apply Hless|]. split; [done|]. unfold settles. rewrite Hi.
    intros tx _ (p' & Hp' & _ & Hids'). split_and!; [|done|done]. cbn.
    rewrite Hp in Hp'. injection Hp' as ->. by rewrite Hids'.
  - apply (Hfree p []); try done; [exact (Hless (committedChecks a))|].
    intros j Hj _. cbn. by apply lookup_delete_ne.
  - eapply (Hfree p); try done; [by apply commit_speaks|]. intros j Hj [p' Hp'].
    cbn [sent pendingPrepares put_outMsgId put_a_responder put_pendingPrepares].
    rewrite lookup_insert_ne; [by apply lookup_delete_ne|].
    destruct Ha as [_ _ Hnext _ _ _ Hpend].
    destruct (Hpend j p' Hp') as (? & _ & _ & _ & ?%issued_lt). lia.
Qed.

Lemma response_turn a b f q :
  speaker H txs a → ids_ample a → a_responses a = f :: q → take_response a = Ret () b →
  ∃ new, speaks new [] b ∧ a_responses b = q ∧ settles f a b new.
Proof.
  intros Ha Hids Hq. unfold take_response. rewrite bind_app. cbn [gets]. rewrite Hq, bind_app.
  cbn [modify]. intros E%response_handled.
  2:{ unfold ids_ample in Hids. pose proof (sp_next _ _ _ Ha) as Hn. split; cbn; lia. }
  apply (handled_speaks f (put_a_responses q a) b); [|exact Hids|done].
  by apply (speaker_same a); try apply Ha.
Qed.
End turns.
