(* ===== verification/Listening.v ===== *)
(** The session of Network: what it makes of the frames of the agent, which of
    its answers say that a commit is done, and its invariant. *)
From stdpp Require Import sorting.
From S2P Require Export Dialogue.

(** ** What the answers say *)

(** The commits that frames say are done, as the endpoint reads them. *)
Definition commits_said (js : list json) : list Z :=
  omap committed_id (filter is_response (received js)).

Lemma commits_said_app l l' : commits_said (l ++ l') = commits_said l ++ commits_said l'.
Proof. unfold commits_said, received. by rewrite fmap_app, filter_app, omap_app. Qed.

Lemma result_said guid src z v status details :
  common_ok (Common src) → is_i64 v →
  commits_said (Encode <$> [answer guid src (enc c_commit_result {| pcr_ZoneId := z;
    pcr_Version := v; pcr_Status := status; pcr_Details := details |})])
  = if decide (status = PrepareResultStatusCommitted) then [f_Id (Common src)] else [].
Proof.
  intros Hs Hv. unfold commits_said. rewrite answer_frame by done.
  rewrite filter_cons_True by done. cbn [filter list_filter omap list_omap].
  unfold committed_id. cbn [RawResult].
  rewrite (unmarshal_raw_rt _ _ (λ r, is_i64 (pcr_Version r))) by done.
  cbn [mbind option_bind pcr_Status]. by case_guard; try case_decide.
Qed.

Lemma commit_answer_said guid f z v status details :
  common_ok (Common f) → is_i64 v →
  commits_said (Encode <$> [commit_answer guid f z v status details])
  = if decide (status = PrepareResultStatusCommitted) then [f_Id (Common f)] else [].
Proof. apply result_said. Qed.

(** The two kinds of results have the same members. *)
Lemma prepare_answer_said guid src z v status details :
  common_ok (Common src) → is_i64 v → status ≠ PrepareResultStatusCommitted →
  commits_said (Encode <$> [prepare_answer guid src z v status details]) = [].
Proof.
  intros Hs Hv Hst. pose proof (result_said guid src z v status details Hs Hv) as E.
  by rewrite decide_False in E.
Qed.

Lemma request_said msg :
  GetMethod msg ≠ MethodEmpty → common_ok (frame_common msg) → commits_said (Encode <$> [msg]) = [].
Proof.
  intros Hm Hok. unfold commits_said, received. cbn [fmap list_fmap].
  rewrite (encode_decode msg Hok). cbn [fst]. rewrite filter_cons_False; [done|].
  unfold is_response. unfold GetMethod in Hm. by destruct msg.
Qed.

(** ** Reactions to the frames of an agent *)
Section reactions.
Context {H : list FrameMsg} {txs : list transaction} (Hsaid : said H txs).

(** The preparation in progress is of a transaction, with the blocks that are
    among the first [k] frames. *)
Definition preparing (k : nat) (p : participant) : Prop :=
  ∀ src cp, p = Some (src, cp) → ∃ tx id cp0, tx ∈ txs ∧ is_u64 id ∧ src = prepare_frame tx id
    ∧ cp_Version cp = tx_version tx
    ∧ NewChecksPreparation (tx_zone tx) (tx_version tx) (tx_manifest tx) = inl cp0
    ∧ cp = add_definitions (concat (heard (tx_version tx) (take k H))) cp0.

Definition reaction_ok (k : nat) (f : FrameMsg) (r : reaction) : Prop :=
  let '(p, answers, committed) := r in
  preparing (S k) p ∧
  match committed with
  | None => commits_said (Encode <$> answers) = []
  | Some cp => ∃ tx, tx ∈ txs ∧ f = commit_frame tx (Z.of_nat k + 1) ∧ complete tx cp
      ∧ commits_said (Encode <$> answers) = [Z.of_nat k + 1]%Z
  end.

Lemma preparing_none k : preparing k None.
Proof. by intros src cp. Qed.
Hint Resolve preparing_none : core.

(** Only a block of its version changes what a preparation is made of. *)
Lemma preparing_next k f p :
  H !! k = Some f → preparing k p →
  (∀ src cp, p = Some (src, cp) → block_of_version (cp_Version cp) f = None) → preparing (S k) p.
Proof.
  intros Hk Hp Hf src cp ->.
  destruct (Hp src cp eq_refl) as (tx & id & cp0 & Htx & Hid & E & Hv & Hnew & Hcp).
  exists tx, id, cp0. split_and!; [done..|]. specialize (Hf src cp eq_refl). rewrite Hv in Hf.
  rewrite (heard_next _ _ _ _ Hk). unfold heard at 2. cbn [omap list_omap].
  by rewrite Hf, app_nil_r.
Qed.

Lemma preparing_skip k f p :
  H !! k = Some f → f_Method (Common f) ≠ MethodPollerPrepareBlock → preparing k p →
  preparing (S k) p.
Proof.
  intros Hk Hm Hp. apply (preparing_next k f); [done..|]. intros src cp _.
  unfold block_of_version. by rewrite decide_False by naive_solver.
Qed.

(** No block comes before the manifest. *)
Lemma heard_before_prepare k tx id :
  tx ∈ txs → H !! k = Some (prepare_frame tx id) → heard (tx_version tx) (take (S k) H) = [].
Proof.
  intros Htx Hk. rewrite (heard_next _ _ _ _ Hk), (heard_other _ [_]) by (by apply Forall_singleton).
  rewrite app_nil_r. apply elem_of_nil_inv. intros b (f & Hf & Hb)%list_elem_of_omap.
  unfold block_of_version in Hb. case_decide as Hc; [|done]. destruct Hc as [Hm Hver].
  pose proof (said_sorted _ _ Hsaid) as Hso. rewrite <- (take_drop k H), (drop_S _ _ _ Hk), omap_app in Hso.
  assert (follows (3 * tx_version tx + 1) (3 * tx_version tx)) as Hlt; [|unfold follows in Hlt; lia].
  eapply (StronglySorted_app_1_elem_of follows); [exact Hso|..].
  - apply list_elem_of_omap. exists f. split; [done|]. unfold weight. rewrite Hm, Hver.
    by rewrite decide_False, decide_True.
  - cbn [omap list_omap]. rewrite weight_prepare by (by apply (said_tx_ok Hsaid)). by left.
Qed.

Lemma version_i64 tx : tx ∈ txs → is_i64 (tx_version tx).
Proof. intros Htx. by apply tx_version_i64, (said_tx_ok Hsaid). Qed.

Lemma prepare_frame_ok tx id : is_u64 id → common_ok (Common (prepare_frame tx id)).
Proof. intros Hid. by split. Qed.

Ltac no_commit :=
  apply prepare_answer_said; [by apply prepare_frame_ok|by apply version_i64|done].

Lemma superseded_said guid p version k :
  preparing k p → commits_said (Encode <$> superseded guid p version) = [].
Proof.
  intros Hp. destruct p as [[src cp]|]; [|done]. cbn. case_bool_decide; [|done].
  destruct (Hp src cp eq_refl) as (tx & id & cp0 & Htx & Hid & -> & -> & _). no_commit.
Qed.

Section frame.
Context (k : nat) (Hroom : is_u64 (Z.of_nat k + 1)).
Let id := (Z.of_nat k + 1)%Z.

Lemma prepare_reaction accepts guid tx p :
  tx ∈ txs → H !! k = Some (prepare_frame tx id) → preparing k p →
  reaction_ok k (prepare_frame tx id) (on_prepare accepts guid (prepare_frame tx id) p).
Proof.
  intros Htx Hk Hp. assert (preparing (S k) p) as Hp' by (by eapply preparing_skip).
  unfold on_prepare. rewrite (prepare_decoded tx (said_tx_ok Hsaid tx Htx)).
  cbn [pps_ZoneId pps_Version pps_Manifest].
  case_bool_decide; [split; [done|no_commit]|].
  destruct (IsOlder _ _); [split; [done|no_commit]|].
  assert (∀ details, commits_said (Encode <$> superseded guid p (tx_version tx) ++
    [prepare_answer guid (prepare_frame tx id) (tx_zone tx) (tx_version tx)
       PrepareResultStatusFailed details]) = []) as Hfail.
  { intros details. rewrite fmap_app, commits_said_app, (superseded_said _ _ _ k) by done. no_commit. }
  destruct (NewChecksPreparation _ _ _) as [cp|err] eqn:E; [|by split].
  destruct (accepts cp); [by split|]. split; [|by apply (superseded_said _ _ _ k)].
  intros src cp' [= <- <-]. exists tx, id, cp.
  split_and!; [done..|by apply new_preparation_ids in E as [? _]|done|].
  by rewrite (heard_before_prepare k tx id).
Qed.

Lemma block_reaction tx b p :
  tx ∈ txs → b ∈ tx_blocks tx → H !! k = Some (block_frame tx id b) → preparing k p →
  reaction_ok k (block_frame tx id b) (on_block (block_frame tx id b) p).
Proof.
  intros Htx Hb Hk Hp. pose proof (said_tx_ok Hsaid tx Htx) as Hok. unfold on_block.
  pose proof (tx_block_ok tx Hok b Hb) as Hbok.
  fold (block_request (block_frame tx id b)).
  rewrite (block_decoded tx Hok id b) by done. cbn [ppb_Version ppb_Block].
  rewrite block_of_definitions.
  destruct p as [[src cp]|]; [|by split].
  case_bool_decide as Hv; split; try done.
  - intros src' cp' [= <- <-]. destruct (Hp src cp eq_refl) as (tx1 & id1 & cp0 & Htx1 & Hid1 & -> & Hv1 & Hnew & Hcp).
    assert (tx1 = tx) as -> by (apply (said_version_inj Hsaid); [done..|congruence]).
    exists tx, id1, cp0. split_and!; [done..|by rewrite (proj2 (add_definitions_header _ _))|done|].
    rewrite (heard_next _ _ _ _ Hk), heard_block, decide_True, concat_app by done.
    cbn [concat]. rewrite app_nil_r, Hcp. unfold add_definitions. by rewrite foldl_app.
  - apply (preparing_next k (block_frame tx id b)); [done..|]. intros ? ? [= <- <-].
    unfold block_of_version. rewrite (block_decoded tx Hok id b) by done.
    rewrite decide_False; [done|]. intros [_ Hv2]. cbn in Hv2. by rewrite Hv2 in Hv.
Qed.

Lemma end_reaction guid tx p `{MapRange} :
  tx ∈ txs → H !! k = Some (end_frame tx id) → preparing k p →
  reaction_ok k (end_frame tx id) (on_end guid (end_frame tx id) p).
Proof.
  intros Htx Hk Hp. assert (preparing (S k) p) as Hp' by (by eapply preparing_skip).
  unfold on_end. fold (end_of_prepare (end_frame tx id)).
  rewrite (end_decoded tx (said_tx_ok Hsaid tx Htx)). cbn [ppe_ZoneId ppe_Version ppe_Directive].
  destruct p as [[src cp]|].
  2:{ split; [done|]. by apply prepare_answer_said; [split|apply version_i64|]. }
  rewrite bool_decide_false by done. rewrite bool_decide_false by naive_solver.
  destruct (Hp src cp eq_refl) as (tx' & id' & cp0 & Htx' & Hid' & -> & Hv' & _).
  destruct (ValidatePreparation cp (tx_version tx)); (split; [done|no_commit]).
Qed.

Lemma commit_reaction guid tx p :
  tx ∈ txs → H !! k = Some (commit_frame tx id) → preparing k p →
  reaction_ok k (commit_frame tx id) (on_commit guid (commit_frame tx id) p).
Proof.
  intros Htx Hk Hp. assert (preparing (S k) p) as Hp' by (by eapply preparing_skip).
  unfold on_commit. rewrite (commit_decoded tx (said_tx_ok Hsaid tx Htx)).
  cbn [pcp_ZoneId pcp_Version].
  assert (common_ok (Common (commit_frame tx id))) as Hok by (by split).
  destruct (VersionApplies (snd <$> p) (tx_version tx)) eqn:Ev.
  - destruct p as [[src cp]|]; [|done]. cbn in Ev. apply bool_decide_eq_true in Ev.
    split; [done|]. cbn [fmap option_fmap option_map snd].
    destruct (Hp src cp eq_refl) as (tx' & id' & cp0 & Htx' & Hid' & -> & Hv' & Hnew & Hcp).
    assert (tx' = tx) as -> by (apply (said_version_inj Hsaid); [done..|congruence]).
    exists tx. split_and!; [done..| |].
    + exists cp0. split; [done|]. by rewrite Hcp, (said_before _ _ Hsaid tx k id).
    + rewrite commit_answer_said; [by rewrite decide_True|done|by apply version_i64].
  - split; [done|]. rewrite commit_answer_said; [by rewrite decide_False|done|by apply version_i64].
Qed.

Lemma reaction_of_sent `{MapRange} accepts guid f p :
  sent_of txs id f → H !! k = Some f → preparing k p → reaction_ok k f (react accepts guid f p).
Proof.
  intros [tx Htx|tx b Htx Hb|tx Htx|tx Htx] Hk Hp.
  - by apply prepare_reaction.
  - by apply block_reaction.
  - by apply end_reaction.
  - by apply commit_reaction.
Qed.
End frame.
End reactions.

(** ** The turns of the session *)
Section turns.
Context {R : Type} `{!ChecksReconciler R} `{MapRange}.
Implicit Types s t : EleSession (logged R).

(** What the two-phase exchange reads and writes of a session. *)
Definition io s := (ss_prep s, ss_reconciler s, ss_sendCh s, ss_written s, ss_readCh s).
Definition quiet {A} (c : go (EleSession (logged R)) A) : Prop := ∀ x, keeps (λ s, io s = x) c.

Lemma quiet_io {A} (c : go (EleSession (logged R)) A) s a t : quiet c → c s = Ret a t → io t = io s.
Proof. intros Hq E. pose proof (Hq (io s) s eq_refl) as Hk. by rewrite E in Hk. Qed.

Lemma response_quiet f : quiet (handleResponse f).
Proof.
  intros x. unfold handleResponse, getCompletionRequest, heartbeatsStarter, SetAuthenticated. keeps_auto.
Qed.
Lemma emit_quiet e : quiet (EmitEvent e).
Proof. intros x. unfold EmitEvent. keeps_auto. Qed.
Lemma close_quiet : quiet session_Close.
Proof. intros x. unfold session_Close, session_contexts. keeps_auto. Qed.
Lemma exit_quiet : quiet exitError.
Proof. intros x. unfold exitError, session_Close, session_contexts. keeps_auto. Qed.
Lemma receive_quiet now : quiet (heartbeat_receive now).
Proof. intros x. unfold heartbeat_receive, on_measurement. keeps_auto. Qed.
Lemma auth_quiet : quiet auth_expired.
Proof. intros x. unfold auth_expired. keeps_auto. Qed.

(** The handlers of the exchange read and write no documents. *)
Definition wires s := (ss_written s, ss_readCh s).
Lemma handle_keeps_wires x f : keeps (λ s, wires s = x) (handleFrame f).
Proof.
  unfold handleFrame, handlePollerPrepare, handlePollerPrepareBlock, handlePollerPrepareEnd,
    handlePollerCommit, respondFailureToPollerPrepare, respondCommitResult, commit, Respond,
    NewPollerPrepareResponse, NewPollerPrepareCommitResponse, response_with, on_prep, on_reconciler,
    spawn, handleResponse, getCompletionRequest, heartbeatsStarter, SetAuthenticated.
  keeps_auto. unfold timer_receive. keeps_auto.
Qed.

(** *** The timer of a preparation *)
Definition timer_idle (pd : prepDetails) : Prop :=
  prepareToEndTimer pd = None ∨ prepareToEndTimer pd = Some Stopped.

Definition timer_after (f : FrameMsg) (pd pd' : prepDetails) : Prop :=
  pd' = pd ∨ ¬ timer_idle pd' ∨ activePrep pd' = None
  ∨ ∃ w, weight f = Some w ∧ (w mod 3 ≠ 1)%Z
      ∧ ∀ cp, activePrep pd' = Some cp → (3 * cp_Version cp + 2 ≤ w)%Z.

Lemma prepare_timer f s t :
  f_Method (Common f) = MethodPollerPrepare → handlePollerPrepare f s = Ret () t →
  timer_after f (ss_prep s) (ss_prep t).
Proof.
  intros Hm. unfold handlePollerPrepare. rewrite bind_app. cbn [gets].
  set (req := DecodePollerPrepareStartRequest f).
  assert (weight f = Some (3 * pps_Version (start_Params req))%Z) as Hw.
  { unfold weight. by rewrite decide_True. }
  set (v := pps_Version (start_Params req)) in *.
  assert (∀ a status details u, respondFailureToPollerPrepare (Some f) a status details s = Ret () u →
    timer_after f (ss_prep s) (ss_prep u)) as Hsame.
  { intros [a|] status details u; [|done]. rewrite respond_failure_app. intros [= <-]. by left. }
  case_bool_decide; [apply Hsame|]. destruct (IsOlder _ _); [apply Hsame|]. clear Hsame.
  rewrite bind_app.
  match goal with |- match ?c s with _ => _ end = _ → _ => destruct (c s) as [[] u|e u] eqn:Eu end; [|done].
  assert (ss_prep u = ss_prep s ∨ activePrep (ss_prep u) = activePrep (ss_prep s)
    ∧ ∀ cp, activePrep (ss_prep s) = Some cp → (cp_Version cp < v)%Z) as Hu.
  { revert Eu. destruct (activePrep (ss_prep s)) as [cp|] eqn:Ea; [|intros [= <-]; by left].
    unfold when. cbn [IsNewer]. case_bool_decide as Hlt; [|intros [= <-]; by left].
    rewrite bind_app. cbn [fmap option_fmap option_map]. destruct (srcPrepMsg (ss_prep s)); [|done].
    rewrite respond_failure_app. destruct (prepareToEndTimer (ss_prep s)) as [tm|]; intros [= <-].
    - right. split; [done|]. by intros cp' [= <-].
    - by left. }
  clear Eu. assert (timer_after f (ss_prep s) (ss_prep u)) as Hafter.
  { destruct Hu as [->|[E Hlt]]; [by left|]. do 3 right. exists (3 * v)%Z. split; [done|].
    split; [rewrite Z.mul_comm, Z.mod_mul by done; done|]. rewrite E. intros cp Hcp%Hlt. lia. }
  assert (∀ a status details t, respondFailureToPollerPrepare (Some f) (Some a) status details u = Ret () t →
    timer_after f (ss_prep s) (ss_prep t)) as Hfail.
  { intros a status details t'. rewrite respond_failure_app. by intros [= <-]. }
  destruct (NewChecksPreparation _ _ _) as [cp|err]; [|apply Hfail].
  rewrite bind_app. cbn [gets]. destruct (ValidateChecks _ _); [apply Hfail|].
  intros [= <-]. right. left. intros [Ht|Ht]; by cbn in Ht.
Qed.

Lemma block_timer f s t :
  handlePollerPrepareBlock f s = Ret () t → timer_after f (ss_prep s) (ss_prep t).
Proof.
  unfold handlePollerPrepareBlock. rewrite bind_app. cbn [gets].
  destruct (VersionApplies _ _); cbn [negb]; [|intros [= <-]; by left].
  rewrite bind_app. destruct (on_prep _ s) as [[] u|]; [|done].
  destruct (prepareToEndTimer (ss_prep s)) as [[d| |]|]; [| | |done]; intros E.
  - right. left. injection E as <-. intros [Ht|Ht]; by cbn in Ht.
  - done.
  - right. left. injection E as <-. intros [Ht|Ht]; by cbn in Ht.
Qed.

Lemma end_timer f s t :
  f_Method (Common f) = MethodPollerPrepareEnd → handlePollerPrepareEnd f s = Ret () t →
  timer_after f (ss_prep s) (ss_prep t).
Proof.
  intros Hm. assert (weight f = Some (3 * ppe_Version (end_of_prepare f) + 2)%Z) as Hw.
  { unfold weight. rewrite Hm. done. }
  unfold handlePollerPrepareEnd. rewrite bind_app. cbn [gets].
  change (end_Params (DecodePollerPrepareEndRequest f)) with (end_of_prepare f).
  assert (∀ src a status details u, respondFailureToPollerPrepare src (Some a) status details s = Ret () u →
    timer_after f (ss_prep s) (ss_prep u)) as Hsame.
  { intros [src|] a status details u; [|done]. rewrite respond_failure_app. intros [= <-]. by left. }
  case_bool_decide.
  { rewrite bind_app. destruct (srcPrepMsg (ss_prep s)); [|done]. rewrite respond_failure_app.
    intros [= <-]. right; right; left. done. }
  case_bool_decide; [apply Hsame|].
  destruct (activePrep (ss_prep s)) as [cp|] eqn:Ea; [|apply Hsame].
  destruct (ValidatePreparation cp _) eqn:Ev; [apply Hsame|].
  apply validate_none_iff in Ev as [Hv _].
  destruct (prepareToEndTimer (ss_prep s)) as [tm|] eqn:Et.
  2:{ done. }
  destruct (srcPrepMsg (ss_prep s)) as [src|] eqn:Es.
  2:{ done. }
  intros E. assert (activePrep (ss_prep t) = Some cp) as Hcp.
  { by injection E as <-. }
  do 3 right. exists (3 * ppe_Version (end_of_prepare f) + 2)%Z. split; [done|].
  split; [rewrite Z.add_comm, Z.mul_comm, Z.mod_add by done; done|].
  rewrite Hcp. intros cp' [= <-]. lia.
Qed.

Lemma commit_timer f s t :
  session_inv s → handlePollerCommit f s = Ret () t → timer_after f (ss_prep s) (ss_prep t).
Proof.
  intros Hi E. destruct (commit_reacts f s Hi) as [_ Hr]. specialize (Hr t E).
  unfold on_commit in Hr. revert E. unfold handlePollerCommit. rewrite bind_app. cbn [gets].
  rewrite (active_part s Hi).
  change (commit_Params (DecodePollerCommitRequest f))
    with (decode_raw c_commit zero_commit (RawParams f)).
  destruct (VersionApplies _ _); cbn [negb].
  - intros _. destruct Hr as (Ht & Hp & _). right; right; left.
    rewrite (active_part t Ht). by rewrite Hp.
  - rewrite respond_commit_app. intros [= <-]. by left.
Qed.

Lemma frame_timer txs id f s e t :
  session_inv s → sent_of txs id f → handleFrame f s = Ret e t →
  timer_after f (ss_prep s) (ss_prep t).
Proof.
  intros Hi Hs. assert (∀ (c : go (EleSession (logged R)) unit),
    (c ;; mret (M := go _) (@None error)) s = Ret e t → c s = Ret () t) as Hc.
  { intros c. rewrite bind_app. destruct (c s) as [[] u|]; [|done]. by intros [= _ ->]. }
  destruct Hs.
  - rewrite handle_prepare_frame. intros E%Hc. by apply prepare_timer.
  - rewrite handle_block_frame. intros E%Hc. by apply block_timer.
  - rewrite handle_end_frame. intros E%Hc. by apply end_timer.
  - rewrite handle_commit_frame. intros E%Hc. by apply commit_timer.
Qed.

(** *** The invariant

    Of the frames [fs] of the agent, [n] have been read and the first [k]
    handled. *)
Definition exchanged (f : FrameMsg) : Prop := two_phase_method (f_Method (Common f)).
#[local] Instance exchanged_dec f : Decision (exchanged f) := decide (two_phase_method _).

Section listener.
Context {fs : list FrameMsg} {txs : list transaction}.

Record listener (n k : nat) s : Prop := {
  li_inv : session_inv s;
  li_queue : filter exchanged (ss_readCh s) ++ drop n fs = drop k fs;
  li_kinds : Forall (λ f, exchanged f ∨ is_response f) (ss_readCh s);
  li_count : k ≤ length fs ∧ n ≤ length fs;
  li_preparing : preparing (H := fs) (txs := txs) k (part_of s);
  li_timer : ∀ cp, activePrep (ss_prep s) = Some cp → timer_idle (ss_prep s) →
    Forall (λ w, 3 * cp_Version cp + 2 < w)%Z (omap weight (drop k fs))
}.

(** What a turn that brings the count of the frames handled from [k] to [k']
    has queued or written, and handed over. *)
Definition output s : list json := ss_written s ++ (Encode <$> ss_sendCh s).
Definition committed_turn (k k' : nat) s t (said : list Z) : Prop :=
  ∃ tx cp, tx ∈ txs ∧ k' = S k ∧ issued fs (Z.of_nat k + 1) (commit_frame tx (Z.of_nat k + 1))
    ∧ ReconcileChecks cp (ss_reconciler s) = Ret () (ss_reconciler t) ∧ complete tx cp
    ∧ said = [Z.of_nat k + 1]%Z.
Definition progress (k k' : nat) s t : Prop :=
  ∃ more, output t = output s ++ more ∧ length (ss_written s) ≤ length (ss_written t)
    ∧ (ss_reconciler t = ss_reconciler s ∧ commits_said more = []
       ∨ committed_turn k k' s t (commits_said more)).

Definition listens (n k : nat) s t : Prop :=
  ∃ k', k ≤ k' ∧ listener n k' t ∧ progress k k' s t.

Lemma listener_same n k s t :
  listener n k s → ss_prep t = ss_prep s → ss_readCh t = ss_readCh s → listener n k t.
Proof.
  intros [H1 H2 H3 H4 H5 H6] Ep Er. unfold session_inv, part_of in *. split;
    unfold session_inv, part_of; rewrite ?Ep, ?Er; done.
Qed.

Lemma listens_more n k s t more :
  listener n k s → ss_prep t = ss_prep s → ss_readCh t = ss_readCh s →
  ss_reconciler t = ss_reconciler s → ss_written t = ss_written s →
  ss_sendCh t = ss_sendCh s ++ more → commits_said (Encode <$> more) = [] → listens n k s t.
Proof.
  intros Hl Ep Er Eh Ew Es Em. exists k. split; [done|]. split; [by eapply listener_same|].
  exists (Encode <$> more). unfold output. rewrite Ew, Es, fmap_app, (assoc_L (++)).
  split_and!; [done|done|by left].
Qed.

Lemma listens_io n k s t : listener n k s → io t = io s → listens n k s t.
Proof.
  intros Hl E. unfold io in E. injection E as E1 E2 E3 E4 E5.
  apply (listens_more n k s t []); try done. by rewrite app_nil_r.
Qed.

Lemma listens_after n k s u t : io u = io s → listens n k u t → listens n k s t.
Proof.
  intros E (k' & Hk & Hl & more & H1 & H2 & H3). unfold io in E. injection E as E1 E2 E3 E4 E5.
  unfold output, committed_turn in *. rewrite ?E2, ?E3, ?E4 in *.
  exists k'. split; [done|]. split; [done|]. exists more. unfold output, committed_turn.
  by rewrite ?E2, ?E3, ?E4.
Qed.

Lemma send_listens n k s t : listener n k s → send_frame true s = Ret () t → listens n k s t.
Proof.
  intros Hl. unfold send_frame. rewrite bind_app. cbn [gets].
  destruct (ss_sendCh s) as [|f q] eqn:E; [done|]. intros [= <-].
  exists k. split; [done|]. split; [by eapply listener_same|]. exists [].
  unfold output. rewrite app_nil_r, E. cbn. rewrite <- (assoc_L (++)), length_app.
  split_and!; [done|lia|by left].
Qed.

Lemma request_listens n k s t msg :
  listener n k s → GetMethod msg ≠ MethodEmpty → is_u64 (GetId msg) → f_Error (frame_common msg) = None →
  ss_prep t = ss_prep s → ss_readCh t = ss_readCh s →
  ss_reconciler t = ss_reconciler s → ss_written t = ss_written s →
  ss_sendCh t = ss_sendCh s ++ [msg] → listens n k s t.
Proof.
  intros Hl Hm Hid He Ep Er Eh Ew Es. apply (listens_more n k s t [msg]); try done.
  apply request_said; [done|]. split; [by destruct msg|]. intros e Hs. congruence.
Qed.

(** The next frame of the agent. *)
Lemma listener_next n k s f q :
  listener n k s → ss_readCh s = f :: q → exchanged f →
  fs !! k = Some f ∧ filter exchanged q ++ drop n fs = drop (S k) fs.
Proof.
  intros [_ Hq _ _ _ _] E Hf. rewrite E, filter_cons_True in Hq by done. cbn in Hq.
  assert (fs !! k = Some f) as Hk.
  { rewrite <- (Nat.add_0_r k), <- lookup_drop, <- Hq. done. }
  split; [done|]. rewrite (drop_S _ _ _ Hk) in Hq. by injection Hq.
Qed.

Lemma later_weights k f w :
  said fs txs → fs !! k = Some f → weight f = Some w → (w mod 3 ≠ 1)%Z →
  Forall (λ w', w < w')%Z (omap weight (drop (S k) fs)).
Proof.
  intros Hsaid Hk Hw Hm. pose proof (said_sorted _ _ Hsaid) as Hso.
  rewrite <- (take_drop k fs), (drop_S _ _ _ Hk), omap_app in Hso.
  apply StronglySorted_app_1_r in Hso. cbn [omap list_omap] in Hso. rewrite Hw in Hso.
  apply StronglySorted_cons in Hso as [Hall _]. eapply Forall_impl; [exact Hall|].
  intros w' [Hlt|[-> Hm']]; [done|by destruct Hm].
Qed.

Lemma frame_listens n k s f q e t :
  said fs txs → listener n k s → ss_readCh s = f :: q → exchanged f →
  handleFrame f (put_ss_readCh q s) = Ret e t → e = None ∧ listens n k s t.
Proof.
  intros Hsaid Hl Er Hf E. destruct (listener_next n k s f q Hl Er Hf) as [Hk Hq].
  pose proof Hl as [Hi _ Hkinds [Hkl Hnl] Hprep Htimer].
  pose proof (said_frames _ _ Hsaid k f Hk) as Hsent. set (id := (Z.of_nat k + 1)%Z) in *.
  assert (k < length fs) as Hlt by (by eapply lookup_lt_Some).
  assert (is_u64 id) as Hid by (pose proof (said_room _ _ Hsaid); unfold is_u64, id; lia).
  set (s1 := put_ss_readCh q s) in *. assert (session_inv s1) as Hi1 by exact Hi.
  destruct (handle_two_phase f s1 e t Hi1 Hf E) as [-> Hr]. split; [done|].
  pose proof (reaction_of_sent Hsaid k Hid (verdict_of s1) (ss_guid s1) f (part_of s1) Hsent Hk Hprep) as Hok.
  pose proof (frame_timer txs id f s1 None t Hi1 Hsent E) as Hafter.
  pose proof (handle_keeps_wires (wires s1) f s1 eq_refl) as Hw. rewrite E in Hw. injection Hw as Hw1 Hw2.
  change (ss_written s1) with (ss_written s) in Hw1. change (ss_readCh s1) with q in Hw2.
  destruct (react _ _ f (part_of s1)) as [[p answers] committed].
  destruct Hr as (Hit & Hp & Hs & _ & _ & Hrec), Hok as [Hpr Hcom].
  exists (S k). split; [lia|]. split; [split|].
  - done.
  - by rewrite Hw2.
  - rewrite Hw2. rewrite Er in Hkinds. by apply Forall_cons in Hkinds as [_ ?].
  - lia.
  - by rewrite Hp.
  - intros cp Hcp Hidle. destruct Hafter as [Ep|[Hn|[Hn|(w & Hw & Hm & Hle)]]]; [|done|congruence|].
    + rewrite Ep in Hcp, Hidle. specialize (Htimer cp Hcp Hidle).
      rewrite (drop_S _ _ _ Hk) in Htimer. cbn [omap list_omap] in Htimer.
      destruct (weight f); [|done]. by apply Forall_cons in Htimer as [_ ?].
    + eapply Forall_impl; [exact (later_weights k f w Hsaid Hk Hw Hm)|].
      intros w' Hw'. specialize (Hle cp Hcp). cbn in Hw'. lia.
  - exists (Encode <$> answers). unfold output. rewrite Hw1, Hs, fmap_app, (assoc_L (++)).
    split_and!; [done|done|]. destruct committed as [cp|].
    + right. destruct Hcom as (tx & Htx & -> & Hids & Hsd). exists tx, cp.
      split_and!; try done. split; [lia|]. by replace (Z.to_nat (Z.of_nat k + 1 - 1)) with k by lia.
    + left. by rewrite Hrec.
Qed.

Lemma handle_listens n k s t :
  said fs txs → listener n k s → handle_read_frame s = Ret () t → listens n k s t.
Proof.
  intros Hsaid Hl. unfold handle_read_frame. rewrite bind_app. cbn [gets].
  destruct (ss_readCh s) as [|f q] eqn:Er; [done|]. rewrite bind_app. cbn [modify]. rewrite bind_app.
  destruct (handleFrame f (put_ss_readCh q s)) as [e u|] eqn:E; [|done].
  pose proof (li_kinds _ _ _ Hl) as Hkinds. rewrite Er in Hkinds.
  apply Forall_cons in Hkinds as [[Hf|Hf] Hkinds].
  - destruct (frame_listens n k s f q e u Hsaid Hl Er Hf E) as [-> Hu]. by intros [= <-].
  - assert (io u = io (put_ss_readCh q s)) as Hu.
    { unfold handleFrame in E. rewrite (bool_decide_true _ Hf) in E.
      exact (quiet_io _ _ _ _ (response_quiet f) E). }
    intros Et. assert (io t = io (put_ss_readCh q s)) as Ht.
    { rewrite <- Hu. destruct e; [exact (quiet_io _ _ _ _ (emit_quiet _) Et)|by injection Et as <-]. }
    clear E Hu Et. unfold io in Ht. injection Ht as E1 E2 E3 E4 E5. exists k. split; [done|]. split.
    + destruct Hl as [H1 H2 H3 H4 H5 H6]. rewrite Er, filter_cons_False in H2.
      2:{ unfold exchanged, is_response in *. rewrite Hf. unfold two_phase_method. set_solver. }
      split; unfold session_inv, part_of; rewrite ?E1, ?E5; done.
    + exists []. unfold output. rewrite E3, E4, app_nil_r. by split_and!; [| |left].
Qed.

Lemma expired_keeps_wires x : keeps (λ s, wires s = x) prepare_to_end_expired.
Proof.
  unfold prepare_to_end_expired, respondFailureToPollerPrepare, Respond, NewPollerPrepareResponse,
    response_with, on_prep. keeps_auto.
Qed.

Lemma expired_listens n k s t :
  said fs txs → listener n k s → ChannelOfTimer (prepareToEndTimer (ss_prep s)) = true →
  prepare_to_end_expired s = Ret () t → listens n k s t.
Proof.
  intros Hsaid Hl Htm E. pose proof Hl as [Hi Hq Hk Hc Hp Ht].
  destruct (expiry_reacts s Hi Htm) as (u & Eu & Hr). rewrite E in Eu. injection Eu as <-.
  pose proof (expired_keeps_wires (wires s) s eq_refl) as Hw. rewrite E in Hw. injection Hw as Hw1 Hw2.
  assert (∃ more, on_expiry (ss_guid s) (part_of s) = (None, more, None)
    ∧ commits_said (Encode <$> more) = []) as (more & Er & Hm).
  { destruct (part_of s) as [[src cp]|] eqn:Ep; cbn; eexists; (split; [done|]); [|done].
    destruct (Hp src cp eq_refl) as (tx & id & cp0 & Htx & Hid & -> & -> & _).
    apply prepare_answer_said; [by apply prepare_frame_ok|by apply (version_i64 Hsaid)|done]. }
  rewrite Er in Hr. destruct Hr as (Hit & Hpt & Hs & _ & _ & Hrec).
  exists k. split; [done|]. split.
  - split; rewrite ?Hw2; try done; [by rewrite Hpt|].
    intros cp. by rewrite (active_part t Hit), Hpt.
  - exists (Encode <$> more). unfold output. rewrite Hw1, Hs, fmap_app, (assoc_L (++)).
    split_and!; [done|done|left]. by rewrite Hrec.
Qed.

Lemma send_request_listens n k s t msg :
  listener n k s → GetMethod msg ≠ MethodEmpty → is_u64 (GetId msg) → f_Error (frame_common msg) = None →
  Send msg s = Ret () t → listens n k s t.
Proof.
  intros Hl Hm Hid He. unfold Send. rewrite bind_app. case_bool_decide.
  - rewrite bind_app. cbn [gets SetId]. rewrite bind_app. cbn [modify mret go_ret]. rewrite bind_app.
    intros [= <-]. eapply (request_listens n k s); try reflexivity; [done|..]; try by destruct msg.
    destruct msg; apply to_u64_range.
  - cbn [mret go_ret]. rewrite bind_app.
    intros [= <-]. eapply (request_listens n k s); try reflexivity; [done|..]; by destruct msg.
Qed.

Lemma poller_turn_listens n k s t :
  said fs txs → listener n k s → poller_turn s t → listens n k s t.
Proof.
  intros Hsaid Hl Hturn. destruct Hturn as [s t E|s d Ht|s t Ht E|now s t E|now s t E
    |msg s t Hid Hm He E|s t E|f s t Hf E|r s t Hr E|s t E|s t E].
  - by apply handle_listens.
  - exists k. split; [done|]. split; [|by exists []; unfold output; rewrite app_nil_r; split_and!; [| |left]].
    destruct Hl as [[Hn Hi] H2 H3 H4 H5 H6]. split; try done.
    + split; [done|]. cbn. destruct (activePrep (ss_prep s)) as [cp|]; [done|].
      destruct Hi as [_ Hi]. by rewrite Hi in Ht.
    + intros cp _ [Hidle|Hidle]; by cbn in Hidle.
  - by apply expired_listens.
  - revert E. unfold heartbeat_tick. rewrite bind_app. cbn [gets SetId]. rewrite bind_app.
    cbn [modify]. rewrite bind_app. destruct (on_measurement _ _) as [[] u|] eqn:Eu; [|done].
    assert (io u = io s) as Hu.
    { etrans; [eapply quiet_io; [|exact Eu]|reflexivity]. intros x. unfold on_measurement. keeps_auto. }
    intros E. assert (listener n k u) as Hlu by (unfold io in Hu; injection Hu as E1 _ _ _ E5;
      by eapply listener_same).
    apply (listens_after n k s u); [done|].
    refine (send_request_listens n k u t _ Hlu _ _ _ E); [done|apply to_u64_range|done].
  - by apply listens_io; [|eapply quiet_io; [apply receive_quiet|]].
  - eapply send_request_listens; try done. by rewrite Hid.
  - by apply send_listens.
  - injection E as <-. exists k. split; [done|]. split.
    + destruct Hl as [H1 H2 H3 H4 H5 H6]. split; try done; cbn [ss_readCh put_ss_readCh].
      * rewrite filter_app, filter_cons_False, filter_nil, app_nil_r; [done|].
        unfold exchanged, is_response in *. rewrite Hf. unfold two_phase_method. set_solver.
      * apply Forall_app. split; [done|]. apply Forall_singleton. by right.
    + exists []. unfold output. rewrite app_nil_r. by split_and!; [| |left].
  - apply listens_io; [done|]. destruct Hr as [-> | ->]; cbn in E.
    + by eapply quiet_io; [apply close_quiet|].
    + revert E. rewrite bind_app. destruct (exitError s) as [[] u|] eqn:Eu; [|done]. intros E.
      etrans; [by eapply quiet_io; [apply close_quiet|]|]. by eapply quiet_io; [apply exit_quiet|].
  - by apply listens_io; [|eapply quiet_io; [apply auth_quiet|]].
  - by apply listens_io; [|eapply quiet_io; [apply close_quiet|]].
Qed.
End listener.
End turns.
