(* ===== verification/NetworkSafety.v ===== *)
(** The agent and the session of Network agree in every interleaving: the
    invariant over both ends and the connection, what the endpoint holds as
    committed, and that its frames never make the session fault. *)
From S2P Require Export Listening.

Section safety.
Context {R : Type} `{!ChecksReconciler R} `{MapRange}.
Implicit Types (a b : agent) (s t : EleSession (logged R)) (net : network R).

(** ** The accounts

    The preparations handed over are those whose answers the agent has handled
    ([past]) and those whose answers are on their way ([coming]), in order. *)
Record accounts (fs : list FrameMsg) (txs : list transaction) (k : nat) a s (m : nat)
    (past coming : list (Z * transaction)) : Prop := {
  acc_handed : Forall2 (λ c cp, c.2 ∈ txs ∧ complete c.2 cp) (past ++ coming) (handed (ss_reconciler s));
  acc_transit : omap committed_id (answers_ahead a s m) = coming.*1;
  acc_committed : committedChecks a = last ((λ c, tx_ids c.2) <$> past);
  acc_coming : Forall (λ c, c.2 ∈ txs ∧ (c.1 ≤ Z.of_nat k)%Z ∧ issued fs c.1 (commit_frame c.2 c.1)) coming;
  acc_nodup : NoDup coming.*1;
  acc_awaits : ∀ i tx, tx ∈ txs → issued fs i (commit_frame tx i) →
    (Z.of_nat k < i)%Z ∨ i ∈ coming.*1 → awaits a i tx;
  acc_read : m ≤ length (ss_written s)
}.

Lemma answers_output a s m :
  m ≤ length (ss_written s) →
  omap committed_id (answers_ahead a s m) =
    omap committed_id (a_responses a) ++ commits_said (drop m (output s)).
Proof.
  intros Hm. unfold answers_ahead, commits_said, output.
  by rewrite omap_app, drop_app_le.
Qed.

Lemma accounts_ids fs txs k a s m past coming :
  said fs txs → accounts fs txs k a s m past coming →
  prepared_ids <$> handed (ss_reconciler s) = (λ c, tx_ids c.2) <$> past ++ coming.
Proof.
  intros Hsaid Hacc. symmetry. apply list_eq_Forall2, Forall2_fmap.
  eapply Forall2_impl; [exact (acc_handed _ _ _ _ _ _ _ _ Hacc)|]. intros c cp [Htx Hcp].
  symmetry. by apply complete_ids; [apply (said_tx_ok Hsaid)|].
Qed.

(** Of the preparations handed over, the endpoint has recorded the last one
    whose answer has come. *)
Lemma accounts_agree fs txs k a s m past coming :
  said fs txs → accounts fs txs k a s m past coming →
  let ids := prepared_ids <$> handed (ss_reconciler s) in
  let n := length (omap committed_id (answers_ahead a s m)) in
  n ≤ length ids ∧ committedChecks a = last (take (length ids - n) ids).
Proof.
  intros Hsaid Hacc. pose proof (accounts_ids _ _ _ _ _ _ _ _ Hsaid Hacc) as Hh.
  destruct Hacc as [_ Ht Hc _ _ _ _]. cbv zeta. rewrite Hh, Ht, !length_fmap, length_app.
  split; [lia|]. replace (length past + length coming - length coming) with (length past) by lia.
  rewrite Hc, fmap_app. f_equal. symmetry. apply take_app_length'. by rewrite length_fmap.
Qed.

(** *** A turn of the session *)
Lemma turn_accounts fs txs n k k' a s t m past coming :
  said fs txs → accounts fs txs k a s m past coming → listener (txs := txs) (fs := fs) n k' t →
  k ≤ k' → progress (fs := fs) (txs := txs) k k' s t →
  ∃ coming', accounts fs txs k' a t m past coming'.
Proof.
  intros Hsaid [Hh Ht Hc Hf Hn Ha Hm] Hl Hk (more & Ho & Hw & Hcase).
  assert (omap committed_id (answers_ahead a t m) = coming.*1 ++ commits_said more) as Htr.
  { rewrite answers_output in Ht |- * by lia. rewrite Ho, drop_app_le, commits_said_app.
    - by rewrite (assoc_L (++)), Ht.
    - unfold output. rewrite length_app. lia. }
  destruct Hcase as [[Eh Em]|(tx & cp & Htx & -> & Hi & Eh & Hcp & Em)].
  - exists coming. rewrite Em, app_nil_r in Htr. split; try done.
    + by rewrite Eh.
    + eapply Forall_impl; [exact Hf|]. intros c (H1 & H2 & H3). split_and!; [done|lia|done].
    + intros i tx Htx Hi [Hlt|Hin]; apply Ha; try done; [left; lia|by right].
    + lia.
  - exists (coming ++ [(Z.of_nat k + 1, tx)%Z]). split.
    + rewrite (log_reconcile_handed _ _ _ Eh), (assoc_L (++)). by apply Forall2_app; [|constructor].
    + by rewrite fmap_app, Htr, Em.
    + done.
    + apply Forall_app. split.
      * eapply Forall_impl; [exact Hf|]. intros c (H1 & H2 & H3). split_and!; [done|lia|done].
      * apply Forall_singleton. split_and!; [done|cbn; lia|done].
    + rewrite fmap_app. apply NoDup_app. split_and!; [done| |apply NoDup_singleton].
      intros i (c & -> & Hin)%list_elem_of_fmap [E|Hno]%elem_of_cons; [|by apply elem_of_nil in Hno].
      rewrite Forall_forall in Hf. destruct (Hf c Hin) as (_ & Hle & _). cbn in E. lia.
    + intros i tx' Htx' Hi' [Hlt|Hin]; [apply Ha; [done..|left; lia]|].
      rewrite fmap_app in Hin. apply elem_of_app in Hin as [Hin|Hin]; [by apply Ha; [..|right]|].
      apply list_elem_of_singleton in Hin. apply Ha; [done..|left]. cbn in Hin. lia.
    + lia.
Qed.

(** *** The endpoint reads a document *)
Lemma delivered_accounts fs txs k a b s m past coming f :
  accounts fs txs k a s m past coming → received (ss_written s) !! m = Some f →
  endpoint_reads f a = Ret () b → accounts fs txs k b s (S m) past coming.
Proof.
  intros [Hh Ht Hc Hf Hn Ha Hm] Hlook Hb.
  unfold received in Hlook. rewrite list_lookup_fmap in Hlook.
  destruct (ss_written s !! m) as [j|] eqn:Ej; [|done]. injection Hlook as <-.
  assert (m < length (ss_written s)) as Hlt by (by eapply lookup_lt_Some).
  rewrite answers_output in Ht by done.
  assert (drop m (output s) = j :: drop (S m) (output s)) as Ed.
  { apply drop_S. unfold output. by rewrite lookup_app_l. }
  rewrite Ed in Ht. change (j :: ?l) with ([j] ++ l) in Ht. rewrite commits_said_app in Ht.
  assert (committedChecks b = committedChecks a ∧ pendingPrepares b = pendingPrepares a
    ∧ omap committed_id (a_responses b) = omap committed_id (a_responses a) ++ commits_said [j])
    as (E1 & E2 & E3).
  { revert Hb. unfold endpoint_reads, commits_said, received. cbn [fmap list_fmap].
    rewrite filter_cons, filter_nil.
    destruct (decide (is_response (Unmarshal c_frame j zero_frame).1)) as [Hr|Hr];
      [rewrite ?(decide_True _ _ Hr)|rewrite ?(decide_False _ _ Hr)]; intros E; injection E as <-.
    - cbn [a_responses put_a_responses]. by rewrite omap_app.
    - by rewrite app_nil_r. }
  split; try done; [| |unfold awaits; by rewrite E2].
  - rewrite answers_output by done. by rewrite E3, <- (assoc_L (++)).
  - by rewrite E1.
Qed.

(** *** A turn of the agent *)
Lemma listener_grows fs txs n k s new txs' :
  said fs txs → said (fs ++ new) (txs ++ txs') → listener (fs := fs) (txs := txs) n k s →
  Forall (λ w, 3 * Z.of_nat (length txs) + 2 < w)%Z (omap weight new) →
  listener (fs := fs ++ new) (txs := txs ++ txs') n k s.
Proof.
  intros Hsaid Hsaid' [H1 H2 H3 [H4 H4'] H5 H6] Hw. split; try done.
  - by rewrite !drop_app_le, (assoc_L (++)), H2.
  - rewrite length_app. lia.
  - intros src cp E. destruct (H5 src cp E) as (tx & id & cp0 & Htx & Hrest). exists tx, id, cp0.
    rewrite take_app_le by done. split; [|done]. apply elem_of_app. by left.
  - intros cp Hcp Hidle. rewrite drop_app_le, omap_app by done. apply Forall_app.
    split; [by apply H6|]. rewrite (active_part s H1) in Hcp.
    destruct (part_of s) as [[src cp']|] eqn:Ep; [|done]. injection Hcp as ->.
    destruct (H5 src cp eq_refl) as (tx & id & cp0 & Htx & _ & _ & Hv & _).
    pose proof (said_version_bounds Hsaid tx Htx).
    eapply Forall_impl; [exact Hw|]. intros w Hlt. cbn in Hlt. lia.
Qed.

(** A commit that was sent before the new frames is of a transaction that was
    announced before. *)
Lemma issued_before fs txs new txs' i tx :
  said fs txs → said (fs ++ new) (txs ++ txs') → tx ∈ txs ++ txs' →
  issued (fs ++ new) i (commit_frame tx i) → (i ≤ Z.of_nat (length fs))%Z →
  tx ∈ txs ∧ issued fs i (commit_frame tx i).
Proof.
  intros Hsaid Hsaid' Htx [H0 Hi] Hle. rewrite lookup_app_l in Hi by lia. split; [|done].
  pose proof (said_frames _ _ Hsaid _ _ Hi) as Hs.
  replace (Z.of_nat (Z.to_nat (i - 1)) + 1)%Z with i in Hs by lia.
  inversion Hs as [tx' ? E|tx' ? ? ? E|tx' ? E|tx' Hin E]; [done..|].
  assert (tx' = tx) as ->; [|done]. apply (commit_frame_inj Hsaid' tx' tx i i); [|done|].
  - apply elem_of_app. by left.
  - unfold commit_frame, agent_frame. congruence.
Qed.

(** The accounts after a turn of the agent that keeps the answers that are
    coming awaited. *)
Lemma accounts_grow fs txs n k a b s m past coming new txs' past' coming' :
  said fs txs → listener (fs := fs) (txs := txs) n k s → accounts fs txs k a s m past coming →
  speaks (H := fs) (txs := txs) new txs' b →
  past' ++ coming' = past ++ coming → coming' `suffix_of` coming →
  omap committed_id (answers_ahead b s m) = coming'.*1 →
  committedChecks b = last ((λ c, tx_ids c.2) <$> past') →
  (∀ i tx, tx ∈ txs → issued fs i (commit_frame tx i) → (Z.of_nat k < i)%Z ∨ i ∈ coming'.*1 →
    awaits a i tx → awaits b i tx) →
  speaker (fs ++ new) (txs ++ txs') b ∧ listener (fs := fs ++ new) (txs := txs ++ txs') n k s
    ∧ accounts (fs ++ new) (txs ++ txs') k b s m past' coming'.
Proof.
  intros Hsaid Hl [Hh Ht Hc Hf Hn Haw Hm] (Hsp & Hw & Hnew) Epc [pre Epre] Et Ec Haw'.
  pose proof (sp_said _ _ _ Hsp) as Hsaid'. split; [done|]. split; [by apply listener_grows|].
  rewrite Epre in Hf, Hn, Haw. apply Forall_app in Hf as [_ Hf].
  rewrite fmap_app in Hn. apply NoDup_app in Hn as (_ & _ & Hn). split; try done.
  - rewrite Epc. eapply Forall2_impl; [exact Hh|]. intros c cp [Hc' Hcp]. split; [|done].
    apply elem_of_app. by left.
  - eapply Forall_impl; [exact Hf|]. intros c (H1 & H2 & H3).
    split_and!; [apply elem_of_app; by left|done|by apply issued_app].
  - intros i tx Htx Hi Hcase. destruct (decide (Z.of_nat (length fs) < i)%Z); [by apply Hnew|].
    destruct (issued_before fs txs new txs' i tx Hsaid Hsaid' Htx Hi) as [Htx' Hi']; [lia|].
    apply Haw'; try done. apply Haw; try done.
    destruct Hcase as [?|Hin]; [by left|right]. rewrite fmap_app. apply elem_of_app. by right.
Qed.

Lemma agent_turn_accounts fs txs n k e a b s m past coming :
  speaker fs txs a → listener (fs := fs) (txs := txs) n k s → accounts fs txs k a s m past coming →
  is_delivery e = false → ids_ample a → agent_turn e a = Ret () b →
  ∃ fs' txs' past' coming', speaker fs' txs' b ∧ listener (fs := fs') (txs := txs') n k s
    ∧ accounts fs' txs' k b s m past' coming'.
Proof.
  intros Ha Hl Hacc Hnd Hids E. pose proof (sp_said _ _ _ Ha) as Hsaid.
  pose proof Hacc as [_ Ht Hc Hf Hn Haw _]. destruct (is_handling e) eqn:Eh.
  2:{ destruct (quiet_turn e a b Ha Hnd Eh Hids E) as (new & txs' & Hsp & E1 & E2 & Hp).
      exists (fs ++ new), (txs ++ txs'), past, coming. eapply (accounts_grow fs txs); try done.
      - by unfold answers_ahead; rewrite E2.
      - by rewrite E1.
      - intros i tx _ _ _ (p & Hi & Hrest). exists p. by split; [apply Hp|]. }
  destruct e; try done. cbn in E.
  destruct (a_responses a) as [|f q] eqn:Eq; [unfold take_response in E; rewrite bind_app in E;
    cbn [gets] in E; by rewrite Eq in E|].
  destruct (response_turn a b f q Ha Hids Eq E) as (new & Hsp & Er & Hcase). unfold settles in Hcase.
  assert (omap committed_id (answers_ahead a s m) =
    option_list (committed_id f) ++ omap committed_id (answers_ahead b s m)) as Eo.
  { unfold answers_ahead. rewrite Eq, Er. cbn [app omap list_omap]. by destruct (committed_id f). }
  rewrite Eo in Ht. destruct (committed_id f) as [i|] eqn:Ei; cbn [option_list app] in Ht.
  - destruct coming as [|[i' tx] coming]; [done|]. cbn in Ht. injection Ht as <- Ht.
    apply Forall_cons in Hf as [(Htx & Hle & Hi) Hf]. cbn [fst snd] in *.
    cbn in Hn. apply NoDup_cons in Hn as [Hni Hn].
    destruct (Hcase tx Htx) as (Hcb & -> & Hpb).
    { apply Haw; [done..|right]. cbn. apply list_elem_of_here. }
    exists (fs ++ []), (txs ++ []), (past ++ [(i, tx)]), coming.
    eapply (accounts_grow fs txs); try done.
    + by rewrite <- (assoc_L (++)).
    + by exists [(i, tx)].
    + rewrite Hcb, fmap_app. cbn [fmap list_fmap snd]. by rewrite last_snoc.
    + intros i' tx' _ _ Hor (p & Hp & Hrest). exists p. split; [|done].
      rewrite Hpb, lookup_delete_ne; [done|]. intros <-. destruct Hor as [?|Hin]; [lia|done].
  - destruct Hcase as [Hcb Hawb]. exists (fs ++ new), (txs ++ []), past, coming.
    eapply (accounts_grow fs txs); try done; [by rewrite Hcb|]. intros. by apply Hawb.
Qed.

(** ** The invariant of the network *)
Definition net_inv net : Prop :=
  ∃ fs txs k past coming, speaker fs txs (net_agent net)
    ∧ listener (fs := fs) (txs := txs) (net_read net) k (net_session net)
    ∧ accounts fs txs k (net_agent net) (net_session net) (net_taken net) past coming.

Lemma said_nothing : said [] [].
Proof.
  split; try done; [cbn; constructor|..]; by intros tx ? ?%elem_of_nil || intros tx ?%elem_of_nil.
Qed.

Lemma new_session_io guid cfg (r : logged R) ctx sc s :
  NewSession guid cfg r ctx sc = Ret () s →
  ∃ msg, io s = (zero_prep, r, [msg], [], []) ∧ commits_said (Encode <$> [msg]) = [].
Proof.
  unfold NewSession, Auth. rewrite bind_app. cbn [gets]. rewrite bind_app.
  match goal with |- match ?c with _ => _ end = _ → _ => destruct c as [[] u|] eqn:E end; [|done].
  intros Es. assert (io s = io u) as ->.
  { revert Es. unfold when. case_bool_decide; by intros [= <-]. }
  injection E as <-. eexists. split; [reflexivity|].
  apply request_said; [done|]. by split; [apply to_u64_range|].
Qed.

Lemma initial_inv net : net_initial net → net_inv net.
Proof.
  intros (parent & source & params & size & cs & errs & cs' & guid & cfg & r & ctx & sc & Ha & Hn & Hs & Hr & Ht).
  unfold newAgent in Ha. destruct (hp_ZoneIds params); [done|].
  rewrite bind_app in Ha. cbn [WithCancel] in Ha. rewrite bind_app in Ha. injection Ha as Ha _ _.
  destruct (new_session_io _ _ _ _ _ _ Hs) as (msg & Hio & Hmsg).
  unfold io in Hio. injection Hio as E1 E2 E3 E4 E5.
  exists [], [], 0, [], []. rewrite Hr, Ht. cbn in E2. split; [|split].
  - rewrite <- Ha. split; try done. exact said_nothing.
  - split; rewrite ?E1, ?E5; try done.
    + unfold session_inv. rewrite E1. by split.
    + unfold part_of. rewrite E1. by intros ??.
  - split; try done.
    + rewrite E2. constructor.
    + rewrite answers_output by lia. rewrite <- Ha. unfold output. rewrite E3, E4. exact Hmsg.
    + by rewrite <- Ha.
    + constructor.
    + intros i tx Htx. by apply elem_of_nil in Htx.
    + cbn. lia.
Qed.

Lemma exchange_inv net net' : exchange_step net net' → net_inv net → net_inv net'.
Proof.
  intros Hstep (fs & txs & k & past & coming & Ha & Hl & Hacc). pose proof (sp_said _ _ _ Ha) as Hsaid.
  destruct Hstep as [e a b s n m Hnd Hids E|f a s t n m Hf E|a s t n m Hturn|f a b s n m Hf E];
    cbn [net_agent net_session net_read net_taken] in *.
  - destruct (agent_turn_accounts _ _ _ _ _ _ _ _ _ _ _ Ha Hl Hacc Hnd Hids E)
      as (fs' & txs' & past' & coming' & ? & ? & ?). by exists fs', txs', k, past', coming'.
  - rewrite (sp_responder _ _ _ Ha), received_frames in Hf.
    2:{ apply Forall_forall. intros g Hg. by apply (said_common_ok Hsaid). }
    injection E as <-. exists fs, txs, k, past, coming. split; [done|]. split.
    + destruct Hl as [H1 H2 H3 [H4 H4'] H5 H6]. rewrite (drop_S _ _ _ Hf) in H2.
      assert (exchanged f) as Hex by exact (sent_two_phase _ _ _ (said_frames _ _ Hsaid _ _ Hf)).
      split; try done; cbn [net_session net_read ss_readCh put_ss_readCh].
      * rewrite filter_app, filter_cons_True, filter_nil, <- (assoc_L (++)) by done. exact H2.
      * apply Forall_app. split; [done|]. apply Forall_singleton. by left.
      * apply lookup_lt_Some in Hf. lia.
    + destruct Hacc. by split.
  - destruct (poller_turn_listens _ _ _ _ Hsaid Hl Hturn) as (k' & Hk & Hl' & Hp).
    destruct (turn_accounts _ _ _ _ _ _ _ _ _ _ _ Hsaid Hacc Hl' Hk Hp) as (coming' & Hacc').
    by exists fs, txs, k', past, coming'.
  - exists fs, txs, k, past, coming. split; [|split; [done|by eapply delivered_accounts]].
    revert E. unfold endpoint_reads. destruct (decide _); intros E; injection E as <-; [|done].
    apply (speaker_same _ _ Ha); try done; apply Ha.
Qed.

Lemma step_inv_net net net' : net_step net net' → net_inv net → net_inv net'.
Proof.
  intros [net1 net2 Hs|r a s n m]; [by apply exchange_inv|].
  intros (fs & txs & k & past & coming & Ha & Hl & Hacc). exists fs, txs, k, past, coming.
  split; [done|]. split; [by eapply listener_same|]. by destruct Hacc.
Qed.

Lemma reachable_net_inv net : net_reachable net → net_inv net.
Proof.
  intros (net0 & H0%initial_inv & Hr). induction Hr as [|n1 n2 n3 Hs _ IH]; [done|].
  by apply IH, (step_inv_net n1).
Qed.

(** ** What a scheduler makes of a preparation that was handed over *)

Lemma complete_entry tx cp id ac :
  tx_ok tx → all_fresh tx → complete tx cp → cp_Actions cp !! id = Some ac →
  ac_Id ac = id ∧ to_initiate ac ∧ initiation_of (ac_CheckIn ac) = Initiated.
Proof.
  intros Hok [Hnew Hinit] (cp0 & Hcp0 & ->) Hac. rewrite (tx_entries tx) in Hac by done.
  destruct (declared (tx_manifest tx) id) as [m|] eqn:Hm; [|unfold tx_entry in Hac; by rewrite Hm in Hac].
  destruct (entry_to_initiate tx id m ac Hok Hm Hac) as (Hact & _ & _ & Hid).
  assert (to_initiate ac) as Hti.
  { apply Hact. rewrite Forall_forall in Hnew. apply Hnew. by apply declared_in in Hm as [? _]. }
  split_and!; [done..|]. by apply (entry_initiated tx id ac Hok Hinit Hac).
Qed.

(** A preparation with all that a transaction of an endpoint says. *)
Definition whole (cp : ChecksPreparation) : Prop :=
  ∃ tx, tx_ok tx ∧ all_fresh tx ∧ complete tx cp.

Lemma handed_whole net :
  net_reachable net → Forall whole (handed (ss_reconciler (net_session net))).
Proof.
  intros (fs & txs & k & past & coming & Ha & _ & Hacc)%reachable_net_inv.
  pose proof (sp_said _ _ _ Ha) as Hsaid. apply Forall_lookup_2. intros i cp Hi.
  destruct (Forall2_lookup_r _ _ _ _ _ (acc_handed _ _ _ _ _ _ _ _ Hacc) Hi) as ([i' tx] & _ & Htx & Hcp).
  exists tx. split_and!; [by apply (said_tx_ok Hsaid)| |done].
  pose proof (said_fresh _ _ Hsaid) as Hf. rewrite Forall_forall in Hf. by apply Hf.
Qed.

(** The next preparation of a scheduler, when all its checks can be initiated:
    the table becomes the preparation, and its enabled checks run. *)
Lemma take_fresh_runs cp q sched :
  sched_reachable sched → s_preparations sched = cp :: q →
  map_Forall (λ id ac, ac_Id ac = id ∧ to_initiate ac ∧ initiation_of (ac_CheckIn ac) = Initiated)
    (cp_Actions cp) →
  runs take_preparation sched (λ _ u,
    (∀ id ac, cp_Actions cp !! id = Some ac →
       ∃ ch, s_checks u !! id = Some ch ∧ GetCheckIn ch = ac_CheckIn ac)
    ∧ dom (s_checks u) = prepared_ids cp
    ∧ (∀ ch, running u ch ↔
         closed sched = false ∧ IsDisabled ch = false ∧ s_checks u !! GetID ch = Some ch)
    ∧ closed u = closed sched).
Proof.
  intros Hreach Hq Hcp. apply reachable_inv in Hreach as Hinv.
  unfold take_preparation. apply runs_bind. unfold runs at 1. cbn [gets]. rewrite Hq.
  apply runs_bind. unfold runs at 1. cbn [modify]. eapply runs_mono; [apply reconcile_runs|].
  - by apply (sched_inv_ext sched).
  - intros id ac Hac. by destruct (Hcp id ac Hac).
  - intros id ac Hac _. apply initiated_details. by destruct (Hcp id ac Hac) as (_ & _ & ?).
  - intros _ u (Hu & Hcl & Hdone & Hgone).
    assert (∀ id ac, cp_Actions cp !! id = Some ac → ∃ ch, s_checks u !! id = Some ch
      ∧ GetCheckIn ch = ac_CheckIn ac ∧ done_in u ch = closed sched) as Hent.
    { intros id ac Hac. destruct (Hcp id ac Hac) as (Hid & Hti & Hi). specialize (Hdone id ac Hac).
      unfold entry_done in Hdone. rewrite decide_True, Hi, Hid in Hdone by done. apply Hdone. }
    assert (dom (s_checks u) = prepared_ids cp) as Hdom.
    { apply set_eq. intros id. unfold prepared_ids. rewrite !elem_of_dom.
      destruct (cp_Actions cp !! id) as [ac|] eqn:Hac.
      - by destruct (Hent id ac Hac) as (ch & -> & _).
      - by destruct (Hgone id Hac) as [-> _]. }
    split_and!; [|done| |done].
    + intros id ac Hac. destruct (Hent id ac Hac) as (ch & ? & ? & _). by exists ch.
    + assert (∀ id ch, s_checks u !! id = Some ch → done_in u ch = closed sched) as Hall.
      { intros id ch Hch. assert (id ∈ dom (cp_Actions cp)) as [ac Hac]%elem_of_dom.
        { unfold prepared_ids in Hdom. rewrite <- Hdom. by eapply elem_of_dom_2. }
        destruct (Hent id ac Hac) as (ch' & Hch' & _ & Hd). congruence. }
      intros ch. split.
      * intros [Hst Hnd]. pose proof (inv_started u Hu ch Hst Hnd) as Hch.
        split_and!; [|by apply (inv_enabled u Hu)|done]. by rewrite <- (Hall _ _ Hch).
      * intros (Hop & Hen & Hch). split; [by apply (inv_running u Hu (GetID ch))|].
        by rewrite (Hall _ _ Hch).
Qed.

(** A scheduler that comes to a whole preparation, in whatever state it has been
    brought to, reconciles without a crash; its table is then the checks of the
    preparation with the definitions of the endpoint, and the loops that run
    are those of its enabled checks, unless the scheduler was closed. *)
Lemma whole_runs cp q sched :
  whole cp → sched_reachable sched → s_preparations sched = cp :: q →
  runs take_preparation sched (λ _ u,
    (∀ id ac, cp_Actions cp !! id = Some ac →
       ∃ ch, s_checks u !! id = Some ch ∧ GetCheckIn ch = ac_CheckIn ac)
    ∧ dom (s_checks u) = prepared_ids cp
    ∧ (∀ ch, running u ch ↔
         closed sched = false ∧ IsDisabled ch = false ∧ s_checks u !! GetID ch = Some ch)
    ∧ closed u = closed sched).
Proof.
  intros (tx & Hok & Hf & Hc) Hs Hq. apply (take_fresh_runs cp q); [done..|].
  intros id ac. by apply (complete_entry tx).
Qed.

(** A step of the exchange leaves the reconciler alone, or hands over. *)
Lemma exchange_hands net net' :
  net_reachable net → exchange_step net net' →
  let r := ss_reconciler (net_session net) in let r' := ss_reconciler (net_session net') in
  r' = r ∨ ∃ cp, ReconcileChecks cp r = Ret () r'.
Proof.
  intros (fs & txs & k & past & coming & Ha & Hl & _)%reachable_net_inv Hstep.
  destruct Hstep as [e a b s n m _ _ _|f a s t n m _ E|a s t n m Hturn|f a b s n m _ _];
    cbn in *; [by left| | |by left].
  - injection E as <-. by left.
  - destruct (poller_turn_listens _ _ _ _ (sp_said _ _ _ Ha) Hl Hturn)
      as (k' & _ & _ & more & _ & _ & [[E _]|(tx & cp & _ & _ & _ & E & _)]); [by left|right].
    by exists cp.
Qed.

(** ** Properties *)

(** C4: agreement in every interleaving.  However the turns of an agent, of a
    session and of the connection between them are interleaved - bundles
    announced while others are under way, timers that expire, other requests
    and responses on the connection - the checks that the endpoint holds as
    committed are those of the last preparation handed over to the poller's
    schedulers whose answer has reached it: the preparations handed over and
    not yet recorded are exactly those whose answers are on their way. *)
Theorem network_agrees net :
  net_reachable net →
  in_transit net ≤ length (handed_ids net)
  ∧ committedChecks (net_agent net) =
      last (take (length (handed_ids net) - in_transit net) (handed_ids net)).
Proof.
  intros (fs & txs & k & past & coming & Ha & _ & Hacc)%reachable_net_inv.
  exact (accounts_agree _ _ _ _ _ _ _ _ (sp_said _ _ _ Ha) Hacc).
Qed.

(** What the session does with a frame of the agent. *)
Lemma sent_frame_returns fs txs n k s f q :
  said fs txs → listener (fs := fs) (txs := txs) n k s → ss_readCh s = f :: q → exchanged f →
  has_room (ss_reconciler s) = true → returns (handle_read_frame s) = true.
Proof.
  intros Hsaid Hl Er Hf Hroom. destruct (listener_next n k s f q Hl Er Hf) as [Hk _].
  pose proof (said_frames _ _ Hsaid k f Hk) as Hsent. pose proof (li_inv _ _ _ Hl) as Hi.
  unfold handle_read_frame. rewrite bind_app. cbn [gets]. rewrite Er, bind_app. cbn [modify].
  set (s1 := put_ss_readCh q s). assert (session_inv s1) as Hi1 by exact Hi.
  assert (returns (handleFrame f s1) = true → returns ((err ← handleFrame f;
    match err with Some e => EmitEvent (EventReadError f e) | None => mret () end) s1) = true) as Hgo.
  { rewrite bind_app. destruct (handleFrame f s1) as [[e|] u|]; done. }
  apply Hgo. clear Hgo.
  assert (∀ c : go (EleSession (logged R)) unit, returns (c s1) = true →
    returns ((c;; mret (M := go _) (@None error)) s1) = true) as Hc.
  { intros c. rewrite bind_app. by destruct (c s1). }
  assert (∀ cp w, weight f = Some w → activePrep (ss_prep s1) = Some cp →
    timer_idle (ss_prep s1) → (3 * cp_Version cp + 2 < w)%Z) as Hlate.
  { intros cp w Hw Hcp Hidle. pose proof (li_timer _ _ _ Hl cp Hcp Hidle) as Hall.
    rewrite (drop_S _ _ _ Hk) in Hall. cbn [omap list_omap] in Hall. rewrite Hw in Hall.
    by apply Forall_cons in Hall as [? _]. }
  destruct Hsent as [tx Htx|tx b Htx Hb|tx Htx|tx Htx]; pose proof (said_tx_ok Hsaid tx Htx) as Hok.
  - rewrite handle_prepare_frame. apply Hc. by destruct (prepare_reacts (prepare_frame tx
      (Z.of_nat k + 1)) s1 Hi1) as (t & -> & _).
  - rewrite handle_block_frame. apply Hc. destruct (block_reacts (block_frame tx (Z.of_nat k + 1) b) s1 Hi1)
      as [_ Hr]. destruct Hr as (t & -> & _); [|done].
    pose proof (tx_block_ok tx Hok b Hb) as Hbok.
    unfold block_faults. rewrite (block_decoded tx Hok _ _ Hbok). cbn [ppb_Version ppb_Block].
    destruct (activePrep (ss_prep s1)) as [cp|] eqn:Ea; [|by intros []]. intros [Hv [Hn|Hidle]].
    + apply list_elem_of_fmap in Hn as (? & ? & _). done.
    + apply bool_decide_eq_true in Hv.
      specialize (Hlate cp _ (weight_block tx Hok _ b Hb) eq_refl Hidle). lia.
  - rewrite handle_end_frame. apply Hc. destruct (end_reacts (end_frame tx (Z.of_nat k + 1)) s1 Hi1)
      as [_ Hr]. destruct Hr as (t & -> & _); [|done].
    unfold end_faults. rewrite (end_decoded tx Hok). cbn [ppe_Version ppe_Directive].
    destruct (activePrep (ss_prep s1)) as [cp|] eqn:Ea; [|naive_solver]. intros (_ & [Hv _]%validate_none_iff & Ht).
    specialize (Hlate cp _ (weight_end tx Hok _) eq_refl (or_introl Ht)). lia.
  - rewrite handle_commit_frame. apply Hc. by apply (commit_reacts _ s1 Hi1).
Qed.

(** C8: an endpoint does not make the poller fault.  In every interleaving of an
    agent and a session, as long as the schedulers have room, the session
    returns from each frame of the exchange that it takes and from each expiry
    of the timer: the nil dereferences and the wait for ever of which its
    handlers are capable are not reached by what an agent sends. *)
Theorem exchange_never_faults net :
  net_reachable net → has_room (ss_reconciler (net_session net)) = true →
  (∀ f q, ss_readCh (net_session net) = f :: q → two_phase_method (f_Method (Common f)) →
     returns (handle_read_frame (net_session net)) = true)
  ∧ (ChannelOfTimer (prepareToEndTimer (ss_prep (net_session net))) = true →
     returns (prepare_to_end_expired (net_session net)) = true).
Proof.
  intros (fs & txs & k & past & coming & Ha & Hl & _)%reachable_net_inv Hroom. split.
  - intros f q Er Hf. by apply (sent_frame_returns _ _ _ _ _ _ _ (sp_said _ _ _ Ha) Hl Er Hf).
  - intros Ht. by destruct (expiry_reacts _ (li_inv _ _ _ Hl) Ht) as (t & -> & _).
Qed.
End safety.
