(* ===== verification/System.v ===== *)
(** An agent of the endpoint, a session of the poller, and the stream with its
    schedulers behind it: what the endpoint records against what the schedulers
    run, in any interleaving.

    The reconciler of Network is here the connection stream.  Each scheduler
    takes its preparations when it comes to them; the rest of what the stream
    does leaves them alone as long as a connection is registered (the loss of
    the last one resets them: Stream.deregister_spec).  A preparation is handed
    to all schedulers in one step, once they all have room. *)
From S2P Require Export NetworkSafety.

(** A reconciliation leaves the queue and the resets alone. *)
Lemma reconcile_keeps_queue `{MapRange} cp q n :
  keeps (λ s, s_preparations s = q ∧ s_resets s = n) (reconcile cp).
Proof.
  unfold reconcile. keeps_auto.
  - apply keeps_for_fold. intros r ac _.
    unfold reconcile_one, initiate_and_report, initiateCheck, CancelCheck, gauge, on_contexts, Schedule.
    keeps_auto.
  - apply keeps_for_each. intros id _. unfold remove_check, CancelCheck, on_contexts, gauge. keeps_auto.
Qed.

Lemma take_preparation_queue `{MapRange} s t :
  take_preparation s = Ret () t → (∃ cp, s_preparations s = cp :: s_preparations t) ∧ s_resets t = s_resets s.
Proof.
  unfold take_preparation. rewrite bind_app. cbn [gets].
  destruct (s_preparations s) as [|cp q]; [done|]. rewrite bind_app. cbn [modify]. intros E.
  pose proof (reconcile_keeps_queue cp q (s_resets s) (set_preparations s q) (conj eq_refl eq_refl)) as Hk.
  rewrite E in Hk. destruct Hk as [Hq Hn]. split; [|done]. exists cp. cbn in Hq. by rewrite Hq.
Qed.

(** ** The system *)
Section system.
Context {C : Type} `{!Connection C} `{MapRange}.
Abbreviation stream := (EleConnectionStream C).
Implicit Types net : network stream.

Definition net_stream net : stream := inner (ss_reconciler (net_session net)).
Definition net_log net : list ChecksPreparation := handed (ss_reconciler (net_session net)).
Definition with_stream (cs : stream) net : network stream :=
  Network (net_agent net)
    (put_ss_reconciler (put_inner cs (ss_reconciler (net_session net))) (net_session net))
    (net_read net) (net_taken net).

Definition with_sched (zone : string) (sched : EleScheduler) net : network stream :=
  with_stream (put_schedulers (<[zone := sched]> (cs_schedulers (net_stream net))) (net_stream net)) net.

Inductive sys_step : network stream → network stream → Prop :=
| sys_exchange net net' : exchange_step net net' → sys_step net net'
| sys_schedule zone sched sched' net :
    cs_schedulers (net_stream net) !! zone = Some sched → take_preparation sched = Ret () sched' →
    sys_step net (with_sched zone sched' net)
| sys_stream cs net :
    cs_schedulers cs = cs_schedulers (net_stream net) → sys_step net (with_stream cs net).

(** A new agent and a new session, before schedulers that are at rest. *)
Definition resting (sched : EleScheduler) : Prop :=
  sched_reachable sched ∧ closed sched = false
  ∧ s_preparations sched = [] ∧ s_resets sched = 0 ∧ s_checks sched = ∅.

Definition sys_initial net : Prop :=
  net_initial net ∧ map_Forall (λ _, resting) (cs_schedulers (net_stream net)).

Definition sys_reachable net : Prop := ∃ net0, sys_initial net0 ∧ rtc sys_step net0 net.

(** ** The invariant

    A scheduler has reconciled the preparations handed over that are not in its
    queue, and runs the last of them. *)
Definition runs_last (o : option ChecksPreparation) (sched : EleScheduler) : Prop :=
  dom (s_checks sched) = from_option prepared_ids ∅ o
  ∧ (∀ cp id ac, o = Some cp → cp_Actions cp !! id = Some ac →
       ∃ ch, s_checks sched !! id = Some ch ∧ GetCheckIn ch = ac_CheckIn ac)
  ∧ ∀ ch, running sched ch ↔ IsDisabled ch = false ∧ s_checks sched !! GetID ch = Some ch.

Definition follows_log (log : list ChecksPreparation) (sched : EleScheduler) : Prop :=
  sched_reachable sched ∧ closed sched = false
  ∧ ∃ reconciled, log = reconciled ++ s_preparations sched ∧ runs_last (last reconciled) sched.

Definition sys_inv net : Prop :=
  net_reachable net
  ∧ map_Forall (λ _, follows_log (net_log net))
      (cs_schedulers (net_stream net)).

Lemma new_stream_resting config :
  map_Forall (λ _, resting) (cs_schedulers (NewConnectionStream (C := C) config)).
Proof.
  cbn. assert (∀ l (m : gmap string EleScheduler), map_Forall (λ _, resting) m →
    map_Forall (λ _, resting) (foldl (λ m pz, <[pz := NewScheduler pz]> m) m l)) as Hl.
  { induction l as [|z l IH]; intros m Hm; [done|]. cbn. apply IH, map_Forall_insert_2; [|done].
    split; [by exists z|done]. }
  apply Hl. by intros ? ?.
Qed.

Lemma empty_runs_nothing sched : sched_reachable sched → s_checks sched = ∅ → runs_last None sched.
Proof.
  intros Hs E. split_and!; [by rewrite E|done|]. intros ch. rewrite E, lookup_empty.
  split; [|by intros [_ ?]]. intros [Hst Hd].
  apply (inv_started _ (reachable_inv _ Hs)) in Hst; [|done]. by rewrite E in Hst.
Qed.

Lemma resting_follows sched : resting sched → follows_log [] sched.
Proof.
  intros (Hs & Hcl & Hq & _ & E). split; [done|]. split; [done|]. exists [].
  split; [by rewrite Hq|by apply empty_runs_nothing].
Qed.

Lemma follows_handed log cp sched :
  scheduler_room sched = true → follows_log log sched →
  follows_log (log ++ [cp]) (with_preparation cp sched).
Proof.
  intros Hr ([zone Hs] & Hcl & done & -> & Hd). split; [|split; [done|]].
  - exists zone. eapply rtc_r; [exact Hs|]. by apply (step_ReconcileChecks cp), scheduler_reconcile_app.
  - exists done. split; [by rewrite <- (assoc_L (++))|exact Hd].
Qed.

(** A scheduler that has taken a whole preparation runs it. *)
Lemma take_whole cp sched sched' :
  sched_reachable sched → closed sched = false → take_preparation sched = Ret () sched' →
  s_preparations sched = cp :: s_preparations sched' → whole cp →
  sched_reachable sched' ∧ closed sched' = false ∧ runs_last (Some cp) sched'.
Proof.
  intros Hs Hcl E Hq Hcp. pose proof (whole_runs cp _ sched Hcp Hs Hq) as Hrun. unfold runs in Hrun.
  rewrite E, Hcl in Hrun. destruct Hrun as (Hdef & Hdom & Hrn & Hcl'). split; [|split; [done|]].
  - destruct Hs as [zone Hs]. exists zone. eapply rtc_r; [exact Hs|]. by apply step_reconcile.
  - split_and!; [done| |].
    + intros cp' id ac [= <-]. apply Hdef.
    + intros ch. rewrite Hrn. tauto.
Qed.

Lemma take_whole_returns sched :
  Forall whole (s_preparations sched) → sched_reachable sched → s_preparations sched ≠ [] →
  returns (take_preparation sched) = true.
Proof.
  intros Hw Hs Hq. destruct (s_preparations sched) as [|cp q] eqn:Eq; [done|].
  apply Forall_cons in Hw as [Hcp _]. pose proof (whole_runs cp q sched Hcp Hs Eq) as Hr.
  unfold runs in Hr. by destruct (take_preparation sched).
Qed.

Lemma log_whole net : net_reachable net → Forall whole (net_log net).
Proof. apply handed_whole. Qed.

(** The definitions in the blocks of a version, among the documents that the
    endpoint has written. *)
Definition written net (version : Z) : list CheckIn :=
  concat (heard version (received (a_responder (net_agent net)))).

(** Each preparation handed over has the definitions written for its version. *)
Definition as_written net (cp : ChecksPreparation) : Prop :=
  ∀ id ac, cp_Actions cp !! id = Some ac → defined (written net (cp_Version cp)) id = Some (ac_CheckIn ac).

Lemma log_as_written net : net_reachable net → Forall (as_written net) (net_log net).
Proof.
  intros (fs & txs & k & past & coming & Ha & _ & Hacc)%reachable_net_inv.
  pose proof (sp_said _ _ _ Ha) as Hsaid. apply Forall_lookup_2. intros i cp Hi id ac Hac.
  destruct (Forall2_lookup_r _ _ _ _ _ (acc_handed _ _ _ _ _ _ _ _ Hacc) Hi) as ([j tx] & _ & Htx & Hcp).
  cbn [snd] in Htx, Hcp. pose proof (said_tx_ok Hsaid tx Htx) as Hok.
  assert (all_fresh tx) as Hfresh by (pose proof (said_fresh _ _ Hsaid) as Hf; rewrite Forall_forall in Hf; by apply Hf).
  destruct (complete_entry tx cp id ac Hok Hfresh Hcp Hac) as (_ & Hti & _).
  destruct Hcp as (cp0 & Hnew & ->). rewrite (tx_entries tx) in Hac by done.
  destruct (entry_initiated tx id ac Hok (proj2 Hfresh) Hac Hti) as [_ <-].
  apply new_preparation_ids in Hnew as [Hv _].
  unfold written. rewrite (proj2 (add_definitions_header _ _)), Hv, (sp_responder _ _ _ Ha), received_frames.
  - by rewrite (said_blocks _ _ Hsaid tx Htx).
  - apply Forall_forall. intros g Hg. by apply (said_common_ok Hsaid).
Qed.

Lemma table_as_written net reconciled sched :
  Forall (as_written net) reconciled → runs_last (last reconciled) sched →
  ∀ id ch, s_checks sched !! id = Some ch →
    ∃ cp, last reconciled = Some cp ∧ defined (written net (cp_Version cp)) id = Some (GetCheckIn ch).
Proof.
  intros Hw (Hdom & Hdef & _) id ch Hch.
  assert (id ∈ dom (s_checks sched)) as Hid by (by apply elem_of_dom_2 in Hch). rewrite Hdom in Hid.
  destruct (last reconciled) as [cp|] eqn:El; [|done]. cbn in Hid.
  unfold prepared_ids in Hid. apply elem_of_dom in Hid as [ac Hac]. exists cp. split; [done|].
  apply last_Some in El as [front ->]. apply Forall_app in Hw as [_ [Hw _]%Forall_cons].
  destruct (Hdef cp id ac eq_refl Hac) as (ch' & Hch' & Ec). rewrite Hch in Hch'. injection Hch' as <-.
  rewrite Ec. by apply Hw.
Qed.

(** What the endpoint holds as committed, in terms of the log. *)
Lemma recorded_of_log net :
  net_reachable net →
  committedChecks (net_agent net) =
    prepared_ids <$> last (take (length (net_log net) - in_transit net) (net_log net)).
Proof.
  intros (fs & txs & k & past & coming & Ha & _ & Hacc)%reachable_net_inv.
  destruct (accounts_agree _ _ _ _ _ _ _ _ (sp_said _ _ _ Ha) Hacc) as [_ ->].
  unfold in_transit. by rewrite length_fmap, <- fmap_take, fmap_last.
Qed.

Lemma follows_take net sched sched' :
  net_reachable net → follows_log (net_log net) sched →
  take_preparation sched = Ret () sched' →
  follows_log (net_log net) sched'.
Proof.
  intros Hnet%log_whole (Hs & Hcl & done & Hlog & _) E.
  destruct (take_preparation_queue _ _ E) as [[cp Hq] _].
  destruct (take_whole cp sched sched' Hs Hcl E Hq) as (Hs' & Hcl' & Hruns).
  { rewrite Forall_forall in Hnet. apply Hnet. rewrite Hlog, Hq. set_solver. }
  split; [done|]. split; [done|]. exists (done ++ [cp]).
  by rewrite Hlog, Hq, <- (assoc_L (++)), last_snoc.
Qed.

Lemma with_stream_reachable cs net : net_reachable net → net_reachable (with_stream cs net).
Proof.
  intros (net0 & H0 & Hr). exists net0. split; [done|]. eapply rtc_r; [exact Hr|].
  destruct net. apply net_reconciler.
Qed.

(** A step of the exchange leaves the schedulers alone, or hands the same
    preparation over to each. *)
Lemma exchange_stream net net' :
  net_reachable net → exchange_step net net' →
  net_reachable net'
  ∧ (net_log net' = net_log net ∧ net_stream net' = net_stream net
     ∨ ∃ cp, net_log net' = net_log net ++ [cp]
         ∧ map_Forall (λ _ s, scheduler_room s = true) (cs_schedulers (net_stream net))
         ∧ cs_schedulers (net_stream net') = with_preparation cp <$> cs_schedulers (net_stream net)).
Proof.
  intros Hnet Hs. split.
  { destruct Hnet as (net0 & H0 & Hr). exists net0. split; [done|].
    eapply rtc_r; [exact Hr|]. by apply net_exchange. }
  unfold net_log, net_stream. destruct (exchange_hands net net' Hnet Hs) as [->|[cp E]]; [by left|right].
  exists cp. rewrite (log_reconcile_handed _ _ _ E). split; [done|].
  revert E. cbn. unfold log_reconcile, zoom. rewrite bind_app.
  destruct (ReconcileChecks cp (inner _)) as [[] cs|] eqn:Ec; [|done]. intros [= <-]. cbn [inner].
  cbn in Ec. by apply stream_reconcile_inv in Ec as [Hr ->].
Qed.

Lemma sys_step_inv net net' : sys_step net net' → sys_inv net → sys_inv net'.
Proof.
  intros [net1 net2 Hs|zone sched sched' net1 Hz E|cs net1 E] [Hnet Hall].
  - destruct (exchange_stream net1 net2 Hnet Hs) as [Hnet' Hcase]. split; [done|].
    destruct Hcase as [[-> ->]|(cp & -> & Hr & ->)]; [done|]. intros z s Hz. rewrite lookup_fmap in Hz.
    destruct (cs_schedulers _ !! z) as [s0|] eqn:E0; [|done]. injection Hz as <-.
    apply follows_handed; [by apply (Hr z)|by apply (Hall z)].
  - split; [by apply with_stream_reachable|]. apply map_Forall_insert_2; [|exact Hall].
    apply (follows_take net1 sched); [done|by apply (Hall zone)|done].
  - split; [by apply with_stream_reachable|]. unfold net_stream at 1. cbn. by rewrite E.
Qed.

Lemma initial_log net : net_initial net → net_log net = [].
Proof.
  intros (parent & source & params & size & c & errs & c' & guid & cfg & r & ctx & sc & _ & _ & Hs & _).
  destruct (new_session_io _ _ _ _ _ _ Hs) as (msg & Hio & _). unfold net_log. unfold io in Hio. by injection Hio as _ ->.
Qed.

Lemma initial_sys_inv net : sys_initial net → sys_inv net.
Proof.
  intros [H0 Hrest]. split; [by exists net; split; [|apply rtc_refl]|].
  rewrite (initial_log net H0). eapply map_Forall_impl; [exact Hrest|]. intros z s. apply resting_follows.
Qed.

Lemma sys_reachable_inv net : sys_reachable net → sys_inv net.
Proof.
  intros (net0 & H0%initial_sys_inv & Hr). induction Hr as [|n1 n2 n3 Hs _ IH]; [done|].
  by apply IH, (sys_step_inv n1).
Qed.

(** ** Properties *)

(** C5: the endpoint records what the schedulers run.  In every interleaving of
    a new agent, a new session and the schedulers of a stream at rest, the table of a
    scheduler is the last of the preparations handed over that are not in its
    queue: it has the checks of that, each as the blocks that the endpoint wrote
    for its version define it, its loops are those of
    the enabled checks, and reconciling the next one does not fault; the checks
    that the endpoint holds as committed are those of the last preparation
    whose answer is not on its way.  So once no answer is on its way and the
    queue is empty, they are the checks of the table. *)
Theorem endpoint_records_what_runs net zone sched :
  sys_reachable net → cs_schedulers (net_stream net) !! zone = Some sched →
  let log := net_log net in
  let reached := last (take (length log - length (s_preparations sched)) log) in
  let recorded := last (take (length log - in_transit net) log) in
  dom (s_checks sched) = from_option prepared_ids ∅ reached
  ∧ (∀ id ch, s_checks sched !! id = Some ch →
       ∃ cp, reached = Some cp ∧ defined (written net (cp_Version cp)) id = Some (GetCheckIn ch))
  ∧ (∀ ch, running sched ch ↔ IsDisabled ch = false ∧ s_checks sched !! GetID ch = Some ch)
  ∧ (s_preparations sched ≠ [] → returns (take_preparation sched) = true)
  ∧ committedChecks (net_agent net) = prepared_ids <$> recorded
  ∧ (in_transit net = 0 → s_preparations sched = [] →
       dom (s_checks sched) = default ∅ (committedChecks (net_agent net))).
Proof.
  intros Hnet Hz log reached recorded. apply sys_reachable_inv in Hnet as [Hnet Hall].
  destruct (Hall zone sched Hz) as (Hs & _ & done & Hlog & Hdom & Hdef & Hrun). fold log in Hlog.
  assert (reached = last done) as Er.
  { unfold reached. by rewrite Hlog, length_app, Nat.add_sub, take_app_length. }
  pose proof (recorded_of_log net Hnet) as Hc. rewrite Er. split_and!; try done.
  - pose proof (log_as_written net Hnet) as Hw. fold log in Hw. rewrite Hlog in Hw.
    apply Forall_app in Hw as [Hw _]. by apply (table_as_written net).
  - apply take_whole_returns; [|done]. apply log_whole in Hnet. fold log in Hnet.
    rewrite Hlog in Hnet. by apply Forall_app in Hnet as [_ ?].
  - intros Ht Eq. rewrite Hc, Ht, Nat.sub_0_r, take_ge by done. fold log.
    rewrite Hdom, Hlog, Eq, app_nil_r. by destruct (last done).
Qed.
End system.
