(* ===== verification/Reconnect.v ===== *)
(** The life of a poller over one connection after another: when the last
    connection is lost every scheduler is told to reset, and a new agent and a
    new session begin before the same schedulers, which may still hold
    preparations of the old session and resets that they have not come to.

    One session at a time: a session that has been replaced takes no more turns. *)
From S2P Require Export System.

Section life.
Context {C : Type} `{!Connection C} `{MapRange}.
Abbreviation stream := (EleConnectionStream C).
Implicit Types net : network stream.

Inductive life_step net : network stream → Prop :=
| life_system net' : sys_step net net' → life_step net net'
| life_lost newGuid qry cs :
    deregisterConnection newGuid qry (net_stream net) = Ret () cs → life_step net (with_stream cs net)
| life_reset zone sched sched' :
    cs_schedulers (net_stream net) !! zone = Some sched → take_reset sched = Ret () sched' →
    life_step net (with_sched zone sched' net)
| life_connect net' :
    net_initial net' → net_stream net' = net_stream net → life_step net net'.

Definition life_initial net : Prop :=
  net_initial net ∧ ∃ config, net_stream net = NewConnectionStream config.

Definition life_reachable net : Prop := ∃ net0, life_initial net0 ∧ rtc life_step net0 net.

(** ** The invariant

    A scheduler has taken none of the preparations of the session of now, and
    may hold some from before; or it has taken some, and runs the last of
    these unless it was reset since. *)
Definition lives_through (log : list ChecksPreparation) (sched : EleScheduler) : Prop :=
  (∃ stale, s_preparations sched = stale ++ log)
  ∨ ∃ taken, taken ≠ [] ∧ log = taken ++ s_preparations sched
      ∧ (runs_last (last taken) sched ∨ s_checks sched = ∅).

Record life_sched (log : list ChecksPreparation) (sched : EleScheduler) : Prop := {
  lf_reachable : sched_reachable sched;
  lf_open : closed sched = false;
  lf_whole : Forall whole (s_preparations sched);
  lf_through : lives_through log sched
}.

Definition life_inv net : Prop :=
  net_reachable net
  ∧ map_Forall (λ _, life_sched (net_log net))
      (cs_schedulers (net_stream net)).

Lemma reachable_step sched sched' : sched_reachable sched → sched_step sched sched' → sched_reachable sched'.
Proof. intros [zone Hs] Hstep. exists zone. by eapply rtc_r. Qed.

Lemma life_handed log cp sched :
  scheduler_room sched = true → whole cp → life_sched log sched →
  life_sched (log ++ [cp]) (with_preparation cp sched).
Proof.
  intros Hr Hcp [Hs Hcl Hw Hl]. split; try done.
  - eapply reachable_step; [exact Hs|]. by apply (step_ReconcileChecks cp), scheduler_reconcile_app.
  - apply Forall_app. by split; [|apply Forall_singleton].
  - destruct Hl as [[stale Hq]|(taken & Hne & Hlog & Hruns)].
    + left. exists stale. cbn. by rewrite Hq, (assoc_L (++)).
    + right. exists taken. cbn. by rewrite Hlog, (assoc_L (++)).
Qed.

Lemma life_take log sched sched' :
  life_sched log sched → take_preparation sched = Ret () sched' → life_sched log sched'.
Proof.
  intros [Hs Hcl Hw Hl] E. destruct (take_preparation_queue _ _ E) as [[cp Hq] _].
  rewrite Hq in Hw. apply Forall_cons in Hw as [Hcp Hw].
  destruct (take_whole cp sched sched' Hs Hcl E Hq Hcp) as (Hs' & Hcl' & Hruns). split; try done.
  destruct Hl as [[[|cp' stale] Hq']|(taken & Hne & Hlog & _)].
  - right. exists [cp]. split; [done|]. split; [|by left].
    change (log = cp :: s_preparations sched'). rewrite <- Hq, Hq'. done.
  - left. exists stale. rewrite Hq in Hq'. by injection Hq'.
  - right. exists (taken ++ [cp]). rewrite last_snoc. split_and!; [|by rewrite Hlog, Hq, <- (assoc_L (++))|by left].
    by destruct taken.
Qed.

Lemma life_take_reset log sched sched' :
  life_sched log sched → take_reset sched = Ret () sched' → life_sched log sched' ∧ s_checks sched' = ∅.
Proof.
  intros [Hs Hcl Hw Hl] E. assert (sched_reachable sched') as Hs' by (by eapply reachable_step, step_reset).
  revert E. unfold take_reset. rewrite bind_app. cbn [gets].
  destruct (s_resets sched) as [|n]; [done|]. rewrite bind_app. cbn [modify]. intros E.
  pose proof (reset_runs (set_resets sched n)) as Hr. unfold runs in Hr. rewrite E in Hr.
  destruct Hr as (_ & He & Hp & Hc & _); [by apply (sched_inv_ext sched); [..|apply reachable_inv]|].
  cbn in Hp. change (closed (set_resets sched n)) with (closed sched) in Hc.
  split; [|done]. split; [done|congruence|by rewrite Hp|]. unfold lives_through. rewrite Hp.
  destruct Hl as [Hl|(taken & Hne & Hlog & _)]; [by left|right]. exists taken. by split_and!; [..|right].
Qed.

Lemma life_lost_sched log sched : life_sched log sched → s_resets sched = 0 → life_sched log (with_reset sched).
Proof.
  intros [Hs Hcl Hw Hl] Hr. split; try done. eapply reachable_step; [exact Hs|]. apply step_Reset.
  unfold Reset, with_reset. rewrite bind_app. cbn [gets]. by rewrite Hr.
Qed.

(** A new session: what the schedulers hold is from before. *)
Lemma life_connected log sched : life_sched log sched → life_sched [] sched.
Proof. intros [Hs Hcl Hw _]. split; try done. left. exists (s_preparations sched). by rewrite app_nil_r. Qed.

Lemma life_sys_step net net' : sys_step net net' → life_inv net → life_inv net'.
Proof.
  intros [net1 net2 Hs|zone sched sched' net1 Hz E|cs net1 E] [Hnet Hall].
  - destruct (exchange_stream net1 net2 Hnet Hs) as [Hnet' Hcase]. split; [done|].
    apply log_whole in Hnet' as Hw.
    destruct Hcase as [[-> ->]|(cp & Elog & Hr & ->)]; [done|]. rewrite Elog in Hw |- *.
    apply Forall_app in Hw as [_ Hw]. apply Forall_cons in Hw as [Hw _]. intros z s Hz. rewrite lookup_fmap in Hz.
    destruct (cs_schedulers _ !! z) as [s0|] eqn:E0; [|done]. injection Hz as <-.
    apply life_handed; [by apply (Hr z)|exact Hw|by apply (Hall z)].
  - split; [by apply with_stream_reachable|]. apply map_Forall_insert_2; [|exact Hall].
    apply (life_take _ sched); [by apply (Hall zone)|done].
  - split; [by apply with_stream_reachable|]. unfold net_stream at 1. cbn. by rewrite E.
Qed.

Lemma life_step_inv net net' : life_step net net' → life_inv net → life_inv net'.
Proof.
  intros [net2 Hs|newGuid qry cs E|zone sched sched' Hz E|net2 H0 E].
  - by apply life_sys_step.
  - intros [Hnet Hall]. split; [by apply with_stream_reachable|]. unfold net_stream at 1. cbn.
    apply deregister_schedulers in E as [->|[Hr ->]]; [exact Hall|].
    intros z s Hz. rewrite lookup_fmap in Hz.
    destruct (cs_schedulers (net_stream net) !! z) as [s0|] eqn:E0; [|done]. injection Hz as <-.
    apply life_lost_sched; [by apply (Hall z)|by apply (Hr z)].
  - intros [Hnet Hall]. split; [by apply with_stream_reachable|]. apply map_Forall_insert_2; [|exact Hall].
    apply (life_take_reset _ sched); [by apply (Hall zone)|done].
  - intros [_ Hall]. split; [by exists net2; split; [|apply rtc_refl]|].
    rewrite (initial_log net2 H0), E. eapply map_Forall_impl; [exact Hall|].
    intros z s. apply life_connected.
Qed.

Lemma resting_lives sched : resting sched → life_sched [] sched.
Proof.
  intros (Hs & Hcl & Hq & _). split; [done..|by rewrite Hq|left; exists []; by rewrite Hq].
Qed.

Lemma life_reachable_inv net : life_reachable net → life_inv net.
Proof.
  intros (net0 & [H0 [config Hcs]] & Hr).
  assert (life_inv net0) as Hi.
  { split; [by exists net0; split; [|apply rtc_refl]|]. rewrite (initial_log net0 H0), Hcs.
    eapply map_Forall_impl; [apply (new_stream_resting config)|]. intros z s. apply resting_lives. }
  clear H0 Hcs. induction Hr as [|n1 n2 n3 Hs _ IH]; [done|]. by apply IH, (life_step_inv n1).
Qed.

(** A connection that begins once the schedulers have come to their resets and
    have nothing queued begins as System does. *)
Lemma connected_at_rest net :
  life_reachable net → net_initial net →
  map_Forall (λ _ sched, s_preparations sched = [] ∧ s_resets sched = 0 ∧ s_checks sched = ∅)
    (cs_schedulers (net_stream net)) →
  sys_initial net.
Proof.
  intros [_ Hall]%life_reachable_inv H0 Hrest. split; [done|]. intros z s Hz.
  destruct (Hall z s Hz) as [Hs Hcl _ _]. by split; [|split; [|apply (Hrest z)]].
Qed.

Lemma nothing_runs sched : sched_reachable sched → s_checks sched = ∅ → ∀ ch, ¬ running sched ch.
Proof.
  intros Hs He ch Hrun. destruct (empty_runs_nothing sched Hs He) as (_ & _ & Hno).
  apply Hno in Hrun as [_ Hch]. by rewrite He in Hch.
Qed.

(** ** Properties *)

(** C6: across connections.  Whatever connections were lost before, and whatever
    the schedulers still held then, no preparation makes a scheduler fault, and
    the endpoint holds as committed the checks of the last preparation that the
    session of now handed over and whose answer is not on its way - none before
    the first.  If that session has handed one over, no answer is on its way and
    nothing is queued, a scheduler runs exactly the checks that the endpoint
    holds as committed, each as the endpoint wrote it - or none at all, when it
    came to the reset of a lost connection after it had reconciled for the new
    one.  (A session that has handed over none says nothing of what a scheduler
    runs.) *)
Theorem reconnected_agree net zone sched :
  life_reachable net → cs_schedulers (net_stream net) !! zone = Some sched →
  let log := net_log net in
  (s_preparations sched ≠ [] → returns (take_preparation sched) = true)
  ∧ committedChecks (net_agent net) = prepared_ids <$> last (take (length log - in_transit net) log)
  ∧ (log ≠ [] → in_transit net = 0 → s_preparations sched = [] →
       (committedChecks (net_agent net) = Some (dom (s_checks sched))
        ∧ (∀ id ch, s_checks sched !! id = Some ch →
             ∃ cp, last log = Some cp ∧ defined (written net (cp_Version cp)) id = Some (GetCheckIn ch))
        ∧ ∀ ch, running sched ch ↔ IsDisabled ch = false ∧ s_checks sched !! GetID ch = Some ch)
       ∨ s_checks sched = ∅ ∧ ∀ ch, ¬ running sched ch).
Proof.
  intros [Hnet Hall]%life_reachable_inv Hz log. destruct (Hall zone sched Hz) as [Hs Hcl Hw Hl].
  pose proof (recorded_of_log net Hnet) as Hc.
  split; [by apply take_whole_returns|]. split; [done|]. intros Hne Ht Hq.
  rewrite Ht, Nat.sub_0_r, take_ge in Hc by done.
  destruct Hl as [[stale Hl]|(taken & Htk & Hl & Hr)]; rewrite Hq in Hl; fold log in Hl.
  { symmetry in Hl. by apply app_eq_nil in Hl as [_ ?]. }
  rewrite app_nil_r in Hl. subst taken. destruct Hr as [Hr|He].
  - left. pose proof (table_as_written net log sched (log_as_written net Hnet) Hr) as Hdef.
    destruct Hr as (Hdom & _ & Hrun). split; [|done]. rewrite Hc, Hdom. fold log.
    destruct (last log) eqn:El; [done|by apply last_None in El].
  - right. split; [done|]. by apply nothing_runs.
Qed.
End life.
