(* ===== verification/Witnesses.v ===== *)
(** Concrete runs: one poller with one zone and one agent of the endpoint, on
    which the theorems about sessions, streams and agents are applied. *)
From Stdlib Require Import Sorted.
From S2P Require Events Distributor.
From S2P Require Export Agreement Server Delivery System.

(** A connection for the stream's map that counts what it is sent. *)
Record probe := { p_measured : bool; p_latency : Z; p_sent : list Frame }.
#[export] Instance probe_connection : Connection probe := {|
  conn_HasLatencyMeasurements := p_measured;
  conn_GetLatency := p_latency;
  conn_GetClockOffset := λ _, 0%Z;
  conn_Send := λ f, modify (λ p, {| p_measured := p_measured p; p_latency := p_latency p;
                                    p_sent := p_sent p ++ [f] |})
|}.

#[export] Existing Instance some_order.

Definition example_config : Config :=
  set_ZoneIds ["pzA"] (NewConfig (λ _, "") "dev" "poller-1" false []).

Definition example_stream : EleConnectionStream probe := NewConnectionStream example_config.

Definition example_session : EleSession (EleConnectionStream probe) :=
  state_of (NewSession "poller-1" example_config example_stream [0]
    {| ctx_next := 1; ctx_canceled := ∅ |}).

Lemma example_session_reachable : session_reachable example_session.
Proof.
  exists "poller-1", example_config, example_stream, [0], {| ctx_next := 1; ctx_canceled := ∅ |},
    example_session.
  split; [reflexivity|done].
Qed.

(** A transaction that starts one ping. *)
Definition example_tx : transaction := {|
  tx_zone := "pzA"; tx_version := 5;
  tx_manifest := [{| man_Action := "start"; man_Id := "chA"; man_CheckType := "remote.ping";
                     man_EntityId := "enA"; man_ZoneId := "pzA" |}];
  tx_blocks := [[example_definition]]
|}.

Lemma example_tx_ok : tx_ok example_tx.
Proof.
  split.
  - done.
  - by apply Forall_singleton.
  - apply Forall_singleton. by repeat split.
  - intros c ->%list_elem_of_singleton. by eexists.
  - intros id m [->%list_elem_of_singleton <-]%last_filter_some _. by eexists.
Qed.

Lemma two_phase_end_to_end_witness :
  runs (handle_all (transaction_frames example_tx 7)) example_session (λ _ t, part_of t = None).
Proof.
  eapply runs_mono; [apply (two_phase_end_to_end example_tx 7 example_session)|].
  - exact example_session_reachable.
  - reflexivity.
  - exact example_tx_ok.
  - intros c ->%list_elem_of_singleton. vm_compute. reflexivity.
  - apply map_Forall_singleton. split; [by exists "pzA"|]. split; [done|].
    intros id m [->%list_elem_of_singleton <-]%last_filter_some Hno. by destruct Hno.
  - by intros _ t [Hp _].
Defined.

(** A commit without a preparation is answered "ignored". *)
Definition stray_commit_answer : Frame :=
  commit_answer "poller-1" (commit_frame example_tx 9) "pzA" 5 PrepareResultStatusIgnored
    "Poller commit request specified non-applicable version".

Lemma session_refines_participant_witness :
  ∃ t, handleFrame (commit_frame example_tx 9) example_session = Ret None t
    ∧ part_of t = None ∧ ss_sendCh t = ss_sendCh example_session ++ [stray_commit_answer].
Proof.
  destruct (handleFrame (commit_frame example_tx 9) example_session) as [e t|f t] eqn:E;
    [|by vm_compute in E].
  destruct (proj1 (session_refines_participant example_session example_session_reachable)
    (commit_frame example_tx 9) e t) as [-> H].
  - by right; right; right; left.
  - exact E.
  - assert (react (verdict_of example_session) (ss_guid example_session)
      (commit_frame example_tx 9) (part_of example_session) = (None, [stray_commit_answer], None))
      as Er by (vm_compute; reflexivity).
    rewrite Er in H. exists t. by destruct H as (H1 & H2 & _).
Defined.


Lemma active_accepted_witness : srcPrepMsg (ss_prep example_session) = None.
Proof.
  destruct (active_accepted example_session example_session_reachable) as [_ H].
  exact (proj1 H).
Defined.

Lemma send_ids_witness :
  runs (for_each [FHeartbeat (NewHeartbeatRequest 5); FHeartbeat (NewHeartbeatRequest 6)] Send)
    example_session (λ _ t, ss_seq t = 3%Z).
Proof.
  eapply runs_mono; [apply (send_ids [FHeartbeat (NewHeartbeatRequest 5);
    FHeartbeat (NewHeartbeatRequest 6)] example_session)|].
  - by repeat constructor.
  - done.
  - done.
  - by intros _ t [H _].
Defined.

(** The frames written so far, so that the handshake waits for its response. *)
Definition handshake_sent : EleSession (EleConnectionStream probe) :=
  state_of (send_frame true example_session).
Definition handshake_response : FrameMsg :=
  {| Common := {| f_Version := "1"; f_Id := 1; f_Target := ""; f_Source := ""; f_Method := "";
                  f_Error := None |};
     RawParams := None; RawResult := Some (JObj [("heartbeat_interval", JInt 30000)]) |}.

Lemma response_matched_once_witness :
  ∃ t, handleResponse handshake_response handshake_sent = Ret None t
    ∧ handleResponse handshake_response t = Ret None t.
Proof.
  destruct (handleResponse handshake_response handshake_sent) as [e t|f t] eqn:E;
    [|by vm_compute in E].
  assert (e = None) as -> by (vm_compute in E; by injection E).
  exists t. split; [done|]. apply (response_matched_once _ handshake_sent None t E).
Defined.

Lemma heartbeat_round_witness :
  let resp := {| hbresp_Frame := {| Common := SetRawId 2 zero_common; RawParams := None;
                                    RawResult := None |};
                 hbresp_Result := {| hbr_Timestamp := 1530 |} |} in
  runs (heartbeat_tick 1000;;
        modify (λ u, put_ss_heartbeatResponses (ss_heartbeatResponses u ++ [resp]) u);;
        heartbeat_receive (1000 + 30 + 20)) example_session
    (λ _ t, Session.GetLatency t = 50%Z).
Proof.
  intros resp. eapply runs_mono; [apply (heartbeat_round 1000 500 30 20 resp example_session)|].
  all: try done.
  by intros _ t [H _].
Defined.

Lemma reconcile_goes_everywhere_witness :
  runs (stream_ReconcileChecks example_prep) example_stream
    (λ _ t, (s_preparations <$> cs_schedulers t !! "pzA") = Some [example_prep]).
Proof.
  eapply runs_mono; [apply (reconcile_goes_everywhere example_prep example_stream); reflexivity|].
  intros _ t [H _]. by rewrite H.
Defined.

Definition connected_stream : EleConnectionStream probe :=
  put_conns {[ "host:443" := {| p_measured := true; p_latency := 12; p_sent := [] |} ]}
    example_stream.

Lemma deregister_spec_witness :
  runs (deregisterConnection "poller-2" "host:443") connected_stream
    (λ _ t, Config.Guid (cs_config t) = "poller-2").
Proof.
  eapply runs_mono; [apply (deregister_spec "poller-2" "host:443" connected_stream)|].
  - by apply map_Forall_singleton.
  - intros _ t [_ H]. apply H.
Defined.

Lemma send_metrics_spec_witness :
  runs (sendMetrics 99 (NewResultSet (example_ping 30) None)) connected_stream
    (λ _ t, ∃ p, cs_conns t = {[ "host:443" := p ]} ∧ length (p_sent p) = 1).
Proof.
  eapply runs_mono; [apply (send_metrics_spec 99 (NewResultSet (example_ping 30) None)
    connected_stream)|].
  - done.
  - intros [] t H. cbv beta in H. rewrite decide_False in H by done.
    change (ChooseBest (cs_conns connected_stream)) with
      (Some ("host:443", {| p_measured := true; p_latency := 12; p_sent := [] |})) in H.
    destruct H as (req & c' & _ & Hc & Hconns & _). exists c'. injection Hc as <-.
    split; [|done]. rewrite Hconns. apply (insert_singleton_eq (M := gmap string)).
Defined.

Lemma registrations_ordered_witness :
  StronglySorted before [(true, 0); (false, 0); (false, 1)].
Proof.
  apply (registrations_ordered [ConnectOk; AuthenticatedClosed; ConnectionDone; SleepOver;
    ConnectOk; MaxAgeReached; ConnectionDone]
    {| h_phase := Sleeping; h_conn := 1;
       h_registrations := [(true, 0); (false, 0); (false, 1)]; h_closed := [1] |}).
  reflexivity.
Defined.

(** ** An agent *)
Definition example_handshake : HandshakeParameters :=
  {| hp_Token := "t"; hp_AgentId := "agA"; hp_AgentName := "poller"; hp_ProcessVersion := "1";
     hp_BundleVersion := "1"; hp_ZoneIds := ["pzA"]; hp_Features := [] |}.

(** Its state after it has been created. *)
Definition example_agent : agent := {|
  a_responder := []; a_sourceId := "poller-1"; a_errors := []; a_ctx := [0];
  a_contexts := {| ctx_next := 1; ctx_canceled := ∅ |}; observedToken := "t"; a_id := "agA";
  a_name := "poller"; a_processVersion := "1"; a_bundleVersion := "1"; a_features := [];
  a_zones := ["pzA"]; prepareBlockSize := 2; a_preparations := []; a_responses := [];
  a_watching := []; checkId := 0; outMsgId := 0; checksVersion := 0; committedChecks := None;
  pendingPrepares := ∅
|}.

Lemma example_agent_new :
  newAgent [] "poller-1" example_handshake 2 {| ctx_next := 0; ctx_canceled := ∅ |}
    = Ret (Some example_agent, []) {| ctx_next := 1; ctx_canceled := ∅ |}.
Proof. reflexivity. Qed.

Lemma example_ping_loaded : loaded (example_ping 30).
Proof. split; [by repeat split|vm_compute; reflexivity]. Qed.

Lemma prepare_checks_spec_witness :
  runs (prepareChecks 5 [example_ping 30] []) example_agent (λ _ b, outMsgId b = 3%Z).
Proof.
  eapply runs_mono; [apply (prepare_checks_spec 5 [example_ping 30] [] example_agent)|].
  - done.
  - done.
  - intros _ b (blocks & _ & _ & Hlen & ->).
    assert (length blocks = 1) as Hone by (rewrite Hlen; reflexivity).
    destruct blocks as [|block [|? ?]]; done.
Defined.


(** A directory with one check, first prepared and committed, then touched. *)
Definition example_directory : option (list dir_entry) :=
  Some [("ping.json", false, Some (JObj [("type", JStr "remote.ping");
                                         ("details", JObj [("count", JInt 3)])]));
        ("notes.txt", false, None)].
Definition example_answer (id : Z) (status : string) : FrameMsg :=
  {| Common := {| f_Version := "1"; f_Id := id; f_Target := "endpoint"; f_Source := "poller-1";
                  f_Method := ""; f_Error := None |};
     RawParams := None;
     RawResult := Some (enc c_prepare_result {| ppr_ZoneId := ""; ppr_Version := 1;
       ppr_Status := status; ppr_Details := "" |}) |}.
Definition example_events : list agent_event :=
  [EvInitial "/agents/pzA/agA/checks" "pzA" example_directory; EvBundle 5;
   EvDeliver (example_answer 1 PrepareResultStatusPrepared); EvResponse;
   EvDeliver (example_answer 4 PrepareResultStatusCommitted); EvResponse;
   EvWatch true example_directory].

Lemma pending_sent frames p a : pendingPrepares (sent frames (put_pendingPrepares p a)) = p.
Proof. reflexivity. Qed.

Lemma updates_restart_unknown_witness :
  ∃ a bundle l, agent_run example_events example_agent = Ret () a
    ∧ a_preparations a = [bundle] ∧ unclassified bundle = Some l ∧ length l = 1
    ∧ runs (take_bundle 9) a (λ _ b, pp_checkIds <$> pendingPrepares b !! (outMsgId a + 1)%Z = Some (GetID <$> l)).
Proof.
  eexists _, _, _. split; [vm_compute; reflexivity|]. split; [reflexivity|].
  split; [reflexivity|]. split; [reflexivity|].
  eapply runs_mono.
  - eapply (updates_restart_unknown _ _ _ _ _ _ _ _ example_events).
    + exact example_agent_new.
    + done.
    + vm_compute. reflexivity.
    + reflexivity.
    + reflexivity.
    + reflexivity.
    + reflexivity.
    + split; [discriminate|reflexivity].
  - intros _ b (blocks & _ & ->). rewrite pending_sent, lookup_insert_eq. reflexivity.
Defined.

(** ** A server with one agent on connection 1, and connection 2 open *)
Definition example_hello (id : Z) : FrameMsg :=
  {| Common := {| f_Version := "1"; f_Id := id; f_Target := "endpoint"; f_Source := "poller-1";
                  f_Method := MethodHandshakeHello; f_Error := None |};
     RawParams := Some (enc c_handshake_params example_handshake); RawResult := None |}.
Definition example_server_events : list server_event :=
  [SvRouter; SvAccept 1; SvFrame 7 1 (example_hello 1); SvGreet; SvAccept 2].
Definition empty_server : AgentTracker :=
  NewAgentTracker NewEndpointConfig [0] {| ctx_next := 1; ctx_canceled := ∅ |}.
Definition example_server : AgentTracker :=
  state_of (server_run example_server_events empty_server).

Lemma example_server_run : server_run example_server_events empty_server = Ret () example_server.
Proof. vm_compute. reflexivity. Qed.

Lemma responses_reach_their_agent_witness :
  ∃ a, at_agents example_server !! 0 = Some a ∧ a_sourceId a = "poller-1".
Proof.
  pose proof (responses_reach_their_agent NewEndpointConfig [0]
    {| ctx_next := 1; ctx_canceled := ∅ |} example_server_events example_server
    (example_answer 1 PrepareResultStatusPrepared) example_server_run) as H.
  cbv zeta in H. revert H.
  assert (agentsBySource example_server !! f_Source (Common (example_answer 1
    PrepareResultStatusPrepared)) = Some 0) as -> by (vm_compute; reflexivity).
  intros (a & H1 & H2 & _). by exists a.
Defined.

(** The same hello from another connection. *)
Lemma duplicate_unregisters_original_witness :
  runs (connection_frame 9 2 (example_hello 1);; take_greeted;; waitOnAgentError 2 (inl 1);;
        connection_frame 9 2 NewFinishedFrame) example_server
    (λ _ t, agentsBySource t !! "poller-1" = None).
Proof.
  eapply runs_mono; [eapply (duplicate_unregisters_original 9 2 (example_hello 1) example_handshake
    example_server 0)|]; try (vm_compute; reflexivity).
  - done.
  - intros _ t (H & _). cbv beta in H. rewrite H. vm_compute. reflexivity.
Defined.

Lemma reconnect_refused_witness :
  runs (connection_frame 9 1 (agent_frame 5 "check_schedule.get" JNull)) example_server
    (λ goes_on _, goes_on = false).
Proof.
  eapply runs_mono; [eapply (reconnect_refused 9 1 (agent_frame 5 "check_schedule.get" JNull) 2
    (example_hello 1) example_handshake example_server 0)|]; try (vm_compute; reflexivity).
  - rewrite !not_elem_of_cons. repeat split; try done. apply not_elem_of_nil.
  - done.
  - done.
  - by intros goes_on t [H _].
Defined.

Definition example_post : MetricsPostContent := {|
  mpc_EntityId := "enA"; mpc_CheckId := "ch1"; mpc_CheckType := "remote.ping";
  mpc_Metrics := [[None; Some {[ "available" :=
    Some {| tvu_Type := "double"; tvu_Value := "100"; tvu_Unit := "PERCENT" |} ]}]];
  mpc_MinCheckPeriod := 0; mpc_State := "available"; mpc_Status := "ok"; mpc_Timestamp := 5 |}.

(** A network in which the checks of [example_directory] are committed; the
    first request of the session is its handshake. *)
Definition example_network : network (EleConnectionStream probe) :=
  Network example_agent
    (state_of (NewSession "poller-1" example_config (Logged _ example_stream []) [0]
       {| ctx_next := 1; ctx_canceled := ∅ |})) 0 0.

Lemma example_network_initial : net_initial example_network.
Proof.
  eexists [], "poller-1", example_handshake, 2%Z, _, [], _, "poller-1", example_config,
    example_stream, [0], _.
  split; [exact example_agent_new|]. split; [done|]. by split; [reflexivity|].
Qed.

Definition example_preparation : list net_action :=
  [DoTurn (EvInitial "dir" "pzA" example_directory); DoTurn (EvBundle 5); DoSend;
   DoRead; DoHandle; DoRead; DoHandle].
Definition example_commit : list net_action :=
  [DoRead; DoHandle; DoSend; DoTake; DoTake; DoTurn EvResponse;
   DoRead; DoHandle; DoSend; DoTake; DoTurn EvResponse].

Lemma network_agrees_witness :
  ∃ net, net_run (example_preparation ++ example_commit) example_network = Some net
    ∧ committedChecks (net_agent net) = Some {["ch00000001"]}.
Proof.
  eexists. split; [vm_compute; reflexivity|].
  match goal with |- committedChecks (net_agent ?net) = _ =>
    destruct (network_agrees net) as [_ H] end; [|exact H].
  exists example_network. split; [exact example_network_initial|].
  apply (net_run_steps (example_preparation ++ example_commit)). vm_compute. reflexivity.
Defined.

Lemma exchange_never_faults_witness :
  ∃ net, net_run (example_preparation ++ [DoRead]) example_network = Some net
    ∧ returns (handle_read_frame (net_session net)) = true.
Proof.
  eexists. split; [vm_compute; reflexivity|].
  match goal with |- returns (handle_read_frame (net_session ?net)) = _ =>
    destruct (exchange_never_faults net) as [H _] end.
  - exists example_network. split; [exact example_network_initial|].
    apply (net_run_steps (example_preparation ++ [DoRead])). vm_compute. reflexivity.
  - reflexivity.
  - eapply H; [reflexivity|]. cbn. do 2 apply list_elem_of_further. apply list_elem_of_here.
Defined.

(** The scheduler of the zone takes the preparation that was handed over. *)
Definition example_scheduled : option (network (EleConnectionStream probe)) :=
  net ← net_run (example_preparation ++ example_commit) example_network;
  sched ← cs_schedulers (net_stream net) !! "pzA";
  sched' ← returned (take_preparation sched);
  Some (with_sched "pzA" sched' net).

Lemma example_scheduled_reachable net : example_scheduled = Some net → sys_reachable net.
Proof.
  unfold example_scheduled. intros (net1 & E1 & (sched & E2 & (sched' & E3 & E)%bind_Some)%bind_Some)%bind_Some.
  injection E as <-. apply returned_some in E3. exists example_network. split.
  - split; [exact example_network_initial|]. exact (new_stream_resting example_config).
  - eapply rtc_r; [|exact (sys_schedule "pzA" sched sched' net1 E2 E3)].
    apply net_run_exchange in E1. eapply rtc_subrel; [|exact E1]. intros x y. apply sys_exchange.
Qed.

Lemma endpoint_records_what_runs_witness :
  ∃ net sched, @cs_schedulers probe (net_stream net) !! "pzA" = Some sched
    ∧ committedChecks (net_agent net) = Some {["ch00000001"]} ∧ dom (s_checks sched) = {["ch00000001"]}
    ∧ (∀ id ch, s_checks sched !! id = Some ch → defined (written net 1) id = Some (GetCheckIn ch)).
Proof.
  assert ((λ net : network (EleConnectionStream probe), (in_transit net, committedChecks (net_agent net),
      s_preparations <$> cs_schedulers (net_stream net) !! "pzA", cp_Version <$> last (net_log net)))
      <$> example_scheduled
    = Some (0, Some {["ch00000001"]}, Some [], Some 1%Z)) as E by (vm_compute; reflexivity).
  destruct example_scheduled as [net|] eqn:En; [|discriminate E].
  cbn [fmap option_fmap option_map] in E. injection E as Ht Hc Hq Hv.
  apply fmap_Some in Hq as (sched & Hz & Hq). exists net, sched. split; [exact Hz|]. split; [exact Hc|].
  pose proof (endpoint_records_what_runs net "pzA" sched (example_scheduled_reachable net En) Hz)
    as (_ & Hdef & _ & _ & _ & Hrest).
  split; [rewrite (Hrest Ht (eq_sym Hq)), Hc; reflexivity|].
  intros id ch Hch. destruct (Hdef id ch Hch) as (cp & Ecp & Ed).
  rewrite <- Hq, Nat.sub_0_r, take_ge in Ecp by reflexivity. rewrite Ecp in Hv. injection Hv as <-. exact Ed.
Defined.

(** A ping, measured in the poller and routed in the endpoint. *)
Definition example_measurement : ResultSet :=
  {| rs_States := {| State := StateAvailable; Status := "ok" |}; rs_Check := example_ping 30;
     rs_Metrics := [NewResult [NewMetric "available" "" MetricFloat (VFloat64 "100") "percent"]];
     rs_Available := true |}.

Lemma metrics_delivered_witness :
  runs (req ← NewMetricsPostRequest 99 example_measurement 0; Send (FMetricsPost req)) example_session (λ _ p',
    ∃ msg frame, ss_sendCh p' = ss_sendCh example_session ++ [msg] ∧ received [Encode msg] = [frame]
      ∧ runs (server_run [SvFrame 9 1 frame; SvPost; SvMetric]) example_server (λ _ t,
          option_map length (metricsRouter t) = Some 1)).
Proof.
  assert (a_id <$> at_agents example_server !! 0 = Some "agA") as (a & Ha & _)%fmap_Some
    by (vm_compute; reflexivity).
  eapply runs_mono; [apply (metrics_delivered 99 0 9 1 example_measurement example_session
    example_server 0 a [])|].
  1: vm_compute; reflexivity.
  1: exact Ha.
  1-3: vm_compute; reflexivity.
  intros [] p' (msg & frame & H1 & H2 & Hr). exists msg, frame. split; [done|]. split; [done|].
  eapply runs_mono; [exact Hr|]. intros [] t (l & -> & Hl). cbn. f_equal.
  rewrite (Permutation_length Hl). reflexivity.
Defined.

Lemma decompose_spec_witness :
  runs (decompose {| store_agent := 0; store_params := example_post |}) example_server
    (λ _ t, metricsRouter t = Some [{| rm_Name := "enA.agA.remote.ping.ch1.available";
                                       rm_Value := "100"; rm_MetricType := "double" |}]).
Proof.
  assert (a_id <$> at_agents example_server !! 0 = Some "agA") as (a & Ha & Hid)%fmap_Some
    by (vm_compute; reflexivity).
  eapply runs_mono; [apply (decompose_spec {| store_agent := 0; store_params := example_post |}
    example_server a [])|].
  - exact Ha.
  - vm_compute. reflexivity.
  - unfold no_nil_entry. cbn [store_params example_post mpc_Metrics].
    constructor; [|constructor]. constructor; [|constructor; [|constructor]]; cbn [default].
    + apply map_Forall_empty.
    + apply map_Forall_singleton. by eexists.
  - intros _ t (l & -> & Hl). cbv beta in *. cbn [store_params] in Hl. rewrite <- Hid in Hl.
    assert (metrics_of example_post "agA" = [{| rm_Name := "enA.agA.remote.ping.ch1.available";
      rm_Value := "100"; rm_MetricType := "double" |}]) as Em by (vm_compute; reflexivity).
    rewrite Em in Hl. apply Permutation_singleton_r in Hl. by rewrite Hl.
Defined.

(** ** Configuration, frames, events and StatsD *)
Definition example_file : list string :=
  ["# poller"; "monitoring_token abc.123"; "monitoring_snet_region ord"; "";
   "monitoring_endpoints a:1,b:2"].
Definition loaded_config : Config :=
  match LoadFromFile (λ _, inr "bad") (λ e _, e) (inl example_file) example_config with
  | inl cfg => cfg
  | inr _ => example_config
  end.

Lemma loaded_config_ok :
  LoadFromFile (λ _, inr "bad") (λ e _, e) (inl example_file) example_config = inl loaded_config.
Proof. vm_compute. reflexivity. Qed.

Lemma load_spec_witness :
  Token loaded_config = "abc.123" ∧ UseSrv loaded_config = false ∧ SnetRegion loaded_config = "ord".
Proof.
  pose proof (load_spec (λ _, inr "bad") (λ e _, e) example_file example_config loaded_config
    eq_refl loaded_config_ok) as H.
  cbv zeta in H. revert H.
  assert (last_value "monitoring_token" (settings example_file) = Some "abc.123") as ->
    by (vm_compute; reflexivity).
  assert (last_value "monitoring_endpoints" (settings example_file) = Some "a:1,b:2") as ->
    by (vm_compute; reflexivity).
  assert (last_value "monitoring_snet_region" (settings example_file) = Some "ord") as ->
    by (vm_compute; reflexivity).
  intros (_ & H2 & _ & _ & _ & [H6 _] & [H7 _] & _). by split_and!.
Defined.

Lemma encode_decode_witness :
  Unmarshal c_frame (Encode (FHeartbeat (NewHeartbeatRequest 5))) zero_frame
    = (wire (FHeartbeat (NewHeartbeatRequest 5)), true).
Proof. by apply (encode_decode (FHeartbeat (NewHeartbeatRequest 5))). Defined.

Definition example_event : Events.BasicEvent (Event := string) := Events.NewEvent "up" "host:443".
Definition three_consumers : list (Events.registration_call (Consumer := nat)) :=
  [Events.Register 1; Events.Register 2; Events.Register 3].

(** The handler of the second consumer fails. *)
Definition failing_second (c : nat) (_ : Events.BasicEvent (Event := string))
    : list (Events.registration_call (Consumer := nat)) * option string :=
  ([], if bool_decide (c = 2) then Some "refused" else None).
(** The handler of the first consumer removes it. *)
Definition leaving_first (c : nat) (_ : Events.BasicEvent (Event := string))
    : list (Events.registration_call (Consumer := nat)) * option string :=
  (if bool_decide (c = 1) then [Events.Deregister 1] else [], None).

Lemma emit_in_order_witness :
  (Events.EmitEvent (λ n, n) failing_second example_event
    (foldl (λ r x, Events.call (λ n, n) x r) Events.new_registry three_consumers)).1.2 = [1; 2].
Proof.
  rewrite (Events.emit_in_order (λ n, n) failing_second three_consumers example_event); [done|].
  by intros c _.
Defined.

Lemma self_removal_skips_witness :
  (Events.EmitEvent (λ n, n) leaving_first example_event
    (foldl (λ r x, Events.call (λ n, n) x r) Events.new_registry three_consumers)).1.2 = [1; 3; 3].
Proof.
  rewrite (Events.self_removal_skips (λ n, n) leaving_first three_consumers example_event 1 2 [3]);
    [done..|].
  intros y Hy. repeat (apply elem_of_cons in Hy as [->|Hy]; [done|]). by apply elem_of_nil in Hy.
Defined.

Definition example_statsd : Distributor.statsdDistributor :=
  state_of (Distributor.statsd_Start (λ _, None) (Distributor.newStatsdDistributor "h:8125" "123")).

Lemma send_to_statsd_spec_witness :
  runs (Distributor.sendToStatsd (λ _, None) (inl "here") (NewResultSet (example_ping 30) None))
    example_statsd (λ _ d, length <$> Distributor.statsdClient d = Some 1).
Proof.
  eapply runs_mono; [apply (Distributor.send_to_statsd_spec (λ _, None) (inl "here")
    (NewResultSet (example_ping 30) None) example_statsd []); reflexivity|].
  intros _ d (gauges & -> & Hg & _). cbv beta in *. apply Permutation_nil_r in Hg. by subst gauges.
Defined.

Lemma failed_start_blocks_witness :
  ∃ md, Distributor.Distribute (NewResultSet (example_ping 30) None)
    (Distributor.Start (λ _, Some "no such host")
      (Distributor.NewMetricsDistributor (set_StatsdEndpoint "statsd:8125" example_config)))
    = Halt Blocked md.
Proof.
  by apply (Distributor.failed_start_blocks (λ _, Some "no such host")
    (set_StatsdEndpoint "statsd:8125" example_config) _ "no such host").
Defined.
