(* ===== verification/Races.v ===== *)
(** Runs of Reconnect across a lost connection: one in which the scheduler comes
    to its reset in time, and two in which it does not, since the channels of
    resets and of preparations are taken from in any order. *)
From S2P Require Export Reconnect Witnesses.

Lemma reset_keeps_resets `{MapRange} n : keeps (λ s, s_resets s = n) reset.
Proof. unfold reset. keeps_auto. apply keeps_for_each. intros kv _. unfold CancelCheck, on_contexts. keeps_auto. Qed.

(** ** Steps of a scheduler, within a life *)
Section races.
Context {C : Type} `{!Connection C} `{MapRange}.
Implicit Types net : network (EleConnectionStream C).

Lemma with_sched_again zone s1 s2 net :
  with_sched zone s2 (with_sched zone s1 net) = with_sched zone s2 net.
Proof. destruct net as [a [] r t]. unfold with_sched, with_stream, net_stream. cbn. by rewrite insert_insert_eq. Qed.

Lemma with_sched_lookup zone s1 net : cs_schedulers (net_stream (with_sched zone s1 net)) !! zone = Some s1.
Proof. unfold with_sched, with_stream, net_stream. cbn. by rewrite lookup_insert_eq. Qed.

(** A scheduler that takes preparations. *)
Definition taking (s t : EleScheduler) : Prop := take_preparation s = Ret () t.

Lemma taking_life zone s t net :
  rtc taking s t → rtc life_step (with_sched zone s net) (with_sched zone t net).
Proof.
  intros Hr. induction Hr as [|s1 s2 s3 E _ IH]; [apply rtc_refl|]. eapply rtc_l; [|exact IH].
  rewrite <- (with_sched_again zone s1 s2 net). apply life_system.
  apply (sys_schedule zone s1); [apply with_sched_lookup|exact E].
Qed.

Lemma taken_one cp q s :
  sched_reachable s → closed s = false → Forall whole (s_preparations s) → s_preparations s = cp :: q →
  ∃ t, taking s t ∧ s_preparations t = q ∧ s_resets t = s_resets s
    ∧ sched_reachable t ∧ closed t = false ∧ runs_last (Some cp) t.
Proof.
  intros Hs Hcl Hw Hq. pose proof (take_whole_returns s Hw Hs) as Hret. rewrite Hq in Hret, Hw.
  specialize (Hret ltac:(done)). unfold taking.
  destruct (take_preparation s) as [[] t|] eqn:E; [|discriminate Hret].
  destruct (take_preparation_queue s t E) as [[cp' Eq] En]. rewrite Hq in Eq. injection Eq as <- Eq.
  rewrite Eq in Hq. apply Forall_cons in Hw as [Hcp _].
  destruct (take_whole cp s t Hs Hcl E Hq Hcp) as (? & ? & ?). by exists t.
Qed.

(** What is queued is taken one by one, and the last of it is what runs. *)
Lemma drained q cp s :
  sched_reachable s → closed s = false → Forall whole (s_preparations s) → s_preparations s = q ++ [cp] →
  ∃ t, rtc taking s t ∧ runs_last (Some cp) t ∧ s_preparations t = [] ∧ s_resets t = s_resets s.
Proof.
  revert s. induction q as [|cp0 q IH]; intros s Hs Hcl Hw Hq.
  - destruct (taken_one cp [] s Hs Hcl Hw Hq) as (t & Ht & ? & ? & _ & _ & ?).
    exists t. by split_and!; [apply rtc_once|..].
  - destruct (taken_one cp0 (q ++ [cp]) s Hs Hcl Hw Hq) as (t & Ht & Hqt & Hrt & Hs' & Hcl' & _).
    rewrite Hq in Hw. apply Forall_cons in Hw as [_ Hw].
    change (Forall whole (q ++ [cp])) in Hw. rewrite <- Hqt in Hw.
    destruct (IH t Hs' Hcl' Hw Hqt) as (u & Hu & H1 & H2 & H3).
    exists u. split_and!; [by eapply rtc_l|done|done|congruence].
Qed.

Lemma reset_taken log sched :
  life_sched log sched → s_resets sched = 1 →
  ∃ t, take_reset sched = Ret () t ∧ life_sched log t ∧ s_checks t = ∅
    ∧ s_preparations t = s_preparations sched ∧ s_resets t = 0.
Proof.
  intros Hl Hr. pose proof (life_take_reset log sched) as Htake. revert Htake.
  assert (sched_inv (set_resets sched 0)) as Hi.
  { apply (sched_inv_ext sched); [done..|]. apply reachable_inv, Hl. }
  pose proof (reset_runs (set_resets sched 0) Hi) as Hrun. unfold take_reset. rewrite bind_app. cbn [gets].
  rewrite Hr, bind_app. cbn [modify].
  pose proof (reset_keeps_resets 0 (set_resets sched 0) eq_refl) as Hk. unfold runs in Hrun.
  destruct (reset (set_resets sched 0)) as [[] t|]; [|done]. intros Htake.
  destruct (Htake t Hl eq_refl) as [Hl' He]. destruct Hrun as (_ & _ & Hp & _).
  by exists t.
Qed.

(** ** Properties *)

(** C7: a lost connection can leave the two ends apart, since a scheduler takes
    from its channels of resets and of preparations in any order.  Let the reset
    of a lost connection be pending in a scheduler, in any state of any life.
    When nothing is queued, no answer is on its way and the session of now has
    handed over a preparation, the scheduler can take the reset: then its table
    is empty and none of its checks runs, while the endpoint holds those of that preparation as
    committed.  When the session has handed over none and
    preparations of a lost connection are queued, the scheduler can take the
    reset first and then these: it runs the last of them, while the endpoint of
    now holds none.  In both ends the scheduler has nothing left to take. *)
Theorem resets_race net zone sched :
  life_reachable net → cs_schedulers (net_stream net) !! zone = Some sched → s_resets sched = 1 →
  (∀ cp, last (net_log net) = Some cp → in_transit net = 0 → s_preparations sched = [] →
     ∃ t, life_step net (with_sched zone t net) ∧ s_preparations t = [] ∧ s_resets t = 0
       ∧ s_checks t = ∅ ∧ (∀ ch, ¬ running t ch)
       ∧ committedChecks (net_agent (with_sched zone t net)) = Some (prepared_ids cp))
  ∧ (∀ cp, last (s_preparations sched) = Some cp → net_log net = [] →
     ∃ t, rtc life_step net (with_sched zone t net) ∧ s_preparations t = [] ∧ s_resets t = 0
       ∧ runs_last (Some cp) t
       ∧ committedChecks (net_agent (with_sched zone t net)) = None).
Proof.
  intros [Hnet Hall]%life_reachable_inv Hz Hr. pose proof (Hall zone sched Hz) as Hl.
  pose proof (recorded_of_log net Hnet) as Hc.
  destruct (reset_taken _ sched Hl Hr) as (u & E & [Hs Hcl Hw _] & He & Hq & Hn).
  pose proof (life_reset net zone sched u Hz E) as Hstep. split; intros cp Hcp.
  - intros Ht Hnil. exists u. split_and!; [done|congruence|done|done|by apply nothing_runs|].
    cbn. by rewrite Hc, Ht, Nat.sub_0_r, take_ge, Hcp.
  - intros Hlog. apply last_Some in Hcp as [q Hcp]. rewrite <- Hq in Hcp.
    destruct (drained q cp u Hs Hcl Hw Hcp) as (t & Htk & Hrun & Hqt & Hrt).
    exists t. split; [eapply rtc_l; [exact Hstep|by apply taking_life]|].
    split; [done|]. split; [congruence|]. split; [done|]. cbn. by rewrite Hc, Hlog.
Qed.
End races.

(** ** Runs *)
Abbreviation example_life := (network (EleConnectionStream probe)).

(** A new agent and a new session before the schedulers of a stream. *)
Definition example_connect (cs : EleConnectionStream probe) : example_life :=
  Network example_agent
    (state_of (NewSession "poller-1" example_config (Logged _ cs []) [0]
       {| ctx_next := 1; ctx_canceled := ∅ |})) 0 0.

Lemma example_connect_initial cs : net_initial (example_connect cs) ∧ net_stream (example_connect cs) = cs.
Proof.
  split; [|reflexivity]. eexists [], "poller-1", example_handshake, 2%Z, _, [], _, "poller-1", example_config,
    cs, [0], _. split; [exact example_agent_new|]. split; [done|]. by split; [reflexivity|].
Qed.

(** The steps of a life, to execute it. *)
Inductive life_action :=
| LifeNet (act : net_action)   (** a step of the exchange *)
| LifeTake                     (** the scheduler takes a preparation *)
| LifeReset                    (** the scheduler takes a reset *)
| LifeRegister                 (** the connection is registered *)
| LifeLost                     (** it is lost *)
| LifeConnect.                 (** the next one begins *)

Definition life_do (act : life_action) (net : example_life) : option example_life :=
  match act with
  | LifeNet act => net_do act net
  | LifeTake =>
      sched ← @cs_schedulers probe (net_stream net) !! "pzA";
      sched' ← returned (take_preparation sched); Some (with_sched "pzA" sched' net)
  | LifeReset =>
      sched ← @cs_schedulers probe (net_stream net) !! "pzA";
      sched' ← returned (take_reset sched); Some (with_sched "pzA" sched' net)
  | LifeRegister =>
      cs ← returned (registerConnection "endpoint" {| p_measured := false; p_latency := 0; p_sent := [] |}
        (net_stream net));
      Some (with_stream cs net)
  | LifeLost =>
      cs ← returned (deregisterConnection "poller-2" "endpoint" (net_stream net));
      Some (with_stream cs net)
  | LifeConnect => Some (example_connect (net_stream net))
  end.

Lemma life_do_step act net net' : life_do act net = Some net' → life_step net net'.
Proof.
  destruct act; cbn [life_do]; intros E.
  - apply life_system, sys_exchange. by eapply net_do_step.
  - apply bind_Some in E as (sched & Hz & (sched' & E1%returned_some & [= <-])%bind_Some).
    apply life_system. by eapply sys_schedule.
  - apply bind_Some in E as (sched & Hz & (sched' & E1%returned_some & [= <-])%bind_Some).
    by eapply life_reset.
  - apply bind_Some in E as (cs & E1%returned_some & [= <-]). apply life_system, sys_stream.
    by injection E1 as <-.
  - apply bind_Some in E as (cs & E1%returned_some & [= <-]). by eapply life_lost.
  - injection E as <-. destruct (example_connect_initial (net_stream net)). by apply life_connect.
Qed.

Fixpoint life_run (acts : list life_action) (net : example_life) : option example_life :=
  match acts with
  | [] => Some net
  | act :: acts' => net' ← life_do act net; life_run acts' net'
  end.

Lemma life_run_reachable acts net : life_run acts example_network = Some net → life_reachable net.
Proof.
  intros Hr. exists example_network. split; [split; [exact example_network_initial|by exists example_config]|].
  revert Hr. generalize example_network. induction acts as [|act acts IH]; intros net0; cbn [life_run].
  - intros [= ->]. apply rtc_refl.
  - intros (net1 & E & Hr)%bind_Some. eapply rtc_l; [by eapply life_do_step|by apply IH].
Qed.

Definition example_exchange : list life_action := LifeNet <$> example_preparation ++ example_commit.

(** What is seen of a state: the commits on their way, what the endpoint holds
    as committed, and the queue, the resets and the table of the scheduler, by
    identifiers. *)
Definition seen (net : example_life) :=
  (in_transit net, length (net_log net), committedChecks (net_agent net),
   (λ s, (prepared_ids <$> s_preparations s, s_resets s, dom (s_checks s)))
     <$> @cs_schedulers probe (net_stream net) !! "pzA").

Lemma life_run_seen acts x :
  seen <$> life_run acts example_network = Some x → ∃ net, life_reachable net ∧ seen net = x.
Proof.
  destruct (life_run acts example_network) as [net|] eqn:E; [|done].
  intros [= <-]. exists net. by split; [apply (life_run_reachable acts)|].
Qed.

(** The reset of the lost connection is still pending, after the first
    preparation of the next one or before the last one of the lost. *)
Example late_reset_seen :
  seen <$> life_run ([LifeRegister; LifeLost; LifeConnect] ++ example_exchange ++ [LifeTake]) example_network
  = Some (0, 1, Some {["ch00000001"]}, Some ([], 1, {["ch00000001"]})).
Proof. vm_compute. reflexivity. Qed.

Example stale_preparation_seen :
  seen <$> life_run (example_exchange ++ [LifeRegister; LifeLost; LifeConnect]) example_network
  = Some (0, 0, None, Some ([{["ch00000001"]}], 1, ∅)).
Proof. vm_compute. reflexivity. Qed.

Example reset_in_time_seen :
  seen <$> life_run ([LifeRegister; LifeLost; LifeReset; LifeConnect] ++ example_exchange ++ [LifeTake])
    example_network
  = Some (0, 1, Some {["ch00000001"]}, Some ([], 0, {["ch00000001"]})).
Proof. vm_compute. reflexivity. Qed.

Lemma reconnected_agree_witness :
  ∃ net sched, @cs_schedulers probe (net_stream net) !! "pzA" = Some sched
    ∧ committedChecks (net_agent net) = Some {["ch00000001"]}
    ∧ committedChecks (net_agent net) = Some (dom (s_checks sched)).
Proof.
  destruct (life_run_seen _ _ reset_in_time_seen) as (net & Hnet & Hl). unfold seen in Hl.
  injection Hl as Ht Hlog Hc Hz. apply fmap_Some in Hz as (sched & Hz & [= Hq Hr Hd]).
  exists net, sched. split_and!; [done..|].
  destruct (reconnected_agree net "pzA" sched Hnet Hz) as (_ & _ & Hrest).
  destruct Hrest as [[Hrest _]|[He _]]; [|exact Ht|by apply (fmap_nil_inv prepared_ids)|exact Hrest|].
  - intros E. by rewrite E in Hlog.
  - by rewrite He, dom_empty_L in Hd.
Defined.

Lemma resets_race_witness :
  (∃ net t, @cs_schedulers probe (net_stream net) !! "pzA" = Some t ∧ s_checks t = ∅
     ∧ committedChecks (net_agent net) = Some {["ch00000001"]})
  ∧ ∃ net t, @cs_schedulers probe (net_stream net) !! "pzA" = Some t
     ∧ dom (s_checks t) ≠ ∅ ∧ committedChecks (net_agent net) = None.
Proof.
  split.
  - destruct (life_run_seen _ _ late_reset_seen) as (net & Hnet & Hl). unfold seen in Hl.
    injection Hl as Ht Hlog Hc Hz. apply fmap_Some in Hz as (sched & Hz & [= Hq Hr Hd]).
    destruct (resets_race net "pzA" sched Hnet Hz (eq_sym Hr)) as [Hlate _].
    destruct (last (net_log net)) as [cp|] eqn:El; [|apply last_None in El; by rewrite El in Hlog].
    destruct (Hlate cp eq_refl Ht) as (t & _ & _ & _ & He & _ & _); [by apply (fmap_nil_inv prepared_ids)|].
    exists (with_sched "pzA" t net), t. by split_and!; [apply with_sched_lookup|..].
  - destruct (life_run_seen _ _ stale_preparation_seen) as (net & Hnet & Hl). unfold seen in Hl.
    injection Hl as Ht Hlog Hc Hz. apply fmap_Some in Hz as (sched & Hz & [= Hq Hr Hd]).
    destruct (resets_race net "pzA" sched Hnet Hz (eq_sym Hr)) as [_ Hearly].
    destruct (last (s_preparations sched)) as [cp|] eqn:El; [|apply last_None in El; by rewrite El in Hq].
    destruct (Hearly cp eq_refl) as (t & _ & _ & _ & (Hdom & _) & Hnone); [by apply nil_length_inv|].
    exists (with_sched "pzA" t net), t. split_and!; [apply with_sched_lookup| |exact Hnone].
    rewrite Hdom. apply last_Some in El as [front El]. rewrite El, fmap_app in Hq.
    destruct front as [|? front]; [|by destruct front]. injection Hq as Hq. cbn. by rewrite <- Hq.
Defined.
