(* ===== verification/EndpointWitnesses.v ===== *)
(** Concrete runs of an endpoint from its start, on which its theorems are
    applied. *)
From S2P Require Export Witnesses EndpointSafety.

(** Keys that load, an address that is free, and a configuration that names
    the keys. *)
Definition example_endpoint_config : EndpointConfig :=
  {| CertFile := "cert.pem"; KeyFile := "key.pem"; BindAddr := ""; StatsDAddr := "";
     AgentsConfigDir := "agents"; PrepareBlockSize := 2 |}.
Definition example_env : endpoint_env unit := {|
  read_config := λ path,
    if bool_decide (path = "endpoint.json") then Some (enc c_endpoint_config example_endpoint_config) else None;
  LoadX509KeyPair := λ _ _, inl ();
  tls_Listen := λ _ addr, if bool_decide (addr = ":50041") then None else Some "in use"
|}.

Example example_endpoint_runs :
  endpoint_Run example_env "endpoint.json" zero_server =
    Ret None (started_server example_endpoint_config ()).
Proof. vm_compute. reflexivity. Qed.

(** A poller says hello on connection 1, its checks are announced, and its
    directory changes before the first commit. *)
Definition example_endpoint_events : list endpoint_event :=
  [EpAccept 1 true; EpArrives 1 (Value (Encode (FMsg (example_hello 1)))); EpDecoder 1; EpDecoder 1;
   EpHandler 7 1; EpTurn SvGreet; EpTurn (SvInitial (λ _, example_directory) 0);
   EpTurn (SvAgent 0 (EvBundle 8)); EpTurn (SvAgent 0 (EvWatch true example_directory))].
Definition example_endpoint_start : endpoint :=
  {| ep_tracker := with_router (new_tracker example_endpoint_config) []; ep_conns := ∅ |}.
Definition example_endpoint : endpoint :=
  default example_endpoint_start (endpoint_steps example_endpoint_events example_endpoint_start).

Lemma example_steps es s :
  endpoint_steps es example_endpoint_start = Some s → endpoint_reachable s.
Proof.
  intros Es. exists unit, example_env, "endpoint.json", (started_server example_endpoint_config ()).
  eexists _, es. split; [apply example_endpoint_runs|]. split; [reflexivity|exact Es].
Qed.

Lemma example_endpoint_reachable : endpoint_reachable example_endpoint.
Proof. apply (example_steps example_endpoint_events). vm_compute. reflexivity. Qed.

(** The update before the first commit ends the process. *)
Lemma endpoint_panics_iff_witness :
  panics (server_turn (SvAgent 0 (EvBundle 9)) (ep_tracker example_endpoint)).
Proof.
  destruct (endpoint_panics_iff example_endpoint example_endpoint_reachable) as [_ H].
  assert (turn_of (EpTurn (SvAgent 0 (EvBundle 9))) example_endpoint =
    Some (SvAgent 0 (EvBundle 9))) as Ht by (vm_compute; reflexivity).
  rewrite (H _ _ Ht). cbn [process_ends turn_panics].
  eexists. split; [vm_compute; reflexivity|]. vm_compute. left. by eauto.
Defined.

(** Then something that is no document arrives, and the poller goes away: the
    handler waits for ever. *)
Definition broken_events : list endpoint_event :=
  example_endpoint_events ++ [EpArrives 1 Broken; EpEnds 1; EpDecoder 1].
Definition broken_endpoint : endpoint :=
  default example_endpoint_start (endpoint_steps broken_events example_endpoint_start).

(** It has ended, rests, and got no frame at which the handler stops. *)
Definition unstopped (c : connection) : bool :=
  cn_ended c && negb (bool_decide (is_Some (decoder_turn c))) && bool_decide (length (cn_frames c) = 0)
  && forallb (λ f, negb (stops f)) (frames_of (cn_incoming c) true).

Lemma handler_ends_iff_witness :
  ∃ c, ep_conns broken_endpoint !! 1 = Some c ∧ cn_ended c = true ∧ resting c ∧ cn_handling c ≠ false.
Proof.
  assert (endpoint_reachable broken_endpoint) as Hr.
  { apply (example_steps broken_events). vm_compute. reflexivity. }
  assert (match ep_conns broken_endpoint !! 1 with Some c => unstopped c | None => false end = true)
    as Hu by (vm_compute; reflexivity).
  destruct (ep_conns broken_endpoint !! 1) as [c|] eqn:Ec; [|discriminate Hu].
  apply andb_prop in Hu as [[[He Hd]%andb_prop Hq]%andb_prop Hno].
  apply negb_true_iff, bool_decide_eq_false_1 in Hd. apply bool_decide_eq_true_1, nil_length_inv in Hq.
  assert (resting c) as Hrest.
  { split; [|done]. destruct (decoder_turn c); [|done]. by destruct Hd. }
  exists c. destruct (handler_ends_iff broken_endpoint 1 c Hr Ec) as (_ & _ & H).
  split_and!; [done..|]. rewrite (H He Hrest). intros (f & Hf & Hs)%Exists_exists.
  rewrite forallb_forall in Hno. apply list_elem_of_In in Hf. specialize (Hno f Hf). by rewrite Hs in Hno.
Defined.
