(* ===== verification/ProbeWitnesses.v ===== *)
(** Concrete runs of checks and connections, on which the theorems about them
    are applied. *)
From S2P Require Export CheckLoop PingCheck HttpCheck Plugin Connection.

Definition probe_base : Base := {|
  base_CheckIn := {|
    Header := {| ch_Id := "chP"; ch_CheckType := "remote.ping"; ch_Period := 60; ch_Timeout := 10;
                 ch_EntityId := "en"; ch_ZoneId := "pz"; ch_Disabled := false; ch_IpAddresses := None;
                 ch_TargetAlias := None; ch_TargetHostname := Some "10.0.0.1";
                 ch_TargetResolver := "IPv4" |};
    RawDetails := None |};
  base_context := []
|}.

(** ** Pings *)
Definition probe_time : gtime := {| t_sec := 63600000000; t_nsec := 5; t_zone := None |}.
Definition probe_later : gtime := {| t_sec := 63600000000; t_nsec := 12000005; t_zone := None |}.
Definition probe_pinger : pingerBase := {|
  packetConn := 0; p_id := 7; p_identifier := "chP"; p_remoteAddr := IPAddr "10.0.0.1" ""; p_proto := 1
|}.
Definition probe_Marshal (m : icmp_message) : chars + error :=
  match msg_Body m with BodyEcho _ _ data => inl data | _ => inr "body" end.
Definition probe_Parse (_ : Z) (data : chars) : icmp_message + error :=
  inl {| msg_Type := V4EchoReply; msg_Code := 0; msg_Body := BodyEcho 7 1 data |}.
Definition probe_timeout : net_error := {| ne_message := "i/o timeout"; ne_Timeout := Some true |}.
Definition probe_bytes : chars := encode_time probe_time (-1).
Definition probe_packet : chars := ping_payload "chP" probe_bytes.
Definition probe_socket (reads : list read_event) : PacketConn :=
  {| pc_open := true; pc_sent := []; pc_writes := []; pc_reads := reads; pc_readDeadline := None |}.

Lemma ping_answered_witness :
  ∃ conn, ping probe_Marshal probe_Parse probe_time probe_pinger 1 V4Echo 1000000000
    (probe_socket [ReadPacket probe_later [] (IPAddr "10.0.0.9" "");
                   ReadPacket probe_later probe_packet (IPAddr "10.0.0.1" "")])
    = Ret {| pr_Seq := 1; pr_Rtt := 12000000; pr_Timeout := false; pr_Err := None |} conn.
Proof.
  eexists. rewrite (ping_answered probe_Marshal probe_Parse probe_pinger probe_time 1 V4Echo 1000000000 _
    probe_bytes probe_packet [ReadPacket probe_later [] (IPAddr "10.0.0.9" "")] probe_later
    probe_packet (IPAddr "10.0.0.1" "") []); try reflexivity.
  - refine (bool_decide_unpack _ _). vm_compute. done.
  - refine (bool_decide_unpack _ _). vm_compute. done.
  - by constructor.
  - split; [done|]. eexists. split; [reflexivity|]. split; [left|].
    vm_compute. reflexivity.
Defined.

Lemma receive_decides_witness :
  returns (receive probe_Parse probe_pinger 5 (probe_socket [ReadError probe_timeout])) = true.
Proof.
  destruct (receive_decides probe_Parse probe_pinger 5 (probe_socket [ReadError probe_timeout]))
    as (_ & _ & Hiff).
  apply Hiff. right. left. by eexists.
Defined.

Definition probe_listen (reads : list read_event) (_ _ : string) : PacketConn + error :=
  inl (probe_socket reads).
Definition probe_resolve (_ addr : string) : ip_addr + error :=
  inl {| ra_ip := addr; ra_v4 := true; ra_zone := "" |}.
Definition probe_reads : list read_event :=
  [ReadPacket probe_later probe_packet (IPAddr "10.0.0.1" ""); ReadError probe_timeout].
Definition no_sockets : Net := {| sockets := ∅; slept := [] |}.
Definition one_ping : PingCheckDetails := {| Count := 1 |}.
Definition never (_ : nat) : bool := false.

#[local] Existing Instance icmp_pinging.

Definition probe_ping : go Net (ResultSet + error) :=
  @ping_Run Net Pinger (icmp_pinging (probe_listen probe_reads) probe_resolve 7 0 "linux" probe_Marshal
    probe_Parse (λ _, probe_time)) (λ _, "f") never probe_base one_ping.

Lemma ping_run_ends_witness : returns (probe_ping no_sockets) = true.
Proof.
  pose proof (ping_run_ends (probe_listen probe_reads) probe_resolve 7 0 "linux" probe_Marshal probe_Parse
    (λ _, probe_time) (λ _, "f") never probe_base one_ping no_sockets
    ltac:(intros net bind c [= <-]; vm_compute; lia)) as H.
  fold probe_ping in H. unfold runs in H. by destruct (probe_ping no_sockets).
Defined.

Lemma probe_ping_result :
  ∃ crs n', probe_ping no_sockets = Ret (inl crs) n' ∧ rs_Available crs = true.
Proof.
  assert (match probe_ping no_sockets with Ret (inl crs) _ => rs_Available crs | _ => false end = true) as H
    by (vm_compute; reflexivity).
  destruct (probe_ping no_sockets) as [[crs|] n'|]; [by exists crs, n'|done..].
Qed.

Lemma ping_run_spec_witness :
  ∃ crs n' rs m, probe_ping no_sockets = Ret (inl crs) n' ∧ length rs ≤ 1 ∧ rs_Metrics crs = [m]
    ∧ ping_reported (λ _, "f") 1 (kept 1 rs) m.
Proof.
  destruct probe_ping_result as (crs & n' & E & _).
  destruct (@ping_run_spec Net Pinger (icmp_pinging (probe_listen probe_reads) probe_resolve 7 0 "linux"
    probe_Marshal probe_Parse (λ _, probe_time)) (λ _, "f") never probe_base one_ping no_sockets crs n' E)
    as (pinger & n1 & rs & n2 & m & _ & _ & Hlen & Hm & Hrep & _).
  by exists crs, n', rs, m.
Defined.

(** ** TCP and HTTP *)
Definition probe_Compile (s : string) : string + error :=
  if bool_decide (s = "(") then inr "missing closing )" else inl s.
Definition probe_Find (re s : string) : option (list string) :=
  if Contains s re then Some [re] else None.
Lemma probe_Find_whole re s m : probe_Find re s = Some m → m ≠ [].
Proof. unfold probe_Find. destruct (Contains s re); [|done]. by intros [= <-]. Qed.
Definition probe_Verify (_ : string) (_ : certificate) (_ : list certificate) : option error := None.

Definition probe_conn : tcp_conn := {|
  tc_handshake := HandshakeLate "late"; tc_write := None;
  tc_in := {| in_pieces := [to_chars "220 ok"]; in_end := None |}
|}.
Definition probe_dial (_ _ : string) (_ : Duration) : tcp_conn + error := inl probe_conn.
Definition probe_clock : tcp_clock :=
  {| starttime := 0; connectEndTime := 1; firstbytetime := 2; bodybytetime := 3; endtime := 4; tls_now := 5 |}.
Definition bad_body : TCPCheckDetails :=
  {| BannerMatch := ""; BodyMatch := "("; Port := 25; SendBody := ""; UseSSL := false |}.

Lemma tcp_run_crashes_iff_witness :
  ∃ f n, tcp_Run probe_Compile probe_Find probe_Verify "" probe_dial probe_clock probe_base bad_body 0
    = Halt f n ∧ f = NilDeref.
Proof.
  pose proof (tcp_run_crashes_iff probe_Compile probe_Find probe_Verify "" probe_dial probe_Find_whole
    probe_clock probe_base bad_body 0) as H. cbv zeta in H.
  destruct (tcp_Run probe_Compile probe_Find probe_Verify "" probe_dial probe_clock probe_base bad_body 0)
    as [crs n|f n].
  - destruct H as [Hno _]. destruct Hno. exists probe_conn, "missing closing )".
    split; [done|]. split; [|done]. split; [done|]. by exists None, (tc_in probe_conn), (to_chars "220 ok").
  - exists f, n. split; [reflexivity|]. destruct H as [[Hf _]|[_ (_ & Hssl & _)]]; [exact Hf|discriminate Hssl].
Defined.

Lemma tcp_run_connections_witness :
  state_of (tcp_Run probe_Compile probe_Find probe_Verify "" probe_dial probe_clock probe_base
    {| BannerMatch := ""; BodyMatch := ""; Port := 25; SendBody := ""; UseSSL := true |} 0) = 1.
Proof.
  by rewrite (tcp_run_connections probe_Compile probe_Find probe_Verify "" probe_dial probe_Find_whole).
Defined.

#[local] Existing Instance some_order.

Definition probe_http (matches : list (string * string)) : HTTPCheckDetails := {|
  AuthPassword := ""; AuthUser := ""; Body := ""; BodyMatches := Some (list_to_map matches);
  FollowRedirects := false; Headers := None; IncludeBody := true; Method := "get"; Url := "http://h/"
|}.
Definition probe_response : http_response := {|
  h_StatusCode := 404; h_Body := {| in_pieces := [to_chars "not "; to_chars "found"]; in_end := None |};
  h_TLS := None
|}.
Definition probe_http_clock : http_clock := {| http_start := 0; http_end := 7; http_tls_now := 0 |}.
Definition probe_set : ResultSet := NewResultSet (HTTPCheck probe_base (probe_http [])) None.


Lemma http_report_spec_witness :
  ∃ crs, handle_response probe_Compile probe_Find probe_Verify "" (probe_http [])
    probe_http_clock probe_response ∅ probe_set 0 = Ret crs 0
    ∧ http_reported probe_Compile probe_Verify (probe_http []) probe_http_clock probe_response crs.
Proof.
  eexists. split; [reflexivity|].
  refine (proj2 (proj2 (http_report_spec probe_Compile probe_Find probe_Verify "" probe_Find_whole
    (probe_http []) probe_http_clock probe_response ∅ probe_set 0 _ 0 eq_refl _ eq_refl)) eq_refl).
  by cbn.
Defined.

(** ** Connections *)
Definition probe_dialer : dialer := {|
  DialViaProxy := λ _ _, inl OtherConn; tls_Dial := λ _ _, None; net_Dial := λ _ _, None
|}.
#[local] Instance probe_session : PollerSession unit := {|
  session_GetClockOffset := λ _, 0%Z; session_GetLatency := λ _, 0%Z;
  session_HasLatencyMeasurements := λ _, false; session_Close := id
|}.

Definition probe_new : EleConnection unit :=
  NewConnection "endpoint:443" "guid" {| attempts := 0; connections := 0; disconnects := 0 |}.

Lemma deadlines_need_tcp_witness :
  ∃ c, Connect probe_dialer () (Some []) None true probe_new = Ret None c ∧ SetReadDeadline 99 c = Ret () c.
Proof.
  eexists. split; [reflexivity|].
  destruct (deadlines_need_tcp probe_dialer () [] None true probe_new _ 99 eq_refl)
    as (socket & _ & Ht & _ & Hno).
  apply Hno. by rewrite Ht.
Defined.

(** ** The timer of a check: every minute, runs of two seconds, done after two
    minutes and a half. *)
Definition probe_loop : loop_env := {|
  le_rand := 999; le_done := Some (150 * Second)%Z; le_took := λ _, (2 * Second)%Z;
  le_pick_timer := λ _, true
|}.

Lemma check_loop_spec_witness :
  let ch := PingCheck probe_base one_ping in
  runCheckTimerLoop probe_loop ch 3 0 = ([61 * Second; 123 * Second], Some (150 * Second))%Z
  ∧ spaced probe_loop (60 * Second) (1 * Second) 0 (runCheckTimerLoop probe_loop ch 3 0).1.
Proof.
  cbv zeta. split; [vm_compute; reflexivity|].
  destruct (check_loop_spec probe_loop (PingCheck probe_base one_ping) 3 0) as (_ & Hs & _).
  - split; [done|]. intros k. by vm_compute.
  - by vm_compute.
  - exact Hs.
Defined.
